(* ===== verification/_CoqProject ===== *)
-Q . S2P
Prelude.v
Float64.v
Types.v
Config.v
CallState.v
Crypto.v
Base64.v
Rfc4648.v
ProxyToken.v
Moq.v
RustStr.v
RustNet.v
Tls.v
Masque.v
RateLimit.v
RateLimitFloat.v
Lru.v
Wire.v
Jwt.v
Server.v
Session.v
Rest.v
NatProbe.v
NatStatistics.v
Proxy.v
Audio.v
Pipeline.v
Media.v
Codec.v
DhtRecord.v
Discovery.v
Node.v
NodeLiveness.v
NodeHistory.v
Probe.v
Connection.v
Manager.v
SessionStore.v
Resumption.v
Client.v
Ffi.v
PushRetry.v
PeerCache.v
Bridge.v
Cli.v
CliMain.v
Migration.v
QuicProbe.v
Deployment.v
HttpClient.v
ProxyServer.v
SessionTasks.v
Runtime.v
ServerTasks.v
TaskLogic.v
Interleaving.v
Sequential.v
Concurrency.v
Stall.v
Exchange.v
UnitTest.v
TestsCore.v
TestsProxy.v
TestsClient.v
TestsSignaling.v
TestsDht.v
TestsIntegration.v
TestsMedia.v
TestsCli.v
