(* ===== verification/Prelude.v ===== *)
(** * Three Pillars VoIP: a verification library

    Three Pillars VoIP is a peer-to-peer voice system in Rust: crates [voip-core] (types,
    configuration, call state machine, keys), [voip-signaling] (the server through which peers
    find each other and set up calls), [voip-dht] (records and discovery over a hash table),
    [voip-client] (NAT probing, connection establishment, media and relaying), [voip-ffi] (the
    object that mobile applications hold) and [voip-cli].  This library translates them into
    Rocq definitions and proves how they behave.

    ** How the parts interact

    A user's identity is a key pair ([Crypto], [Cli]).  The client learns how its NAT maps
    ports from probes that the server answers ([QuicProbe], [NatProbe]), publishes a signed
    record ([DhtRecord], [Discovery], through the node of [Node]) or registers with the server
    ([Deployment] is the running server: the router in front of [Jwt] and [Rest], with the
    WebSocket sessions of [Session] and [SessionTasks], over the state in [Server]; [ServerTasks]
    are its handlers with the locks and channels they wait for), and receives a token ([Jwt]).
    A call runs through the state machine ([CallState]); the manager ([Manager]) probes and then
    makes the connection directly, by predicted ports ([Probe]) or through a relay ([Connection],
    [Masque], [Tls], [Proxy], [ProxyServer], [ProxyToken]).  Audio then flows through the
    pipeline ([Audio], [Pipeline]) as media objects ([Moq]); [Media] puts sender, network and
    receiver together.  A change of network migrates the connection ([Migration]); failed calls are retried ([PushRetry]).  The
    command line client exchanges a message and an acknowledgement instead ([Exchange]).

    ** Files

    Shared:
    - [Prelude]: results with their bind, machine integers with both overflow behaviours,
      strings and bytes, big-endian numbers, stable sorting, reachability, tactics and hints.
    - [RustStr], [RustNet]: the parts of the Rust standard library the sources use: splitting,
      trimming, decimal and hexadecimal numbers, debug text, lossy UTF-8, the text form of IP and
      socket addresses and their parser.
    - [Float64]: IEEE doubles, as executable functions over the standard library's specification,
      with the cases in which they compute exactly or round faithfully.
    - [Lru], [Wire] ([Prost]), [Codec]: the interfaces of the [lru] and [prost] crates with their
      laws, and implementations that satisfy them.

    voip-core:
    - [Types] ([types.rs], [signaling.proto]): enumerations, their wire numbers, the records and
      their conversions.
    - [Config] ([config.rs], [error.rs]): configuration, retry delays, error classes.
    - [CallState] ([state.rs]): [CallStateMachine]; [CallOp] has one constructor per method
      that [apply] performs.
    - [Crypto] ([crypto.rs]): hex, peer identifiers, signing, over the interface [SigScheme].

    voip-signaling:
    - [RateLimit] ([rate_limit.rs]) with token counts in integers and [RateLimitFloat] with them in
      doubles, as the code has them; [Wire] and [Server] ([state.rs], [masque.rs], [push.rs]):
      [AppState] as the record [Server], each of its methods as a function on it.
    - [Session] ([session.rs]): a WebSocket session; [ws_open], [ws_receive] for one message and
      [ws_close], with one definition per handler.  [SessionTasks]: the two tasks of a session
      with the idle timer and the flag they share, as a step relation.
    - [Jwt] ([jwt.rs], [auth.rs], the routes of [server.rs]), [Rest] ([handlers.rs]).
    - [Deployment] ([server.rs], [main.rs], the read-only handlers): the builder, the server that
      the binary starts, and [http_handle], the router with its middleware; [deploy_step] is
      everything that can happen to that server.
    - [QuicProbe] ([quic_probe.rs]).
    - [ServerTasks] ([session.rs], [state.rs], [masque.rs], [push.rs], [handlers.rs] again): every
      handler as a task with each of its awaits, on the machine of [Runtime] (exclusive locks,
      bounded channels, sockets); [sys_step] is one operation of one task or an event from
      outside.  [TaskLogic] is a logic for such tasks, [Interleaving] the proof that the handlers
      follow it, [Sequential] their agreement with [Session], and [Concurrency] and [Stall] what
      follows.

    voip-dht:
    - [DhtRecord] ([record.rs], [error.rs]), [Discovery] ([discovery.rs], against the interface
      [DhtNet]), [Node] ([node.rs]): commands, event loop and answers as a step relation, and the
      node as an instance of [DhtNet] over a Kademlia behaviour; [NodeLiveness]: the infinite runs
      of its event loop; [NodeHistory]: its executions with the queries and reports recorded.

    voip-client, voip-ffi and voip-cli:
    - [NatProbe] ([nat_probe.rs]) with [NatStatistics] on its doubles, [Probe] ([probe.rs]), [Connection] and [Manager]
      ([connection.rs]), [Migration] ([migration.rs]), [SessionStore] and [Resumption]
      ([session_store.rs]),
      [PeerCache] ([peer_cache.rs]), [PushRetry] ([push_retry.rs]), [Client] ([client.rs]), [Ffi]
      ([voip-ffi/src/lib.rs]), [HttpClient] ([signaling_client.rs]).
    - [Moq] ([moq.rs]), [Audio] ([audio.rs]), [Pipeline] ([pipeline.rs]), [Tls] ([tls.rs]), [Masque]
      ([masque.rs]), [Base64], [ProxyToken], [Proxy] and [ProxyServer] ([proxy.rs]); [Rfc4648] is
      the reference that the base64 encoders are compared with.
    - [Media]: two endpoints, each a pipeline with its MoQ session.
    - [Cli] ([identity.rs], [commands.rs], [peer.rs]), [CliMain] ([main.rs]: the subcommands, their
      dispatch and sequences of command lines, a panic being an outcome), [Exchange] (the
      streams of [commands.rs] and the accept loop of [peer.rs], any of whose I/O may fail), [Bridge] ([scripts/udp_tcp_bridge.py]).

    Tests:
    - [UnitTest]: a [#[test]] function as a named proposition; [TestsCore], [TestsProxy],
      [TestsClient], [TestsSignaling], [TestsDht], [TestsIntegration], [TestsMedia] and [TestsCli]
      hold the repository's test suites, each with a lemma that all of it passes.  Tests without
      randomness are evaluated; tests that draw keys or read the clock are proved for all of
      them, and a test that expects a wrong key or a changed byte to be refused takes the
      scheme's refusal as its hypothesis.

    ** Conventions

    Fallible code returns [result]; an [option] around it is a panic ([None]).  Arithmetic that
    can overflow takes an [overflow_mode]: [Checked] for a build that panics, [Wrapping] for one
    that wraps; theorems that name no mode hold in both.  Times are arguments.  Shared state is
    passed explicitly; where tasks race or a lock can block, the order of events is an argument
    or a step relation, or the result says so ([Outcome]).  Floating-point numbers are doubles
    where the code computes with them.  Code outside the repository enters
    as a class of operations ([SigScheme], [Prost], [Lru], [JsonClaims], [Opus], [Sha256],
    [Kademlia], [Rustls], [Reqwest], ...) and a class of laws it documents; every law class has an
    instance in this library.

    ** What is proved

    - System level: [connection_chain] (when each connection method is used),
      [probed_manager_connects] (from a probe to a direct connection),
      [migrated_peer_reachable] (from a network change to a connection on the predicted port),
      [audio_reaches_receiver] (from spoken frames to the other side's buffer),
      [cli_call_reaches_listener] and [calls_acknowledged] (from key generation to a call and its
      acknowledgement, whichever streams fail), [cli_directory_is_key_pair] (what the files of a
      user stand for through any command lines, and when one panics), [publish_then_discover] (a
      published record is found wherever the network returns its bytes),
      [signaling_fallback_unauthorized].
    - The deployed server: [http_access_control] (who may change what through HTTP),
      [deployed_server_never_relays] and [server_registry_invariant] (invariants of every run),
      [ws_cleanup_once] (the end of a session), [calls_access_control] and [call_lifecycle].
    - The server under every interleaving of its tasks: the rules about calls hold at each step
      ([interleaved_access_control]); while clients read, every request is served after a bounded
      number of steps ([requests_complete]); a task that runs alone is the handler of [Session]
      ([lone_frame_is_handler]); but a client that stops reading and then fails halts the server
      for good ([failed_reader_halts_server]).
    - Call control: the state machine refines the documented diagram and terminates; the
      exported object refines a phone of four phases ([ffi_object_is_phone]); every request to
      the hash table node is answered once ([node_answers_once]), by the first report on its own
      query ([node_answers_own_query]), and at some time ([node_eventually_answers]), in runs in which the loop does not stop, takes a queued
      command if one waits, and every query of Kademlia reports in the end.
    - Security: tokens and records are signed over an injective encoding, are accepted when
      issued, decode to well-typed values only ([decoded_token_typed]), and JWTs are accepted
      only when signed by the server and within their lifetime.
    - Codecs: MoQ datagrams and varints, H2 capsules, probe responses, bridge frames and the
      replies to their senders; the three base64 encoders print the symbols of the bit-group
      definition of the RFC ([base64_encoders_equal_rfc]).
    - Relays: the order in which proxies are tried after a failure ([recovery_order_correct]).
    - Media: the jitter buffer plays exactly what arrived, in order; MoQ sessions complete
      their handshake and keep their invariant.
    - Numbers: the limiter in doubles answers as the one in integers ([f64_limiter_counts_integers]),
      and the deviation that classifies a NAT, with its division, root and cast, compares as its
      definition in integers ([classification_in_integers]).
    - Bounds: token buckets (which neither exceed their rate nor starve), relay averages, ticket
      lifetimes, retry schedules.
    - Failures that the code has are theorems or lemmas as well, e.g.
      [proxy_never_opens_session], [client_reads_no_list], [release_http2_refused],
      [simultaneous_open_panics], [quick_refresh_deadlocks], [reused_identifier_race].

    ** Fuel

    Functions whose recursion is not structural take fuel that their callers compute from the
    input: [parse_path_probe_response] one unit per byte, [receive_stream] one more than the
    bytes, [wait_for_path_validation] two more than the checks before the deadline, [decimal]
    twenty digits for 64 bits.  Theorems show that the fuel suffices
    ([path_probe_reflects_address], [bridge_preserves_datagrams]).  [parse_loop] in a wrapping
    build is the exception: [probe_response_loops] shows that it may not end.  Tasks need no fuel:
    the code of a handler is a finite tree, and [RECEIVE_COST], [FORWARD_COST] and [SEND_COST]
    bound its steps.

    ** Not modelled

    Audio devices and the Opus codec itself, the Kademlia protocol, HTTP, TLS and QUIC
    transport, the scheduling of tokio (any task that can run may run next, and a lock goes to
    any task that waits for it), ACME (which the source does not implement), OpenAPI documents, argument parsing,
    file permissions, signals, logging and the mobile placeholders: they are library calls or
    I/O, and their results are arguments of the definitions that use them.  Getters that return
    a field are the projections of the records.  Of the tests: those that compare two random
    values, those that measure the sound and size of what Opus produces, and [ping_pong.rs], which
    starts the binaries as processes and makes the run that [Cli] and [Exchange] describe.
    [internal.proto] declares messages that no code uses.

    ** Next

    - Clients of [voip-client] and the event loop of one [Node] as tasks of the same machine.
    - Relay sessions end to end, once the proxy creates them. *)

From Stdlib Require Export ZArith Lia Ascii.
From stdpp Require Export sorting base numbers gmap strings list.

Local Open Scope Z_scope.

Declare Scope rust_scope.
Delimit Scope rust_scope with rust.

(** ** Results

    Rust's [Result<T, E>], with the [?] operator as a bind. *)

Inductive result (E A : Type) : Type :=
| Ok (a : A)
| Err (e : E).

Arguments Ok {E A} a.
Arguments Err {E A} e.

Definition result_bind {E A B : Type} (r : result E A) (k : A -> result E B) : result E B :=
  match r with
  | Ok a => k a
  | Err e => Err e
  end.

Definition map_err {E E' A : Type} (f : E -> E') (r : result E A) : result E' A :=
  match r with
  | Ok a => Ok a
  | Err e => Err (f e)
  end.

Definition ok_or {E A : Type} (o : option A) (e : E) : result E A :=
  match o with
  | Some a => Ok a
  | None => Err e
  end.

Definition is_ok {E A : Type} (r : result E A) : bool :=
  match r with Ok _ => true | Err _ => false end.

Notation "'let?' x ':=' r 'in' k" :=
  (result_bind r (fun x => k))
  (at level 200, x pattern, r at level 100, k at level 200, right associativity) : rust_scope.

Notation "'let?o' x ':=' o 'in' k" :=
  (match o with Some x => k | None => None end)
  (at level 200, x pattern, o at level 100, k at level 200, right associativity) : rust_scope.

(** ** Machine integers

    A value of width [w] is a [Z] in [0, 2^w).  Arithmetic that may leave the
    range goes through [arith], which panics ([None]) when overflow checks are
    on (a debug build) and wraps when they are off (a release build). *)

Inductive overflow_mode := Checked | Wrapping.

Definition in_width (w x : Z) : bool := (0 <=? x) && (x <? 2 ^ w).

Definition arith (m : overflow_mode) (w x : Z) : option Z :=
  if in_width w x then Some x
  else match m with
       | Checked => None
       | Wrapping => Some (x mod 2 ^ w)
       end.

(** Rust's [as uN] cast between integer types. *)
Definition cast (w x : Z) : Z := x mod 2 ^ w.

(** Rust's [as i32] cast. *)
Definition cast_i32 (x : Z) : Z := (x + 2 ^ 31) mod 2 ^ 32 - 2 ^ 31.

Definition saturating_sub (a b : Z) : Z := Z.max 0 (a - b).
Definition saturating_add (w a b : Z) : Z := Z.min (2 ^ w - 1) (a + b).

Definition u16_max : Z := 65535.
Definition u32_max : Z := 4294967295.
Definition u64_max : Z := 18446744073709551615.

Definition byte_ok (b : Z) : Prop := 0 <= b < 256.
Abbreviation bytes_ok := (Forall byte_ok).

(** ** Strings as byte sequences

    A Rust [String] is its UTF-8 bytes; a Rocq [string] is a sequence of 8-bit
    characters, which are those bytes. *)

Fixpoint as_bytes (s : string) : list Z :=
  match s with
  | EmptyString => []
  | String c s' => Z.of_N (N_of_ascii c) :: as_bytes s'
  end.

Definition char_of_byte (b : Z) : ascii := ascii_of_N (Z.to_N b).

Fixpoint string_of_bytes (l : list Z) : string :=
  match l with
  | [] => EmptyString
  | b :: l' => String (char_of_byte b) (string_of_bytes l')
  end.

Definition str_len (s : string) : Z := Z.of_nat (length (as_bytes s)).

(** [String::from_utf8]: the well-formed sequences of the UTF-8 table. *)
Definition utf8_cont (b : Z) : bool := (128 <=? b) && (b <=? 191).

Fixpoint utf8_valid (l : list Z) : bool :=
  match l with
  | [] => true
  | b0 :: l1 =>
      if b0 <? 128 then utf8_valid l1
      else
        match l1 with
        | [] => false
        | b1 :: l2 =>
            if (194 <=? b0) && (b0 <=? 223) then utf8_cont b1 && utf8_valid l2
            else
              match l2 with
              | [] => false
              | b2 :: l3 =>
                  if b0 =? 224 then (160 <=? b1) && (b1 <=? 191) && utf8_cont b2 && utf8_valid l3
                  else if b0 =? 237 then (128 <=? b1) && (b1 <=? 159) && utf8_cont b2 && utf8_valid l3
                  else if (225 <=? b0) && (b0 <=? 239) then utf8_cont b1 && utf8_cont b2 && utf8_valid l3
                  else
                    match l3 with
                    | [] => false
                    | b3 :: l4 =>
                        if b0 =? 240
                        then (144 <=? b1) && (b1 <=? 191) && utf8_cont b2 && utf8_cont b3 && utf8_valid l4
                        else if (241 <=? b0) && (b0 <=? 243)
                        then utf8_cont b1 && utf8_cont b2 && utf8_cont b3 && utf8_valid l4
                        else if b0 =? 244
                        then (128 <=? b1) && (b1 <=? 143) && utf8_cont b2 && utf8_cont b3 && utf8_valid l4
                        else false
                    end
              end
        end
  end.

Definition from_utf8 (l : list Z) : option string :=
  if utf8_valid l then Some (string_of_bytes l) else None.

(** What every Rust [String] satisfies. *)
Definition rust_string (s : string) : Prop := utf8_valid (as_bytes s) = true.

(** [Vec::len] as an integer. *)
Definition zlen {A : Type} (l : list A) : Z := Z.of_nat (length l).

(** Slices [l[a..b]] of a vector; [None] where Rust panics. *)
Definition slice {A : Type} (l : list A) (a b : Z) : option (list A) :=
  if (0 <=? a) && (a <=? b) && (b <=? zlen l)
  then Some (take (Z.to_nat (b - a)) (drop (Z.to_nat a) l))
  else None.

(** ** Big-endian integers: [to_be_bytes] / [from_be_bytes] *)

Fixpoint to_be (n : nat) (x : Z) : list Z :=
  match n with
  | O => []
  | S n' => (x / 2 ^ (8 * Z.of_nat n')) mod 256 :: to_be n' x
  end.

Fixpoint from_be_acc (acc : Z) (l : list Z) : Z :=
  match l with
  | [] => acc
  | b :: l' => from_be_acc (acc * 256 + b) l'
  end.

Definition from_be (l : list Z) : Z := from_be_acc 0 l.

(** ** Stable sorting: [sort_by_key]

    [slice::sort_by] is stable, so any stable sort computes its result;
    inserting the elements from the last one, each before the
    elements with an equal key, is the simplest one. *)

Section SortByKey.
Context {A : Type} (key : A -> Z).

Fixpoint insert_by_key (x : A) (l : list A) : list A :=
  match l with
  | [] => [x]
  | y :: l' => if key x <=? key y then x :: y :: l' else y :: insert_by_key x l'
  end.

Fixpoint sort_by_key (l : list A) : list A :=
  match l with
  | [] => []
  | x :: l' => insert_by_key x (sort_by_key l')
  end.

Definition key_le (x y : A) : Prop := key x <= key y.
End SortByKey.

(** [Iterator::min_by_key] keeps the first of several minimal elements. *)
Fixpoint min_by_key {A : Type} (key : A -> Z) (l : list A) : option A :=
  match l with
  | [] => None
  | x :: l' =>
      match min_by_key key l' with
      | None => Some x
      | Some y => if key x <=? key y then Some x else Some y
      end
  end.

(** ** Time

    [Instant] is a number of nanoseconds on a monotonic clock; the current time is an
    argument of every operation that reads it. *)

Definition NS_PER_SEC : Z := 1000000000.
Definition NS_PER_MS : Z := 1000000.

Definition elapsed (now t : Z) : Z := saturating_sub now t.
Definition elapsed_secs (now t : Z) : Z := elapsed now t / NS_PER_SEC.

(** ** Reachability

    A component that changes state in discrete steps is a relation
    [step : S -> S -> Prop]; [reachable] closes it from the initial states. *)

Section Reachability.
Context {S : Type} (init : S -> Prop) (step : S -> S -> Prop).

Inductive reachable : S -> Prop :=
| reachable_init s : init s -> reachable s
| reachable_step s s' : reachable s -> step s s' -> reachable s'.

Lemma reachable_invariant (I : S -> Prop) :
  (forall s, init s -> I s) ->
  (forall s s', I s -> step s s' -> I s') ->
  forall s, reachable s -> I s.
Proof. intros Hi Hs s Hr. induction Hr; eauto. Qed.
End Reachability.

(** ** Tactics and hint databases *)

(** Turn boolean tests in the context into propositions. *)
Ltac bool_to_prop :=
  repeat match goal with
  | H : andb _ _ = true |- _ => apply andb_prop in H; destruct H
  | H : orb _ _ = false |- _ => apply orb_false_elim in H; destruct H
  | H : negb _ = true |- _ => apply negb_true_iff in H
  | H : negb _ = false |- _ => apply negb_false_iff in H
  | H : (_ <=? _) = true |- _ => apply Z.leb_le in H
  | H : (_ <=? _) = false |- _ => apply Z.leb_gt in H
  | H : (_ <? _) = true |- _ => apply Z.ltb_lt in H
  | H : (_ <? _) = false |- _ => apply Z.ltb_ge in H
  | H : (_ =? _) = true |- _ => apply Z.eqb_eq in H
  | H : (_ =? _) = false |- _ => apply Z.eqb_neq in H
  | H : bool_decide _ = true |- _ => apply bool_decide_eq_true in H
  | H : bool_decide _ = false |- _ => apply bool_decide_eq_false in H
  end.

(** Case on the scrutinee of the first [match]/[if] of the goal. *)
Ltac case_goal :=
  match goal with
  | |- context [match ?x with _ => _ end] =>
      lazymatch x with
      | context [match _ with _ => _ end] => fail
      | _ => let E := fresh "E" in destruct x eqn:E
      end
  end.

(** Case on the scrutinee of a [match] in [H]. *)
Ltac case_in H :=
  match type of H with
  | context [match ?x with _ => _ end] =>
      lazymatch x with
      | context [match _ with _ => _ end] => fail
      | _ => let E := fresh "E" in destruct x eqn:E
      end
  end.

Create HintDb voip discriminated.
Create Rewrite HintDb voip_rw.

(** ** Lemmas on integers *)

Lemma in_width_spec w x : in_width w x = true <-> 0 <= x < 2 ^ w.
Proof. unfold in_width. rewrite andb_true_iff, Z.leb_le, Z.ltb_lt. lia. Qed.

Lemma arith_in_range m w x : 0 <= x < 2 ^ w -> arith m w x = Some x.
Proof. intros H. unfold arith. by rewrite (proj2 (in_width_spec w x) H). Qed.

Lemma arith_range m w x y : 0 <= w -> arith m w x = Some y -> 0 <= y < 2 ^ w.
Proof.
  intros Hw. unfold arith. destruct (in_width w x) eqn:E; intros H.
  - apply in_width_spec in E. by simplify_eq.
  - destruct m; simplify_eq. apply Z.mod_pos_bound. lia.
Qed.

Lemma cast_small w x : 0 <= x < 2 ^ w -> cast w x = x.
Proof. apply Z.mod_small. Qed.

Lemma cast_i32_small x : - 2 ^ 31 <= x < 2 ^ 31 -> cast_i32 x = x.
Proof. intros H. unfold cast_i32. rewrite Z.mod_small; lia. Qed.

Lemma lor_shiftl_add a b n :
  0 <= n -> 0 <= b < 2 ^ n -> Z.lor (Z.shiftl a n) b = a * 2 ^ n + b.
Proof.
  intros Hn Hb. rewrite Z.shiftl_mul_pow2 by lia.
  rewrite <- Z.lxor_lor, <- Z.add_nocarry_lxor; [done| |].
  all: apply Z.bits_inj'; intros i Hi; rewrite Z.land_spec, Z.bits_0;
    destruct (Z.lt_ge_cases i n);
    [by rewrite Z.mul_pow2_bits_low|
     rewrite andb_comm, <- (Z.mod_small b (2 ^ n)), Z.mod_pow2_bits_high by lia; done].
Qed.

Lemma land_ones_mod a n : 0 <= n -> Z.land a (Z.ones n) = a mod 2 ^ n.
Proof. apply Z.land_ones. Qed.

(** A property of the integers of a concrete interval, by enumeration. *)
Lemma Z_interval_ind (P : Z -> Prop) lo n :
  Forall P (seqZ lo n) -> forall i, lo <= i < lo + n -> P i.
Proof. intros H i Hi. eapply Forall_forall in H; [exact H|]. by apply elem_of_seqZ. Qed.

(** ** Lemmas on strings *)

Lemma as_bytes_ok s : bytes_ok (as_bytes s).
Proof.
  induction s as [|c s IH]; simpl; constructor; [|done].
  unfold byte_ok. pose proof (N_ascii_bounded c). lia.
Qed.

Lemma string_of_as_bytes s : string_of_bytes (as_bytes s) = s.
Proof.
  induction s as [|c s IH]; simpl; [done|].
  unfold char_of_byte. by rewrite N2Z.id, ascii_N_embedding, IH.
Qed.

Lemma as_bytes_of_bytes l : bytes_ok l -> as_bytes (string_of_bytes l) = l.
Proof.
  induction 1 as [|b l Hb _ IH]; simpl; [done|].
  unfold char_of_byte, byte_ok in *.
  rewrite N_ascii_embedding by lia. rewrite Z2N.id by lia. by rewrite IH.
Qed.

Lemma as_bytes_inj s1 s2 : as_bytes s1 = as_bytes s2 -> s1 = s2.
Proof. intros H. by rewrite <- (string_of_as_bytes s1), H, string_of_as_bytes. Qed.

Lemma as_bytes_app s1 s2 : as_bytes (s1 +:+ s2) = as_bytes s1 ++ as_bytes s2.
Proof. induction s1 as [|c s1 IH]; simpl; [done|]. by rewrite IH. Qed.

Lemma string_of_bytes_app l1 l2 :
  string_of_bytes (l1 ++ l2) = string_of_bytes l1 +:+ string_of_bytes l2.
Proof. induction l1 as [|b l1 IH]; simpl; [done|]. by rewrite IH. Qed.

#[export] Hint Resolve as_bytes_ok : voip.
#[export] Hint Rewrite as_bytes_app string_of_as_bytes : voip_rw.

Lemma from_utf8_as_bytes s : rust_string s -> from_utf8 (as_bytes s) = Some s.
Proof. unfold rust_string, from_utf8. intros ->. by rewrite string_of_as_bytes. Qed.

Lemma bytes_ok_app l1 l2 : bytes_ok l1 -> bytes_ok l2 -> bytes_ok (l1 ++ l2).
Proof. intros. by apply Forall_app. Qed.

#[export] Hint Resolve bytes_ok_app : voip.

Lemma zlen_app {A} (l1 l2 : list A) : zlen (l1 ++ l2) = zlen l1 + zlen l2.
Proof. unfold zlen. rewrite length_app. lia. Qed.

Lemma zlen_cons {A} (x : A) l : zlen (x :: l) = 1 + zlen l.
Proof. unfold zlen. simpl length. lia. Qed.

Lemma zlen_nonneg {A} (l : list A) : 0 <= zlen l.
Proof. unfold zlen. lia. Qed.

Lemma filter_all {A} (P : A -> Prop) `{forall x, Decision (P x)} l :
  Forall P l -> filter P l = l.
Proof. induction 1; simpl; [done|]. rewrite filter_cons_True by done. by f_equal. Qed.

Lemma slice_app_mid {A} (l1 l2 l3 : list A) a b :
  a = zlen l1 -> b = zlen l1 + zlen l2 ->
  slice (l1 ++ l2 ++ l3) a b = Some l2.
Proof.
  intros -> ->. unfold slice. rewrite !zlen_app.
  pose proof (zlen_nonneg l1). pose proof (zlen_nonneg l2). pose proof (zlen_nonneg l3).
  rewrite !(proj2 (Z.leb_le _ _)) by lia. simpl. f_equal.
  replace (Z.to_nat (zlen l1)) with (length l1) by (unfold zlen; lia).
  rewrite drop_app_length.
  replace (Z.to_nat _) with (length l2) by (unfold zlen; lia).
  by rewrite take_app_length.
Qed.

(** ** Lemmas on big-endian integers *)

Lemma length_to_be n x : length (to_be n x) = n.
Proof. induction n; simpl; congruence. Qed.

Lemma to_be_ok n x : bytes_ok (to_be n x).
Proof.
  induction n; simpl; constructor; [|done].
  unfold byte_ok. apply Z.mod_pos_bound. lia.
Qed.

#[export] Hint Resolve to_be_ok : voip.

Lemma from_be_acc_to_be n x acc :
  from_be_acc acc (to_be n x) = acc * 2 ^ (8 * Z.of_nat n) + x mod 2 ^ (8 * Z.of_nat n).
Proof.
  revert acc. induction n as [|n IH]; intros acc; simpl to_be; simpl from_be_acc.
  - replace (8 * Z.of_nat 0) with 0 by lia. rewrite Z.mod_1_r. lia.
  - rewrite IH. set (p := 2 ^ (8 * Z.of_nat n)).
    assert (0 < p) by (apply Z.pow_pos_nonneg; lia).
    replace (2 ^ (8 * Z.of_nat (S n))) with (p * 256)
      by (unfold p; replace (8 * Z.of_nat (S n)) with (8 * Z.of_nat n + 8) by lia;
          rewrite Z.pow_add_r by lia; lia).
    rewrite (Z.rem_mul_r x p 256) by lia. lia.
Qed.

(** Decoding the big-endian bytes of [x] gives [x] modulo the width. *)
Lemma from_be_to_be n x : from_be (to_be n x) = x mod 2 ^ (8 * Z.of_nat n).
Proof. unfold from_be. rewrite from_be_acc_to_be. lia. Qed.

Lemma from_be_to_be_small n x :
  0 <= x < 2 ^ (8 * Z.of_nat n) -> from_be (to_be n x) = x.
Proof. intros H. rewrite from_be_to_be. by apply Z.mod_small. Qed.

Lemma from_be_acc_range l acc : bytes_ok l -> 0 <= acc ->
  acc * 2 ^ (8 * zlen l) <= from_be_acc acc l < (acc + 1) * 2 ^ (8 * zlen l).
Proof.
  intros Hl. revert acc. induction Hl as [|b l Hb Hl IH]; intros acc Ha.
  { unfold zlen. cbn. lia. }
  cbn [from_be_acc]. unfold byte_ok in Hb. specialize (IH (acc * 256 + b) ltac:(lia)).
  replace (8 * zlen (b :: l)) with (8 + 8 * zlen l) by (unfold zlen; cbn [length]; lia).
  rewrite Z.pow_add_r by (unfold zlen; lia). change (2 ^ 8) with 256.
  assert (0 < 2 ^ (8 * zlen l)) by (apply Z.pow_pos_nonneg; unfold zlen; lia). nia.
Qed.

(** An integer read from [n] bytes has [8 n] bits. *)
Lemma from_be_range l n : bytes_ok l -> zlen l = n -> 0 <= from_be l < 2 ^ (8 * n).
Proof. intros Hl <-. pose proof (from_be_acc_range l 0 Hl). unfold from_be. lia. Qed.

Lemma filter_ext_in {A} (P Q : A -> Prop) `{!forall x, Decision (P x), !forall x, Decision (Q x)} (l : list A) :
  (forall x, x ∈ l -> P x <-> Q x) -> filter P l = filter Q l.
Proof.
  induction l as [|x l IH]; intros Hpq; [done|]. rewrite !filter_cons.
  rewrite (IH ltac:(set_solver)). pose proof (Hpq x ltac:(set_solver)). repeat case_decide; tauto.
Qed.

Lemma slice_Some {A} (l r : list A) a b : slice l a b = Some r ->
  0 <= a <= b /\ b <= zlen l /\ zlen r = b - a /\ r ⊆+ l.
Proof.
  unfold slice. destruct ((0 <=? a) && (a <=? b) && (b <=? zlen l)) eqn:E; [|done].
  intros [= <-]. bool_to_prop. split; [lia|]. split; [lia|]. split.
  - unfold zlen in *. rewrite length_take, length_drop. lia.
  - apply sublist_submseteq. etransitivity; [apply sublist_take|apply sublist_drop].
Qed.

Lemma bytes_ok_submseteq l k : l ⊆+ k -> bytes_ok k -> bytes_ok l.
Proof.
  rewrite !Forall_forall. intros Hs Hk b Hb. eauto using elem_of_submseteq.
Qed.

Lemma to_be_inj n x y :
  0 <= x < 2 ^ (8 * Z.of_nat n) -> 0 <= y < 2 ^ (8 * Z.of_nat n) ->
  to_be n x = to_be n y -> x = y.
Proof.
  intros Hx Hy H. rewrite <- (from_be_to_be_small n x Hx), H.
  by apply from_be_to_be_small.
Qed.

(** ** Lemmas on stable sorting *)

Section SortByKeyFacts.
Context {A : Type} (key : A -> Z).

Lemma insert_by_key_perm x l : insert_by_key key x l ≡ₚ x :: l.
Proof.
  induction l as [|y l IH]; simpl; [done|].
  destruct (key x <=? key y); [done|]. rewrite IH. apply Permutation_swap.
Qed.

Lemma sort_by_key_perm l : sort_by_key key l ≡ₚ l.
Proof. induction l as [|x l IH]; simpl; [done|]. by rewrite insert_by_key_perm, IH. Qed.

Lemma insert_by_key_sorted x l :
  StronglySorted (key_le key) l -> StronglySorted (key_le key) (insert_by_key key x l).
Proof.
  induction 1 as [|y l Hs IH Hy]; simpl; [repeat constructor|].
  destruct (key x <=? key y) eqn:E; bool_to_prop.
  - constructor; [by constructor|]. constructor; [done|].
    eapply Forall_impl; [exact Hy|]. unfold key_le. intros; lia.
  - constructor; [done|]. rewrite insert_by_key_perm. constructor; [|done].
    unfold key_le. lia.
Qed.

Lemma sort_by_key_sorted l : StronglySorted (key_le key) (sort_by_key key l).
Proof. induction l; simpl; [constructor|]. by apply insert_by_key_sorted. Qed.

(** Elements with the same key keep their order. *)
Lemma insert_by_key_stable k x l :
  filter (fun y => key y = k) (insert_by_key key x l) =
  filter (fun y => key y = k) (x :: l).
Proof.
  induction l as [|y l IH]; simpl; [done|].
  destruct (key x <=? key y) eqn:E; [done|]. bool_to_prop.
  rewrite filter_cons, IH, !filter_cons.
  do 2 case_decide; subst; try done; lia.
Qed.

Lemma sort_by_key_stable k l :
  filter (fun y => key y = k) (sort_by_key key l) = filter (fun y => key y = k) l.
Proof.
  induction l as [|x l IH]; simpl; [done|].
  by rewrite insert_by_key_stable, !filter_cons, IH.
Qed.

Lemma min_by_key_In l x : min_by_key key l = Some x -> x ∈ l.
Proof.
  revert x; induction l as [|y l IH]; intros x; simpl; [done|].
  destruct (min_by_key key l) as [z|] eqn:E; [|intros; simplify_eq; set_solver].
  destruct (key y <=? key z); intros; simplify_eq; set_solver.
Qed.

Lemma min_by_key_min l x : min_by_key key l = Some x -> Forall (fun y => key x <= key y) l.
Proof.
  revert x; induction l as [|y l IH]; intros x; simpl; [done|].
  destruct (min_by_key key l) as [z|] eqn:E.
  - specialize (IH _ eq_refl).
    destruct (key y <=? key z) eqn:E2; intros; simplify_eq; bool_to_prop;
      constructor; try lia; [|done].
    eapply Forall_impl; [exact IH|]. simpl; intros; lia.
  - intros; simplify_eq. constructor; [lia|].
    destruct l; [constructor|]. simpl in E. by repeat case_match.
Qed.

Lemma min_by_key_None l : min_by_key key l = None -> l = [].
Proof. destruct l; simpl; [done|]. by repeat case_match. Qed.

(** A stable sort puts the first minimal element at the head. *)
Lemma head_sort_by_key l : head (sort_by_key key l) = min_by_key key l.
Proof.
  induction l as [|x l IH]; simpl; [done|]. rewrite <- IH.
  destruct (sort_by_key key l) as [|y l']; simpl; [done|].
  by destruct (key x <=? key y).
Qed.
End SortByKeyFacts.
