(* ===== verification/Float64.v ===== *)
(** * Double-precision numbers

    Rust's [f64] as the Standard Library's specification of IEEE 754 with 53 bits of precision and
    the exponents of 64-bit numbers.  The operations are those the sources use; every one is
    executable.  The facts are of two kinds: on integers below [2^53] the arithmetic is exact, and a
    quotient or a square root is never on the other side of a number that has a representation. *)

From Stdlib Require Import SpecFloat.
From S2P Require Import Prelude.

Local Open Scope Z_scope.

Abbreviation f64 := spec_float.

Definition PREC : Z := 53.
Definition EMAX : Z := 1024.

(** The [as f64] cast of an integer: the nearest number, ties to even. *)
Definition f64_of_Z (z : Z) : f64 := binary_normalize PREC EMAX z 0 false.

Definition f64_add : f64 -> f64 -> f64 := SFadd PREC EMAX.
Definition f64_sub : f64 -> f64 -> f64 := SFsub PREC EMAX.
Definition f64_mul : f64 -> f64 -> f64 := SFmul PREC EMAX.
Definition f64_div : f64 -> f64 -> f64 := SFdiv PREC EMAX.
Definition f64_sqrt : f64 -> f64 := SFsqrt PREC EMAX.

(** [x >= y], false where one is not a number. *)
Definition f64_ge (x y : f64) : bool := SFleb y x.

(** [f64::min]: the other operand where one is not a number. *)
Definition f64_min (x y : f64) : f64 :=
  match x, y with
  | S754_nan, _ => y
  | _, S754_nan => x
  | _, _ => if SFltb y x then y else x
  end.

(** The [as i32] cast: towards zero, saturating, zero for what is not a number. *)
Definition f64_to_i32 (x : f64) : Z :=
  match x with
  | S754_zero _ | S754_nan => 0
  | S754_infinity s => if s then - 2 ^ 31 else 2 ^ 31 - 1
  | S754_finite s m e =>
      let n := if 0 <=? e then Zpos m * 2 ^ e else Zpos m / 2 ^ (- e) in
      if s then Z.max (- 2 ^ 31) (- n) else Z.min (2 ^ 31 - 1) n
  end.

(** ** Digits and shifts *)

Abbreviation digits m := (Zpos (digits2_pos m)).

Lemma digits_bounds m : 2 ^ (digits m - 1) <= Zpos m < 2 ^ digits m.
Proof.
  induction m as [m IH|m IH|]; cbn [digits2_pos]; [rewrite (Pos2Z.inj_xI m)|rewrite (Pos2Z.inj_xO m)|done];
    rewrite Pos2Z.inj_succ, Z.pow_succ_r by lia;
    replace (2 ^ (Z.succ (digits m) - 1)) with (2 * 2 ^ (digits m - 1))
      by (rewrite <- Z.pow_succ_r by lia; f_equal; lia); lia.
Qed.

(** The number of digits is the only one with these bounds. *)
Lemma digits_unique m d : 0 < d -> 2 ^ (d - 1) <= Zpos m < 2 ^ d -> digits m = d.
Proof.
  intros Hd [Hl Hu]. pose proof (digits_bounds m) as [Hl' Hu'].
  assert (digits m - 1 < d) by (apply (Z.pow_lt_mono_r_iff 2); lia).
  assert (d - 1 < digits m) by (apply (Z.pow_lt_mono_r_iff 2); lia). lia.
Qed.

(** [m] shifted left by [k]. *)
Definition shl (m : positive) (k : Z) : positive := Z.to_pos (Zpos m * 2 ^ k).

Lemma shl_spec m k : 0 <= k -> Zpos (shl m k) = Zpos m * 2 ^ k.
Proof. intros Hk. unfold shl. apply Z2Pos.id. apply Z.mul_pos_pos; [done|]. apply Z.pow_pos_nonneg; lia. Qed.

Lemma digits_shl m k : 0 <= k -> digits (shl m k) = digits m + k.
Proof.
  intros Hk. apply digits_unique; [lia|]. rewrite shl_spec by done. destruct (digits_bounds m).
  replace (digits m + k - 1) with (digits m - 1 + k) by lia. rewrite !Z.pow_add_r by lia. nia.
Qed.

Lemma iter_xO m d : Zpos (Pos.iter xO m d) = Zpos m * 2 ^ Zpos d.
Proof.
  revert m. induction d as [|d IH] using Pos.peano_ind; intros m.
  - cbn. lia.
  - rewrite Pos.iter_succ, (Pos2Z.inj_xO (Pos.iter _ _ _)), IH, Pos2Z.inj_succ, Z.pow_succ_r by lia. lia.
Qed.

Lemma shl_align_spec m e e' : e' <= e -> shl_align m e e' = (shl m (e - e'), e').
Proof.
  intros He. unfold shl_align. destruct (e' - e) as [|d|d] eqn:E; [| lia |].
  - assert (e = e') as -> by lia. f_equal. apply Pos2Z.inj. rewrite shl_spec, Z.sub_diag by lia. lia.
  - f_equal. apply Pos2Z.inj. rewrite iter_xO, shl_spec by lia. f_equal. f_equal. lia.
Qed.

Lemma iter_pos_iter {A} (f : A -> A) n x : SpecFloat.iter_pos f n x = Pos.iter f x n.
Proof.
  revert x. induction n as [n IH|n IH|]; intros x; cbn [SpecFloat.iter_pos Pos.iter]; [| |done].
  - by rewrite !IH, <- !Pos.iter_swap.
  - by rewrite !IH.
Qed.

(** Whether bits were lost in a shift to the right. *)
Definition inexact (x : shr_record) : bool := shr_r x || shr_s x.

Lemma shr_1_spec x : 0 <= shr_m x ->
  shr_m (shr_1 x) = shr_m x / 2 /\ inexact (shr_1 x) = inexact x || Z.odd (shr_m x).
Proof.
  destruct x as [m r s]. cbn [shr_m]. intros Hm. rewrite <- Z.div2_div.
  destruct m as [|[m|m|]|m]; [..|lia]; cbn; unfold inexact; cbn; by destruct r, s.
Qed.

Lemma mod_pow_succ m n : 0 <= n -> (m mod 2 ^ Z.succ n =? 0) = (m / 2 ^ n mod 2 =? 0) && (m mod 2 ^ n =? 0).
Proof.
  intros Hn. rewrite Z.pow_succ_r, Z.mul_comm, Z.rem_mul_r by (try apply Z.pow_nonzero; lia).
  pose proof (Z.mod_pos_bound m (2 ^ n) ltac:(apply Z.pow_pos_nonneg; lia)).
  pose proof (Z.mod_pos_bound (m / 2 ^ n) 2 ltac:(lia)).
  assert (0 < 2 ^ n) by (apply Z.pow_pos_nonneg; lia).
  apply eq_true_iff_eq. rewrite andb_true_iff, !Z.eqb_eq. nia.
Qed.

Lemma iter_shr_spec x n : 0 <= shr_m x ->
  shr_m (Pos.iter shr_1 x n) = shr_m x / 2 ^ Zpos n /\
  inexact (Pos.iter shr_1 x n) = inexact x || negb (shr_m x mod 2 ^ Zpos n =? 0).
Proof.
  intros Hm. induction n as [|n [IHm IHi]] using Pos.peano_ind.
  - destruct (shr_1_spec x Hm) as [H1 H2]. cbn [Pos.iter]. rewrite H1, H2. split; [done|].
    f_equal. rewrite Zmod_odd. by destruct (Z.odd _).
  - rewrite !Pos.iter_succ, Pos2Z.inj_succ.
    destruct (shr_1_spec (Pos.iter shr_1 x n)) as [H1 H2].
    { rewrite IHm. apply Z.div_pos; [done|]. apply Z.pow_pos_nonneg; lia. }
    rewrite H1, H2, IHm, IHi. split.
    + rewrite Z.div_div by (try apply Z.pow_nonzero; lia). by rewrite Z.pow_succ_r, Z.mul_comm by lia.
    + rewrite mod_pow_succ, negb_andb, Zmod_odd by lia.
      by destruct (Z.odd (shr_m x / _)), (inexact x), (shr_m x mod _ =? 0).
Qed.

Lemma shr_spec x e n : 0 <= n -> 0 <= shr_m x ->
  let (x', e') := shr x e n in
  shr_m x' = shr_m x / 2 ^ n /\ inexact x' = inexact x || negb (shr_m x mod 2 ^ n =? 0) /\ e' = e + n.
Proof.
  intros Hn Hm. destruct n as [|n|n]; [| |lia]; cbn [shr].
  - rewrite Z.div_1_r, Z.mod_1_r, orb_false_r. split_and!; [done..|lia].
  - rewrite iter_pos_iter. destruct (iter_shr_spec x n Hm). by split_and!.
Qed.

(** ** Rounding

    The value of a positive number in units of [2^-1074], the smallest one. *)

Definition units (m : positive) (e : Z) : Z := Zpos m * 2 ^ (e + 1074).

(** The last step of rounding brings a carry back to 53 digits. *)
Lemma round_finish s mr e :
  2 ^ 52 <= mr <= 2 ^ 53 -> -1074 <= e <= 970 ->
  exists M E,
    (let '(x, e') := shr_fexp PREC EMAX mr e loc_Exact in
     match shr_m x with
     | Z0 => S754_zero s
     | Zpos m => if e' <=? EMAX - PREC then S754_finite s m e' else S754_infinity s
     | Zneg _ => S754_nan
     end) = S754_finite s M E /\
    digits M = 53 /\ e <= E /\ E <= e + 1 /\ units M E = mr * 2 ^ (e + 1074).
Proof.
  intros Hb He. destruct mr as [|p|p]; [lia| |lia]. unfold shr_fexp. cbn [Zdigits2].
  destruct (Z.eq_dec (Zpos p) (2 ^ 53)) as [Hp|Hp].
  - assert (digits p = 54) as Hd by (injection Hp as ->; reflexivity).
    rewrite Hd. replace (fexp PREC EMAX (54 + e) - e) with 1 by (unfold fexp, emin, PREC, EMAX; lia).
    injection Hp as ->. exists (2 ^ 52)%positive, (e + 1). cbn [shr SpecFloat.iter_pos shr_record_of_loc shr_1 shr_m].
    rewrite (proj2 (Z.leb_le (e + 1) (EMAX - PREC))) by (unfold EMAX, PREC; lia).
    split_and!; [done|done|lia|lia|]. unfold units.
    replace (e + 1 + 1074) with (Z.succ (e + 1074)) by lia. rewrite Z.pow_succ_r by lia. lia.
  - assert (digits p = 53) as Hd by (apply digits_unique; lia).
    rewrite Hd. replace (fexp PREC EMAX (53 + e) - e) with 0 by (unfold fexp, emin, PREC, EMAX; lia).
    exists p, e. cbn [shr shr_record_of_loc shr_m].
    rewrite (proj2 (Z.leb_le e (EMAX - PREC))) by (unfold EMAX, PREC; lia).
    split_and!; [done|done|lia|lia|done].
Qed.

(** A mantissa of 53 or more digits is rounded to one of the two neighbours that 53 digits can
    express, and to the lower one where that is the exact value. *)
Lemma round_aux_spec s q e l :
  53 <= digits q -> -1074 <= e -> digits q + e <= 1023 ->
  let n := digits q - 53 in
  let lo := Zpos q / 2 ^ n in
  exists M E, binary_round_aux PREC EMAX s (Zpos q) e l = S754_finite s M E /\
    digits M = 53 /\ e + n <= E /\ E <= e + n + 1 /\ 2 ^ 52 <= lo < 2 ^ 53 /\
    (units M E = lo * 2 ^ (e + n + 1074) \/
     units M E = (lo + 1) * 2 ^ (e + n + 1074) /\ (l = loc_Exact -> Zpos q mod 2 ^ n <> 0)).
Proof.
  intros Hd He Hmax. cbn zeta. set (n := digits q - 53). set (lo := Zpos q / 2 ^ n).
  assert (0 <= n) as Hn by (unfold n; lia).
  assert (2 ^ 52 <= lo < 2 ^ 53) as Hlo.
  { destruct (digits_bounds q) as [Hl Hu]. unfold lo.
    assert (0 < 2 ^ n) by (apply Z.pow_pos_nonneg; lia).
    split; [apply Z.div_le_lower_bound; [done|]|apply Z.div_lt_upper_bound; [done|]];
      rewrite <- Z.pow_add_r by lia; unfold n.
    - by replace (digits q - 53 + 52) with (digits q - 1) by lia.
    - by replace (digits q - 53 + 53) with (digits q) by lia. }
  unfold binary_round_aux, shr_fexp. cbn [Zdigits2].
  replace (fexp PREC EMAX (digits q + e) - e) with n
    by (unfold fexp, emin, PREC, EMAX, n; lia).
  pose proof (shr_spec (shr_record_of_loc (Zpos q) l) e n Hn) as Hshr.
  assert (shr_m (shr_record_of_loc (Zpos q) l) = Zpos q) as Hm0 by (by destruct l as [|[]]).
  assert (inexact (shr_record_of_loc (Zpos q) l) = match l with loc_Exact => false | _ => true end) as Hi0
    by (by destruct l as [|[]]).
  destruct (shr _ e n) as [x1 e1]. destruct Hshr as (Hm1 & Hi1 & ->); [by rewrite Hm0|].
  rewrite Hm0 in Hm1, Hi1. rewrite Hi0 in Hi1. fold lo in Hm1.
  set (mr := round_nearest_even _ _).
  assert (mr = lo \/ mr = lo + 1 /\ inexact x1 = true) as Hmr.
  { unfold mr. rewrite Hm1. destruct x1 as [? [] []]; cbn; unfold inexact; cbn; auto.
    destruct (Z.even lo); auto. }
  assert (mr = lo + 1 -> l = loc_Exact -> Zpos q mod 2 ^ n <> 0) as Hex.
  { intros Hup -> Hz. destruct Hmr as [|[_ Hi]]; [lia|]. rewrite Hi, Hz in Hi1. done. }
  destruct (round_finish s mr (e + n)) as (M & E & HR & HM & HE1 & HE2 & Hu); [lia..|].
  exists M, E. rewrite Hu. split; [exact HR|]. split_and!; try lia.
  destruct Hmr as [->|[-> _]]; [by left|right]. split; [done|]. by apply Hex.
Qed.

(** A number with 53 digits is determined by its value. *)
Lemma units_inj m e m' e' :
  digits m = 53 -> digits m' = 53 -> -1074 <= e -> -1074 <= e' ->
  units m e = units m' e' -> m = m' /\ e = e'.
Proof.
  assert (forall m e m' e', digits m = 53 -> digits m' = 53 -> -1074 <= e < e' ->
    units m e < units m' e') as Hlt.
  { clear. intros m e m' e' Hm Hm' He. unfold units. pose proof (digits_bounds m). pose proof (digits_bounds m').
    rewrite Hm in *. rewrite Hm' in *.
    replace (e' + 1074) with (e' - e - 1 + 1 + (e + 1074)) by lia.
    rewrite (Z.pow_add_r 2 (e' - e - 1 + 1)), (Z.pow_add_r 2 (e' - e - 1)) by lia.
    assert (0 < 2 ^ (e' - e - 1)) by (apply Z.pow_pos_nonneg; lia).
    assert (0 < 2 ^ (e + 1074)) by (apply Z.pow_pos_nonneg; lia).
    rewrite Z.mul_assoc. apply Z.mul_lt_mono_pos_r; [done|]. nia. }
  intros Hm Hm' He He' Hu. destruct (Z.lt_trichotomy e e') as [H|[->|H]].
  - specialize (Hlt m e m' e' Hm Hm'). lia.
  - split; [|done]. unfold units in Hu. apply Z.mul_reg_r in Hu; [by injection Hu|].
    apply Z.pow_nonzero; lia.
  - specialize (Hlt m' e' m e Hm' Hm). lia.
Qed.

(** ** Integers *)

(** The number that an integer of at most 53 digits is. *)
Definition canon (s : bool) (p : positive) : f64 :=
  S754_finite s (shl p (53 - digits p)) (digits p - 53).

Definition exactly (z : Z) : f64 :=
  match z with
  | Z0 => S754_zero false
  | Zpos p => canon false p
  | Zneg p => canon true p
  end.

Definition small (z : Z) : Prop := Z.abs z < 2 ^ 53.

Lemma small_digits p : Zpos p < 2 ^ 53 -> 1 <= digits p <= 53.
Proof.
  intros Hp. destruct (digits_bounds p) as [Hl _]. split; [lia|].
  enough (digits p - 1 < 53) by lia. apply (Z.pow_lt_mono_r_iff 2); lia.
Qed.

Lemma shl_shl p j k : 0 <= j -> 0 <= k -> shl (shl p j) k = shl p (j + k).
Proof. intros Hj Hk. apply Pos2Z.inj. rewrite !shl_spec, Z.pow_add_r by lia. lia. Qed.

Lemma round_aux_exact s p j :
  Zpos p < 2 ^ 53 -> 53 <= digits p + j -> 0 <= j <= 1000 ->
  binary_round_aux PREC EMAX s (Zpos (shl p j)) (- j) loc_Exact = canon s p.
Proof.
  intros Hp Hd Hj. pose proof (small_digits p Hp).
  destruct (round_aux_spec s (shl p j) (- j) loc_Exact) as (M & E & -> & HM & HE & _ & _ & Hu);
    rewrite ?digits_shl in * by lia; [lia..|].
  assert (0 < 2 ^ (digits p + j - 53)) by (apply Z.pow_pos_nonneg; lia).
  assert (Zpos (shl p j) = Zpos (shl p (53 - digits p)) * 2 ^ (digits p + j - 53)) as Hq.
  { rewrite !shl_spec, <- Z.mul_assoc, <- Z.pow_add_r by lia. do 2 f_equal. lia. }
  rewrite Hq, Z.div_mul, Z.mod_mul in Hu by lia.
  destruct Hu as [Hu|[_ Hu]]; [|by destruct Hu].
  replace (- j + (digits p + j - 53) + 1074) with (digits p - 53 + 1074) in Hu by lia.
  apply units_inj in Hu as [-> ->]; [done|done| |lia|lia]. rewrite digits_shl; lia.
Qed.

Lemma round_exact s p j :
  Zpos p < 2 ^ 53 -> 0 <= j <= 1000 -> binary_round PREC EMAX s (shl p j) (- j) = canon s p.
Proof.
  intros Hp Hj. pose proof (small_digits p Hp). unfold binary_round. rewrite digits_shl by lia.
  replace (fexp PREC EMAX (digits p + j + - j)) with (digits p - 53)
    by (unfold fexp, emin, PREC, EMAX; lia).
  destruct (Z.le_gt_cases (digits p - 53) (- j)).
  - rewrite shl_align_spec, shl_shl by lia.
    replace (digits p - 53) with (- (53 - digits p)) by lia.
    replace (j + (- j - - (53 - digits p))) with (53 - digits p) by lia. apply round_aux_exact; lia.
  - unfold shl_align. destruct (digits p - 53 - - j) eqn:E; [lia| |lia]. apply round_aux_exact; lia.
Qed.

Lemma normalize_exact z e : small z -> -1000 <= e <= 0 ->
  binary_normalize PREC EMAX (z * 2 ^ (- e)) e false = exactly z.
Proof.
  unfold small. intros Hz He. replace e with (- - e) at 2 by lia. generalize (- e) as j, (ltac:(lia) : 0 <= - e <= 1000).
  intros j Hj. destruct z as [|p|p]; [done|..].
  - rewrite <- shl_spec by lia. cbn [binary_normalize exactly]. apply round_exact; lia.
  - change (Zneg p) with (- Zpos p). rewrite Z.mul_opp_l, <- shl_spec by lia.
    cbn [Z.opp binary_normalize exactly]. apply round_exact; lia.
Qed.

Lemma f64_of_Z_exact z : small z -> f64_of_Z z = exactly z.
Proof. intros Hz. rewrite <- (normalize_exact z 0 Hz) by lia. unfold f64_of_Z. by rewrite Z.mul_1_r. Qed.

(** Both operands brought to a common exponent. *)
Lemma align_canon (s : bool) p e :
  Zpos p < 2 ^ 53 -> e <= digits p - 53 ->
  cond_Zopp s (Zpos (fst (shl_align (shl p (53 - digits p)) (digits p - 53) e))) =
  (if s then Zneg p else Zpos p) * 2 ^ (- e).
Proof.
  intros Hp He. pose proof (small_digits p Hp). rewrite shl_align_spec by lia. cbn [fst].
  rewrite shl_shl, shl_spec by lia. replace (53 - digits p + (digits p - 53 - e)) with (- e) by lia.
  destruct s; cbn [cond_Zopp]; [change (Zneg p) with (- Zpos p)|]; lia.
Qed.

Ltac exact_cases x y :=
  destruct x as [|p|p], y as [|q|q]; cbn [exactly canon SFadd SFsub negb]; try done;
  pose proof (small_digits p) as Hp; pose proof (small_digits q) as Hq; cbn [Z.abs] in *;
  set (e := Z.min _ _); rewrite !align_canon by (unfold e; lia).

Lemma f64_add_exact x y :
  small x -> small y -> small (x + y) -> f64_add (exactly x) (exactly y) = exactly (x + y).
Proof.
  unfold small, f64_add. intros Hx Hy Hxy. exact_cases x y; rewrite <- Z.mul_add_distr_r;
    apply normalize_exact; unfold e; done || lia.
Qed.

Lemma f64_sub_exact x y :
  small x -> small y -> small (x - y) -> f64_sub (exactly x) (exactly y) = exactly (x - y).
Proof.
  unfold small, f64_sub. intros Hx Hy Hxy. exact_cases x y; rewrite <- Z.mul_sub_distr_r;
    apply normalize_exact; unfold e; done || lia.
Qed.

Lemma canon_mul s s' p q : Zpos p * Zpos q < 2 ^ 53 -> f64_mul (canon s p) (canon s' q) = canon (xorb s s') (p * q).
Proof.
  intros Hpq. pose proof (small_digits p ltac:(nia)). pose proof (small_digits q ltac:(nia)).
  pose proof (small_digits (p * q) ltac:(lia)).
  unfold f64_mul, canon at 1 2, SFmul.
  assert (shl p (53 - digits p) * shl q (53 - digits q) = shl (p * q) (106 - digits p - digits q))%positive as ->.
  { apply Pos2Z.inj. rewrite Pos2Z.inj_mul, !shl_spec, Pos2Z.inj_mul by lia.
    replace (106 - digits p - digits q) with (53 - digits p + (53 - digits q)) by lia.
    rewrite Z.pow_add_r by lia. lia. }
  replace (digits p - 53 + (digits q - 53)) with (- (106 - digits p - digits q)) by lia.
  apply round_aux_exact; [lia| |lia].
  enough (digits p + digits q - 2 < digits (p * q)) by lia. apply (Z.pow_lt_mono_r_iff 2); [lia..|].
  destruct (digits_bounds p), (digits_bounds q), (digits_bounds (p * q)).
  replace (digits p + digits q - 2) with (digits p - 1 + (digits q - 1)) by lia.
  rewrite Z.pow_add_r by lia. rewrite Pos2Z.inj_mul in *. nia.
Qed.

(** A product of nonnegative numbers, and a square. *)
Lemma f64_mul_exact x y : 0 <= x -> 0 <= y -> x * y < 2 ^ 53 -> f64_mul (exactly x) (exactly y) = exactly (x * y).
Proof.
  intros Hx Hy Hxy. destruct x as [|p|p], y as [|q|q]; try lia; try done. exact (canon_mul false false p q Hxy).
Qed.

Lemma f64_square_exact x : x * x < 2 ^ 53 -> f64_mul (exactly x) (exactly x) = exactly (x * x).
Proof.
  intros Hx. destruct x as [|p|p]; [done|..].
  - exact (canon_mul false false p p Hx).
  - exact (canon_mul true true p p Hx).
Qed.

Lemma f64_compare_exact x y : 0 <= x < 2 ^ 53 -> 0 <= y < 2 ^ 53 ->
  SFcompare (exactly x) (exactly y) = Some (x ?= y).
Proof.
  intros Hx Hy. destruct x as [|p|p], y as [|q|q]; try lia; try done.
  cbn [exactly canon SFcompare]. f_equal. pose proof (digits_bounds p). pose proof (digits_bounds q).
  pose proof (small_digits p ltac:(lia)). pose proof (small_digits q ltac:(lia)). symmetry.
  assert (forall a b, digits a < digits b -> Zpos a < Zpos b) as Hlt.
  { intros a b Hab. destruct (digits_bounds a), (digits_bounds b).
    pose proof (Z.pow_le_mono_r 2 (digits a) (digits b - 1)). lia. }
  destruct (Z.compare_spec (digits p - 53) (digits q - 53)) as [He|He|He].
  - change (Pos.compare_cont Eq ?a ?b) with (Zpos a ?= Zpos b). rewrite !shl_spec by lia.
    replace (digits q) with (digits p) by lia. apply Zmult_compare_compat_r.
    apply Z.lt_gt, Z.pow_pos_nonneg; lia.
  - apply Z.compare_lt_iff, Hlt. lia.
  - apply Z.compare_gt_iff, Hlt. lia.
Qed.

Lemma f64_ge_exact x y : 0 <= x < 2 ^ 53 -> 0 <= y < 2 ^ 53 -> f64_ge (exactly x) (exactly y) = (y <=? x).
Proof.
  intros Hx Hy. unfold f64_ge, SFleb. rewrite f64_compare_exact by done.
  unfold Z.leb. by destruct (y ?= x).
Qed.

Lemma f64_min_exact x y : 0 <= x < 2 ^ 53 -> 0 <= y < 2 ^ 53 ->
  f64_min (exactly x) (exactly y) = exactly (Z.min x y).
Proof.
  intros Hx Hy. transitivity (if SFltb (exactly y) (exactly x) then exactly y else exactly x).
  { by destruct x, y. }
  unfold SFltb. rewrite f64_compare_exact by done.
  destruct (Z.compare_spec y x) as [->|H|H]; f_equal; lia.
Qed.

(** ** Beyond the integers

    A number of at least [2^53]: it need not be exact, and it is not below an integer that is. *)
Definition big (bound : Z) (x : f64) : Prop :=
  exists M E, x = S754_finite false M E /\ digits M = 53 /\ 1 <= E <= bound.

Lemma mul_big p q : Zpos p < 2 ^ 53 -> Zpos q < 2 ^ 53 -> 2 ^ 53 <= Zpos p * Zpos q ->
  big 100 (f64_mul (canon false p) (canon false q)).
Proof.
  intros Hp Hq Hpq. pose proof (small_digits p Hp). pose proof (small_digits q Hq).
  set (r := (shl p (53 - digits p) * shl q (53 - digits q))%positive).
  assert (Zpos r = Zpos p * Zpos q * 2 ^ (106 - digits p - digits q)) as Hr.
  { unfold r. rewrite Pos2Z.inj_mul, !shl_spec by lia.
    replace (106 - digits p - digits q) with (53 - digits p + (53 - digits q)) by lia.
    rewrite Z.pow_add_r by lia. lia. }
  assert (2 ^ (159 - digits p - digits q) <= Zpos r < 2 ^ 106) as Hb.
  { split.
    - rewrite Hr. replace (159 - digits p - digits q) with (53 + (106 - digits p - digits q)) by lia.
      rewrite Z.pow_add_r by lia. apply Z.mul_le_mono_nonneg_r; [|done]. apply Z.pow_nonneg. lia.
    - unfold r. rewrite Pos2Z.inj_mul. pose proof (digits_bounds (shl p (53 - digits p))) as [_ Ha].
      pose proof (digits_bounds (shl q (53 - digits q))) as [_ Hb]. rewrite digits_shl in Ha, Hb by lia.
      replace (digits p + (53 - digits p)) with 53 in Ha by lia.
      replace (digits q + (53 - digits q)) with 53 in Hb by lia. change (2 ^ 106) with (2 ^ 53 * 2 ^ 53). nia. }
  destruct (digits_bounds r) as [Hl Hu].
  assert (digits r - 1 < 106) by (apply (Z.pow_lt_mono_r_iff 2); lia).
  assert (159 - digits p - digits q < digits r) by (apply (Z.pow_lt_mono_r_iff 2); lia).
  destruct (round_aux_spec false r (digits p - 53 + (digits q - 53)) loc_Exact)
    as (M & E & HR & HM & HE1 & HE2 & _); [lia..|].
  exists M, E. split_and!; [exact HR|done|lia|lia].
Qed.

Lemma normalize_big P e : -1074 <= e <= 0 -> 54 <= digits P + e <= 1000 ->
  big (digits P + e) (binary_normalize PREC EMAX (Zpos P) e false).
Proof.
  intros He Hd. cbn [binary_normalize]. unfold binary_round.
  replace (fexp PREC EMAX (digits P + e)) with (digits P + e - 53) by (unfold fexp, emin, PREC, EMAX; lia).
  unfold shl_align. destruct (digits P + e - 53 - e) eqn:En; [lia| |lia].
  destruct (round_aux_spec false P e loc_Exact) as (M & E & HR & HM & HE1 & HE2 & _); [lia..|].
  exists M, E. split_and!; [exact HR|done|lia|lia].
Qed.

Lemma add_big bound t x : 0 <= t < 2 ^ 53 -> big bound x -> bound <= 900 -> exists b, big b (f64_add (exactly t) x).
Proof.
  intros Ht (M & E & -> & HM & HE) Hb. destruct t as [|p|p]; [by exists bound, M, E| |lia].
  pose proof (small_digits p ltac:(lia)). unfold f64_add. cbn [exactly canon SFadd].
  rewrite Z.min_l, !shl_align_spec by lia. cbn [fst cond_Zopp]. rewrite <- Pos2Z.inj_add.
  set (e := digits p - 53). set (P := (_ + shl M _)%positive).
  assert (2 ^ (52 + E - e) <= Zpos P < 2 ^ (54 + E - e)) as HP.
  { unfold P. rewrite Pos2Z.inj_add, shl_shl, !shl_spec by lia.
    destruct (digits_bounds M) as [HM1 HM2]. rewrite HM in HM1, HM2. change (53 - 1) with 52 in HM1.
    replace (53 - digits p + (e - e)) with (- e) by (unfold e; lia).
    replace (54 + E - e) with (1 + (53 + (E - e))) by lia.
    replace (52 + E - e) with (52 + (E - e)) by lia. rewrite !Z.pow_add_r by (unfold e; lia).
    assert (0 < 2 ^ (- e) <= 2 ^ (E - e))
      by (split; [apply Z.pow_pos_nonneg|apply Z.pow_le_mono_r]; unfold e; lia). nia. }
  clearbody P. destruct (digits_bounds P) as [Hl Hu].
  assert (digits P - 1 < 54 + E - e) by (apply (Z.pow_lt_mono_r_iff 2); unfold e in *; lia).
  assert (52 + E - e < digits P) by (apply (Z.pow_lt_mono_r_iff 2); unfold e in *; lia).
  eexists. apply normalize_big; unfold e in *; lia.
Qed.

(** The sum of two exact integers that leaves the range. *)
Lemma add_carry x y : 0 <= x < 2 ^ 53 -> 0 <= y < 2 ^ 53 -> 2 ^ 53 <= x + y ->
  exists b, big b (f64_add (exactly x) (exactly y)).
Proof.
  intros Hx Hy Hxy. destruct x as [|p|p], y as [|q|q]; try lia.
  pose proof (small_digits p ltac:(lia)). pose proof (small_digits q ltac:(lia)).
  unfold f64_add. cbn [exactly canon SFadd]. set (e := Z.min _ _).
  rewrite !align_canon, <- Z.mul_add_distr_r, <- Pos2Z.inj_add by (unfold e; lia).
  rewrite <- shl_spec by (unfold e; lia).
  assert (digits (p + q) = 54) by (apply digits_unique; rewrite ?Pos2Z.inj_add; lia).
  eexists. apply normalize_big; rewrite ?digits_shl; unfold e; lia.
Qed.

Lemma min_big bound x y : big bound x -> 0 <= y < 2 ^ 53 -> f64_min x (exactly y) = exactly y.
Proof.
  intros (M & E & -> & HM & HE) Hy. destruct y as [|p|p]; [done| |lia].
  pose proof (small_digits p ltac:(lia)). unfold f64_min. cbn [exactly canon].
  unfold SFltb, SFcompare, canon. by rewrite (proj2 (Z.compare_lt_iff (digits p - 53) E)) by lia.
Qed.

(** ** Faithful rounding

    A multiple of a unit that 53 digits can express. *)
Definition representable (b : Z) : Prop := exists m f, 0 <= m <= 2 ^ 53 /\ 0 <= f /\ b = m * 2 ^ f.

(** There is no such number strictly between two neighbours. *)
Lemma representable_gap b lo g :
  representable b -> 2 ^ 52 <= lo -> 0 <= g -> lo * 2 ^ g < b -> (lo + 1) * 2 ^ g <= b.
Proof.
  intros (m & f & Hm & Hf & ->) Hlo Hg Hb. assert (0 < 2 ^ g) by (apply Z.pow_pos_nonneg; lia).
  destruct (Z.le_gt_cases g f) as [Hgf|Hgf].
  - replace f with (f - g + g) in * by lia. rewrite Z.pow_add_r, Z.mul_assoc in * by lia.
    apply Z.mul_le_mono_nonneg_r; [lia|]. apply Z.mul_lt_mono_pos_r in Hb; lia.
  - exfalso. replace g with (g - f - 1 + 1 + f) in Hb by lia.
    rewrite !(Z.pow_add_r 2) in Hb by lia. assert (0 < 2 ^ (g - f - 1)) by (apply Z.pow_pos_nonneg; lia).
    assert (0 < 2 ^ f) by (apply Z.pow_pos_nonneg; lia).
    rewrite Z.mul_assoc in Hb. apply Z.mul_lt_mono_pos_r in Hb; [|done]. nia.
Qed.

(** The result of rounding a value between [q] and [q + 1] is on the same side of every
    representable number as the value. *)
Lemma round_faithful s q e l :
  53 <= digits q -> -1074 <= e -> digits q + e <= 1023 ->
  exists M E, binary_round_aux PREC EMAX s (Zpos q) e l = S754_finite s M E /\ digits M = 53 /\
    e + digits q - 53 <= E <= e + digits q - 52 /\
    (forall b, representable b -> b < (Zpos q + 1) * 2 ^ (e + 1074) -> b <= units M E) /\
    (forall b, representable b -> Zpos q * 2 ^ (e + 1074) <= b ->
       (l <> loc_Exact -> Zpos q * 2 ^ (e + 1074) < b) -> units M E <= b).
Proof.
  intros Hd He Hmax. destruct (round_aux_spec s q e l Hd He Hmax) as (M & E & HR & HM & HE1 & HE2 & Hlo & Hu).
  exists M, E. split; [done|]. split; [done|]. split; [lia|].
  set (n := digits q - 53) in *. assert (0 <= n) by (unfold n; lia). set (lo := Zpos q / 2 ^ n) in *.
  assert (0 < 2 ^ n) by (apply Z.pow_pos_nonneg; lia).
  assert (0 < 2 ^ (e + 1074)) by (apply Z.pow_pos_nonneg; lia).
  assert (2 ^ (e + n + 1074) = 2 ^ n * 2 ^ (e + 1074)) as Hg
    by (rewrite <- Z.pow_add_r by lia; f_equal; lia).
  assert (0 < 2 ^ (e + n + 1074)) by (rewrite Hg; lia).
  pose proof (Z.div_mod (Zpos q) (2 ^ n) ltac:(lia)) as Hq. fold lo in Hq.
  pose proof (Z.mod_pos_bound (Zpos q) (2 ^ n) ltac:(lia)) as Hr.
  split.
  - intros b Hb Hlt. transitivity (lo * 2 ^ (e + n + 1074)); [|destruct Hu as [->|[-> _]]; nia].
    apply Z.nlt_ge. intros Hgt.
    pose proof (representable_gap b lo (e + n + 1074) Hb (proj1 Hlo) ltac:(lia) Hgt) as Hge.
    rewrite Hg in Hge. nia.
  - intros b Hb Hle Hne. destruct Hu as [->|[-> Hex]]; [rewrite Hg; nia|].
    apply representable_gap; [done|lia|lia|]. rewrite Hg.
    destruct l as [|c]; [specialize (Hex eq_refl); nia|specialize (Hne ltac:(done)); nia].
Qed.

(** ** Quotients and square roots *)

(** The integer division inside a quotient: 53 or 54 digits, and what is left over. *)
Lemma div_core s k : Zpos s < 2 ^ 53 -> Zpos k < 2 ^ 53 ->
  let g := digits s - digits k - 53 + 1074 in
  exists q l,
    SFdiv_core_binary PREC EMAX (Zpos (shl s (53 - digits s))) (digits s - 53)
      (Zpos (shl k (53 - digits k))) (digits k - 53) = (Zpos q, g - 1074, l) /\
    53 <= digits q <= 54 /\
    Zpos q * Zpos k * 2 ^ g <= Zpos s * 2 ^ 1074 < (Zpos q + 1) * Zpos k * 2 ^ g /\
    (l <> loc_Exact -> Zpos q * Zpos k * 2 ^ g < Zpos s * 2 ^ 1074).
Proof.
  intros Hs Hk. cbn zeta. pose proof (small_digits s Hs). pose proof (small_digits k Hk).
  set (g := digits s - digits k - 53 + 1074).
  unfold SFdiv_core_binary. cbn [Zdigits2]. rewrite !digits_shl by lia.
  replace (Z.min _ _) with (g - 1074) by (unfold g, fexp, emin, PREC, EMAX; lia).
  replace (digits s - 53 - (digits k - 53) - (g - 1074)) with 53 by (unfold g; lia).
  rewrite Z.shiftl_mul_pow2 by lia.
  set (A := Zpos (shl s (53 - digits s)) * 2 ^ 53). set (m := Zpos (shl k (53 - digits k))).
  assert (2 ^ 105 <= A < 2 ^ 106 /\ 2 ^ 52 <= m < 2 ^ 53) as [HAb Hmb].
  { unfold A, m. pose proof (digits_bounds (shl s (53 - digits s))) as Ha.
    pose proof (digits_bounds (shl k (53 - digits k))) as Hb. rewrite !digits_shl in Ha, Hb by lia.
    rewrite Zplus_minus in Ha, Hb. lia. }
  pose (w := digits s - 106 + 1074). assert (0 < 2 ^ w) by (apply Z.pow_pos_nonneg; unfold w; lia).
  assert (A * 2 ^ w = Zpos s * 2 ^ 1074) as HA.
  { unfold A. rewrite shl_spec, <- !Z.mul_assoc, <- !Z.pow_add_r by (unfold w; lia).
    do 2 f_equal. unfold w. lia. }
  assert (m * 2 ^ w = Zpos k * 2 ^ g) as Hm.
  { unfold m. rewrite shl_spec, <- Z.mul_assoc, <- Z.pow_add_r by (unfold w; lia).
    do 2 f_equal. unfold w, g. lia. }
  pose proof (Z_div_mod A m ltac:(lia)) as Hdiv. destruct (Z.div_eucl A m) as [q r].
  destruct Hdiv as [HAq Hr]. assert (2 ^ 52 <= q < 2 ^ 54) as Hq by nia.
  destruct q as [|q|q]; [lia| |lia]. exists q, (new_location m r). split; [done|].
  rewrite <- !Z.mul_assoc, <- HA, <- Hm. split; [|split; [nia|]].
  - destruct (digits_bounds q). split; [enough (52 < digits q) by lia|enough (digits q - 1 < 54) by lia];
      apply (Z.pow_lt_mono_r_iff 2); lia.
  - unfold new_location, new_location_even, new_location_odd. intros Hl.
    assert (r <> 0) by (intros ->; apply Hl; by destruct (Z.even m)). nia.
Qed.

(** The quotient of two integers. *)
Lemma f64_div_faithful s k : Zpos s < 2 ^ 53 -> Zpos k < 2 ^ 53 ->
  exists M E, f64_div (exactly (Zpos s)) (exactly (Zpos k)) = S754_finite false M E /\
    digits M = 53 /\ -200 <= E <= 100 /\
    (forall b, representable b -> b * Zpos k <= Zpos s * 2 ^ 1074 -> b <= units M E) /\
    (forall b, representable b -> Zpos s * 2 ^ 1074 <= b * Zpos k -> units M E <= b).
Proof.
  intros Hs Hk. pose proof (small_digits s Hs). pose proof (small_digits k Hk).
  destruct (div_core s k Hs Hk) as (q & l & Hcore & Hd & Hq & Hl).
  unfold f64_div. cbn [exactly canon SFdiv xorb]. rewrite Hcore. clear Hcore.
  set (g := digits s - digits k - 53 + 1074) in *.
  destruct (round_faithful false q (g - 1074) l) as (M & E & HR & HM & HE & Hlow & Hhigh);
    [unfold g; lia..|].
  replace (g - 1074 + 1074) with g in * by lia.
  exists M, E. split; [exact HR|]. split; [done|]. split; [unfold g in HE; lia|]. split.
  - intros b Hb Hle. apply Hlow; [done|]. apply (Z.mul_lt_mono_pos_r (Zpos k)); lia.
  - intros b Hb Hle. apply Hhigh; [done|..].
    + apply (Z.mul_le_mono_pos_r _ _ (Zpos k)); lia.
    + intros Hne. specialize (Hl Hne). apply (Z.mul_lt_mono_pos_r (Zpos k)); lia.
Qed.

(** The integer square root inside a square root: 53 digits, and what is left over. *)
Lemma sqrt_core m e : digits m = 53 -> -200 <= e <= 100 ->
  let h := Z.div2 e - 26 in
  let P := 2 ^ (h + 1074) in
  exists q l, SFsqrt_core_binary PREC EMAX (Zpos m) e = (Zpos q, h, l) /\ digits q = 53 /\
    (Zpos q * P) * (Zpos q * P) <= units m e * 2 ^ 1074 < ((Zpos q + 1) * P) * ((Zpos q + 1) * P) /\
    (l <> loc_Exact -> (Zpos q * P) * (Zpos q * P) < units m e * 2 ^ 1074).
Proof.
  intros Hm He. cbn zeta. unfold SFsqrt_core_binary. cbn [Zdigits2]. rewrite Hm.
  set (h := Z.div2 e - 26). pose proof (Z.div2_odd e) as Hodd.
  assert (-100 <= Z.div2 e <= 50) by (destruct (Z.odd e); cbn [Z.b2z] in Hodd; lia).
  replace (Z.min _ _) with h.
  2: { unfold h, fexp, emin, PREC, EMAX. rewrite !Z.div2_div in *.
       replace (53 + e + 1) with (e + 27 * 2) by lia. rewrite Z.div_add by lia. lia. }
  set (s := e - 2 * h). assert (52 <= s <= 53) as Hs
    by (unfold s, h; destruct (Z.odd e); cbn [Z.b2z] in Hodd; lia).
  set (X := Zpos m * 2 ^ s).
  assert (match s with Z0 => Zpos m | Zpos _ => Z.shiftl (Zpos m) s | Zneg _ => 0 end = X) as ->.
  { destruct s as [|p|p]; [lia| |lia]. apply Z.shiftl_mul_pow2. lia. }
  assert (2 ^ 104 <= X < 2 ^ 106) as HX.
  { destruct (digits_bounds m) as [Hl Hu]. rewrite Hm in Hl, Hu. change (53 - 1) with 52 in Hl. unfold X.
    assert (2 ^ 52 <= 2 ^ s <= 2 ^ 53) by (split; apply Z.pow_le_mono_r; lia).
    change (2 ^ 104) with (2 ^ 52 * 2 ^ 52). change (2 ^ 106) with (2 ^ 53 * 2 ^ 53). nia. }
  pose proof (Z.sqrtrem_spec X ltac:(lia)) as Hsq. destruct (Z.sqrtrem X) as [q r]. destruct Hsq as [Hq Hr].
  assert (2 ^ 52 <= q < 2 ^ 53) as Hqb by nia. destruct q as [|q|q]; [lia| |lia].
  exists q, (if r =? 0 then loc_Exact else loc_Inexact (if r <=? Zpos q then Lt else Gt)).
  split; [done|]. split; [apply digits_unique; lia|].
  assert (0 < 2 ^ (h + 1074)) by (apply Z.pow_pos_nonneg; unfold h; lia).
  assert (units m e * 2 ^ 1074 = X * (2 ^ (h + 1074) * 2 ^ (h + 1074))) as ->.
  { unfold units, X. rewrite <- !Z.mul_assoc, <- !Z.pow_add_r by (unfold h; lia). do 2 f_equal. unfold s. lia. }
  assert (0 < 2 ^ (h + 1074) * 2 ^ (h + 1074)) as HPP by (by apply Z.mul_pos_pos).
  rewrite !(Z.mul_shuffle1 _ (2 ^ (h + 1074))). split; [split|intros Hl].
  - apply Z.mul_le_mono_pos_r; [done|lia].
  - apply Z.mul_lt_mono_pos_r; [done|lia].
  - apply Z.mul_lt_mono_pos_r; [done|]. destruct (Z.eqb_spec r 0); [done|lia].
Qed.

(** The square root of a positive number. *)
Lemma f64_sqrt_faithful m e : digits m = 53 -> -200 <= e <= 100 ->
  exists M E, f64_sqrt (S754_finite false m e) = S754_finite false M E /\ -1074 <= E /\
    (forall b, representable b -> 0 <= b -> b * b <= units m e * 2 ^ 1074 -> b <= units M E) /\
    (forall b, representable b -> 0 <= b -> units m e * 2 ^ 1074 <= b * b -> units M E <= b).
Proof.
  intros Hm He. destruct (sqrt_core m e Hm He) as (q & l & Hcore & Hd & Hq & Hl).
  unfold f64_sqrt. cbn [SFsqrt]. rewrite Hcore. clear Hcore. set (h := Z.div2 e - 26) in *.
  pose proof (Z.div2_odd e) as Hodd.
  assert (-100 <= Z.div2 e <= 50) by (destruct (Z.odd e); cbn [Z.b2z] in Hodd; lia).
  destruct (round_faithful false q h l) as (M & E & HR & HM & HE & Hlow & Hhigh); [unfold h; lia..|].
  assert (0 < 2 ^ (h + 1074)) by (apply Z.pow_pos_nonneg; unfold h; lia).
  exists M, E. split; [exact HR|]. split; [unfold h in HE; lia|]. split.
  - intros b Hb Hb0 Hle. apply Hlow; [done|].
    apply Z.square_lt_simpl_nonneg; [apply Z.mul_nonneg_nonneg; lia|lia].
  - intros b Hb Hb0 Hle. apply Hhigh; [done|..].
    + apply Z.square_le_simpl_nonneg; lia.
    + intros Hne. specialize (Hl Hne). apply Z.square_lt_simpl_nonneg; lia.
Qed.

(** The cast to [i32] of a positive number takes its integer part. *)
Lemma f64_to_i32_floor m e : -1074 <= e ->
  f64_to_i32 (S754_finite false m e) = Z.min (2 ^ 31 - 1) (units m e / 2 ^ 1074).
Proof.
  intros He. cbn [f64_to_i32]. f_equal. unfold units. destruct (0 <=? e) eqn:E; bool_to_prop.
  - rewrite Z.pow_add_r, Z.mul_assoc, Z.div_mul by (try apply Z.pow_nonzero; lia). done.
  - replace 1074 with (e + 1074 + - e) at 2 by lia.
    rewrite (Z.pow_add_r 2 (e + 1074)), Z.mul_comm, Z.div_mul_cancel_l by (try apply Z.pow_nonzero; lia). done.
Qed.

Lemma representable_scaled m f : 0 <= m <= 2 ^ 53 -> 0 <= f -> representable (m * 2 ^ f).
Proof. intros Hm Hf. by exists m, f. Qed.

(** Where the integer root [t] lies is decided by numbers that have a representation: its square
    below, and two numbers just short of [t + 1] and its square above. *)
Lemma isqrt_bounds s k x y t V :
  0 < V -> 0 < k <= 2 ^ 16 -> 0 <= t < 2 ^ 18 -> k * (t * t) <= s -> s < k * ((t + 1) * (t + 1)) ->
  let U := V * 2 ^ 35 in
  ((t * t) * U * k <= s * U -> (t * t) * U <= x) ->
  (s * U <= ((t + 1) * (t + 1) * 2 ^ 16 - 1) * (V * 2 ^ 19) * k ->
   x <= ((t + 1) * (t + 1) * 2 ^ 16 - 1) * (V * 2 ^ 19)) ->
  (t * U * (t * U) <= x * U -> t * U <= y) ->
  (x * U <= ((t + 1) * 2 ^ 35 - 1) * V * (((t + 1) * 2 ^ 35 - 1) * V) ->
   y <= ((t + 1) * 2 ^ 35 - 1) * V) ->
  y / U = t.
Proof.
  intros HV Hk Ht Hlo Hhi. cbn zeta. set (U := V * 2 ^ 35). intros Hx1 Hx2 Hy1 Hy2.
  assert (0 < U) as HU by (unfold U; lia).
  assert (t * t * U <= x) as H1 by (apply Hx1; nia).
  assert (t * U <= y) as H2 by (apply Hy1; nia).
  assert (x <= ((t + 1) * (t + 1) * 2 ^ 16 - 1) * (V * 2 ^ 19)) as H3.
  { apply Hx2. unfold U. set (c := (t + 1) * (t + 1)) in *.
    assert (s * 2 ^ 16 <= (c * 2 ^ 16 - 1) * k) by nia. nia. }
  assert (y <= ((t + 1) * 2 ^ 35 - 1) * V) as H4.
  { apply Hy2. unfold U. set (c := t + 1) in *.
    assert ((c * c * 2 ^ 16 - 1) * 2 ^ 54 <= (c * 2 ^ 35 - 1) * (c * 2 ^ 35 - 1)) as Hc
      by (assert (c <= 2 ^ 18) as Hc by (unfold c; lia); clear -Hc; lia).
    transitivity ((c * c * 2 ^ 16 - 1) * (V * 2 ^ 19) * (V * 2 ^ 35));
      [by apply Z.mul_le_mono_nonneg_r; [lia|]|].
    replace ((c * c * 2 ^ 16 - 1) * (V * 2 ^ 19) * (V * 2 ^ 35))
      with ((c * c * 2 ^ 16 - 1) * 2 ^ 54 * (V * V)) by ring.
    replace ((c * 2 ^ 35 - 1) * V * ((c * 2 ^ 35 - 1) * V))
      with ((c * 2 ^ 35 - 1) * (c * 2 ^ 35 - 1) * (V * V)) by ring.
    apply Z.mul_le_mono_nonneg_r; [apply Z.mul_nonneg_nonneg; lia|done]. }
  symmetry. apply (Z.div_unique_pos y U t (y - t * U)); [|lia]. unfold U in *. lia.
Qed.

(** The integer part of the square root of a quotient. *)
Lemma f64_isqrt_quotient s k :
  0 <= s < 2 ^ 53 -> 0 < k <= 2 ^ 16 -> s / k < 2 ^ 36 - 2 ^ 19 ->
  f64_to_i32 (f64_sqrt (f64_div (exactly s) (exactly k))) = Z.sqrt (s / k).
Proof.
  intros Hs Hk Hq. destruct k as [|k|k]; [lia| |lia]. destruct s as [|s|s]; [done| |lia].
  destruct (f64_div_faithful s k) as (m & e & -> & Hm & He & Hdl & Hdh); [lia..|].
  destruct (f64_sqrt_faithful m e Hm He) as (M & E & -> & HE & Hsl & Hsh).
  rewrite f64_to_i32_floor by done.
  assert (0 <= Zpos s / Zpos k) as Hq0 by (apply Z.div_pos; lia).
  pose proof (Z.sqrt_spec _ Hq0) as [Hl Hu]. pose proof (Z.sqrt_nonneg (Zpos s / Zpos k)).
  set (t := Z.sqrt (Zpos s / Zpos k)) in *. assert (t < 2 ^ 18 - 1) by nia.
  enough (units M E / 2 ^ 1074 = t) by lia.
  pose proof (Z.mul_div_le (Zpos s) (Zpos k) ltac:(lia)).
  pose proof (Z.mul_succ_div_gt (Zpos s) (Zpos k) ltac:(lia)).
  change (2 ^ 1074) with (2 ^ 1039 * 2 ^ 35) in *.
  assert (forall m j, 0 <= m <= 2 ^ 53 -> 0 <= j -> representable (m * (2 ^ 1039 * 2 ^ j))) as Hrep.
  { intros a j Ha Hj. rewrite <- Z.pow_add_r by lia. apply representable_scaled; lia. }
  assert (0 < 2 ^ 1039) as HV by done. set (V := 2 ^ 1039) in *. clearbody V.
  assert (t * t < 2 ^ 36 /\ (t + 1) * (t + 1) <= 2 ^ 36) as [Htt Hcc] by nia.
  apply (isqrt_bounds (Zpos s) (Zpos k) (units m e) (units M E) t V); [lia..| | | | | |].
  - nia.
  - nia.
  - apply Hdl, Hrep; lia.
  - apply Hdh, Hrep; lia.
  - apply Hsl; [apply Hrep; lia|]. apply Z.mul_nonneg_nonneg; lia.
  - pose proof (Hrep ((t + 1) * 2 ^ 35 - 1) 0 ltac:(lia) ltac:(lia)) as Hr. rewrite Z.mul_1_r in Hr.
    apply (Hsh _ Hr). apply Z.mul_nonneg_nonneg; lia.
Qed.

(** ** Zero and what is not a number *)

Definition nothing (x : f64) : Prop := match x with S754_zero _ | S754_nan => True | _ => False end.

Lemma f64_sub_self x : nothing (f64_sub x x).
Proof.
  destruct x as [[]|[]| |s m e]; try exact I. unfold f64_sub. cbn [SFsub]. by rewrite Z.sub_diag.
Qed.

Lemma nothing_ops x y : nothing x ->
  nothing (f64_mul x x) /\ nothing (f64_div x y) /\ nothing (f64_sqrt x) /\ f64_to_i32 x = 0 /\
  (nothing y -> nothing (f64_add x y)).
Proof. by destruct x as [[]|[]| |], y as [[]|[]| |]. Qed.

(** ** Sums *)

(** The running sum of nonnegative integers stays exact while the whole sum is small. *)
Lemma f64_fold_exact l a : 0 <= a -> Forall (fun x => 0 <= x) l -> a + foldr Z.add 0 l < 2 ^ 53 ->
  fold_left f64_add (map exactly l) (exactly a) = exactly (a + foldr Z.add 0 l).
Proof.
  intros Ha Hl. revert a Ha. induction Hl as [|x l Hx Hl IH]; intros a Ha Hs; cbn in *.
  - by rewrite Z.add_0_r.
  - assert (0 <= foldr Z.add 0 l) by (clear -Hl; induction Hl; cbn; lia).
    rewrite f64_add_exact by (unfold small; lia). rewrite IH by lia. f_equal. lia.
Qed.
