(* ===== verification/Types.v ===== *)
(** * voip-core types

    The enumerations of [voip-core/src/types.rs], their wire counterparts from
    [proto/signaling.proto], the conversions between them, and the composite
    records ([PortPredictionData], [TrackInfo], [NATInfo]) with theirs. *)

From S2P Require Import Prelude.

Local Open Scope Z_scope.

(** ** Interfaces

    [ProtoEnum E]: a generated protobuf enumeration, stored on the wire as an
    [i32].  [Convert E N]: Rust's [From<E> for N]. *)

Class ProtoEnum (E : Type) := {
  as_i32 : E -> Z;
  try_from_i32 : Z -> option E;
  proto_zero : E;
  try_from_as : forall e, try_from_i32 (as_i32 e) = Some e;
  as_try_from : forall z e, try_from_i32 z = Some e -> as_i32 e = z;
  try_from_zero : try_from_i32 0 = Some proto_zero
}.

Class Convert (E N : Type) := into : E -> N.

(** [E] and [N] are two presentations of the same enumeration. *)
Class ConvertIso (E N : Type) `{Convert E N} `{Convert N E} := {
  into_into : forall n : N, into (into n : E) = n;
  into_into' : forall e : E, into (into e : N) = e
}.

(** Unknown wire values become the enumeration's value 0. *)
Definition i32_to_native_enum {E N : Type} `{ProtoEnum E} `{Convert E N} (value : Z) : N :=
  match try_from_i32 value with
  | Some e => into e
  | None => into (proto_zero : E)
  end.

(** ** Wire enumerations *)

Inductive ProtoNATType :=
| NAT_NONE | NAT_CONE | NAT_SYMMETRIC_SEQUENTIAL | NAT_SYMMETRIC_PSEUDO
| NAT_SYMMETRIC_RANDOM.

Inductive ProtoPredictionConfidence := SEQUENTIAL | PSEUDO_SEQUENTIAL | RANDOM.

Inductive ProtoProbeMethod := QUIC_PATH_PROBING.

Inductive ProtoDiscoveryMethod := DISCOVERY_DHT | DISCOVERY_SIGNALING | DISCOVERY_CACHE.

Inductive ProtoMediaType := MEDIA_AUDIO | MEDIA_VIDEO | MEDIA_SCREEN.

Inductive ProtoCallState :=
| CALL_RINGING | CALL_ACCEPTED | CALL_CONNECTED | CALL_FAILED | CALL_ENDED.

Inductive ProtoSubscriptionState := SUB_PENDING | SUB_ACTIVE | SUB_PAUSED | SUB_ENDED.

Inductive ProtoPeerStatus := PEER_ONLINE | PEER_OFFLINE | PEER_IN_CALL.

Inductive ProtoConnectionMethod :=
| CONN_NONE | CONN_IPV6_DIRECT | CONN_IPV4_CONE | CONN_IPV4_PREDICTION | CONN_MASQUE
| CONN_MASQUE_HTTP2.

Inductive ProtoCallEndReason :=
| END_NORMAL | END_REJECTED | END_TIMEOUT | END_FAILED_IPV4_RANDOM
| END_FAILED_UDP_BLOCKED | END_FAILED_NETWORK | END_MIGRATION_FAILED
| END_FAILED_MASQUE_UNREACHABLE | END_FAILED_TCP_BLOCKED.

(** ** Native enumerations *)

Inductive NATType :=
| NATType_None | NATType_Cone | NATType_SymmetricSequential | NATType_SymmetricPseudo
| NATType_SymmetricRandom.

Inductive PredictionConfidence :=
| Confidence_Sequential | Confidence_PseudoSequential | Confidence_Random.

Inductive ProbeMethod := QuicPathProbing.

Inductive DiscoveryMethod := Discovery_Dht | Discovery_Signaling | Discovery_Cache.

Inductive MediaType := Media_Audio | Media_Video | Media_Screen.

Inductive WireCallState :=
| WireCall_Ringing | WireCall_Accepted | WireCall_Connected | WireCall_Failed
| WireCall_Ended.

Inductive SubscriptionState := Sub_Pending | Sub_Active | Sub_Paused | Sub_Ended.

Inductive PeerStatus := Peer_Online | Peer_Offline | Peer_InCall.

Inductive ConnectionMethod :=
| Conn_None | Conn_Ipv6Direct | Conn_Ipv4Cone | Conn_Ipv4Prediction | Conn_Masque
| Conn_MasqueHttp2.

Inductive CallEndReason :=
| End_Normal | End_Rejected | End_Timeout | End_FailedIpv4Random | End_FailedUdpBlocked
| End_FailedNetwork | End_MigrationFailed | End_FailedMasqueUnreachable
| End_FailedTcpBlocked.

#[export] Instance NATType_eq_dec : EqDecision NATType.
Proof. solve_decision. Defined.
#[export] Instance PredictionConfidence_eq_dec : EqDecision PredictionConfidence.
Proof. solve_decision. Defined.
#[export] Instance ConnectionMethod_eq_dec : EqDecision ConnectionMethod.
Proof. solve_decision. Defined.
#[export] Instance CallEndReason_eq_dec : EqDecision CallEndReason.
Proof. solve_decision. Defined.
#[export] Instance PeerStatus_eq_dec : EqDecision PeerStatus.
Proof. solve_decision. Defined.
#[export] Instance WireCallState_eq_dec : EqDecision WireCallState.
Proof. solve_decision. Defined.

(** ** Wire values of the protobuf enumerations

    The discriminants are those of [signaling.proto]; [try_from] is the partial
    inverse prost generates. *)

Ltac solve_proto_enum :=
  let z := fresh "z" in
  first [ by intros []
        | intros z [] H; revert H; repeat case_match; intros; bool_to_prop; simplify_eq; done
        | done ].

Definition NATType_as_i32 (e : ProtoNATType) : Z :=
  match e with
  | NAT_NONE => 0 | NAT_CONE => 1 | NAT_SYMMETRIC_SEQUENTIAL => 2
  | NAT_SYMMETRIC_PSEUDO => 3 | NAT_SYMMETRIC_RANDOM => 4
  end.

Definition NATType_try_from (z : Z) : option ProtoNATType :=
  if z =? 0 then Some NAT_NONE else if z =? 1 then Some NAT_CONE
  else if z =? 2 then Some NAT_SYMMETRIC_SEQUENTIAL
  else if z =? 3 then Some NAT_SYMMETRIC_PSEUDO
  else if z =? 4 then Some NAT_SYMMETRIC_RANDOM else None.

#[export, refine] Instance ProtoNATType_enum : ProtoEnum ProtoNATType :=
  {| as_i32 := NATType_as_i32; try_from_i32 := NATType_try_from; proto_zero := NAT_NONE |}.
Proof. all: unfold NATType_try_from, NATType_as_i32; solve_proto_enum. Defined.

Definition Confidence_as_i32 (e : ProtoPredictionConfidence) : Z :=
  match e with SEQUENTIAL => 0 | PSEUDO_SEQUENTIAL => 1 | RANDOM => 2 end.

Definition Confidence_try_from (z : Z) : option ProtoPredictionConfidence :=
  if z =? 0 then Some SEQUENTIAL else if z =? 1 then Some PSEUDO_SEQUENTIAL
  else if z =? 2 then Some RANDOM else None.

#[export, refine] Instance ProtoConfidence_enum : ProtoEnum ProtoPredictionConfidence :=
  {| as_i32 := Confidence_as_i32; try_from_i32 := Confidence_try_from;
     proto_zero := SEQUENTIAL |}.
Proof. all: unfold Confidence_try_from, Confidence_as_i32; solve_proto_enum. Defined.

Definition ProbeMethod_as_i32 (e : ProtoProbeMethod) : Z :=
  match e with QUIC_PATH_PROBING => 0 end.

Definition ProbeMethod_try_from (z : Z) : option ProtoProbeMethod :=
  if z =? 0 then Some QUIC_PATH_PROBING else None.

#[export, refine] Instance ProtoProbeMethod_enum : ProtoEnum ProtoProbeMethod :=
  {| as_i32 := ProbeMethod_as_i32; try_from_i32 := ProbeMethod_try_from;
     proto_zero := QUIC_PATH_PROBING |}.
Proof. all: unfold ProbeMethod_try_from, ProbeMethod_as_i32; solve_proto_enum. Defined.

Definition MediaType_as_i32 (e : ProtoMediaType) : Z :=
  match e with MEDIA_AUDIO => 0 | MEDIA_VIDEO => 1 | MEDIA_SCREEN => 2 end.

Definition MediaType_try_from (z : Z) : option ProtoMediaType :=
  if z =? 0 then Some MEDIA_AUDIO else if z =? 1 then Some MEDIA_VIDEO
  else if z =? 2 then Some MEDIA_SCREEN else None.

#[export, refine] Instance ProtoMediaType_enum : ProtoEnum ProtoMediaType :=
  {| as_i32 := MediaType_as_i32; try_from_i32 := MediaType_try_from;
     proto_zero := MEDIA_AUDIO |}.
Proof. all: unfold MediaType_try_from, MediaType_as_i32; solve_proto_enum. Defined.

Definition PeerStatus_as_i32 (e : ProtoPeerStatus) : Z :=
  match e with PEER_ONLINE => 0 | PEER_OFFLINE => 1 | PEER_IN_CALL => 2 end.

Definition PeerStatus_try_from (z : Z) : option ProtoPeerStatus :=
  if z =? 0 then Some PEER_ONLINE else if z =? 1 then Some PEER_OFFLINE
  else if z =? 2 then Some PEER_IN_CALL else None.

#[export, refine] Instance ProtoPeerStatus_enum : ProtoEnum ProtoPeerStatus :=
  {| as_i32 := PeerStatus_as_i32; try_from_i32 := PeerStatus_try_from;
     proto_zero := PEER_ONLINE |}.
Proof. all: unfold PeerStatus_try_from, PeerStatus_as_i32; solve_proto_enum. Defined.

Definition CallEndReason_as_i32 (e : ProtoCallEndReason) : Z :=
  match e with
  | END_NORMAL => 0 | END_REJECTED => 1 | END_TIMEOUT => 2 | END_FAILED_IPV4_RANDOM => 3
  | END_FAILED_UDP_BLOCKED => 4 | END_FAILED_NETWORK => 5 | END_MIGRATION_FAILED => 6
  | END_FAILED_MASQUE_UNREACHABLE => 7 | END_FAILED_TCP_BLOCKED => 8
  end.

Definition CallEndReason_try_from (z : Z) : option ProtoCallEndReason :=
  if z =? 0 then Some END_NORMAL else if z =? 1 then Some END_REJECTED
  else if z =? 2 then Some END_TIMEOUT else if z =? 3 then Some END_FAILED_IPV4_RANDOM
  else if z =? 4 then Some END_FAILED_UDP_BLOCKED
  else if z =? 5 then Some END_FAILED_NETWORK
  else if z =? 6 then Some END_MIGRATION_FAILED
  else if z =? 7 then Some END_FAILED_MASQUE_UNREACHABLE
  else if z =? 8 then Some END_FAILED_TCP_BLOCKED else None.

#[export, refine] Instance ProtoCallEndReason_enum : ProtoEnum ProtoCallEndReason :=
  {| as_i32 := CallEndReason_as_i32; try_from_i32 := CallEndReason_try_from;
     proto_zero := END_NORMAL |}.
Proof. all: unfold CallEndReason_try_from, CallEndReason_as_i32; solve_proto_enum. Defined.

(** ** Conversions between wire and native enumerations *)

#[export] Instance NATType_from_proto : Convert ProtoNATType NATType := fun v =>
  match v with
  | NAT_NONE => NATType_None
  | NAT_CONE => NATType_Cone
  | NAT_SYMMETRIC_SEQUENTIAL => NATType_SymmetricSequential
  | NAT_SYMMETRIC_PSEUDO => NATType_SymmetricPseudo
  | NAT_SYMMETRIC_RANDOM => NATType_SymmetricRandom
  end.

#[export] Instance NATType_to_proto : Convert NATType ProtoNATType := fun v =>
  match v with
  | NATType_None => NAT_NONE
  | NATType_Cone => NAT_CONE
  | NATType_SymmetricSequential => NAT_SYMMETRIC_SEQUENTIAL
  | NATType_SymmetricPseudo => NAT_SYMMETRIC_PSEUDO
  | NATType_SymmetricRandom => NAT_SYMMETRIC_RANDOM
  end.

#[export] Instance Confidence_from_proto :
  Convert ProtoPredictionConfidence PredictionConfidence := fun v =>
  match v with
  | SEQUENTIAL => Confidence_Sequential
  | PSEUDO_SEQUENTIAL => Confidence_PseudoSequential
  | RANDOM => Confidence_Random
  end.

#[export] Instance Confidence_to_proto :
  Convert PredictionConfidence ProtoPredictionConfidence := fun v =>
  match v with
  | Confidence_Sequential => SEQUENTIAL
  | Confidence_PseudoSequential => PSEUDO_SEQUENTIAL
  | Confidence_Random => RANDOM
  end.

#[export] Instance ProbeMethod_from_proto : Convert ProtoProbeMethod ProbeMethod := fun v =>
  match v with QUIC_PATH_PROBING => QuicPathProbing end.

#[export] Instance ProbeMethod_to_proto : Convert ProbeMethod ProtoProbeMethod := fun v =>
  match v with QuicPathProbing => QUIC_PATH_PROBING end.

#[export] Instance DiscoveryMethod_from_proto :
  Convert ProtoDiscoveryMethod DiscoveryMethod := fun v =>
  match v with
  | DISCOVERY_DHT => Discovery_Dht
  | DISCOVERY_SIGNALING => Discovery_Signaling
  | DISCOVERY_CACHE => Discovery_Cache
  end.

#[export] Instance DiscoveryMethod_to_proto :
  Convert DiscoveryMethod ProtoDiscoveryMethod := fun v =>
  match v with
  | Discovery_Dht => DISCOVERY_DHT
  | Discovery_Signaling => DISCOVERY_SIGNALING
  | Discovery_Cache => DISCOVERY_CACHE
  end.

#[export] Instance MediaType_from_proto : Convert ProtoMediaType MediaType := fun v =>
  match v with
  | MEDIA_AUDIO => Media_Audio | MEDIA_VIDEO => Media_Video | MEDIA_SCREEN => Media_Screen
  end.

#[export] Instance MediaType_to_proto : Convert MediaType ProtoMediaType := fun v =>
  match v with
  | Media_Audio => MEDIA_AUDIO | Media_Video => MEDIA_VIDEO | Media_Screen => MEDIA_SCREEN
  end.

#[export] Instance WireCallState_from_proto :
  Convert ProtoCallState WireCallState := fun v =>
  match v with
  | CALL_RINGING => WireCall_Ringing
  | CALL_ACCEPTED => WireCall_Accepted
  | CALL_CONNECTED => WireCall_Connected
  | CALL_FAILED => WireCall_Failed
  | CALL_ENDED => WireCall_Ended
  end.

#[export] Instance WireCallState_to_proto : Convert WireCallState ProtoCallState := fun v =>
  match v with
  | WireCall_Ringing => CALL_RINGING
  | WireCall_Accepted => CALL_ACCEPTED
  | WireCall_Connected => CALL_CONNECTED
  | WireCall_Failed => CALL_FAILED
  | WireCall_Ended => CALL_ENDED
  end.

#[export] Instance SubscriptionState_from_proto :
  Convert ProtoSubscriptionState SubscriptionState := fun v =>
  match v with
  | SUB_PENDING => Sub_Pending
  | SUB_ACTIVE => Sub_Active
  | SUB_PAUSED => Sub_Paused
  | SUB_ENDED => Sub_Ended
  end.

#[export] Instance SubscriptionState_to_proto :
  Convert SubscriptionState ProtoSubscriptionState := fun v =>
  match v with
  | Sub_Pending => SUB_PENDING
  | Sub_Active => SUB_ACTIVE
  | Sub_Paused => SUB_PAUSED
  | Sub_Ended => SUB_ENDED
  end.

#[export] Instance PeerStatus_from_proto : Convert ProtoPeerStatus PeerStatus := fun v =>
  match v with
  | PEER_ONLINE => Peer_Online | PEER_OFFLINE => Peer_Offline | PEER_IN_CALL => Peer_InCall
  end.

#[export] Instance PeerStatus_to_proto : Convert PeerStatus ProtoPeerStatus := fun v =>
  match v with
  | Peer_Online => PEER_ONLINE | Peer_Offline => PEER_OFFLINE | Peer_InCall => PEER_IN_CALL
  end.

#[export] Instance ConnectionMethod_from_proto :
  Convert ProtoConnectionMethod ConnectionMethod := fun v =>
  match v with
  | CONN_NONE => Conn_None
  | CONN_IPV6_DIRECT => Conn_Ipv6Direct
  | CONN_IPV4_CONE => Conn_Ipv4Cone
  | CONN_IPV4_PREDICTION => Conn_Ipv4Prediction
  | CONN_MASQUE => Conn_Masque
  | CONN_MASQUE_HTTP2 => Conn_MasqueHttp2
  end.

#[export] Instance ConnectionMethod_to_proto :
  Convert ConnectionMethod ProtoConnectionMethod := fun v =>
  match v with
  | Conn_None => CONN_NONE
  | Conn_Ipv6Direct => CONN_IPV6_DIRECT
  | Conn_Ipv4Cone => CONN_IPV4_CONE
  | Conn_Ipv4Prediction => CONN_IPV4_PREDICTION
  | Conn_Masque => CONN_MASQUE
  | Conn_MasqueHttp2 => CONN_MASQUE_HTTP2
  end.

#[export] Instance CallEndReason_from_proto :
  Convert ProtoCallEndReason CallEndReason := fun v =>
  match v with
  | END_NORMAL => End_Normal
  | END_REJECTED => End_Rejected
  | END_TIMEOUT => End_Timeout
  | END_FAILED_IPV4_RANDOM => End_FailedIpv4Random
  | END_FAILED_UDP_BLOCKED => End_FailedUdpBlocked
  | END_FAILED_NETWORK => End_FailedNetwork
  | END_MIGRATION_FAILED => End_MigrationFailed
  | END_FAILED_MASQUE_UNREACHABLE => End_FailedMasqueUnreachable
  | END_FAILED_TCP_BLOCKED => End_FailedTcpBlocked
  end.

#[export] Instance CallEndReason_to_proto :
  Convert CallEndReason ProtoCallEndReason := fun v =>
  match v with
  | End_Normal => END_NORMAL
  | End_Rejected => END_REJECTED
  | End_Timeout => END_TIMEOUT
  | End_FailedIpv4Random => END_FAILED_IPV4_RANDOM
  | End_FailedUdpBlocked => END_FAILED_UDP_BLOCKED
  | End_FailedNetwork => END_FAILED_NETWORK
  | End_MigrationFailed => END_MIGRATION_FAILED
  | End_FailedMasqueUnreachable => END_FAILED_MASQUE_UNREACHABLE
  | End_FailedTcpBlocked => END_FAILED_TCP_BLOCKED
  end.

(** ** Predicates on the enumerations *)

Definition NATType_is_predictable (t : NATType) : bool :=
  match t with
  | NATType_SymmetricSequential | NATType_SymmetricPseudo => true
  | _ => false
  end.

Definition NATType_is_no_nat (t : NATType) : bool :=
  match t with NATType_None => true | _ => false end.

Definition Confidence_is_predictable (c : PredictionConfidence) : bool :=
  match c with Confidence_Random => false | _ => true end.

Definition ConnectionMethod_label (m : ConnectionMethod) : string :=
  match m with
  | Conn_None => "Not Connected"
  | Conn_Ipv6Direct => "IPv6 Direct"
  | Conn_Ipv4Cone => "QUIC Simultaneous Open"
  | Conn_Ipv4Prediction => "QUIC Port Prediction"
  | Conn_Masque => "MASQUE/HTTP3"
  | Conn_MasqueHttp2 => "MASQUE/HTTP2"
  end.

Definition is_direct (m : ConnectionMethod) : bool :=
  match m with Conn_Ipv6Direct | Conn_Ipv4Cone | Conn_Ipv4Prediction => true | _ => false end.

Definition is_relayed (m : ConnectionMethod) : bool :=
  match m with Conn_Masque | Conn_MasqueHttp2 => true | _ => false end.

Definition is_failure (r : CallEndReason) : bool :=
  match r with
  | End_Timeout | End_FailedIpv4Random | End_FailedUdpBlocked | End_FailedNetwork
  | End_MigrationFailed | End_FailedMasqueUnreachable | End_FailedTcpBlocked => true
  | _ => false
  end.

Definition should_retry (r : CallEndReason) : bool :=
  match r with End_FailedIpv4Random | End_FailedMasqueUnreachable => true | _ => false end.

(** ** Composite records *)

Record ProtoPortPrediction := {
  ppp_external_ip : string;
  ppp_predicted_port_start : Z;
  ppp_predicted_port_end : Z;
  ppp_confidence : Z;
  ppp_base_port : Z;
  ppp_delta_pattern : Z;
  ppp_probed_at : Z;
  ppp_probe_method : Z
}.

Record ProtoTrackAnnouncement := {
  pta_track_namespace : string;
  pta_codec : string;
  pta_priority : Z;
  pta_media_type : Z;
  pta_bitrate_max : Z;
  pta_bitrate_min : Z;
  pta_frame_duration_ms : Z
}.

Record ProtoNATInfo := {
  pni_nat_type : Z;
  pni_prediction : option ProtoPortPrediction
}.

Record PortPredictionData := {
  external_ip : string;
  predicted_port_start : Z;
  predicted_port_end : Z;
  confidence : PredictionConfidence;
  base_port : Z;
  delta_pattern : Z;
  probed_at : Z;
  probe_method : ProbeMethod
}.

Record TrackInfo := {
  track_namespace : string;
  codec : string;
  priority : Z;
  media_type : MediaType;
  bitrate_max : Z;
  bitrate_min : Z;
  frame_duration_ms : Z
}.

Record NATInfo := {
  nat_type : NATType;
  prediction : option PortPredictionData
}.

Definition PortPrediction_from_proto (p : ProtoPortPrediction) : PortPredictionData := {|
  external_ip := ppp_external_ip p;
  predicted_port_start := ppp_predicted_port_start p;
  predicted_port_end := ppp_predicted_port_end p;
  confidence := i32_to_native_enum (E := ProtoPredictionConfidence) (ppp_confidence p);
  base_port := ppp_base_port p;
  delta_pattern := ppp_delta_pattern p;
  probed_at := ppp_probed_at p;
  probe_method := i32_to_native_enum (E := ProtoProbeMethod) (ppp_probe_method p)
|}.

Definition PortPrediction_to_proto (d : PortPredictionData) : ProtoPortPrediction := {|
  ppp_external_ip := external_ip d;
  ppp_predicted_port_start := predicted_port_start d;
  ppp_predicted_port_end := predicted_port_end d;
  ppp_confidence := as_i32 (into (confidence d) : ProtoPredictionConfidence);
  ppp_base_port := base_port d;
  ppp_delta_pattern := delta_pattern d;
  ppp_probed_at := probed_at d;
  ppp_probe_method := as_i32 (into (probe_method d) : ProtoProbeMethod)
|}.

(** [predicted_port_end.saturating_sub(start) + 1]; the addition can leave [u32]. *)
Definition range_size (m : overflow_mode) (d : PortPredictionData) : option Z :=
  arith m 32 (saturating_sub (predicted_port_end d) (predicted_port_start d) + 1).

Definition is_usable (d : PortPredictionData) : bool :=
  Confidence_is_predictable (confidence d) && (0 <? predicted_port_start d)
  && (predicted_port_start d <=? predicted_port_end d).

Definition TrackInfo_from_proto (p : ProtoTrackAnnouncement) : TrackInfo := {|
  track_namespace := pta_track_namespace p;
  codec := pta_codec p;
  priority := pta_priority p;
  media_type := i32_to_native_enum (E := ProtoMediaType) (pta_media_type p);
  bitrate_max := pta_bitrate_max p;
  bitrate_min := pta_bitrate_min p;
  frame_duration_ms := pta_frame_duration_ms p
|}.

Definition TrackInfo_to_proto (d : TrackInfo) : ProtoTrackAnnouncement := {|
  pta_track_namespace := track_namespace d;
  pta_codec := codec d;
  pta_priority := priority d;
  pta_media_type := as_i32 (into (media_type d) : ProtoMediaType);
  pta_bitrate_max := bitrate_max d;
  pta_bitrate_min := bitrate_min d;
  pta_frame_duration_ms := frame_duration_ms d
|}.

Definition NATInfo_from_proto (p : ProtoNATInfo) : NATInfo := {|
  nat_type := i32_to_native_enum (E := ProtoNATType) (pni_nat_type p);
  prediction := PortPrediction_from_proto <$> pni_prediction p
|}.

Definition NATInfo_to_proto (d : NATInfo) : ProtoNATInfo := {|
  pni_nat_type := as_i32 (into (nat_type d) : ProtoNATType);
  pni_prediction := PortPrediction_to_proto <$> prediction d
|}.

Definition no_nat : NATInfo := {| nat_type := NATType_None; prediction := None |}.

Definition cone_nat : NATInfo := {| nat_type := NATType_Cone; prediction := None |}.

Definition symmetric_with_prediction (p : PortPredictionData) : NATInfo := {|
  nat_type := match confidence p with
              | Confidence_Sequential => NATType_SymmetricSequential
              | Confidence_PseudoSequential => NATType_SymmetricPseudo
              | Confidence_Random => NATType_SymmetricRandom
              end;
  prediction := Some p
|}.

Definition supports_direct (i : NATInfo) : bool :=
  match nat_type i with
  | NATType_None | NATType_Cone | NATType_SymmetricSequential | NATType_SymmetricPseudo =>
      true
  | _ => false
  end.

(** ** MASQUE vocabulary *)

Inductive TunnelStatus :=
| Tunnel_NotNeeded | Tunnel_Connecting | Tunnel_Active | Tunnel_ActiveHttp2
| Tunnel_Recovering | Tunnel_Failed.

#[export] Instance TunnelStatus_eq_dec : EqDecision TunnelStatus.
Proof. solve_decision. Defined.

Definition TunnelStatus_is_active (s : TunnelStatus) : bool :=
  match s with Tunnel_Active | Tunnel_ActiveHttp2 => true | _ => false end.

Definition TunnelStatus_is_failed (s : TunnelStatus) : bool :=
  match s with Tunnel_Failed => true | _ => false end.

Inductive MasqueTransport := Transport_Http3 | Transport_Http2.

Definition MAX_SESSIONS : Z := 10.
Definition MAX_SESSION_DURATION_SECS : Z := 4 * 3600.
Definition MAX_DATAGRAMS_PER_SEC : Z := 200.
Definition MAX_DATAGRAM_SIZE : Z := 1280.
Definition MAX_BANDWIDTH_BPS : Z := 500000.
Definition PROXY_TOKEN_TTL_SECS : Z := 60.

(** ** Facts *)

#[export] Instance NATType_iso : ConvertIso ProtoNATType NATType.
Proof. by split; intros []. Qed.
#[export] Instance Confidence_iso : ConvertIso ProtoPredictionConfidence PredictionConfidence.
Proof. by split; intros []. Qed.
#[export] Instance ProbeMethod_iso : ConvertIso ProtoProbeMethod ProbeMethod.
Proof. by split; intros []. Qed.
#[export] Instance MediaType_iso : ConvertIso ProtoMediaType MediaType.
Proof. by split; intros []. Qed.
#[export] Instance CallEndReason_iso : ConvertIso ProtoCallEndReason CallEndReason.
Proof. by split; intros []. Qed.
#[export] Instance PeerStatus_iso : ConvertIso ProtoPeerStatus PeerStatus.
Proof. by split; intros []. Qed.

Section EnumFacts.
Context {E N : Type} `{ProtoEnum E} `{Convert E N} `{Convert N E} `{!ConvertIso E N}.

Lemma i32_roundtrip (n : N) : i32_to_native_enum (E := E) (as_i32 (into n : E)) = n.
Proof. unfold i32_to_native_enum. rewrite try_from_as. apply into_into. Qed.

(** Decoding then encoding a wire value changes it only to 0. *)
Lemma i32_normalised (z : Z) :
  let z' := as_i32 (into (i32_to_native_enum (E := E) z : N) : E) in
  z' = z \/ (try_from_i32 (E := E) z = None /\ z' = 0).
Proof.
  cbn zeta. unfold i32_to_native_enum. destruct (try_from_i32 z) as [e|] eqn:Ez.
  - left. rewrite into_into'. by apply as_try_from.
  - right. split; [done|]. rewrite into_into'. apply as_try_from, try_from_zero.
Qed.
End EnumFacts.

Lemma PortPrediction_roundtrip (d : PortPredictionData) :
  PortPrediction_from_proto (PortPrediction_to_proto d) = d.
Proof.
  destruct d. unfold PortPrediction_from_proto, PortPrediction_to_proto.
  cbn -[i32_to_native_enum as_i32 into]. by rewrite !i32_roundtrip.
Qed.

Lemma TrackInfo_roundtrip (d : TrackInfo) : TrackInfo_from_proto (TrackInfo_to_proto d) = d.
Proof.
  destruct d. unfold TrackInfo_from_proto, TrackInfo_to_proto.
  cbn -[i32_to_native_enum as_i32 into]. by rewrite i32_roundtrip.
Qed.

(** A native [NATInfo], with its optional port prediction, survives conversion to
    its wire message and back. *)
Lemma NATInfo_wire_roundtrip (d : NATInfo) : NATInfo_from_proto (NATInfo_to_proto d) = d.
Proof.
  destruct d as [t [p|]]; unfold NATInfo_from_proto, NATInfo_to_proto;
    cbn -[i32_to_native_enum as_i32 into PortPrediction_from_proto PortPrediction_to_proto];
    rewrite ?PortPrediction_roundtrip; by rewrite i32_roundtrip.
Qed.
