(* ===== verification/Config.v ===== *)
(** * voip-core configuration and errors

    [voip-core/src/config.rs]: the configuration record, its defaults, the retry
    backoff and the port ranges derived from it.  [voip-core/src/error.rs]: the
    error type and its classifications. *)

From S2P Require Import Prelude Types.

Local Open Scope Z_scope.
Local Open Scope rust_scope.

(** ** Configuration *)

Record VoIPConfig := {
  path_probe_count : Z;
  path_probe_timeout_ms : Z;
  nat_cache_ttl_secs : Z;
  path_refresh_count : Z;
  nat_delta_variance_threshold : Z;
  prediction_margin_sequential : Z;
  prediction_margin_pseudo : Z;
  prediction_max_probes : Z;
  quic_connect_timeout_ms : Z;
  quic_prediction_timeout_ms : Z;
  quic_idle_timeout_ms : Z;
  quic_alpn : string;
  discovery_privacy_first : bool;
  dht_lookup_timeout_ms : Z;
  dht_bootstrap_nodes : list string;
  dht_record_ttl_secs : Z;
  push_retry_enabled : bool;
  push_retry_initial_delay_secs : Z;
  push_retry_max_attempts : Z;
  push_retry_backoff_multiplier : Z;
  masque_fallback_enabled : bool;
  masque_discovery_timeout_ms : Z;
  masque_connect_timeout_ms : Z;
  masque_max_proxy_attempts : Z;
  masque_proxy_enabled : bool;
  masque_proxy_max_sessions : Z;
  call_ring_timeout_ms : Z;
  call_connect_timeout_ms : Z;
  migration_path_timeout_ms : Z;
  migration_max_reprobes : Z;
  rate_limit_calls_per_min : Z;
  rate_limit_registrations_per_min : Z;
  rate_limit_ws_messages_per_sec : Z;
  jwt_expiry_secs : Z;
  signaling_server_ips : list string;
  session_ticket_ttl_secs : Z;
  moq_feedback_interval_ms : Z;
  ws_idle_timeout_secs : Z
}.

Definition default_config : VoIPConfig := {|
  path_probe_count := 5;
  path_probe_timeout_ms := 1000;
  nat_cache_ttl_secs := 300;
  path_refresh_count := 2;
  nat_delta_variance_threshold := 3;
  prediction_margin_sequential := 3;
  prediction_margin_pseudo := 8;
  prediction_max_probes := 17;
  quic_connect_timeout_ms := 5000;
  quic_prediction_timeout_ms := 3000;
  quic_idle_timeout_ms := 30000;
  quic_alpn := "moq-00";
  discovery_privacy_first := true;
  dht_lookup_timeout_ms := 200;
  dht_bootstrap_nodes := [];
  dht_record_ttl_secs := 3600;
  push_retry_enabled := true;
  push_retry_initial_delay_secs := 5;
  push_retry_max_attempts := 3;
  push_retry_backoff_multiplier := 3;
  masque_fallback_enabled := true;
  masque_discovery_timeout_ms := 2000;
  masque_connect_timeout_ms := 3000;
  masque_max_proxy_attempts := 3;
  masque_proxy_enabled := false;
  masque_proxy_max_sessions := 10;
  call_ring_timeout_ms := 30000;
  call_connect_timeout_ms := 10000;
  migration_path_timeout_ms := 5000;
  migration_max_reprobes := 1;
  rate_limit_calls_per_min := 10;
  rate_limit_registrations_per_min := 6;
  rate_limit_ws_messages_per_sec := 30;
  jwt_expiry_secs := 3600;
  signaling_server_ips := [];
  session_ticket_ttl_secs := 86400;
  moq_feedback_interval_ms := 1000;
  ws_idle_timeout_secs := 300
|}.

(** A configuration with other server addresses. *)
Definition with_server_ips (ips : list string) (c : VoIPConfig) : VoIPConfig := {|
  path_probe_count := path_probe_count c; path_probe_timeout_ms := path_probe_timeout_ms c;
  nat_cache_ttl_secs := nat_cache_ttl_secs c; path_refresh_count := path_refresh_count c;
  nat_delta_variance_threshold := nat_delta_variance_threshold c;
  prediction_margin_sequential := prediction_margin_sequential c;
  prediction_margin_pseudo := prediction_margin_pseudo c;
  prediction_max_probes := prediction_max_probes c;
  quic_connect_timeout_ms := quic_connect_timeout_ms c;
  quic_prediction_timeout_ms := quic_prediction_timeout_ms c;
  quic_idle_timeout_ms := quic_idle_timeout_ms c; quic_alpn := quic_alpn c;
  discovery_privacy_first := discovery_privacy_first c;
  dht_lookup_timeout_ms := dht_lookup_timeout_ms c;
  dht_bootstrap_nodes := dht_bootstrap_nodes c; dht_record_ttl_secs := dht_record_ttl_secs c;
  push_retry_enabled := push_retry_enabled c;
  push_retry_initial_delay_secs := push_retry_initial_delay_secs c;
  push_retry_max_attempts := push_retry_max_attempts c;
  push_retry_backoff_multiplier := push_retry_backoff_multiplier c;
  masque_fallback_enabled := masque_fallback_enabled c;
  masque_discovery_timeout_ms := masque_discovery_timeout_ms c;
  masque_connect_timeout_ms := masque_connect_timeout_ms c;
  masque_max_proxy_attempts := masque_max_proxy_attempts c;
  masque_proxy_enabled := masque_proxy_enabled c;
  masque_proxy_max_sessions := masque_proxy_max_sessions c;
  call_ring_timeout_ms := call_ring_timeout_ms c;
  call_connect_timeout_ms := call_connect_timeout_ms c;
  migration_path_timeout_ms := migration_path_timeout_ms c;
  migration_max_reprobes := migration_max_reprobes c;
  rate_limit_calls_per_min := rate_limit_calls_per_min c;
  rate_limit_registrations_per_min := rate_limit_registrations_per_min c;
  rate_limit_ws_messages_per_sec := rate_limit_ws_messages_per_sec c;
  jwt_expiry_secs := jwt_expiry_secs c; signaling_server_ips := ips;
  session_ticket_ttl_secs := session_ticket_ttl_secs c;
  moq_feedback_interval_ms := moq_feedback_interval_ms c;
  ws_idle_timeout_secs := ws_idle_timeout_secs c
|}.

(** [initial * multiplier.pow(attempt - 1)] in [u64].  [u64::pow] multiplies only
    powers that divide the result, so it overflows exactly when the result does. *)
Definition retry_delay_secs (m : overflow_mode) (c : VoIPConfig) (attempt : Z) : option Z :=
  if attempt =? 0 then Some 0
  else
    let exponent := attempt - 1 in
    let multiplier := push_retry_backoff_multiplier c in
    let?o p := arith m 64 (multiplier ^ exponent) in
    arith m 64 (push_retry_initial_delay_secs c * p).

Definition sequential_prediction_range (c : VoIPConfig) (base : Z) : Z * Z :=
  let start := saturating_sub base (prediction_margin_sequential c) in
  let end_ := saturating_add 32 base (prediction_margin_sequential c) in
  (Z.max start 1024, Z.min end_ 65535).

Definition pseudo_prediction_range (c : VoIPConfig) (base : Z) : Z * Z :=
  let start := saturating_sub base (prediction_margin_pseudo c) in
  let end_ := saturating_add 32 base (prediction_margin_pseudo c) in
  (Z.max start 1024, Z.min end_ 65535).

Record OpusConfig := {
  sample_rate : Z;
  channels : Z;
  application : Z;
  opus_bitrate_max : Z;
  opus_bitrate_min : Z;
  opus_frame_duration_ms : Z;
  fec : bool;
  dtx : bool;
  complexity : Z;
  frame_size : Z
}.

Definition OPUS_APPLICATION_VOIP : Z := 2048.

Definition default_opus_config : OpusConfig := {|
  sample_rate := 48000;
  channels := 1;
  application := OPUS_APPLICATION_VOIP;
  opus_bitrate_max := 64000;
  opus_bitrate_min := 6000;
  opus_frame_duration_ms := 20;
  fec := true;
  dtx := true;
  complexity := 10;
  frame_size := 960
|}.

(** ** Errors *)

Inductive VoipError :=
| QuicConnectionFailed (s : string)
| QuicHandshakeTimeout
| MigrationFailed
| NatProbeFailed (s : string)
| NatRandomBothSides
| UdpBlocked
| TcpBlocked
| MasqueProxyUnreachable (s : string)
| MasqueTunnelFailed (s : string)
| MasqueTunnelDisconnected
| MasqueNoProxy
| ProxyTokenInvalid
| SignalingError (s : string)
| JwtAuthFailed (s : string)
| RateLimited
| PeerNotFound (s : string)
| PeerOffline (s : string)
| InvalidTransition (from to reason : string)
| CallAlreadyExists (s : string)
| DhtLookupFailed (s : string)
| DhtRecordVerificationFailed
| SignatureVerificationFailed
| InvalidKeyMaterial (s : string)
| Internal (s : string).

Definition to_call_end_reason (e : VoipError) : CallEndReason :=
  match e with
  | QuicConnectionFailed _ => End_FailedNetwork
  | QuicHandshakeTimeout => End_Timeout
  | MigrationFailed => End_MigrationFailed
  | NatProbeFailed _ => End_FailedNetwork
  | NatRandomBothSides => End_FailedIpv4Random
  | UdpBlocked => End_FailedUdpBlocked
  | TcpBlocked => End_FailedTcpBlocked
  | MasqueProxyUnreachable _ => End_FailedMasqueUnreachable
  | MasqueTunnelFailed _ => End_FailedMasqueUnreachable
  | MasqueTunnelDisconnected => End_FailedMasqueUnreachable
  | MasqueNoProxy => End_FailedMasqueUnreachable
  | ProxyTokenInvalid => End_FailedMasqueUnreachable
  | SignalingError _ => End_FailedNetwork
  | JwtAuthFailed _ => End_FailedNetwork
  | RateLimited => End_FailedNetwork
  | PeerNotFound _ => End_FailedNetwork
  | PeerOffline _ => End_Timeout
  | InvalidTransition _ _ _ => End_FailedNetwork
  | CallAlreadyExists _ => End_FailedNetwork
  | DhtLookupFailed _ => End_FailedNetwork
  | DhtRecordVerificationFailed => End_FailedNetwork
  | SignatureVerificationFailed => End_FailedNetwork
  | InvalidKeyMaterial _ => End_FailedNetwork
  | Internal _ => End_FailedNetwork
  end.

Definition UNKNOWN_PEER : Z := 1001.
Definition PEER_OFFLINE_CODE : Z := 1002.
Definition INVALID_CALL_ID : Z := 1003.
Definition CALL_ALREADY_EXISTS : Z := 1004.
Definition NOT_CALL_PARTICIPANT : Z := 1005.
Definition RATE_LIMITED : Z := 2001.
Definition INVALID_JWT : Z := 2002.
Definition INVALID_MESSAGE : Z := 2003.
Definition MASQUE_NO_PROXY : Z := 3001.
Definition MASQUE_PROXY_TIMEOUT : Z := 3002.
Definition MASQUE_COORDINATION_FAILED : Z := 3003.
Definition INTERNAL_ERROR : Z := 9999.

Definition to_error_code (e : VoipError) : Z :=
  match e with
  | PeerNotFound _ => UNKNOWN_PEER
  | PeerOffline _ => PEER_OFFLINE_CODE
  | CallAlreadyExists _ => CALL_ALREADY_EXISTS
  | RateLimited => RATE_LIMITED
  | JwtAuthFailed _ => INVALID_JWT
  | SignalingError _ => INVALID_MESSAGE
  | MasqueNoProxy => MASQUE_NO_PROXY
  | MasqueProxyUnreachable _ => MASQUE_PROXY_TIMEOUT
  | ProxyTokenInvalid => MASQUE_COORDINATION_FAILED
  | _ => INTERNAL_ERROR
  end.

Definition is_recoverable (e : VoipError) : bool :=
  match e with
  | QuicHandshakeTimeout | NatProbeFailed _ | DhtLookupFailed _ | SignalingError _ => true
  | _ => false
  end.

Definition is_migratable (e : VoipError) : bool :=
  match e with MigrationFailed | MasqueTunnelDisconnected => true | _ => false end.

Definition is_fatal (e : VoipError) : bool :=
  match e with
  | NatRandomBothSides | UdpBlocked | TcpBlocked | MasqueNoProxy | PeerNotFound _
  | SignatureVerificationFailed | DhtRecordVerificationFailed => true
  | _ => false
  end.

Definition should_push_retry (e : VoipError) : bool :=
  match e with NatRandomBothSides | MasqueProxyUnreachable _ => true | _ => false end.

(** ** Facts about the configuration *)

(** While the product stays in [u64], both build modes compute the closed form. *)
Lemma retry_delay_closed_form m c n :
  1 <= n -> 1 <= push_retry_initial_delay_secs c -> 1 <= push_retry_backoff_multiplier c ->
  push_retry_initial_delay_secs c * push_retry_backoff_multiplier c ^ (n - 1) < 2 ^ 64 ->
  retry_delay_secs m c n =
    Some (push_retry_initial_delay_secs c * push_retry_backoff_multiplier c ^ (n - 1)).
Proof.
  intros Hn Hi Hm Hb. unfold retry_delay_secs.
  rewrite (proj2 (Z.eqb_neq n 0)) by lia. cbv zeta.
  assert (0 < push_retry_backoff_multiplier c ^ (n - 1)) by (apply Z.pow_pos_nonneg; lia).
  rewrite arith_in_range by nia. simpl. apply arith_in_range. nia.
Qed.

(** A port range is within the user ports, contains the base port, and is no wider
    than the margin allows. *)
Definition range_around (margin base : Z) (r : Z * Z) : Prop :=
  1024 <= fst r <= base /\ base <= snd r <= 65535 /\ snd r - fst r + 1 <= 2 * margin + 1.

Lemma prediction_ranges_bounded c base :
  0 <= prediction_margin_sequential c -> 0 <= prediction_margin_pseudo c ->
  1024 <= base <= 65535 ->
  range_around (prediction_margin_sequential c) base (sequential_prediction_range c base) /\
  range_around (prediction_margin_pseudo c) base (pseudo_prediction_range c base).
Proof.
  intros. unfold range_around, sequential_prediction_range, pseudo_prediction_range,
    saturating_sub, saturating_add. simpl. lia.
Qed.

(** ** Properties *)

(** The push-retry backoff is [initial * multiplier^(attempt-1)] whenever that
    product fits in [u64], in debug and release builds alike; with the default
    configuration the three attempts wait 5, 15 and 45 seconds. *)
Lemma retry_backoff_schedule (m : overflow_mode) (c : VoIPConfig) (n : Z) :
  1 <= n -> 1 <= push_retry_initial_delay_secs c -> 1 <= push_retry_backoff_multiplier c ->
  push_retry_initial_delay_secs c * push_retry_backoff_multiplier c ^ (n - 1) < 2 ^ 64 ->
  retry_delay_secs m c n =
    Some (push_retry_initial_delay_secs c * push_retry_backoff_multiplier c ^ (n - 1)) /\
  (fun k => retry_delay_secs m default_config k) <$> [1; 2; 3] = [Some 5; Some 15; Some 45].
Proof.
  intros. split; [by apply retry_delay_closed_form|]. by destruct m.
Qed.

Lemma retry_backoff_schedule_witness :
  retry_delay_secs Checked default_config 4 = Some 135 /\
  (fun k => retry_delay_secs Checked default_config k) <$> [1; 2; 3] = [Some 5; Some 15; Some 45].
Proof. apply (retry_backoff_schedule Checked default_config 4); vm_compute; congruence. Defined.

(** The classifications of [VoipError] are coherent: no error is in two of the
    classes recoverable, migratable and fatal; every error ends a call with a failure
    reason; an error that asks for a push retry has a reason that allows one; and only
    the peer, protocol, MASQUE and internal codes of spec/08 are produced. *)
Lemma error_classification_coherent (e : VoipError) :
  (is_recoverable e && is_migratable e = false) /\
  (is_recoverable e && is_fatal e = false) /\ (is_migratable e && is_fatal e = false) /\
  is_failure (to_call_end_reason e) = true /\
  (should_push_retry e = true -> should_retry (to_call_end_reason e) = true) /\
  to_error_code e ∈ [1001; 1002; 1004; 2001; 2002; 2003; 3001; 3002; 3003; 9999].
Proof. destruct e; repeat split; try done; apply list_elem_of_In; vm_compute; tauto. Qed.
