(* ===== verification/CallState.v ===== *)
(** * The call state machine

    [voip-core/src/state.rs]: the lifecycle of one call.  Every method of
    [CallStateMachine] is a function returning the new machine and the
    [TransitionResult]; [apply] dispatches an operation to its method. *)

From S2P Require Import Prelude Types.

Local Open Scope Z_scope.

Inductive CallState := Idle | Ringing | Accepted | Connected | Failed | Ended.

#[export] Instance CallState_eq_dec : EqDecision CallState.
Proof. solve_decision. Defined.

Definition CallState_display (s : CallState) : string :=
  match s with
  | Idle => "Idle" | Ringing => "Ringing" | Accepted => "Accepted"
  | Connected => "Connected" | Failed => "Failed" | Ended => "Ended"
  end.

Inductive TransitionResult :=
| TrOk
| TrInvalid (from to : CallState) (reason : string).

(** [TransitionResult::unwrap]; [None] is the panic of the failed assertion. *)
Definition tr_unwrap (r : TransitionResult) : option unit :=
  match r with TrOk => Some tt | TrInvalid _ _ _ => None end.

Record CallStateMachine := {
  state : CallState;
  method : option ConnectionMethod;
  end_reason : option CallEndReason;
  retry_count : Z;
  max_retries : Z
}.

Definition csm_new (max_retries : Z) : CallStateMachine := {|
  state := Idle; method := None; end_reason := None; retry_count := 0;
  max_retries := max_retries
|}.

Definition is_terminal (c : CallStateMachine) : bool :=
  match state c with Failed | Ended => true | _ => false end.

Definition is_connected (c : CallStateMachine) : bool := bool_decide (state c = Connected).

Definition set_state (s : CallState) (c : CallStateMachine) : CallStateMachine := {|
  state := s; method := method c; end_reason := end_reason c;
  retry_count := retry_count c; max_retries := max_retries c
|}.

Definition set_end_reason (r : option CallEndReason) (c : CallStateMachine) : CallStateMachine := {|
  state := state c; method := method c; end_reason := r;
  retry_count := retry_count c; max_retries := max_retries c
|}.

Definition ring (c : CallStateMachine) : CallStateMachine * TransitionResult :=
  match state c with
  | Idle => (set_state Ringing c, TrOk)
  | _ => (c, TrInvalid (state c) Ringing "Can only ring from Idle state")
  end.

Definition accept (c : CallStateMachine) : CallStateMachine * TransitionResult :=
  match state c with
  | Ringing => (set_state Accepted c, TrOk)
  | _ => (c, TrInvalid (state c) Accepted "Can only accept from Ringing state")
  end.

Definition connect (m : ConnectionMethod) (c : CallStateMachine) : CallStateMachine * TransitionResult :=
  match state c with
  | Accepted =>
      ({| state := Connected; method := Some m; end_reason := end_reason c;
          retry_count := retry_count c; max_retries := max_retries c |}, TrOk)
  | _ => (c, TrInvalid (state c) Connected "Can only connect from Accepted state")
  end.

Definition end_ (r : CallEndReason) (c : CallStateMachine) : CallStateMachine * TransitionResult :=
  match state c with
  | Connected => (set_end_reason (Some r) (set_state Ended c), TrOk)
  | _ => (c, TrInvalid (state c) Ended "Can only end from Connected state")
  end.

Definition fail_ (r : CallEndReason) (c : CallStateMachine) : CallStateMachine * TransitionResult :=
  match state c with
  | Ringing | Accepted | Connected => (set_end_reason (Some r) (set_state Failed c), TrOk)
  | Idle => (c, TrInvalid (state c) Failed "Cannot fail from Idle state")
  | Failed => (c, TrInvalid (state c) Failed "Call has already failed")
  | Ended => (c, TrInvalid (state c) Failed "Call has already ended normally")
  end.

Definition reject (c : CallStateMachine) : CallStateMachine * TransitionResult :=
  match state c with
  | Ringing => (set_end_reason (Some End_Rejected) (set_state Failed c), TrOk)
  | _ => (c, TrInvalid (state c) Failed "Can only reject from Ringing state")
  end.

Definition timeout (c : CallStateMachine) : CallStateMachine * TransitionResult :=
  match state c with
  | Ringing | Accepted => (set_end_reason (Some End_Timeout) (set_state Failed c), TrOk)
  | _ => (c, TrInvalid (state c) Failed "Can only timeout from Ringing or Accepted state")
  end.

Definition retry (c : CallStateMachine) : CallStateMachine * TransitionResult :=
  match state c with
  | Failed =>
      if max_retries c <=? retry_count c
      then (c, TrInvalid (state c) Ringing "Max retries exceeded")
      else ({| state := Ringing; method := method c; end_reason := None;
               retry_count := retry_count c + 1; max_retries := max_retries c |}, TrOk)
  | _ => (c, TrInvalid (state c) Ringing "Can only retry from Failed state")
  end.

(** The public transition methods as one type of operations. *)
Inductive CallOp :=
| OpRing | OpAccept | OpConnect (m : ConnectionMethod) | OpEnd (r : CallEndReason)
| OpFail (r : CallEndReason) | OpReject | OpTimeout | OpRetry.

Definition apply (op : CallOp) (c : CallStateMachine) : CallStateMachine * TransitionResult :=
  match op with
  | OpRing => ring c
  | OpAccept => accept c
  | OpConnect m => connect m c
  | OpEnd r => end_ r c
  | OpFail r => fail_ r c
  | OpReject => reject c
  | OpTimeout => timeout c
  | OpRetry => retry c
  end.

(** A run: the final machine and the number of transitions that succeeded. *)
Fixpoint run (ops : list CallOp) (c : CallStateMachine) : CallStateMachine * Z :=
  match ops with
  | [] => (c, 0)
  | op :: ops' =>
      let '(c', r) := apply op c in
      let '(c'', n) := run ops' c' in
      (c'', match r with TrOk => n + 1 | TrInvalid _ _ _ => n end)
  end.

(** ** Abstract specification: the transition diagram of spec/07 §7.3.1

    The edges of the diagram in the documentation of [CallStateMachine],
    labelled with the operations; the retry edge has the guard
    [retry_count < max_retries]. *)

Inductive edge : CallState -> CallOp -> CallState -> Prop :=
| e_ring : edge Idle OpRing Ringing
| e_accept : edge Ringing OpAccept Accepted
| e_connect m : edge Accepted (OpConnect m) Connected
| e_end r : edge Connected (OpEnd r) Ended
| e_fail s r : s ∈ [Ringing; Accepted; Connected] -> edge s (OpFail r) Failed
| e_reject : edge Ringing OpReject Failed
| e_timeout s : s ∈ [Ringing; Accepted] -> edge s OpTimeout Failed
| e_retry : edge Failed OpRetry Ringing.

Definition op_guard (op : CallOp) (c : CallStateMachine) : Prop :=
  match op with OpRetry => retry_count c < max_retries c | _ => True end.

(** What a well-formed machine looks like. *)
Record csm_wf (c : CallStateMachine) : Prop := {
  wf_retry : 0 <= retry_count c <= max_retries c;
  wf_reason : is_Some (end_reason c) <-> is_terminal c = true;
  wf_method : state c ∈ [Connected; Ended] -> is_Some (method c);
  wf_idle : state c = Idle -> method c = None /\ retry_count c = 0
}.

(** Transitions a machine can still make: four per attempt that is left. *)
Definition fuel_left (c : CallStateMachine) : Z :=
  4 * (max_retries c - retry_count c) +
  match state c with Idle => 4 | Ringing => 3 | Accepted => 2 | Connected => 1 | _ => 0 end.

(** ** Facts *)

Ltac solve_csm :=
  repeat match goal with
  | c : CallStateMachine |- _ => destruct c as [[] ? ? ? ?]
  | op : CallOp |- _ => destruct op
  end; simpl in *.

Lemma apply_invalid op c c' from to reason :
  apply op c = (c', TrInvalid from to reason) -> c' = c /\ from = state c.
Proof.
  destruct op; simpl; unfold ring, accept, connect, end_, fail_, reject, timeout, retry;
    repeat case_match; intros; by simplify_eq.
Qed.

Lemma apply_wf op c c' r : csm_wf c -> apply op c = (c', r) -> csm_wf c'.
Proof.
  intros [Hr He Hm Hi] H. destruct r as [|from to reason].
  - destruct c as [[] ? er rc mx], op; simpl in *; unfold ring, accept, connect, end_, fail_,
      reject, timeout, retry in H; simpl in H; repeat case_match; simplify_eq; bool_to_prop;
      split; simpl in *; try lia; try set_solver; try naive_solver.
    all: split; try done; intros [? ?]; try done; by destruct He as [He _]; discriminate He.
  - apply apply_invalid in H as [-> _]. by split.
Qed.

Lemma apply_max_retries op c : max_retries (fst (apply op c)) = max_retries c.
Proof.
  destruct op; simpl; unfold ring, accept, connect, end_, fail_, reject, timeout, retry;
    by repeat case_match.
Qed.

(** Every successful operation consumes at least one unit of [fuel_left]. *)
Lemma apply_fuel op c c' r :
  apply op c = (c', r) ->
  fuel_left c' + match r with TrOk => 1 | TrInvalid _ _ _ => 0 end <= fuel_left c.
Proof.
  destruct r as [|from to reason]; intros H; [|apply apply_invalid in H as [-> _]; lia].
  destruct op; simpl in H; unfold ring, accept, connect, end_, fail_, reject, timeout, retry,
    set_end_reason, set_state in H; repeat case_match; simplify_eq;
    unfold fuel_left; simpl; repeat case_match; simplify_eq; lia.
Qed.

Lemma run_wf ops c : csm_wf c -> csm_wf (fst (run ops c)).
Proof.
  revert c; induction ops as [|op ops IH]; intros c Hc; simpl; [done|].
  destruct (apply op c) as [c' r] eqn:E.
  specialize (IH c' (apply_wf _ _ _ _ Hc E)). by destruct (run ops c').
Qed.

Lemma run_fuel ops c : csm_wf c -> snd (run ops c) <= fuel_left c.
Proof.
  revert c; induction ops as [|op ops IH]; intros c Hc; simpl.
  - destruct Hc as [[? ?] _ _ _]. unfold fuel_left. destruct (state c); lia.
  - destruct (apply op c) as [c' r] eqn:E.
    specialize (IH c' (apply_wf _ _ _ _ Hc E)). apply apply_fuel in E.
    destruct (run ops c') as [c'' n]; simpl in *. destruct r; lia.
Qed.

Lemma csm_new_wf mx : 0 <= mx -> csm_wf (csm_new mx).
Proof. split; simpl; try set_solver; lia. Qed.

(** ** Properties *)

(** C1: the machine implements the documented transition diagram: an operation
    succeeds exactly when the diagram has an edge for it from the current state (and,
    for [retry], attempts are left), it then moves along that edge, and otherwise it
    leaves the whole machine unchanged and reports the state it was in. *)
Theorem call_machine_refines_diagram (op : CallOp) (c : CallStateMachine) :
  let '(c', r) := apply op c in
  (r = TrOk <-> (exists s', edge (state c) op s') /\ op_guard op c) /\
  match r with
  | TrOk => edge (state c) op (state c')
  | TrInvalid from to reason => c' = c /\ from = state c
  end.
Proof.
  destruct (apply op c) as [c' r] eqn:E.
  destruct r as [|from to reason].
  - destruct op; simpl in E; unfold ring, accept, connect, end_, fail_, reject, timeout,
      retry in E; repeat case_match; simplify_eq; bool_to_prop; simpl;
      (split; [split; [intros _; split; [eexists; constructor; set_solver|done || lia]|done]
              |constructor; set_solver]).
  - split; [|by apply apply_invalid in E]. split; [done|].
    intros [[s' He] Hg]. exfalso.
    destruct c as [st ? ? ? ?]; inversion He; subst; simpl in *;
      unfold ring, accept, connect, end_, fail_, reject, timeout, retry in E; simpl in E;
      repeat case_match; simplify_eq; bool_to_prop; try lia; set_solver.
Qed.

(** Whatever operations a caller issues on a fresh machine, the retry count never
    exceeds the maximum, an end reason is recorded exactly in the terminal states, a
    connected or ended call has a connection method, and an idle one has none. *)
Lemma call_machine_invariant (mx : Z) (ops : list CallOp) :
  0 <= mx -> csm_wf (fst (run ops (csm_new mx))).
Proof. intros H. by apply run_wf, csm_new_wf. Qed.

Lemma call_machine_invariant_witness :
  0 <= 3 /\
  csm_wf (fst (run [OpRing; OpAccept; OpFail End_FailedIpv4Random; OpRetry; OpAccept;
                    OpConnect Conn_Masque] (csm_new 3))).
Proof. split; [lia|]. apply call_machine_invariant. lia. Defined.

(** A call makes at most four transitions per attempt: over any sequence of
    operations the number that succeed is at most [4 * (max_retries + 1)], so no call
    can change state forever. *)
Lemma call_machine_terminates (mx : Z) (ops : list CallOp) :
  0 <= mx -> snd (run ops (csm_new mx)) <= 4 * (mx + 1).
Proof.
  intros H. pose proof (run_fuel ops (csm_new mx) (csm_new_wf mx H)) as Hf.
  unfold fuel_left in Hf. simpl in Hf. lia.
Qed.

Lemma call_machine_terminates_witness :
  0 <= 1 /\
  snd (run [OpRing; OpReject; OpRetry; OpReject; OpRetry] (csm_new 1)) <= 4 * (1 + 1).
Proof. split; [lia|]. apply (call_machine_terminates 1). lia. Defined.
