(* ===== verification/Crypto.v ===== *)
(** * Keys, signatures and peer identifiers

    [voip-core/src/crypto.rs].  Ed25519 is the crate [ed25519_dalek]; it enters as the
    interface [SigScheme], whose laws [SigLaws] are what that crate documents.  The hex
    codec, peer identifiers and record signing are the repository's own code. *)

From S2P Require Import Prelude Types Config.

Local Open Scope Z_scope.
Local Open Scope rust_scope.

(** ** The signature scheme *)

Class SigScheme := {
  SigningKey : Type;
  VerifyingKey : Type;
  Signature : Type;
  verifying_key : SigningKey -> VerifyingKey;
  vk_to_bytes : VerifyingKey -> list Z;
  vk_from_bytes : list Z -> option VerifyingKey;
  sk_to_bytes : SigningKey -> list Z;
  sk_from_bytes : list Z -> SigningKey;
  sign : SigningKey -> list Z -> Signature;
  verify_sig : VerifyingKey -> list Z -> Signature -> bool;
  sig_to_bytes : Signature -> list Z;
  sig_from_bytes : list Z -> Signature
}.

Class SigLaws (S : SigScheme) := {
  vk_bytes_length k : length (vk_to_bytes k) = 32%nat;
  vk_bytes_ok k : bytes_ok (vk_to_bytes k);
  vk_from_to_bytes k : vk_from_bytes (vk_to_bytes k) = Some k;
  sk_bytes_length k : length (sk_to_bytes k) = 32%nat;
  sk_bytes_ok k : bytes_ok (sk_to_bytes k);
  sk_from_to_bytes k : sk_from_bytes (sk_to_bytes k) = k;
  sig_bytes_length s : length (sig_to_bytes s) = 64%nat;
  sig_bytes_ok s : bytes_ok (sig_to_bytes s);
  sig_from_to_bytes s : sig_from_bytes (sig_to_bytes s) = s;
  verify_sign k m : verify_sig (verifying_key k) m (sign k m) = true
}.

#[export] Hint Resolve vk_bytes_ok sk_bytes_ok sig_bytes_ok : voip.

(** ** Hex *)

Definition HEX_CHARS : list Z := as_bytes "0123456789abcdef".

Definition hex_char (i : Z) : Z := nth (Z.to_nat i) HEX_CHARS 0.

Fixpoint hex_bytes (bytes : list Z) : list Z :=
  match bytes with
  | [] => []
  | b :: bs => hex_char (Z.shiftr b 4) :: hex_char (Z.land b 15) :: hex_bytes bs
  end.

Definition hex_encode (bytes : list Z) : string := string_of_bytes (hex_bytes bytes).

Definition char_from_hex (c : Z) : result VoipError Z :=
  if (48 <=? c) && (c <=? 57) then Ok (c - 48)
  else if (97 <=? c) && (c <=? 102) then Ok (c - 97 + 10)
  else if (65 <=? c) && (c <=? 70) then Ok (c - 65 + 10)
  else Err (InvalidKeyMaterial "invalid hex character").

(** The loop over [s.as_bytes().chunks(2)]; a chunk of one byte cannot occur after the
    length test. *)
Fixpoint hex_chunks (l : list Z) : result VoipError (list Z) :=
  match l with
  | c0 :: c1 :: l' =>
      let? high := char_from_hex c0 in
      let? low := char_from_hex c1 in
      let? rest := hex_chunks l' in
      Ok (Z.lor (Z.shiftl high 4) low :: rest)
  | _ => Ok []
  end.

Definition hex_decode (s : string) : result VoipError (list Z) :=
  if negb (str_len s mod 2 =? 0)
  then Err (InvalidKeyMaterial "hex string has odd length")
  else hex_chunks (as_bytes s).

(** ** Peer identifiers and record signatures *)

Section WithScheme.
Context `{S : SigScheme}.

Definition CONNECTION_ID_SIZE : Z := 12.

(** [OsRng] is the argument [seed]: the key pair is derived from the key it draws. *)
Definition generate_ed25519_keypair (seed : list Z) : SigningKey * VerifyingKey :=
  let signing_key := sk_from_bytes seed in (signing_key, verifying_key signing_key).

Definition peer_id_from_public_key (pk : VerifyingKey) : string := hex_encode (vk_to_bytes pk).

Definition parse_peer_id (peer_id : string) : result VoipError VerifyingKey :=
  let? bytes := hex_decode peer_id in
  if negb (zlen bytes =? 32)
  then Err (InvalidKeyMaterial "peer ID must be 32 bytes (64 hex chars)")
  else ok_or (vk_from_bytes bytes) (InvalidKeyMaterial "invalid verifying key").

Definition sign_dht_record (key : SigningKey) (data : list Z) : Signature := sign key data.

Definition verify_dht_record (pk : VerifyingKey) (data : list Z) (sig : Signature) : bool :=
  verify_sig pk data sig.
End WithScheme.

(** ** A concrete scheme

    Instantiates the interface so that statements that assume [SigLaws] have witnesses.
    Keys are one byte repeated; a signature is a checksum of the key and the message. *)

Module ToySig.
Definition checksum (k : ascii) (m : list Z) : ascii :=
  char_of_byte ((foldr Z.add 0 m + Z.of_N (N_of_ascii k)) mod 256).

Definition byte_of (c : ascii) : Z := Z.of_N (N_of_ascii c).

Definition uniform (l : list Z) : option ascii :=
  let b := nth 0 l 0 in
  if bool_decide (l = replicate 32 b /\ 0 <= b < 256) then Some (char_of_byte b) else None.

Definition scheme : SigScheme := {|
  SigningKey := ascii;
  VerifyingKey := ascii;
  Signature := ascii;
  verifying_key := fun k => k;
  vk_to_bytes := fun k => replicate 32 (byte_of k);
  vk_from_bytes := uniform;
  sk_to_bytes := fun k => replicate 32 (byte_of k);
  sk_from_bytes := fun l => char_of_byte (nth 0 l 0);
  sign := checksum;
  verify_sig := fun k m s => bool_decide (s = checksum k m);
  sig_to_bytes := fun s => replicate 64 (byte_of s);
  sig_from_bytes := fun l => char_of_byte (nth 0 l 0)
|}.

Lemma byte_of_ok c : byte_ok (byte_of c).
Proof. unfold byte_ok, byte_of. pose proof (N_ascii_bounded c). lia. Qed.

Lemma char_of_byte_of c : char_of_byte (byte_of c) = c.
Proof. unfold char_of_byte, byte_of. by rewrite N2Z.id, ascii_N_embedding. Qed.

#[export] Instance laws : SigLaws scheme.
Proof.
  split; cbn [vk_to_bytes sk_to_bytes sig_to_bytes sk_from_bytes sig_from_bytes scheme
    vk_from_bytes verify_sig verifying_key sign]; intros.
  1,4,7: apply length_replicate.
  1,3,5: apply Forall_replicate, byte_of_ok.
  2,3: apply char_of_byte_of.
  - unfold uniform. change (nth 0 (replicate 32 (byte_of k)) 0) with (byte_of k).
    rewrite bool_decide_eq_true_2 by (split; [done|apply byte_of_ok]).
    by rewrite char_of_byte_of.
  - by apply bool_decide_eq_true_2.
Qed.
End ToySig.

(** ** Facts *)

Lemma hex_char_spec i : 0 <= i < 16 ->
  byte_ok (hex_char i) /\ char_from_hex (hex_char i) = Ok i.
Proof.
  revert i. apply (Z_interval_ind (fun i => byte_ok (hex_char i) /\ char_from_hex (hex_char i) = Ok i) 0 16).
  vm_compute seqZ. repeat constructor; try done; by vm_compute.
Qed.

Lemma nibbles b : byte_ok b ->
  0 <= Z.shiftr b 4 < 16 /\ 0 <= Z.land b 15 < 16 /\
  Z.lor (Z.shiftl (Z.shiftr b 4) 4) (Z.land b 15) = b.
Proof.
  intros Hb. unfold byte_ok in Hb.
  change 15 with (Z.ones 4). rewrite Z.land_ones, Z.shiftr_div_pow2 by lia.
  split; [split; [apply Z.div_pos; lia|apply Z.div_lt_upper_bound; lia]|].
  split; [apply Z.mod_pos_bound; lia|].
  rewrite <- Z.shiftr_div_pow2, <- Z.land_ones by lia.
  change 15 with (Z.ones 4). rewrite <- Z.ldiff_ones_r by lia.
  rewrite Z.lor_comm. apply Z.bits_inj'. intros n Hn.
  rewrite Z.lor_spec, Z.land_spec, Z.ldiff_spec.
  destruct (Z.testbit b n), (Z.testbit (Z.ones 4) n); done.
Qed.

Lemma hex_bytes_ok l : bytes_ok l -> bytes_ok (hex_bytes l).
Proof.
  induction 1 as [|b l Hb _ IH]; simpl; [constructor|].
  destruct (nibbles b Hb) as (H1 & H2 & _).
  constructor; [apply hex_char_spec; done|]. constructor; [apply hex_char_spec; done|done].
Qed.

Lemma hex_bytes_ascii l : bytes_ok l -> Forall (fun c => 0 <= c < 128) (hex_bytes l).
Proof.
  assert (forall i, 0 <= i < 16 -> 0 <= hex_char i < 128) as Hd.
  { apply (Z_interval_ind (fun i => 0 <= hex_char i < 128) 0 16).
    vm_compute seqZ. repeat constructor; by vm_compute. }
  induction 1 as [|b l Hb _ IH]; cbn [hex_bytes]; [constructor|].
  destruct (nibbles b Hb) as (H1 & H2 & _). repeat constructor; try done; by apply Hd.
Qed.

Lemma hex_bytes_length l : length (hex_bytes l) = (2 * length l)%nat.
Proof. induction l; simpl; lia. Qed.

Lemma hex_chunks_bytes l : bytes_ok l -> hex_chunks (hex_bytes l) = Ok l.
Proof.
  induction 1 as [|b l Hb _ IH]; simpl; [done|].
  destruct (nibbles b Hb) as (H1 & H2 & H3).
  rewrite (proj2 (hex_char_spec _ H1)), (proj2 (hex_char_spec _ H2)). simpl.
  rewrite IH. simpl. by rewrite H3.
Qed.

Lemma hex_roundtrip l : bytes_ok l -> hex_decode (hex_encode l) = Ok l.
Proof.
  intros H. unfold hex_decode, hex_encode, str_len.
  rewrite as_bytes_of_bytes by by apply hex_bytes_ok.
  rewrite hex_bytes_length, Nat2Z.inj_mul, Z.mul_comm, Z.mod_mul by lia. simpl.
  by apply hex_chunks_bytes.
Qed.

Lemma hex_encode_length l : bytes_ok l -> str_len (hex_encode l) = 2 * zlen l.
Proof.
  intros H. unfold hex_encode, str_len, zlen.
  rewrite as_bytes_of_bytes by by apply hex_bytes_ok. rewrite hex_bytes_length. lia.
Qed.

(** ** Properties *)

(** A peer identifier is 64 characters and parses back to the public key it was
    derived from; a record signed with the private key verifies under it. *)
Lemma peer_id_roundtrip {S : SigScheme} {L : SigLaws S} (sk : SigningKey) (data : list Z) :
  let pk := verifying_key sk in
  str_len (peer_id_from_public_key pk) = 64 /\
  parse_peer_id (peer_id_from_public_key pk) = Ok pk /\
  verify_dht_record pk data (sign_dht_record sk data) = true.
Proof.
  cbn zeta. unfold parse_peer_id, peer_id_from_public_key.
  rewrite hex_encode_length, hex_roundtrip by eauto with voip. simpl.
  unfold zlen. rewrite vk_bytes_length. simpl. rewrite vk_from_to_bytes.
  repeat split. apply verify_sign.
Qed.

Lemma peer_id_roundtrip_witness :
  let pk := verifying_key (SigScheme := ToySig.scheme) "A"%char in
  str_len (peer_id_from_public_key (S := ToySig.scheme) pk) = 64 /\
  parse_peer_id (peer_id_from_public_key (S := ToySig.scheme) pk) = Ok pk /\
  verify_dht_record (S := ToySig.scheme) pk [1; 2; 3]
    (sign_dht_record (S := ToySig.scheme) "A"%char [1; 2; 3]) = true.
Proof. apply (peer_id_roundtrip (S := ToySig.scheme) (L := ToySig.laws) "A"%char [1; 2; 3]). Defined.
