(* ===== verification/Base64.v ===== *)
(** * Base64 and base64url

    The three hand-written codecs of the repository: [base64_encode]/[base64_decode] of
    [voip-client/src/proxy.rs] (proxy tokens), [base64_encode] of
    [voip-signaling/src/handlers.rs] (the REST reply with a token signature) and
    [base64url_encode]/[base64url_decode] of [voip-signaling/src/jwt.rs].

    The decoders keep a 32-bit buffer that is never masked: [buffer << 6] drops the bits
    that leave [u32], which the model writes as [cast 32]. *)

From S2P Require Import Prelude.

Local Open Scope Z_scope.
Local Open Scope rust_scope.

(** Let [lia] reason about division and remainder by constants. *)
Local Ltac Zify.zify_post_hook ::= Z.div_mod_to_equations.

Definition CHARSET : list Z :=
  as_bytes "ABCDEFGHIJKLMNOPQRSTUVWXYZabcdefghijklmnopqrstuvwxyz0123456789+/".

Definition CHARSET_URL : list Z :=
  as_bytes "ABCDEFGHIJKLMNOPQRSTUVWXYZabcdefghijklmnopqrstuvwxyz0123456789-_".

Definition b64_char (cs : list Z) (i : Z) : Z := nth (Z.to_nat i) cs 0.

Definition PAD : Z := 61.

(** ** Encoders *)

(** One iteration over [data.chunks(3)]; a missing byte is read as 0. *)
Definition encode_chunk (b0 : Z) (o1 o2 : option Z) : list Z :=
  let b1 := default 0 o1 in
  let b2 := default 0 o2 in
  let triple := Z.lor (Z.lor (Z.shiftl b0 16) (Z.shiftl b1 8)) b2 in
  [ b64_char CHARSET (Z.land (Z.shiftr triple 18) 63);
    b64_char CHARSET (Z.land (Z.shiftr triple 12) 63);
    if o1 then b64_char CHARSET (Z.land (Z.shiftr triple 6) 63) else PAD;
    if o2 then b64_char CHARSET (Z.land triple 63) else PAD ].

Fixpoint base64_bytes (data : list Z) : list Z :=
  match data with
  | [] => []
  | [b0] => encode_chunk b0 None None
  | [b0; b1] => encode_chunk b0 (Some b1) None
  | b0 :: b1 :: b2 :: rest => encode_chunk b0 (Some b1) (Some b2) ++ base64_bytes rest
  end.

Definition base64_encode (data : list Z) : string := string_of_bytes (base64_bytes data).

(** The encoder of [handlers.rs]: the same alphabet, the sextets computed bytewise. *)
Definition handlers_chunk (b0 : Z) (o1 o2 : option Z) : list Z :=
  let b1 := default 0 o1 in
  let b2 := default 0 o2 in
  [ b64_char CHARSET (Z.land (Z.shiftr b0 2) 63);
    b64_char CHARSET (Z.lor (Z.shiftl (Z.land b0 3) 4) (Z.land (Z.shiftr b1 4) 15));
    if o1 then b64_char CHARSET (Z.lor (Z.shiftl (Z.land b1 15) 2) (Z.land (Z.shiftr b2 6) 3))
    else PAD;
    if o2 then b64_char CHARSET (Z.land b2 63) else PAD ].

Fixpoint handlers_base64_bytes (data : list Z) : list Z :=
  match data with
  | [] => []
  | [b0] => handlers_chunk b0 None None
  | [b0; b1] => handlers_chunk b0 (Some b1) None
  | b0 :: b1 :: b2 :: rest => handlers_chunk b0 (Some b1) (Some b2) ++ handlers_base64_bytes rest
  end.

Definition handlers_base64_encode (data : list Z) : string :=
  string_of_bytes (handlers_base64_bytes data).

(** The encoder of [jwt.rs]: no padding, the loop ends inside a short group. *)
Fixpoint base64url_bytes (data : list Z) : list Z :=
  match data with
  | [] => []
  | [b0] =>
      [ b64_char CHARSET_URL (Z.land (Z.shiftr b0 2) 63);
        b64_char CHARSET_URL (Z.shiftl (Z.land b0 3) 4) ]
  | [b0; b1] =>
      [ b64_char CHARSET_URL (Z.land (Z.shiftr b0 2) 63);
        b64_char CHARSET_URL (Z.lor (Z.shiftl (Z.land b0 3) 4) (Z.land (Z.shiftr b1 4) 15));
        b64_char CHARSET_URL (Z.shiftl (Z.land b1 15) 2) ]
  | b0 :: b1 :: b2 :: rest =>
      [ b64_char CHARSET_URL (Z.land (Z.shiftr b0 2) 63);
        b64_char CHARSET_URL (Z.lor (Z.shiftl (Z.land b0 3) 4) (Z.land (Z.shiftr b1 4) 15));
        b64_char CHARSET_URL (Z.lor (Z.shiftl (Z.land b1 15) 2) (Z.land (Z.shiftr b2 6) 3));
        b64_char CHARSET_URL (Z.land b2 63) ] ++ base64url_bytes rest
  end.

Definition base64url_encode (data : list Z) : string := string_of_bytes (base64url_bytes data).

(** ** Decoders *)

(** [str::trim_end_matches] for one character. *)
Fixpoint trim_end (c : Z) (l : list Z) : list Z :=
  match l with
  | [] => []
  | b :: l' =>
      match trim_end c l' with
      | [] => if b =? c then [] else [b]
      | t => b :: t
      end
  end.

(** [CHARSET.iter().position(..)] *)
Fixpoint position (c : Z) (cs : list Z) : option Z :=
  match cs with
  | [] => None
  | b :: cs' => if b =? c then Some 0 else Z.succ <$> position c cs'
  end.

(** [DECODE_TABLE] of [jwt.rs], as the function its constant initialiser computes. *)
Definition DECODE_TABLE (i : Z) : Z :=
  if (65 <=? i) && (i <=? 90) then i - 65
  else if (97 <=? i) && (i <=? 122) then i - 97 + 26
  else if (48 <=? i) && (i <=? 57) then i - 48 + 52
  else if i =? 45 then 62
  else if i =? 95 then 63
  else -1.

(** The accumulator loop both decoders contain. *)
Section DecodeLoop.
Context (val : Z -> option Z).

Fixpoint decode_loop (buffer bits : Z) (l : list Z) : option (list Z) :=
  match l with
  | [] => Some []
  | c :: l' =>
      let?o v := val c in
      let buffer := Z.lor (cast 32 (Z.shiftl buffer 6)) v in
      let bits := bits + 6 in
      if 8 <=? bits
      then
        let bits := bits - 8 in
        let?o rest := decode_loop buffer bits l' in
        Some (cast 8 (Z.shiftr buffer bits) :: rest)
      else decode_loop buffer bits l'
  end.
End DecodeLoop.

Definition base64_decode (input : string) : option (list Z) :=
  decode_loop (fun c => position c CHARSET) 0 0 (trim_end PAD (as_bytes input)).

Definition url_value (c : Z) : option Z :=
  let v := DECODE_TABLE c in if v <? 0 then None else Some v.

Definition base64url_decode (input : string) : option (list Z) :=
  decode_loop url_value 0 0 (trim_end PAD (as_bytes input)).

(** ** Sextets *)

(** The four 6-bit groups of three bytes. *)
Definition sextets (b0 b1 b2 : Z) : Z * Z * Z * Z :=
  (b0 / 4, b0 mod 4 * 16 + b1 / 16, b1 mod 16 * 4 + b2 / 64, b2 mod 64).

Ltac bits_to_arith :=
  change 63 with (Z.ones 6); change 15 with (Z.ones 4); change 3 with (Z.ones 2);
  rewrite ?Z.land_ones, ?Z.shiftr_div_pow2 by lia.

Ltac split_pairs := repeat match goal with |- (_, _) = (_, _) => f_equal end.

Lemma triple_add b0 b1 b2 : byte_ok b0 -> byte_ok b1 -> byte_ok b2 ->
  Z.lor (Z.lor (Z.shiftl b0 16) (Z.shiftl b1 8)) b2 = b0 * 65536 + b1 * 256 + b2.
Proof.
  unfold byte_ok. intros. rewrite (Z.shiftl_mul_pow2 b1) by lia.
  rewrite lor_shiftl_add by lia.
  replace (b0 * 2 ^ 16 + b1 * 2 ^ 8) with (Z.shiftl (b0 * 2 ^ 8 + b1) 8)
    by (rewrite Z.shiftl_mul_pow2; lia).
  rewrite lor_shiftl_add; lia.
Qed.

Section Chunks.
Context (b0 b1 b2 : Z) (H0 : byte_ok b0) (H1 : byte_ok b1) (H2 : byte_ok b2).

Lemma triple_sextets :
  let t := Z.lor (Z.lor (Z.shiftl b0 16) (Z.shiftl b1 8)) b2 in
  (Z.land (Z.shiftr t 18) 63, Z.land (Z.shiftr t 12) 63, Z.land (Z.shiftr t 6) 63,
   Z.land t 63) = sextets b0 b1 b2.
Proof.
  cbn zeta. rewrite triple_add by done. bits_to_arith. unfold sextets.
  unfold byte_ok in *. split_pairs; lia.
Qed.

Lemma bytewise_sextets :
  (Z.land (Z.shiftr b0 2) 63,
   Z.lor (Z.shiftl (Z.land b0 3) 4) (Z.land (Z.shiftr b1 4) 15),
   Z.lor (Z.shiftl (Z.land b1 15) 2) (Z.land (Z.shiftr b2 6) 3), Z.land b2 63)
  = sextets b0 b1 b2.
Proof.
  bits_to_arith. unfold sextets, byte_ok in *.
  rewrite !lor_shiftl_add by lia. split_pairs; lia.
Qed.

Lemma sextets_range :
  let '(s0, s1, s2, s3) := sextets b0 b1 b2 in
  0 <= s0 < 64 /\ 0 <= s1 < 64 /\ 0 <= s2 < 64 /\ 0 <= s3 < 64.
Proof. unfold sextets, byte_ok in *. lia. Qed.
End Chunks.

(** Both encoders that pad produce the same four characters for a group. *)
Lemma chunks_agree b0 o1 o2 :
  byte_ok b0 -> byte_ok (default 0 o1) -> byte_ok (default 0 o2) ->
  encode_chunk b0 o1 o2 = handlers_chunk b0 o1 o2.
Proof.
  intros H0 H1 H2. unfold encode_chunk, handlers_chunk.
  pose proof (triple_sextets _ _ _ H0 H1 H2) as E.
  rewrite <- (bytewise_sextets _ _ _ H0 H1 H2) in E. cbn zeta in E.
  injection E as E0 E1 E2 E3. by rewrite E0, E1, E2, E3.
Qed.

(** Strong induction along groups of three bytes. *)
Lemma list_ind3 {A} (P : list A -> Prop) :
  P [] -> (forall a, P [a]) -> (forall a b, P [a; b]) ->
  (forall a b c l, P l -> P (a :: b :: c :: l)) -> forall l, P l.
Proof.
  intros Hn H1 H2 H3 l.
  enough (forall n l, (length l <= n)%nat -> P l) as H by by apply (H (length l)).
  clear l. induction n as [|n IH]; intros [|a [|b [|c l]]] Hl; simpl in *;
    try done; try lia. apply H3, IH. lia.
Qed.

Lemma base64_bytes_agree l : bytes_ok l -> base64_bytes l = handlers_base64_bytes l.
Proof.
  assert (byte_ok 0) by (unfold byte_ok; lia).
  induction l as [|a|a b|a b c l IH] using list_ind3; intros Hl;
    rewrite ?Forall_cons_iff in Hl; cbn [base64_bytes handlers_base64_bytes]; [done| | |].
  - apply chunks_agree; simpl; tauto.
  - apply chunks_agree; simpl; tauto.
  - rewrite chunks_agree, IH by (simpl; tauto). done.
Qed.

(** ** Decoding *)

Lemma position_charset i : 0 <= i < 64 ->
  position (b64_char CHARSET i) CHARSET = Some i /\ b64_char CHARSET i <> PAD /\
  byte_ok (b64_char CHARSET i).
Proof.
  revert i. apply (Z_interval_ind (fun i => position (b64_char CHARSET i) CHARSET = Some i /\
    b64_char CHARSET i <> PAD /\ byte_ok (b64_char CHARSET i)) 0 64).
  vm_compute seqZ. repeat constructor; vm_compute; congruence.
Qed.

Lemma url_value_charset i : 0 <= i < 64 ->
  url_value (b64_char CHARSET_URL i) = Some i /\ b64_char CHARSET_URL i <> PAD /\
  byte_ok (b64_char CHARSET_URL i).
Proof.
  revert i. apply (Z_interval_ind (fun i => url_value (b64_char CHARSET_URL i) = Some i /\
    b64_char CHARSET_URL i <> PAD /\ byte_ok (b64_char CHARSET_URL i)) 0 64).
  vm_compute seqZ. repeat constructor; vm_compute; congruence.
Qed.

Section DecodeFacts.
Context (val : Z -> option Z) (ch : Z -> Z).
Context (Hval : forall i, 0 <= i < 64 -> val (ch i) = Some i).

Lemma loop_step B bits i l : 0 <= i < 64 -> 
  let B' := (B * 64) mod 2 ^ 32 + i in
  decode_loop val B bits (ch i :: l) =
    if 8 <=? bits + 6
    then match decode_loop val B' (bits + 6 - 8) l with
         | Some rest => Some ((B' / 2 ^ (bits + 6 - 8)) mod 256 :: rest)
         | None => None
         end
    else decode_loop val B' (bits + 6) l.
Proof.
  intros Hi. cbn zeta. cbn [decode_loop]. rewrite Hval by done.
  assert (Z.lor (cast 32 (Z.shiftl B 6)) i = (B * 64) mod 2 ^ 32 + i) as ->.
  { unfold cast. rewrite Z.shiftl_mul_pow2 by lia.
    replace ((B * 2 ^ 6) mod 2 ^ 32) with (Z.shiftl (B mod 2 ^ 26) 6)
      by (rewrite Z.shiftl_mul_pow2; lia).
    rewrite lor_shiftl_add by lia. lia. }
  destruct (8 <=? bits + 6) eqn:E; [|done]. bool_to_prop.
  unfold cast. by rewrite Z.shiftr_div_pow2 by lia.
Qed.

(** The four positions inside a group of 24 bits. *)
Lemma loop_step0 B i l : 0 <= i < 64 ->
  decode_loop val B 0 (ch i :: l) = decode_loop val ((B * 64) mod 2 ^ 32 + i) 6 l.
Proof. exact (loop_step B 0 i l). Qed.

Lemma loop_step6 B i l : 0 <= i < 64 ->
  let B' := (B * 64) mod 2 ^ 32 + i in
  decode_loop val B 6 (ch i :: l) =
    (cons ((B' / 16) mod 256)) <$> decode_loop val B' 4 l.
Proof. exact (loop_step B 6 i l). Qed.

Lemma loop_step4 B i l : 0 <= i < 64 ->
  let B' := (B * 64) mod 2 ^ 32 + i in
  decode_loop val B 4 (ch i :: l) = (cons ((B' / 4) mod 256)) <$> decode_loop val B' 2 l.
Proof. exact (loop_step B 4 i l). Qed.

Lemma loop_step2 B i l : 0 <= i < 64 ->
  let B' := (B * 64) mod 2 ^ 32 + i in
  decode_loop val B 2 (ch i :: l) = (cons ((B' / 1) mod 256)) <$> decode_loop val B' 0 l.
Proof. exact (loop_step B 2 i l). Qed.

Context (b0 b1 b2 : Z) (H0 : byte_ok b0) (H1 : byte_ok b1) (H2 : byte_ok b2).

(** A full group yields its three bytes, whatever the buffer held before. *)
Lemma loop_group B l :
  let '(s0, s1, s2, s3) := sextets b0 b1 b2 in
  exists B', decode_loop val B 0 (ch s0 :: ch s1 :: ch s2 :: ch s3 :: l) =
    (fun r => b0 :: b1 :: b2 :: r) <$> decode_loop val B' 0 l.
Proof.
  pose proof (sextets_range _ _ _ H0 H1 H2) as Hr.
  unfold sextets in *. destruct Hr as (R0 & R1 & R2 & R3).
  rewrite loop_step0, loop_step6, loop_step4, loop_step2 by done.
  set (B0 := (B * 64) mod 2 ^ 32 + b0 / 4).
  set (B1 := (B0 * 64) mod 2 ^ 32 + _). set (B2 := (B1 * 64) mod 2 ^ 32 + _).
  set (B3 := (B2 * 64) mod 2 ^ 32 + _). exists B3.
  destruct (decode_loop val B3 0 l); [|done]. simpl. unfold byte_ok in *.
  repeat f_equal; unfold B3, B2, B1, B0; lia.
Qed.

(** A final group of two or three characters yields one or two bytes. *)
Lemma loop_tail2 B :
  decode_loop val B 0 [ch (b0 / 4); ch (b0 mod 4 * 16)] = Some [b0].
Proof.
  clear H1 H2. unfold byte_ok in H0. rewrite loop_step0, loop_step6 by lia. simpl. repeat f_equal. lia.
Qed.

Lemma loop_tail3 B :
  decode_loop val B 0 [ch (b0 / 4); ch (b0 mod 4 * 16 + b1 / 16); ch (b1 mod 16 * 4)] =
  Some [b0; b1].
Proof.
  clear H2. unfold byte_ok in H0, H1. rewrite loop_step0, loop_step6, loop_step4 by lia. simpl.
  repeat f_equal; lia.
Qed.
End DecodeFacts.

(** ** Reference encoding

    The unpadded encoding over an alphabet [ch]; both codecs are instances. *)

Fixpoint b64_body (ch : Z -> Z) (l : list Z) : list Z :=
  match l with
  | [] => []
  | [b0] => [ch (b0 / 4); ch (b0 mod 4 * 16)]
  | [b0; b1] => [ch (b0 / 4); ch (b0 mod 4 * 16 + b1 / 16); ch (b1 mod 16 * 4)]
  | b0 :: b1 :: b2 :: l' =>
      let '(s0, s1, s2, s3) := sextets b0 b1 b2 in
      ch s0 :: ch s1 :: ch s2 :: ch s3 :: b64_body ch l'
  end.

Lemma decode_body val ch : (forall i, 0 <= i < 64 -> val (ch i) = Some i) ->
  forall l B, bytes_ok l -> decode_loop val B 0 (b64_body ch l) = Some l.
Proof.
  intros Hval. induction l as [|a|a b|a b c l IH] using list_ind3; intros B Hl;
    rewrite ?Forall_cons_iff in Hl; [done| | |].
  - apply loop_tail2; [done|tauto].
  - apply loop_tail3; [done|tauto..].
  - destruct Hl as (Ha & Hb & Hc & Hl).
    destruct (loop_group val ch Hval a b c Ha Hb Hc B (b64_body ch l)) as [B' HB].
    cbn [b64_body]. unfold sextets. by rewrite HB, IH.
Qed.

Lemma body_forall (P : Z -> Prop) ch : (forall i, 0 <= i < 64 -> P (ch i)) ->
  forall l, bytes_ok l -> Forall P (b64_body ch l).
Proof.
  intros HP. induction l as [|a|a b|a b c l IH] using list_ind3; intros Hl;
    rewrite ?Forall_cons_iff in Hl; [done| | |].
  - unfold byte_ok in Hl. repeat constructor; apply HP; lia.
  - unfold byte_ok in Hl. repeat constructor; apply HP; lia.
  - destruct Hl as (Ha & Hb & Hc & Hl). cbn [b64_body].
    pose proof (sextets_range _ _ _ Ha Hb Hc) as Hr.
    destruct (sextets a b c) as [[[? ?] ?] ?]. repeat constructor; try apply HP; try tauto.
Qed.

Lemma trim_end_id c l : Forall (fun b => b <> c) l -> trim_end c l = l.
Proof.
  induction 1 as [|b l Hb _ IH]; simpl; [done|]. rewrite IH.
  destruct l; [|done]. by rewrite (proj2 (Z.eqb_neq b c)).
Qed.

Lemma trim_end_snoc c l : trim_end c (l ++ [c]) = trim_end c l.
Proof. induction l as [|b l IH]; simpl; [by rewrite Z.eqb_refl|]. by rewrite IH. Qed.

Lemma base64_body l : bytes_ok l ->
  exists k, (k < 4)%nat /\ base64_bytes l = b64_body (b64_char CHARSET) l ++ replicate k PAD.
Proof.
  assert (byte_ok 0) as Z0 by (unfold byte_ok; lia).
  induction l as [|a|a b|a b c l IH] using list_ind3; intros Hl;
    rewrite ?Forall_cons_iff in Hl; cbn [base64_bytes b64_body].
  - exists 0%nat. by split; [lia|].
  - exists 2%nat. split; [lia|]. unfold encode_chunk. cbn [from_option id].
    pose proof (triple_sextets a 0 0 (proj1 Hl) Z0 Z0) as E. cbn zeta in E.
    unfold sextets in E. injection E as E0 E1 E2 E3.
    rewrite E0, E1. simpl. do 2 f_equal. f_equal. lia.
  - exists 1%nat. split; [lia|]. unfold encode_chunk. cbn [from_option id].
    pose proof (triple_sextets a b 0 (proj1 Hl) (proj1 (proj2 Hl)) Z0) as E. cbn zeta in E.
    unfold sextets in E. injection E as E0 E1 E2 E3.
    rewrite E0, E1, E2. simpl. do 3 f_equal. f_equal. lia.
  - destruct Hl as (Ha & Hb & Hc & Hl). destruct (IH Hl) as (k & Hlt & Hk). exists k. split; [done|].
    unfold encode_chunk. cbn [from_option id].
    pose proof (triple_sextets a b c Ha Hb Hc) as E. cbn zeta in E.
    destruct (sextets a b c) as [[[? ?] ?] ?]. injection E as E0 E1 E2 E3.
    rewrite E0, E1, E2, E3, Hk. done.
Qed.

Lemma base64url_body l : bytes_ok l ->
  base64url_bytes l = b64_body (b64_char CHARSET_URL) l.
Proof.
  assert (byte_ok 0) as Z0 by (unfold byte_ok; lia).
  induction l as [|a|a b|a b c l IH] using list_ind3; intros Hl;
    rewrite ?Forall_cons_iff in Hl; cbn [base64url_bytes b64_body]; [done| | |].
  - destruct Hl as [Ha _]. unfold byte_ok in Ha. bits_to_arith.
    rewrite Z.shiftl_mul_pow2 by lia. repeat f_equal; lia.
  - destruct Hl as (Ha & Hb & _). unfold byte_ok in *. bits_to_arith.
    rewrite lor_shiftl_add, Z.shiftl_mul_pow2 by lia. repeat f_equal; lia.
  - destruct Hl as (Ha & Hb & Hc & Hl).
    pose proof (bytewise_sextets a b c Ha Hb Hc) as E.
    destruct (sextets a b c) as [[[? ?] ?] ?]. injection E as E0 E1 E2 E3.
    by rewrite E0, E1, E2, E3, IH.
Qed.

Lemma trim_end_pads c l k :
  Forall (fun b => b <> c) l -> trim_end c (l ++ replicate k c) = l.
Proof.
  intros Hl. induction k as [|k IH]; [by rewrite app_nil_r; apply trim_end_id|].
  rewrite replicate_S_end, app_assoc, trim_end_snoc. exact IH.
Qed.

(** ** Round trips *)

(** Whatever is decoded is bytes. *)
Lemma decode_loop_ok val B bits l r : decode_loop val B bits l = Some r -> bytes_ok r.
Proof.
  revert B bits r. induction l as [|c l IH]; intros B bits r; cbn [decode_loop]; [by intros [= <-]|].
  destruct (val c); [|done]. cbn. case_goal; [|apply IH].
  destruct (decode_loop _ _ _ l) as [rest|] eqn:Er; [|done]. intros [= <-].
  constructor; [|by eapply IH]. apply Z.mod_pos_bound. lia.
Qed.

Lemma base64_roundtrip l : bytes_ok l -> base64_decode (base64_encode l) = Some l.
Proof.
  intros Hl. unfold base64_decode, base64_encode.
  destruct (base64_body l Hl) as (k & _ & Hk). rewrite Hk.
  assert (bytes_ok (b64_body (b64_char CHARSET) l ++ replicate k PAD)).
  { apply bytes_ok_app; [apply body_forall; [|done]; apply position_charset|].
    apply Forall_replicate. unfold byte_ok, PAD. lia. }
  rewrite as_bytes_of_bytes by done.
  rewrite trim_end_pads by (apply body_forall; [|done]; apply position_charset).
  apply decode_body; [|done]. apply position_charset.
Qed.

Lemma base64url_bytes_ok l : bytes_ok l -> bytes_ok (base64url_bytes l).
Proof.
  intros Hl. rewrite base64url_body by done. apply body_forall; [|done].
  apply url_value_charset.
Qed.

Lemma base64url_roundtrip l : bytes_ok l -> base64url_decode (base64url_encode l) = Some l.
Proof.
  intros Hl. unfold base64url_decode, base64url_encode.
  rewrite as_bytes_of_bytes by by apply base64url_bytes_ok.
  rewrite base64url_body by done.
  rewrite trim_end_id by (apply body_forall; [|done]; apply url_value_charset).
  apply decode_body; [|done]. apply url_value_charset.
Qed.

(** No character of a base64url text is a full stop, the separator of a JWT. *)
Lemma base64url_no_dot l : bytes_ok l -> Forall (fun b => b <> 46) (base64url_bytes l).
Proof.
  intros Hl. rewrite base64url_body by done. apply body_forall; [|done].
  apply (Z_interval_ind (fun i => b64_char CHARSET_URL i <> 46) 0 64).
  vm_compute seqZ. repeat constructor; by vm_compute.
Qed.

#[export] Hint Resolve base64url_bytes_ok : voip.

(** ** Properties *)

(** Decoding inverts encoding for both alphabets, for byte strings of every length,
    and although the decoders' 32-bit buffer is never cleared. *)
Lemma base64_codecs_roundtrip (data : list Z) :
  bytes_ok data ->
  base64_decode (base64_encode data) = Some data /\
  base64url_decode (base64url_encode data) = Some data /\
  handlers_base64_encode data = base64_encode data.
Proof.
  intros H. split_and!; [by apply base64_roundtrip|by apply base64url_roundtrip|].
  unfold handlers_base64_encode, base64_encode. by rewrite base64_bytes_agree.
Qed.

Lemma base64_codecs_roundtrip_witness :
  base64_decode (base64_encode [0; 255; 16; 131]) = Some [0; 255; 16; 131] /\
  base64url_decode (base64url_encode [0; 255; 16; 131]) = Some [0; 255; 16; 131] /\
  handlers_base64_encode [0; 255; 16; 131] = base64_encode [0; 255; 16; 131].
Proof. apply base64_codecs_roundtrip. repeat constructor; unfold byte_ok; lia. Defined.
