(* ===== verification/Rfc4648.v ===== *)
(** * RFC 4648 as the reference of the base64 encoders

    The standard describes the encoding on bits: the input is a string of 8-bit groups, cut
    again into 6-bit groups of which the last is filled with zero bits, each printed as a
    character of the alphabet, and [=] fills the last quantum of four characters.  The three
    encoders of [Base64] are loops over three bytes with masks and shifts. *)

From S2P Require Import Prelude Base64.

Local Open Scope Z_scope.
Local Ltac Zify.zify_post_hook ::= Z.div_mod_to_equations.

(** Bits, the most significant first. *)
Definition bits8 (b : Z) : list bool := map (Z.testbit b) [7; 6; 5; 4; 3; 2; 1; 0].

Definition of_bits (l : list bool) : Z := fold_left (fun a b => 2 * a + Z.b2z b) l 0.

Fixpoint groups6 (l : list bool) : list Z :=
  match l with
  | b5 :: b4 :: b3 :: b2 :: b1 :: b0 :: l' => of_bits [b5; b4; b3; b2; b1; b0] :: groups6 l'
  | [] => []
  | short => [of_bits (short ++ replicate (6 - length short) false)]
  end.

Definition rfc_symbols (alphabet data : list Z) : list Z :=
  map (b64_char alphabet) (groups6 (concat (map bits8 data))).

(** Section 4 pads, section 5 as JSON web tokens use it (RFC 7515) does not. *)
Definition rfc_padded (alphabet data : list Z) : list Z :=
  let s := rfc_symbols alphabet data in
  s ++ replicate (Z.to_nat (- zlen s mod 4)) PAD.

(** ** Facts *)

Lemma of_bits_app l l' : of_bits (l ++ l') = of_bits l * 2 ^ zlen l' + of_bits l'.
Proof.
  unfold of_bits. rewrite fold_left_app. generalize (fold_left (fun a b => 2 * a + Z.b2z b) l 0) as a.
  induction l' as [|b l' IH] using rev_ind; intros a; [unfold zlen; cbn; lia|].
  rewrite !fold_left_app. cbn [fold_left]. rewrite IH. unfold zlen. rewrite length_app, Nat2Z.inj_add.
  cbn [length]. rewrite Z.pow_add_r by lia. lia.
Qed.

Lemma of_bits_zeros l k : of_bits (l ++ replicate k false) = of_bits l * 2 ^ Z.of_nat k.
Proof.
  rewrite of_bits_app. unfold zlen. rewrite length_replicate.
  enough (of_bits (replicate k false) = 0) by lia.
  induction k as [|k IH]; [done|]. rewrite replicate_S_end, of_bits_app, IH. done.
Qed.

(** The parts of a byte that end up in one 6-bit group. *)
Lemma byte_parts b : byte_ok b ->
  of_bits (take 6 (bits8 b)) = b / 4 /\ of_bits (drop 6 (bits8 b)) = b mod 4 /\
  of_bits (take 4 (bits8 b)) = b / 16 /\ of_bits (drop 4 (bits8 b)) = b mod 16 /\
  of_bits (take 2 (bits8 b)) = b / 64 /\ of_bits (drop 2 (bits8 b)) = b mod 64.
Proof.
  revert b. apply (Z_interval_ind _ 0 256). vm_compute seqZ. repeat constructor.
Qed.

Lemma groups6_triple b0 b1 b2 l : byte_ok b0 -> byte_ok b1 -> byte_ok b2 ->
  let '(s0, s1, s2, s3) := sextets b0 b1 b2 in
  groups6 (bits8 b0 ++ bits8 b1 ++ bits8 b2 ++ l) = s0 :: s1 :: s2 :: s3 :: groups6 l.
Proof.
  intros H0 H1 H2.
  apply byte_parts in H0 as (A0 & B0 & _), H1 as (_ & _ & C1 & D1 & _), H2 as (_ & _ & _ & _ & E2 & F2).
  unfold sextets. rewrite <- A0, <- B0, <- C1, <- D1, <- E2, <- F2.
  change 16 with (2 ^ zlen (take 4 (bits8 b1))). change 4 with (2 ^ zlen (take 2 (bits8 b2))).
  by rewrite <- !of_bits_app.
Qed.

Lemma groups6_one b0 : byte_ok b0 -> groups6 (bits8 b0) = [b0 / 4; b0 mod 4 * 16].
Proof.
  intros H0. apply byte_parts in H0 as (<- & <- & _).
  by rewrite <- (of_bits_zeros _ 4).
Qed.

Lemma groups6_two b0 b1 : byte_ok b0 -> byte_ok b1 ->
  groups6 (bits8 b0 ++ bits8 b1) = [b0 / 4; b0 mod 4 * 16 + b1 / 16; b1 mod 16 * 4].
Proof.
  intros H0 H1. apply byte_parts in H0 as (<- & <- & _), H1 as (_ & _ & <- & <- & _).
  change 16 with (2 ^ zlen (take 4 (bits8 b1))).
  by rewrite <- of_bits_app, <- (of_bits_zeros _ 2).
Qed.

(** The body both codecs share prints the groups of six bits. *)
Lemma body_is_rfc alphabet l : bytes_ok l -> b64_body (b64_char alphabet) l = rfc_symbols alphabet l.
Proof.
  unfold rfc_symbols. induction l as [|a|a b|a b c l IH] using list_ind3; intros Hl;
    rewrite ?Forall_cons_iff in Hl; cbn [b64_body concat map]; [done| | |]; rewrite ?app_nil_r.
  - by rewrite groups6_one by tauto.
  - by rewrite groups6_two by tauto.
  - destruct Hl as (Ha & Hb & Hc & Hl). pose proof (groups6_triple a b c (concat (map bits8 l)) Ha Hb Hc).
    destruct (sextets a b c) as [[[? ?] ?] ?]. rewrite H, IH by done. done.
Qed.

Lemma base64_length4 l : zlen (base64_bytes l) mod 4 = 0.
Proof.
  induction l as [|a|a b|a b c l IH] using list_ind3; [done..|].
  cbn [base64_bytes]. unfold zlen in *. rewrite length_app. cbn [length encode_chunk]. lia.
Qed.

Lemma base64_is_rfc l : bytes_ok l -> base64_bytes l = rfc_padded CHARSET l.
Proof.
  intros Hl. destruct (base64_body l Hl) as (k & Hk & E).
  pose proof (base64_length4 l) as H4. rewrite E in *. rewrite body_is_rfc in * by done.
  unfold rfc_padded, zlen in *. rewrite length_app, length_replicate in H4. do 2 f_equal. lia.
Qed.

(** No character of the alphabet is the padding. *)
Lemma rfc_symbols_unpadded l : bytes_ok l ->
  filter (fun b => b <> PAD) (rfc_symbols CHARSET l) = rfc_symbols CHARSET l.
Proof.
  intros Hl. rewrite <- body_is_rfc by done. apply filter_all.
  apply (body_forall (fun b => b <> PAD)); [|done]. intros i Hi. by apply position_charset.
Qed.

Lemma filter_padding k : filter (fun b => b <> PAD) (replicate k PAD) = [].
Proof. induction k; [done|]. cbn [replicate]. by rewrite filter_cons_False by tauto. Qed.

(** C28: the encoders are RFC 4648.  For every byte string the encoder of the proxy tokens, its
    padding aside, and the encoder of the REST replies, padding included, print the encoding of
    section 4, and the encoder of the web tokens prints that of section 5 without padding: the
    bits of the input cut into groups of six, the last filled with zeros, each printed in its
    alphabet. *)
Theorem base64_encoders_equal_rfc data : bytes_ok data ->
  filter (fun b => b <> PAD) (base64_bytes data) = rfc_symbols CHARSET data /\
  handlers_base64_bytes data = rfc_padded CHARSET data /\
  base64url_bytes data = rfc_symbols CHARSET_URL data.
Proof.
  intros H. rewrite <- base64_bytes_agree, base64_is_rfc, base64url_body, body_is_rfc by done.
  split_and!; [|done..]. unfold rfc_padded.
  by rewrite filter_app, filter_padding, app_nil_r, rfc_symbols_unpadded.
Qed.

(** The test vector [foob] of the standard, and two bytes that use the last characters. *)
Lemma base64_encoders_equal_rfc_witness :
  handlers_base64_bytes (as_bytes "foob") = as_bytes "Zm9vYg==" /\
  filter (fun b => b <> PAD) (base64_bytes (as_bytes "foob")) = as_bytes "Zm9vYg" /\
  base64url_bytes [255; 239] = rfc_symbols CHARSET_URL [255; 239].
Proof.
  assert (H1 : bytes_ok (as_bytes "foob")) by apply as_bytes_ok.
  assert (H2 : bytes_ok [255; 239]) by (repeat constructor; unfold byte_ok; lia).
  destruct (base64_encoders_equal_rfc _ H1) as (E1 & E2 & _). rewrite E1, E2.
  split; [vm_compute; reflexivity|]. split; [vm_compute; reflexivity|].
  exact (proj2 (proj2 (base64_encoders_equal_rfc _ H2))).
Defined.
