(* ===== verification/ProxyToken.v ===== *)
(** * MASQUE proxy tokens

    [ProxyToken] and [TokenVerifier] of [voip-client/src/proxy.rs]: the message that is
    signed, the base64 wire form, its parser, and verification at the proxy. *)

From S2P Require Import Prelude Types Config Crypto Base64.

Local Open Scope Z_scope.
Local Open Scope rust_scope.

Inductive ProxyTokenError :=
| TokenInvalidSignature
| TokenExpired (expires_at : Z)
| TokenBase64DecodeError (what : string)
| TokenSerializationError (what : string)
| TokenDeserializationError (what : string)
| TokenMissingField (what : string)
| TokenSigningError (what : string)
| TokenVerificationError (what : string).

Record ProxyToken := {
  pt_peer_id : string;
  pt_proxy_url : string;
  pt_expires_at : Z;
  pt_issued_at : Z;
  pt_signature : list Z
}.

(** [len:u32_be || peer_id || len:u32_be || proxy_url || expires_at || issued_at]. *)
Definition signing_message (peer_id proxy_url : string) (expires_at issued_at : Z) : list Z :=
  let peer_id_bytes := as_bytes peer_id in
  let proxy_url_bytes := as_bytes proxy_url in
  to_be 4 (cast 32 (zlen peer_id_bytes)) ++ peer_id_bytes ++
  to_be 4 (cast 32 (zlen proxy_url_bytes)) ++ proxy_url_bytes ++
  to_be 8 expires_at ++ to_be 8 issued_at.

Definition token_payload (t : ProxyToken) : list Z :=
  let peer_id_bytes := as_bytes (pt_peer_id t) in
  let url_bytes := as_bytes (pt_proxy_url t) in
  to_be 2 (cast 16 (zlen peer_id_bytes)) ++ peer_id_bytes ++
  to_be 2 (cast 16 (zlen url_bytes)) ++ url_bytes ++
  to_be 8 (pt_expires_at t) ++ to_be 8 (pt_issued_at t) ++ pt_signature t.

Definition token_encode (t : ProxyToken) : string := base64_encode (token_payload t).

(** The readers advance a position in the buffer; they return the new position. *)
Definition read_u16_be (buf : list Z) (pos : Z) : result ProxyTokenError (Z * Z) :=
  if zlen buf <? pos + 2
  then Err (TokenDeserializationError "Buffer underflow reading u16")
  else
    match slice buf pos (pos + 2) with
    | Some bs => Ok (from_be bs, pos + 2)
    | None => Err (TokenDeserializationError "unreachable")
    end.

Definition read_u64_be (buf : list Z) (pos : Z) : result ProxyTokenError (Z * Z) :=
  if zlen buf <? pos + 8
  then Err (TokenDeserializationError "Buffer underflow reading u64")
  else
    match slice buf pos (pos + 8) with
    | Some bs => Ok (from_be bs, pos + 8)
    | None => Err (TokenDeserializationError "unreachable")
    end.

Definition read_string (buf : list Z) (pos len : Z) : result ProxyTokenError (string * Z) :=
  if zlen buf <? pos + len
  then Err (TokenDeserializationError "Buffer underflow reading string")
  else
    match slice buf pos (pos + len) with
    | Some bs =>
        let? s := ok_or (from_utf8 bs) (TokenDeserializationError "Invalid UTF-8") in
        Ok (s, pos + len)
    | None => Err (TokenDeserializationError "unreachable")
    end.

Definition token_decode (encoded : string) : result ProxyTokenError ProxyToken :=
  let? buf := ok_or (base64_decode encoded) (TokenBase64DecodeError "Invalid base64 character") in
  let? (peer_id_len, pos) := read_u16_be buf 0 in
  let? (peer_id, pos) := read_string buf pos peer_id_len in
  let? (url_len, pos) := read_u16_be buf pos in
  let? (proxy_url, pos) := read_string buf pos url_len in
  let? (expires_at, pos) := read_u64_be buf pos in
  let? (issued_at, pos) := read_u64_be buf pos in
  let remaining := zlen buf - pos in
  if negb (remaining =? 64)
  then Err (TokenDeserializationError "Invalid signature length")
  else Ok {| pt_peer_id := peer_id; pt_proxy_url := proxy_url; pt_expires_at := expires_at;
             pt_issued_at := issued_at; pt_signature := drop (Z.to_nat pos) buf |}.

(** Times are seconds since the epoch; the clock is the argument [now]. *)
Definition token_is_expired (now : Z) (t : ProxyToken) : bool := pt_expires_at t <=? now.

Section WithScheme.
Context `{S : SigScheme}.

Definition token_sign (now : Z) (peer_id proxy_url : string) (signing_key : SigningKey)
    (ttl_secs : Z) : ProxyToken :=
  let issued_at := now in
  let expires_at := saturating_add 64 now ttl_secs in
  let message := signing_message peer_id proxy_url expires_at issued_at in
  {| pt_peer_id := peer_id; pt_proxy_url := proxy_url; pt_expires_at := expires_at;
     pt_issued_at := issued_at; pt_signature := sig_to_bytes (sign signing_key message) |}.

Definition token_verify (t : ProxyToken) (vk : VerifyingKey) : bool :=
  let message :=
    signing_message (pt_peer_id t) (pt_proxy_url t) (pt_expires_at t) (pt_issued_at t) in
  if negb (zlen (pt_signature t) =? 64) then false
  else verify_sig vk message (sig_from_bytes (pt_signature t)).

(** [TokenVerifier::verify]: the expiry first, then the signature. *)
Definition verifier_verify (vk : VerifyingKey) (now : Z) (t : ProxyToken)
    : result ProxyTokenError unit :=
  if token_is_expired now t then Err (TokenExpired (pt_expires_at t))
  else if negb (token_verify t vk) then Err TokenInvalidSignature
  else Ok tt.
End WithScheme.

(** ** Well-formed tokens *)

(** A token of the types the Rust record has, with a full signature. *)
Record token_wf (t : ProxyToken) : Prop := {
  twf_peer : rust_string (pt_peer_id t);
  twf_url : rust_string (pt_proxy_url t);
  twf_expires : 0 <= pt_expires_at t < 2 ^ 64;
  twf_issued : 0 <= pt_issued_at t < 2 ^ 64;
  twf_sig : bytes_ok (pt_signature t);
  twf_sig_len : zlen (pt_signature t) = 64
}.

(** The names fit the 16-bit length fields of the wire form. *)
Definition token_fits (t : ProxyToken) : Prop :=
  zlen (as_bytes (pt_peer_id t)) < 2 ^ 16 /\ zlen (as_bytes (pt_proxy_url t)) < 2 ^ 16.

(** ** Facts *)

Lemma zlen_to_be n x : zlen (to_be n x) = Z.of_nat n.
Proof. unfold zlen. by rewrite length_to_be. Qed.

(** Each reader returns the field that starts at its position, and the position after
    it; [l1] is what precedes the field. *)
Section Readers.
Context (buf : list Z) (pos : Z) (l1 l2 : list Z) (Hpos : pos = zlen l1).

Lemma read_u16_be_at x :
  buf = l1 ++ to_be 2 x ++ l2 -> 0 <= x < 2 ^ 16 -> read_u16_be buf pos = Ok (x, pos + 2).
Proof.
  intros -> Hx. subst pos. unfold read_u16_be. pose proof (zlen_nonneg l2).
  rewrite !zlen_app, zlen_to_be, (proj2 (Z.ltb_ge _ _)) by lia.
  rewrite slice_app_mid by (rewrite ?zlen_to_be; lia). by rewrite from_be_to_be_small.
Qed.

Lemma read_u64_be_at x :
  buf = l1 ++ to_be 8 x ++ l2 -> 0 <= x < 2 ^ 64 -> read_u64_be buf pos = Ok (x, pos + 8).
Proof.
  intros -> Hx. subst pos. unfold read_u64_be. pose proof (zlen_nonneg l2).
  rewrite !zlen_app, zlen_to_be, (proj2 (Z.ltb_ge _ _)) by lia.
  rewrite slice_app_mid by (rewrite ?zlen_to_be; lia). by rewrite from_be_to_be_small.
Qed.

Lemma read_string_at s :
  buf = l1 ++ as_bytes s ++ l2 -> rust_string s ->
  read_string buf pos (zlen (as_bytes s)) = Ok (s, pos + zlen (as_bytes s)).
Proof.
  intros -> Hs. subst pos. unfold read_string. pose proof (zlen_nonneg l2).
  rewrite !zlen_app, (proj2 (Z.ltb_ge _ _)) by lia.
  rewrite slice_app_mid by lia. by rewrite from_utf8_as_bytes.
Qed.
End Readers.

Lemma token_payload_ok t : token_wf t -> bytes_ok (token_payload t).
Proof. intros [_ _ _ _ Hs _]. unfold token_payload. auto 10 with voip. Qed.

(** Solve the side conditions of the reader lemmas. *)
Ltac reader_side :=
  rewrite ?zlen_app, ?zlen_to_be, <- ?app_assoc; (done || lia || idtac).

(** The parser inverts the writer, field by field. *)
Lemma token_roundtrip t : token_wf t -> token_fits t -> token_decode (token_encode t) = Ok t.
Proof.
  intros Hwf [Hf1 Hf2]. pose proof (token_payload_ok t Hwf) as Hok.
  destruct Hwf as [Hp Hu He Hi Hs Hl], t as [pid url ex iss sg];
    cbn [pt_peer_id pt_proxy_url pt_expires_at pt_issued_at pt_signature] in *.
  unfold token_decode, token_encode. rewrite base64_roundtrip by done.
  cbn [result_bind ok_or]. clear Hok.
  unfold token_payload. cbn [pt_peer_id pt_proxy_url pt_expires_at pt_issued_at pt_signature].
  pose proof (zlen_nonneg (as_bytes pid)). pose proof (zlen_nonneg (as_bytes url)).
  rewrite !cast_small by lia.
  set (tp := to_be 2 (zlen (as_bytes pid))). set (tu := to_be 2 (zlen (as_bytes url))).
  set (te := to_be 8 ex). set (ti := to_be 8 iss).
  set (buf := tp ++ as_bytes pid ++ tu ++ as_bytes url ++ te ++ ti ++ sg).
  rewrite (read_u16_be_at buf 0 [] (as_bytes pid ++ tu ++ as_bytes url ++ te ++ ti ++ sg) eq_refl (zlen (as_bytes pid)))
    by (done || lia). cbn [result_bind].
  rewrite (read_string_at buf _ tp (tu ++ as_bytes url ++ te ++ ti ++ sg)) by (unfold tp; reader_side).
  cbn [result_bind]. 
  rewrite (read_u16_be_at buf _ (tp ++ as_bytes pid) (as_bytes url ++ te ++ ti ++ sg)) with (x := zlen (as_bytes url))
    by (unfold buf, tp, tu; reader_side). cbn [result_bind].
  rewrite (read_string_at buf _ (tp ++ as_bytes pid ++ tu) (te ++ ti ++ sg))
    by (unfold buf, tp, tu; reader_side). cbn [result_bind].
  rewrite (read_u64_be_at buf _ (tp ++ as_bytes pid ++ tu ++ as_bytes url) (ti ++ sg)) with (x := ex)
    by (unfold buf, tp, tu, te; reader_side). cbn [result_bind].
  rewrite (read_u64_be_at buf _ (tp ++ as_bytes pid ++ tu ++ as_bytes url ++ te) sg) with (x := iss)
    by (unfold buf, tp, tu, te, ti; reader_side). cbn [result_bind].
  assert (zlen buf = 2 + zlen (as_bytes pid) + 2 + zlen (as_bytes url) + 8 + 8 + 64) as Hb.
  { unfold buf, tp, tu, te, ti. rewrite !zlen_app, !zlen_to_be. lia. }
  rewrite Hb, (proj2 (Z.eqb_eq _ _)) by lia. cbn [negb]. do 2 f_equal.
  replace buf with ((tp ++ as_bytes pid ++ tu ++ as_bytes url ++ te ++ ti) ++ sg)
    by (unfold buf; by rewrite <- !app_assoc).
  apply drop_app_length'. apply Nat2Z.inj. rewrite Z2Nat.id by lia.
  change (Z.of_nat (length ?l)) with (zlen l).
  unfold tp, tu, te, ti. rewrite !zlen_app, !zlen_to_be. lia.
Qed.

(** What the readers return has the type of the field. *)
Lemma read_be_typed buf pos n e v pos' : bytes_ok buf ->
  (if zlen buf <? pos + n then Err (TokenDeserializationError e)
   else match slice buf pos (pos + n) with
        | Some bs => Ok (from_be bs, pos + n)
        | None => Err (TokenDeserializationError "unreachable")
        end) = Ok (v, pos') -> 0 <= v < 2 ^ (8 * n) /\ 0 <= pos'.
Proof.
  intros Hb. case_goal; [done|]. destruct (slice _ _ _) as [bs|] eqn:Es; [|done]. intros [= <- <-].
  apply slice_Some in Es as (Hp & _ & Hl & Hs). split; [|lia].
  apply from_be_range; [by eapply bytes_ok_submseteq|lia].
Qed.

Lemma read_string_typed buf pos len s pos' : bytes_ok buf -> read_string buf pos len = Ok (s, pos') ->
  rust_string s /\ zlen (as_bytes s) = len.
Proof.
  intros Hb. unfold read_string. case_goal; [done|]. destruct (slice _ _ _) as [bs|] eqn:Es; [|done].
  apply slice_Some in Es as (_ & _ & Hl & Hs). unfold from_utf8.
  destruct (utf8_valid bs) eqn:Hv; cbn; [|done]. intros [= <- <-]. unfold rust_string.
  rewrite as_bytes_of_bytes by (by eapply bytes_ok_submseteq). split; [done|lia].
Qed.

Lemma app_inj_length {A} (l1 l2 k1 k2 : list A) :
  length l1 = length l2 -> l1 ++ k1 = l2 ++ k2 -> l1 = l2 /\ k1 = k2.
Proof. intros Hl H. by apply app_inj_1 in H. Qed.

(** A length prefix determines how much of the text that follows belongs to it. *)
Lemma prefixed_inj p1 p2 k1 k2 :
  zlen p1 < 2 ^ 32 -> zlen p2 < 2 ^ 32 ->
  to_be 4 (cast 32 (zlen p1)) ++ p1 ++ k1 = to_be 4 (cast 32 (zlen p2)) ++ p2 ++ k2 ->
  p1 = p2 /\ k1 = k2.
Proof.
  intros H1 H2 H. pose proof (zlen_nonneg p1). pose proof (zlen_nonneg p2).
  rewrite !cast_small in H by lia.
  apply app_inj_length in H as [Hl H]; [|by rewrite !length_to_be].
  apply to_be_inj in Hl; [|simpl; lia..].
  apply app_inj_length in H as [-> ->]; [done|]. unfold zlen in Hl. lia.
Qed.

Lemma token_sign_wf {S : SigScheme} {L : SigLaws S} now pid url sk ttl :
  0 <= now < 2 ^ 64 -> 0 <= ttl -> rust_string pid -> rust_string url ->
  token_wf (token_sign now pid url sk ttl).
Proof.
  intros. split; simpl; try done.
  - unfold saturating_add. lia.
  - eauto with voip.
  - unfold zlen. by rewrite sig_bytes_length.
Qed.

Lemma token_sign_verifies {S : SigScheme} {L : SigLaws S} now pid url sk ttl :
  token_verify (token_sign now pid url sk ttl) (verifying_key sk) = true.
Proof.
  unfold token_verify, token_sign. simpl. unfold zlen. rewrite sig_bytes_length. simpl.
  rewrite sig_from_to_bytes. apply verify_sign.
Qed.

(** ** Properties *)

(** C13: two proxy tokens whose names fit the 32-bit length prefixes sign the same
    message only when they agree on the peer, the proxy, the expiry and the issue time:
    the length prefixes remove the ambiguity of plain concatenation. *)
Theorem signing_message_injective (p1 u1 p2 u2 : string) (e1 i1 e2 i2 : Z) :
  zlen (as_bytes p1) < 2 ^ 32 -> zlen (as_bytes u1) < 2 ^ 32 ->
  zlen (as_bytes p2) < 2 ^ 32 -> zlen (as_bytes u2) < 2 ^ 32 ->
  0 <= e1 < 2 ^ 64 -> 0 <= i1 < 2 ^ 64 -> 0 <= e2 < 2 ^ 64 -> 0 <= i2 < 2 ^ 64 ->
  signing_message p1 u1 e1 i1 = signing_message p2 u2 e2 i2 ->
  p1 = p2 /\ u1 = u2 /\ e1 = e2 /\ i1 = i2.
Proof.
  intros Hp1 Hu1 Hp2 Hu2 He1 Hi1 He2 Hi2 H. unfold signing_message in H.
  apply prefixed_inj in H as [Hp H]; [|done..].
  apply prefixed_inj in H as [Hu H]; [|done..].
  apply app_inj_length in H as [He Hi]; [|by rewrite !length_to_be].
  apply to_be_inj in He; [|done..]. apply to_be_inj in Hi; [|done..].
  by apply as_bytes_inj in Hp, Hu.
Qed.

Lemma signing_message_injective_witness :
  signing_message "ab" "cd" 60 0 <> signing_message "abc" "d" 60 0.
Proof.
  intros H. apply signing_message_injective in H as [H _]; [discriminate H|vm_compute..];
    try (split; congruence); congruence.
Defined.

(** C18: a token the signaling server issues, for names of less than 2^16 bytes, survives its
    base64 wire form and is accepted by the proxy's verifier at every time before its expiry;
    from the expiry on it is refused as expired. *)
Theorem issued_token_accepted {S : SigScheme} {L : SigLaws S}
    (now now' ttl : Z) (pid url : string) (sk : SigningKey) :
  0 <= now < 2 ^ 64 -> 0 <= ttl -> rust_string pid -> rust_string url ->
  zlen (as_bytes pid) < 2 ^ 16 -> zlen (as_bytes url) < 2 ^ 16 ->
  let t := token_sign now pid url sk ttl in
  let expiry := Z.min (2 ^ 64 - 1) (now + ttl) in
  token_decode (token_encode t) = Ok t /\
  verifier_verify (verifying_key sk) now' t =
    if now' <? expiry then Ok tt else Err (TokenExpired expiry).
Proof.
  intros Hn Ht Hp Hu Hlp Hlu. cbn zeta. split.
  - apply token_roundtrip; [by apply token_sign_wf|done].
  - unfold verifier_verify. rewrite token_sign_verifies. simpl.
    unfold token_is_expired. simpl. unfold saturating_add.
    destruct (Z.ltb_spec now' (Z.min (2 ^ 64 - 1) (now + ttl))).
    + by rewrite (proj2 (Z.leb_gt _ _)) by lia.
    + by rewrite (proj2 (Z.leb_le _ _)) by lia.
Qed.

Lemma issued_token_accepted_witness :
  let t := token_sign (S := ToySig.scheme) 1000 "alice" "https://p" "k"%char 300 in
  token_decode (token_encode t) = Ok t /\
  verifier_verify (S := ToySig.scheme)
    (verifying_key (SigScheme := ToySig.scheme) "k"%char) 1200 t = Ok tt.
Proof.
  apply (issued_token_accepted (S := ToySig.scheme) (L := ToySig.laws)
    1000 1200 300 "alice" "https://p" "k"%char); vm_compute; try done; split; congruence.
Defined.

(** C19: the decoder of tokens is type safe.  Whatever text it is given, a token it returns has
    UTF-8 names that fit their 16-bit lengths, 64-bit times and a signature of 64 bytes; so
    encoding it again gives a text that decodes to the same token. *)
Theorem decoded_token_typed (s : string) (t : ProxyToken) :
  token_decode s = Ok t ->
  token_wf t /\ token_fits t /\ token_decode (token_encode t) = Ok t.
Proof.
  intros Hd. cut (token_wf t /\ token_fits t).
  { intros [Hw Hf]. split; [done|]. split; [done|]. by apply token_roundtrip. }
  unfold token_decode in Hd. destruct (base64_decode s) as [buf|] eqn:Hbuf; [|done].
  apply decode_loop_ok in Hbuf. cbn [ok_or result_bind] in Hd.
  destruct (read_u16_be buf 0) as [[n1 p1]|] eqn:E1; [|done]. cbn [result_bind] in Hd.
  destruct (read_string buf p1 n1) as [[pid p2]|] eqn:E2; [|done]. cbn [result_bind] in Hd.
  destruct (read_u16_be buf p2) as [[n2 p3]|] eqn:E3; [|done]. cbn [result_bind] in Hd.
  destruct (read_string buf p3 n2) as [[url p4]|] eqn:E4; [|done]. cbn [result_bind] in Hd.
  destruct (read_u64_be buf p4) as [[ex p5]|] eqn:E5; [|done]. cbn [result_bind] in Hd.
  destruct (read_u64_be buf p5) as [[iss p6]|] eqn:E6; [|done]. cbn [result_bind] in Hd.
  destruct (zlen buf - p6 =? 64) eqn:El; [|done]. injection Hd as <-.
  apply (read_be_typed _ _ 2) in E1 as [Hn1 _], E3 as [Hn2 _]; [|done..].
  apply (read_be_typed _ _ 8) in E5 as [Hex _], E6 as [Hiss Hpos]; [|done..].
  apply read_string_typed in E2 as [Hr1 Hl1], E4 as [Hr2 Hl2]; [|done..].
  split; [|unfold token_fits; cbn; lia].
  split; cbn; try done; [by apply Forall_drop|].
  unfold zlen in *. rewrite length_drop. bool_to_prop. lia.
Qed.

Lemma decoded_token_typed_witness :
  let t := token_sign (S := ToySig.scheme) 1000 "alice" "https://p" "k"%char 300 in
  token_wf t /\ token_fits t.
Proof.
  assert (H : token_decode (token_encode (token_sign (S := ToySig.scheme) 1000 "alice" "https://p" "k"%char 300)) =
              Ok (token_sign (S := ToySig.scheme) 1000 "alice" "https://p" "k"%char 300))
    by (vm_compute; reflexivity).
  destruct (decoded_token_typed _ _ H) as (Hw & Hf & _). by split.
Defined.
