(* ===== verification/Moq.v ===== *)
(** * Media over QUIC

    [voip-client/src/moq.rs]: QUIC variable-length integers, media datagrams, the setup
    messages, and the session with its tracks, subscriptions and quality reports.

    The QUIC connection ([quinn]) is outside: every operation that writes to or reads
    from a stream takes the outcome of that call as an argument ([IoWrite], [IoRead]);
    what was written is appended to the session's [sent] trace. *)

From S2P Require Import Prelude Types Config.

Local Open Scope Z_scope.
Local Open Scope rust_scope.

Local Ltac Zify.zify_post_hook ::= Z.div_mod_to_equations.

(** ** Variable-length integers *)

Definition encode_varint (value : Z) : list Z :=
  if value <? 0x40 then to_be 1 (cast 8 value)
  else if value <? 0x4000 then to_be 2 (Z.lor 0x4000 (cast 16 value))
  else if value <? 0x40000000 then to_be 4 (Z.lor 0x80000000 (cast 32 value))
  else to_be 8 (Z.lor 0xC000000000000000 value).

(** The value and the number of bytes consumed; a truncated integer reads as [(0, 0)]. *)
Definition decode_varint (data : list Z) : Z * Z :=
  match data with
  | [] => (0, 0)
  | first :: _ =>
      let prefix := Z.shiftr first 6 in
      if prefix =? 0 then (first, 1)
      else if prefix =? 1 then
        if zlen data <? 2 then (0, 0)
        else (Z.land (from_be (take 2 data)) 0x3FFF, 2)
      else if prefix =? 2 then
        if zlen data <? 4 then (0, 0)
        else (Z.land (from_be (take 4 data)) 0x3FFFFFFF, 4)
      else
        if zlen data <? 8 then (0, 0)
        else (Z.land (from_be (take 8 data)) 0x3FFFFFFFFFFFFFFF, 8)
  end.

(** [cursor.advance(n)]. *)
Definition advance (n : Z) (data : list Z) : list Z := drop (Z.to_nat n) data.

(** [let (v, n) = decode_varint(cursor); cursor.advance(n);] *)
Definition take_varint (cursor : list Z) : Z * list Z :=
  let '(v, n) := decode_varint cursor in (v, advance n cursor).

(** ** Datagrams *)

Definition DATAGRAM_TYPE_MEDIA : Z := 1.

Record MoqDatagram := {
  datagram_type : Z;
  track_alias : Z;
  sequence : Z;
  timestamp : Z;
  payload : list Z
}.

Inductive SessionState :=
| Session_Idle | Session_SettingUp | Session_Active | Session_Closing | Session_Closed.

#[export] Instance SessionState_eq_dec : EqDecision SessionState.
Proof. solve_decision. Defined.

Inductive MoqError :=
| DatagramTooShort (got need : Z)
| InvalidDatagramType (t : Z)
| UnexpectedMessageType (expected got : Z)
| InvalidState (expected : string) (got : SessionState)
| VersionNegotiationFailed
| TransportError (what : string)
| DatagramSendFailed
| DatagramRecvFailed.

Definition datagram_new (alias seq ts : Z) (payload : list Z) : MoqDatagram := {|
  datagram_type := DATAGRAM_TYPE_MEDIA; track_alias := alias; sequence := seq;
  timestamp := ts; payload := payload
|}.

Definition datagram_encode (d : MoqDatagram) : list Z :=
  to_be 1 (datagram_type d) ++ to_be 4 (track_alias d) ++
  encode_varint (sequence d) ++ encode_varint (timestamp d) ++ payload d.

Definition datagram_decode (data : list Z) : result MoqError MoqDatagram :=
  if zlen data <? 5 then Err (DatagramTooShort (zlen data) 5)
  else
    let dtype := from_be (take 1 data) in
    let cursor := drop 1 data in
    if negb (dtype =? DATAGRAM_TYPE_MEDIA) then Err (InvalidDatagramType dtype)
    else
      let alias := from_be (take 4 cursor) in
      let cursor := drop 4 cursor in
      let '(seq, seq_len) := decode_varint cursor in
      let cursor := advance seq_len cursor in
      let '(ts, ts_len) := decode_varint cursor in
      let cursor := advance ts_len cursor in
      Ok {| datagram_type := dtype; track_alias := alias; sequence := seq; timestamp := ts;
            payload := cursor |}.

(** ** Track namespaces *)

Record TrackNamespace := { ns_namespace : string; ns_alias : Z; ns_priority : Z }.

Definition PRIORITY_AUDIO : Z := 0.
Definition PRIORITY_VIDEO_KEYFRAME : Z := 1.
Definition PRIORITY_SCREEN_SHARE : Z := 3.

Definition ns_audio (peer_id : string) : TrackNamespace := {|
  ns_namespace := "voip/" +:+ peer_id +:+ "/audio/opus-48k"; ns_alias := 0;
  ns_priority := PRIORITY_AUDIO
|}.

Definition ns_video (peer_id : string) : TrackNamespace := {|
  ns_namespace := "voip/" +:+ peer_id +:+ "/video/vp9-720p"; ns_alias := 0;
  ns_priority := PRIORITY_VIDEO_KEYFRAME
|}.

Definition ns_screen (peer_id : string) : TrackNamespace := {|
  ns_namespace := "voip/" +:+ peer_id +:+ "/screen/vp9-1080p"; ns_alias := 0;
  ns_priority := PRIORITY_SCREEN_SHARE
|}.

Definition with_alias (ns : TrackNamespace) (alias : Z) : TrackNamespace := {|
  ns_namespace := ns_namespace ns; ns_alias := alias; ns_priority := ns_priority ns
|}.

(** [str::contains] of a non-empty pattern. *)
Fixpoint contains (pat l : list Z) : bool :=
  bool_decide (take (length pat) l = pat) ||
  match l with [] => false | _ :: l' => contains pat l' end.

Inductive MediaType := Media_Audio | Media_Video | Media_Screen | Media_Unknown.

Definition media_type (ns : TrackNamespace) : MediaType :=
  let n := as_bytes (ns_namespace ns) in
  if contains (as_bytes "/audio/") n then Media_Audio
  else if contains (as_bytes "/video/") n then Media_Video
  else if contains (as_bytes "/screen/") n then Media_Screen
  else Media_Unknown.

(** Split at the first occurrence of a byte. *)
Fixpoint split_once (c : Z) (l : list Z) : option (list Z * list Z) :=
  match l with
  | [] => None
  | b :: l' =>
      if b =? c then Some ([], l')
      else let?o (x, y) := split_once c l' in Some (b :: x, y)
  end.

Definition SLASH : Z := 47.

(** [full.splitn(3, '/')], then the first two parts joined again. *)
Definition parse_namespace (full : string) : string * string :=
  match split_once SLASH (as_bytes full) with
  | Some (p0, r0) =>
      match split_once SLASH r0 with
      | Some (p1, p2) =>
          (string_of_bytes p0 +:+ "/" +:+ string_of_bytes p1, string_of_bytes p2)
      | None => (full, EmptyString)
      end
  | None => (full, EmptyString)
  end.

(** ** Setup messages *)

Definition MSG_CLIENT_SETUP : Z := 0x01.
Definition MSG_SERVER_SETUP : Z := 0x02.
Definition MSG_ANNOUNCE : Z := 0x03.
Definition MSG_SUBSCRIBE : Z := 0x06.
Definition MSG_ANNOUNCE_CANCEL : Z := 0x0D.
Definition MSG_TRACK_UPDATE : Z := 0x10.
Definition MSG_GOAWAY : Z := 0x1A.
Definition MSG_MAX_SUBSCRIBE_ID : Z := 0x1B.
Definition MSG_CONNECTION_MIGRATION : Z := 0x20.
Definition MSG_FEEDBACK : Z := 0x80.

Definition DRAFT_17 : Z := 0xff000011.

Record ClientSetup := { cs_versions : list Z; cs_role : Z; cs_path : option (list Z) }.

Definition voip_default : ClientSetup :=
  {| cs_versions := [DRAFT_17]; cs_role := 3; cs_path := None |}.

Definition client_setup_encode (c : ClientSetup) : list Z :=
  encode_varint MSG_CLIENT_SETUP ++ encode_varint (zlen (cs_versions c)) ++
  concat (encode_varint <$> cs_versions c) ++ encode_varint (cs_role c) ++
  match cs_path c with
  | Some path => encode_varint (zlen path) ++ path
  | None => []
  end.

Record ServerSetup := { ss_version : Z; ss_role : Z; ss_path : option (list Z) }.

(** The path that ends a setup message: its bytes, before the lossy UTF-8 conversion
    (nothing reads the path). *)
Definition setup_path (cursor : list Z) : option (list Z) :=
  match cursor with
  | [] => None
  | _ =>
      let '(path_len, cursor) := take_varint cursor in
      if path_len <=? zlen cursor then Some (take (Z.to_nat path_len) cursor) else None
  end.

Definition server_setup_decode (data : list Z) : result MoqError ServerSetup :=
  let '(mt, cursor) := take_varint data in
  if negb (mt =? MSG_SERVER_SETUP) then Err (UnexpectedMessageType MSG_SERVER_SETUP mt)
  else
    let '(version, cursor) := take_varint cursor in
    let '(role, cursor) := take_varint cursor in
    Ok {| ss_version := version; ss_role := cast 8 role; ss_path := setup_path cursor |}.

(** [isize::MAX], the limit of one allocation: [Vec::with_capacity] panics beyond it. *)
Definition ISIZE_MAX : Z := 2 ^ 63 - 1.

Fixpoint read_versions (n : nat) (cursor : list Z) : list Z * list Z :=
  match n with
  | O => ([], cursor)
  | S n' =>
      let '(v, cursor) := take_varint cursor in
      let '(vs, cursor) := read_versions n' cursor in
      (v :: vs, cursor)
  end.

(** [None] is a panic of the allocator. *)
Definition parse_client_setup (data : list Z) : option (result MoqError ClientSetup) :=
  let '(mt, cursor) := take_varint data in
  if negb (mt =? MSG_CLIENT_SETUP)
  then Some (Err (UnexpectedMessageType MSG_CLIENT_SETUP mt))
  else
    let '(num_versions, cursor) := take_varint cursor in
    if ISIZE_MAX <? num_versions * 8 then None
    else
      let '(versions, cursor) := read_versions (Z.to_nat num_versions) cursor in
      let '(role, cursor) := take_varint cursor in
      Some (Ok {| cs_versions := versions; cs_role := cast 8 role;
                  cs_path := setup_path cursor |}).

(** ** The session *)

Inductive StartPoint := Latest | Earliest | Absolute (group object : Z).

Record TrackSubscription := {
  ts_subscribe_id : Z;
  ts_namespace : TrackNamespace;
  ts_start : StartPoint
}.

Record QualityReport := {
  qr_track_alias : Z;
  qr_last_seq : Z;
  qr_received : Z;
  qr_lost : Z;
  qr_rtt_us : Z;
  qr_jitter_us : Z
}.

Record MoqSession := {
  ms_state : SessionState;
  subscriptions : list TrackSubscription;
  announced : list TrackNamespace;
  quality_reports : list QualityReport;
  next_subscribe_id : Z;
  control : bool;              (** the control stream is open *)
  sent : list (list Z)         (** what was written to it *)
}.

(** Outcomes of the QUIC calls. *)
Inductive IoWrite := WriteOk | WriteErr.
Inductive IoRead := ReadTimeout | ReadErr | ReadData (bytes : list Z).

Definition session_new : MoqSession := {|
  ms_state := Session_Idle; subscriptions := []; announced := []; quality_reports := [];
  next_subscribe_id := 0; control := false; sent := []
|}.

Definition set_ms_state (st : SessionState) (s : MoqSession) : MoqSession := {|
  ms_state := st; subscriptions := subscriptions s; announced := announced s;
  quality_reports := quality_reports s; next_subscribe_id := next_subscribe_id s;
  control := control s; sent := sent s
|}.

(** [if let Some(ref mut send) = *control_send { send.write_all(..)? }]: nothing is
    written, and no error raised, when there is no control stream. *)
Definition write_control (io : IoWrite) (what : string) (bytes : list Z) (s : MoqSession)
    : result MoqError MoqSession :=
  if control s then
    match io with
    | WriteOk => Ok {| ms_state := ms_state s; subscriptions := subscriptions s;
                       announced := announced s; quality_reports := quality_reports s;
                       next_subscribe_id := next_subscribe_id s; control := control s;
                       sent := sent s ++ [bytes] |}
    | WriteErr => Err (TransportError what)
    end
  else Ok s.

Definition open_control (s : MoqSession) : MoqSession := {|
  ms_state := ms_state s; subscriptions := subscriptions s; announced := announced s;
  quality_reports := quality_reports s; next_subscribe_id := next_subscribe_id s;
  control := true; sent := sent s
|}.

(** An operation keeps the session it reached when it fails part-way. *)
Definition outcome (A : Type) : Type := MoqSession * result MoqError A.

(** The part of [setup] that judges the peer's first message. *)
Definition setup_reply (buf : list Z) : result MoqError unit :=
  let '(mt, _) := decode_varint buf in
  if mt =? MSG_SERVER_SETUP then
    let? server_setup := server_setup_decode buf in
    if negb (ss_version server_setup =? DRAFT_17) then Err VersionNegotiationFailed else Ok tt
  else if (mt =? MSG_ANNOUNCE_CANCEL) || (mt =? MSG_GOAWAY) || (mt =? MSG_MAX_SUBSCRIBE_ID)
  then Ok tt
  else Err (UnexpectedMessageType MSG_SERVER_SETUP mt).

Definition session_setup (open_bi : bool) (w : IoWrite) (r : IoRead) (s : MoqSession)
    : outcome unit :=
  if negb (bool_decide (ms_state s = Session_Idle))
  then (s, Err (InvalidState "Idle" (ms_state s)))
  else
    let s := set_ms_state Session_SettingUp s in
    if negb open_bi then (s, Err (TransportError "open control stream"))
    else
      let s := open_control s in
      match write_control w "send CLIENT_SETUP" (client_setup_encode voip_default) s with
      | Err e => (s, Err e)
      | Ok s =>
          match r with
          | ReadTimeout => (s, Err (TransportError "SERVER_SETUP read timeout"))
          | ReadErr => (s, Err (TransportError "read SERVER_SETUP"))
          | ReadData [] =>
              (s, Err (TransportError "control stream closed before SERVER_SETUP received"))
          | ReadData buf =>
              match setup_reply buf with
              | Err e => (s, Err e)
              | Ok _ => (set_ms_state Session_Active s, Ok tt)
              end
          end
      end.

Definition server_setup_bytes : list Z :=
  encode_varint MSG_SERVER_SETUP ++ encode_varint DRAFT_17 ++ encode_varint 3.

(** [None] is the panic of [parse_client_setup]. *)
Definition session_accept (accept_bi : bool) (w : IoWrite) (r : IoRead) (s : MoqSession)
    : option (outcome unit) :=
  if negb (bool_decide (ms_state s = Session_Idle))
  then Some (s, Err (InvalidState "Idle" (ms_state s)))
  else
    let s := set_ms_state Session_SettingUp s in
    if negb accept_bi then Some (s, Err (TransportError "accept control stream"))
    else
      let s := open_control s in
      match r with
      | ReadTimeout => Some (s, Err (TransportError "CLIENT_SETUP read timeout"))
      | ReadErr => Some (s, Err (TransportError "read CLIENT_SETUP"))
      | ReadData [] =>
          Some (s, Err (TransportError "control stream closed before CLIENT_SETUP received"))
      | ReadData buf =>
          match parse_client_setup buf with
          | None => None
          | Some (Err e) => Some (s, Err e)
          | Some (Ok client_setup) =>
              if negb (bool_decide (DRAFT_17 ∈ cs_versions client_setup))
              then Some (s, Err VersionNegotiationFailed)
              else
                match write_control w "send SERVER_SETUP" server_setup_bytes s with
                | Err e => Some (s, Err e)
                | Ok s => Some (set_ms_state Session_Active s, Ok tt)
                end
          end
      end.

Definition announce_bytes (ns : TrackNamespace) : list Z :=
  encode_varint MSG_ANNOUNCE ++ encode_varint (str_len (ns_namespace ns)) ++
  as_bytes (ns_namespace ns).

Definition session_announce (w : IoWrite) (ns : TrackNamespace) (s : MoqSession)
    : outcome unit :=
  if negb (bool_decide (ms_state s = Session_Active))
  then (s, Err (InvalidState "Active" (ms_state s)))
  else
    match write_control w "send ANNOUNCE" (announce_bytes ns) s with
    | Err e => (s, Err e)
    | Ok s =>
        ({| ms_state := ms_state s; subscriptions := subscriptions s;
            announced := announced s ++ [ns]; quality_reports := quality_reports s;
            next_subscribe_id := next_subscribe_id s; control := control s;
            sent := sent s |}, Ok tt)
    end.

Definition start_bytes (start : StartPoint) : list Z :=
  match start with
  | Latest => encode_varint 1
  | Earliest => encode_varint 2
  | Absolute group object => encode_varint 3 ++ encode_varint group ++ encode_varint object
  end.

Definition subscribe_bytes (id : Z) (ns : TrackNamespace) (start : StartPoint) : list Z :=
  let '(prefix, track_name) := parse_namespace (ns_namespace ns) in
  encode_varint MSG_SUBSCRIBE ++ encode_varint id ++
  encode_varint (str_len prefix) ++ as_bytes prefix ++
  encode_varint (str_len track_name) ++ as_bytes track_name ++
  encode_varint (ns_priority ns) ++ start_bytes start.

(** The identifier is taken before the write, so a failed write consumes it. *)
Definition session_subscribe (w : IoWrite) (ns : TrackNamespace) (start : StartPoint)
    (s : MoqSession) : outcome Z :=
  if negb (bool_decide (ms_state s = Session_Active))
  then (s, Err (InvalidState "Active" (ms_state s)))
  else
    let id := next_subscribe_id s in
    let s := {| ms_state := ms_state s; subscriptions := subscriptions s;
                announced := announced s; quality_reports := quality_reports s;
                next_subscribe_id := id + 1; control := control s; sent := sent s |} in
    match write_control w "send SUBSCRIBE" (subscribe_bytes id ns start) s with
    | Err e => (s, Err e)
    | Ok s =>
        ({| ms_state := ms_state s;
            subscriptions := subscriptions s ++
              [{| ts_subscribe_id := id; ts_namespace := ns; ts_start := start |}];
            announced := announced s; quality_reports := quality_reports s;
            next_subscribe_id := next_subscribe_id s; control := control s;
            sent := sent s |}, Ok id)
    end.

Definition session_send_datagram (send_ok : bool) (d : MoqDatagram) (s : MoqSession)
    : result MoqError (list Z) :=
  if negb (bool_decide (ms_state s = Session_Active))
  then Err (InvalidState "Active" (ms_state s))
  else if send_ok then Ok (datagram_encode d) else Err DatagramSendFailed.

Definition session_recv_datagram (r : option (list Z)) (s : MoqSession)
    : result MoqError MoqDatagram :=
  if negb (bool_decide (ms_state s = Session_Active))
  then Err (InvalidState "Active" (ms_state s))
  else let? data := ok_or r DatagramRecvFailed in datagram_decode data.

Definition quality_bytes (q : QualityReport) : list Z :=
  encode_varint MSG_FEEDBACK ++ encode_varint (qr_track_alias q) ++
  encode_varint (qr_last_seq q) ++ encode_varint (qr_received q) ++
  encode_varint (qr_lost q) ++ encode_varint (qr_rtt_us q).

Definition session_send_quality_report (w : IoWrite) (q : QualityReport) (s : MoqSession)
    : outcome unit :=
  match write_control w "send quality report" (quality_bytes q) s with
  | Err e => (s, Err e)
  | Ok s => (s, Ok tt)
  end.

Definition session_send_track_update (w : IoWrite) (subscribe_id priority : Z)
    (s : MoqSession) : outcome unit :=
  match write_control w "send track update"
      (encode_varint MSG_TRACK_UPDATE ++ encode_varint subscribe_id ++ encode_varint priority) s with
  | Err e => (s, Err e)
  | Ok s => (s, Ok tt)
  end.

Definition address_list_bytes (addrs : list string) : list Z :=
  encode_varint (zlen addrs) ++
  concat ((fun a => encode_varint (str_len a) ++ as_bytes a) <$> addrs).

Definition session_send_migration_message (w : IoWrite) (ipv6 ipv4 : list string)
    (s : MoqSession) : outcome unit :=
  match write_control w "send migration message"
      (encode_varint MSG_CONNECTION_MIGRATION ++ address_list_bytes ipv6 ++
       address_list_bytes ipv4) s with
  | Err e => (s, Err e)
  | Ok s => (s, Ok tt)
  end.

Definition session_close (s : MoqSession) : MoqSession :=
  set_ms_state Session_Closed (set_ms_state Session_Closing s).

Fixpoint record_in (d : MoqDatagram) (reports : list QualityReport) : list QualityReport :=
  match reports with
  | [] => [{| qr_track_alias := track_alias d; qr_last_seq := sequence d; qr_received := 1;
              qr_lost := 0; qr_rtt_us := 0; qr_jitter_us := 0 |}]
  | q :: reports' =>
      if qr_track_alias q =? track_alias d
      then {| qr_track_alias := qr_track_alias q; qr_last_seq := sequence d;
              qr_received := qr_received q + 1; qr_lost := qr_lost q;
              qr_rtt_us := qr_rtt_us q; qr_jitter_us := qr_jitter_us q |} :: reports'
      else q :: record_in d reports'
  end.

Definition session_record_received_datagram (d : MoqDatagram) (s : MoqSession) : MoqSession := {|
  ms_state := ms_state s; subscriptions := subscriptions s; announced := announced s;
  quality_reports := record_in d (quality_reports s);
  next_subscribe_id := next_subscribe_id s; control := control s; sent := sent s
|}.

(** One turn of [start_feedback_loop]: [None] when the loop ends.  Failed writes are
    logged and skipped. *)
Fixpoint send_reports (ws : list IoWrite) (qs : list QualityReport) (s : MoqSession) : MoqSession :=
  match qs, ws with
  | q :: qs', w :: ws' => send_reports ws' qs' (fst (session_send_quality_report w q s))
  | q :: qs', [] => send_reports [] qs' (fst (session_send_quality_report WriteOk q s))
  | [], _ => s
  end.

Definition feedback_tick (ws : list IoWrite) (s : MoqSession) : option MoqSession :=
  if negb (bool_decide (ms_state s = Session_Active)) then None
  else Some (send_reports ws (quality_reports s) s).

(** [quality_report(track_alias)]. *)
Definition session_quality_report (alias : Z) (s : MoqSession) : option QualityReport :=
  find (fun q => qr_track_alias q =? alias) (quality_reports s).

(** ** Facts about variable-length integers *)

Lemma lor_tag (tag k v : Z) : 0 <= k -> 0 <= v < 2 ^ k -> Z.lor (tag * 2 ^ k) v = tag * 2 ^ k + v.
Proof. intros. rewrite <- (lor_shiftl_add tag v k) by done. by rewrite Z.shiftl_mul_pow2. Qed.

(** The low 62 bits survive the two tag bits, whatever the top bits of [v] were. *)
Lemma tag62 v : 0 <= v < 2 ^ 64 ->
  Z.lor 0xC000000000000000 v = 3 * 2 ^ 62 + v mod 2 ^ 62.
Proof.
  intros Hv. rewrite <- (lor_tag 3 62 (v mod 2 ^ 62)) by (try apply Z.mod_pos_bound; lia).
  apply Z.bits_inj'. intros i Hi. rewrite !Z.lor_spec.
  destruct (Z.lt_ge_cases i 62).
  - by rewrite (Z.mod_pow2_bits_low v 62) by lia.
  - rewrite (Z.mod_pow2_bits_high v 62) by lia.
    destruct (Z.lt_ge_cases i 64).
    + assert (i = 62 \/ i = 63) as [-> | ->] by lia; done.
    + rewrite <- (Z.mod_small v (2 ^ 64)), Z.mod_pow2_bits_high by lia. done.
Qed.

Lemma take_to_be n x rest : take n (to_be n x ++ rest) = to_be n x.
Proof. apply take_app_length'. by rewrite length_to_be. Qed.

Lemma to_be_head n x rest :
  exists tl, to_be (S n) x ++ rest = (x / 2 ^ (8 * Z.of_nat n)) mod 256 :: tl.
Proof. by eexists. Qed.

(** Decoding a tagged big-endian integer: the tag selects the branch. *)
Lemma decode_tagged (n : nat) (tag k x : Z) rest :
  (n = 1%nat /\ tag = 0 /\ k = 6) \/ (n = 2%nat /\ tag = 1 /\ k = 14) \/
  (n = 4%nat /\ tag = 2 /\ k = 30) \/ (n = 8%nat /\ tag = 3 /\ k = 62) ->
  0 <= x < 2 ^ k ->
  decode_varint (to_be n (tag * 2 ^ k + x) ++ rest) = (x, Z.of_nat n).
Proof.
  intros Hn Hx.
  assert (forall m z, 0 <= m -> Z.land z (2 ^ m - 1) = z mod 2 ^ m) as Hland.
  { intros m z Hm. rewrite <- Z.land_ones by lia. by rewrite Z.ones_equiv, Z.sub_1_r. }
  destruct Hn as [(-> & -> & ->)|[(-> & -> & ->)|[(-> & -> & ->)|(-> & -> & ->)]]];
    match goal with |- decode_varint (to_be ?n ?y ++ rest) = _ =>
      set (b := to_be n y ++ rest);
      assert (zlen b = Z.of_nat n + zlen rest) as Hlen
        by (unfold b, zlen; rewrite length_app, length_to_be; lia);
      assert (take n b = to_be n y) as Htake by apply take_to_be;
      destruct (to_be_head (n - 1) y rest) as [tl Htl]
    end; pose proof (zlen_nonneg rest);
    cbn [Nat.sub] in Htl; unfold decode_varint; fold b in Htl; rewrite Htl at 1;
    cbv zeta; rewrite Z.shiftr_div_pow2 by lia.
  - simpl Z.of_nat. rewrite (proj2 (Z.eqb_eq _ _)) by (simpl; lia). f_equal; simpl; lia.
  - rewrite (proj2 (Z.eqb_neq _ _)) by (simpl; lia).
    rewrite (proj2 (Z.eqb_eq _ _)) by (simpl; lia).
    rewrite Hlen, Htake, (proj2 (Z.ltb_ge _ _)) by lia. f_equal.
    change 0x3FFF with (2 ^ 14 - 1). rewrite Hland, from_be_to_be by lia.
    change (2 ^ (8 * Z.of_nat 2)) with (2 ^ 16). lia.
  - rewrite (proj2 (Z.eqb_neq _ _)) by (simpl; lia).
    rewrite (proj2 (Z.eqb_neq _ _)) by (simpl; lia).
    rewrite (proj2 (Z.eqb_eq _ _)) by (simpl; lia).
    rewrite Hlen, Htake, (proj2 (Z.ltb_ge _ _)) by lia. f_equal.
    change 0x3FFFFFFF with (2 ^ 30 - 1). rewrite Hland, from_be_to_be by lia.
    change (2 ^ (8 * Z.of_nat 4)) with (2 ^ 32). lia.
  - do 3 rewrite (proj2 (Z.eqb_neq _ _)) by (simpl; lia).
    rewrite Hlen, Htake, (proj2 (Z.ltb_ge _ _)) by lia. f_equal.
    change 0x3FFFFFFFFFFFFFFF with (2 ^ 62 - 1). rewrite Hland, from_be_to_be by lia.
    change (2 ^ (8 * Z.of_nat 8)) with (2 ^ 64). lia.
Qed.

(** The length class of a value. *)
Definition varint_size (v : Z) : nat :=
  if v <? 0x40 then 1 else if v <? 0x4000 then 2 else if v <? 0x40000000 then 4 else 8.

Lemma encode_varint_length v : length (encode_varint v) = varint_size v.
Proof. unfold encode_varint, varint_size. repeat case_match; apply length_to_be. Qed.

Lemma encode_varint_ok v : bytes_ok (encode_varint v).
Proof. unfold encode_varint. repeat case_match; apply to_be_ok. Qed.

#[export] Hint Resolve encode_varint_ok : voip.

(** Decoding what was encoded gives the value modulo [2^62]. *)
Lemma decode_encode_varint v rest : 0 <= v < 2 ^ 64 ->
  decode_varint (encode_varint v ++ rest) =
    (if v <? 2 ^ 62 then v else v mod 2 ^ 62, Z.of_nat (varint_size v)).
Proof.
  intros Hv. unfold encode_varint, varint_size, cast.
  destruct (Z.ltb_spec v 0x40).
  { rewrite Z.mod_small, (proj2 (Z.ltb_lt v (2 ^ 62))) by lia.
    replace v with (0 * 2 ^ 6 + v) at 1 by lia. apply (decode_tagged 1); [tauto|lia]. }
  destruct (Z.ltb_spec v 0x4000).
  { rewrite Z.mod_small, (proj2 (Z.ltb_lt v (2 ^ 62))) by lia.
    change 0x4000 with (1 * 2 ^ 14). rewrite lor_tag by lia.
    apply (decode_tagged 2); [tauto|lia]. }
  destruct (Z.ltb_spec v 0x40000000).
  { rewrite Z.mod_small, (proj2 (Z.ltb_lt v (2 ^ 62))) by lia.
    change 0x80000000 with (2 * 2 ^ 30). rewrite lor_tag by lia.
    apply (decode_tagged 4); [tauto|lia]. }
  rewrite tag62 by lia.
  rewrite (decode_tagged 8 3 62) by (tauto || (apply Z.mod_pos_bound; lia)).
  f_equal. destruct (Z.ltb_spec v (2 ^ 62)); [by rewrite Z.mod_small by lia|done].
Qed.

Lemma take_varint_encode v rest : 0 <= v < 2 ^ 62 ->
  take_varint (encode_varint v ++ rest) = (v, rest).
Proof.
  intros Hv. unfold take_varint. rewrite decode_encode_varint by lia.
  rewrite (proj2 (Z.ltb_lt _ _)) by lia. unfold advance.
  rewrite Nat2Z.id, <- encode_varint_length, drop_app_length. done.
Qed.

(** A decoder never consumes more than there is. *)
Lemma decode_varint_bound data : 0 <= snd (decode_varint data) <= zlen data.
Proof.
  unfold decode_varint. destruct data as [|b data]; [done|].
  pose proof (zlen_nonneg data).
  assert (zlen (b :: data) = 1 + zlen data) by (unfold zlen; simpl; lia).
  repeat case_match; bool_to_prop; simpl in *; lia.
Qed.

Record datagram_wf (d : MoqDatagram) : Prop := {
  dwf_type : datagram_type d = DATAGRAM_TYPE_MEDIA;
  dwf_alias : 0 <= track_alias d < 2 ^ 32;
  dwf_seq : 0 <= sequence d < 2 ^ 62;
  dwf_ts : 0 <= timestamp d < 2 ^ 62
}.

Lemma datagram_roundtrip d : datagram_wf d -> datagram_decode (datagram_encode d) = Ok d.
Proof.
  intros [Ht Ha Hs Hts]. destruct d as [t a sq ts p]; cbn [datagram_type track_alias sequence
    timestamp payload] in *. subst t. unfold datagram_decode, datagram_encode.
  cbn [datagram_type track_alias sequence timestamp payload].
  pose proof (zlen_nonneg (encode_varint sq ++ encode_varint ts ++ p)).
  rewrite !zlen_app in *. 
  rewrite (proj2 (Z.ltb_ge _ _)) by (unfold zlen in *; rewrite !length_to_be; lia).
  rewrite take_to_be, drop_app_length' by by rewrite length_to_be.
  change (from_be (to_be 1 DATAGRAM_TYPE_MEDIA)) with DATAGRAM_TYPE_MEDIA. cbn [negb Z.eqb].
  change (DATAGRAM_TYPE_MEDIA =? DATAGRAM_TYPE_MEDIA) with true. cbn [negb].
  rewrite take_to_be, drop_app_length' by by rewrite length_to_be.
  rewrite from_be_to_be_small by (simpl; lia).
  rewrite decode_encode_varint by lia. unfold advance.
  rewrite Nat2Z.id, <- encode_varint_length, drop_app_length.
  rewrite decode_encode_varint by lia.
  rewrite Nat2Z.id, <- encode_varint_length, drop_app_length.
  by rewrite !(proj2 (Z.ltb_lt _ _)) by lia.
Qed.

Lemma read_versions_encode vs rest : Forall (fun v => 0 <= v < 2 ^ 62) vs ->
  read_versions (length vs) (concat (encode_varint <$> vs) ++ rest) = (vs, rest).
Proof.
  induction 1 as [|v vs Hv _ IH]; csimpl; [done|].
  rewrite <- app_assoc, take_varint_encode by done. by rewrite IH.
Qed.

(** Whatever a client offers, the acceptor reads back (when the allocation is possible). *)
Lemma client_setup_roundtrip c :
  Forall (fun v => 0 <= v < 2 ^ 62) (cs_versions c) -> zlen (cs_versions c) * 8 <= ISIZE_MAX ->
  0 <= cs_role c < 256 -> 
  match cs_path c with Some p => zlen p < 2 ^ 62 | None => True end ->
  parse_client_setup (client_setup_encode c) = Some (Ok c).
Proof.
  destruct c as [vs role path]; simpl. intros Hv Hn Hr Hp.
  pose proof (zlen_nonneg vs). unfold parse_client_setup, client_setup_encode, ISIZE_MAX in *.
  cbn [cs_versions cs_role cs_path]. rewrite take_varint_encode by (unfold MSG_CLIENT_SETUP; lia).
  change (MSG_CLIENT_SETUP =? MSG_CLIENT_SETUP) with true. cbn [negb].
  rewrite take_varint_encode by lia. rewrite (proj2 (Z.ltb_ge _ _)) by lia.
  replace (Z.to_nat (zlen vs)) with (length vs) by (unfold zlen; lia).
  rewrite read_versions_encode by done. rewrite take_varint_encode by lia.
  rewrite cast_small by lia. do 3 f_equal. destruct path as [p|]; [|done].
  unfold setup_path. destruct (encode_varint (zlen p) ++ p) eqn:E.
  { apply app_eq_nil in E as [E _]. pose proof (encode_varint_length (zlen p)) as L.
    rewrite E in L. unfold varint_size in L. repeat case_match; simpl in L; lia. }
  rewrite <- E. pose proof (zlen_nonneg p). rewrite take_varint_encode by lia.
  rewrite (proj2 (Z.leb_le _ _)) by lia. f_equal. apply take_ge. unfold zlen. lia.
Qed.

(** ** The media type of a namespace *)

Lemma contains_skip c pat l r : c ∉ l -> contains (c :: pat) (l ++ r) = contains (c :: pat) r.
Proof.
  induction l as [|b l IH]; intros H; [done|]. apply not_elem_of_cons in H as [Hb Hl].
  cbn [app contains length take]. rewrite bool_decide_eq_false_2 by congruence. by apply IH.
Qed.

(** A word between slashes is the first part after the slash. *)
Lemma word_first w p rest : SLASH ∉ p -> SLASH ∉ w ->
  take (length (w ++ [SLASH])) (p ++ SLASH :: rest) = w ++ [SLASH] -> p = w.
Proof.
  revert w. induction p as [|b p IH]; intros [|x w] Hp Hw; cbn; try done.
  - intros H. injection H as Hx _. subst x. set_solver.
  - intros H. injection H as Hx. subst b. set_solver.
  - intros [= -> H]. f_equal. apply IH; [set_solver..|done].
Qed.

Lemma contains_word w p rest : SLASH ∉ p -> SLASH ∉ w -> p <> w ->
  contains (SLASH :: w ++ [SLASH]) (as_bytes "voip/" ++ p ++ SLASH :: rest) =
  contains (SLASH :: w ++ [SLASH]) (SLASH :: rest).
Proof.
  intros Hp Hw Hne. change (as_bytes "voip/" ++ p ++ SLASH :: rest) with
    ([118; 111; 105; 112] ++ SLASH :: p ++ SLASH :: rest).
  rewrite contains_skip by (unfold SLASH; set_solver).
  cbn [contains]. rewrite bool_decide_eq_false_2; [by rewrite orb_false_l, contains_skip|].
  cbn [length take]. intros [= H]. by apply Hne, (word_first w p rest).
Qed.

(** The three kinds of track are told apart for every peer whose identifier has no slash and
    is not itself the name of a kind. *)
Lemma media_type_of_tracks p :
  SLASH ∉ as_bytes p -> p <> "audio" -> p <> "video" -> p <> "screen" ->
  media_type (ns_audio p) = Media_Audio /\ media_type (ns_video p) = Media_Video /\
  media_type (ns_screen p) = Media_Screen.
Proof.
  intros Hp Ha Hv Hs.
  assert (Hc : forall w rest, SLASH ∉ as_bytes w -> p <> w ->
    contains (as_bytes ("/" +:+ w +:+ "/")) (as_bytes ("voip/" +:+ p +:+ "/" +:+ rest)) =
    contains (as_bytes ("/" +:+ w +:+ "/")) (SLASH :: as_bytes rest)).
  { intros w rest Hw Hne. rewrite !as_bytes_app.
    apply (contains_word (as_bytes w) (as_bytes p) (as_bytes rest) Hp Hw).
    intros E. by apply Hne, as_bytes_inj. }
  unfold media_type. cbn [ns_namespace ns_audio ns_video ns_screen].
  pose proof (Hc "audio" "audio/opus-48k") as A1. pose proof (Hc "audio" "video/vp9-720p") as A2.
  pose proof (Hc "audio" "screen/vp9-1080p") as A3. pose proof (Hc "video" "video/vp9-720p") as V2.
  pose proof (Hc "video" "screen/vp9-1080p") as V3. pose proof (Hc "screen" "screen/vp9-1080p") as S3.
  assert (SLASH ∉ as_bytes "audio") as Wa by (apply (bool_decide_unpack _); by vm_compute).
  assert (SLASH ∉ as_bytes "video") as Wv by (apply (bool_decide_unpack _); by vm_compute).
  assert (SLASH ∉ as_bytes "screen") as Ws by (apply (bool_decide_unpack _); by vm_compute).
  change ("voip/" +:+ p +:+ "/audio/opus-48k") with ("voip/" +:+ p +:+ "/" +:+ "audio/opus-48k").
  change ("voip/" +:+ p +:+ "/video/vp9-720p") with ("voip/" +:+ p +:+ "/" +:+ "video/vp9-720p").
  change ("voip/" +:+ p +:+ "/screen/vp9-1080p") with ("voip/" +:+ p +:+ "/" +:+ "screen/vp9-1080p").
  change "/audio/" with ("/" +:+ "audio" +:+ "/"). change "/video/" with ("/" +:+ "video" +:+ "/").
  change "/screen/" with ("/" +:+ "screen" +:+ "/").
  rewrite A1, A2, A3, V2, V3, S3 by assumption. done.
Qed.

(** ** The session as a transition system

    Every public operation, with every outcome of the QUIC calls it makes. *)

Inductive session_step : MoqSession -> MoqSession -> Prop :=
| st_setup o w r s : session_step s (fst (session_setup o w r s))
| st_accept o w r s x : session_accept o w r s = Some x -> session_step s (fst x)
| st_announce w ns s : session_step s (fst (session_announce w ns s))
| st_subscribe w ns start s : session_step s (fst (session_subscribe w ns start s))
| st_quality w q s : session_step s (fst (session_send_quality_report w q s))
| st_update w i p s : session_step s (fst (session_send_track_update w i p s))
| st_migrate w a b s : session_step s (fst (session_send_migration_message w a b s))
| st_record d s : session_step s (session_record_received_datagram d s)
| st_feedback ws s s' : feedback_tick ws s = Some s' -> session_step s s'
| st_close s : session_step s (session_close s).

Definition session_reachable : MoqSession -> Prop :=
  reachable (fun s => s = session_new) session_step.

Record session_inv (s : MoqSession) : Prop := {
  si_ids_unique : NoDup (ts_subscribe_id <$> subscriptions s);
  si_ids_below : Forall (fun t => 0 <= ts_subscribe_id t < next_subscribe_id s) (subscriptions s);
  si_next : 0 <= next_subscribe_id s;
  si_active : ms_state s = Session_Active -> control s = true;
  si_idle : ms_state s = Session_Idle ->
    control s = false /\ sent s = [] /\ subscriptions s = [] /\ announced s = [];
  si_tracks : NoDup (qr_track_alias <$> quality_reports s);
  si_reports : Forall (fun q => 1 <= qr_received q /\ qr_lost q = 0) (quality_reports s)
}.

Lemma write_control_spec io what b s :
  match write_control io what b s with
  | Ok s' =>
      ms_state s' = ms_state s /\ subscriptions s' = subscriptions s /\
      announced s' = announced s /\ quality_reports s' = quality_reports s /\
      next_subscribe_id s' = next_subscribe_id s /\ control s' = control s /\
      sent s' = if control s then sent s ++ [b] else sent s
  | Err e => True
  end.
Proof. unfold write_control. destruct (control s) eqn:E, io; simpl; try rewrite E; done. Qed.

(** Sessions that differ only in what was sent. *)
Lemma inv_same_core s s' : session_inv s ->
  (ms_state s' <> Session_Idle \/ sent s' = sent s) -> ms_state s' = ms_state s ->
  subscriptions s' = subscriptions s -> announced s' = announced s ->
  quality_reports s' = quality_reports s -> next_subscribe_id s' = next_subscribe_id s ->
  control s' = control s -> session_inv s'.
Proof.
  intros [] Hs Hst Hsub Han Hq Hn Hc.
  split; rewrite ?Hst, ?Hsub, ?Han, ?Hq, ?Hn, ?Hc; try done.
  intros Hi. destruct Hs as [Hs|Hs]; [congruence|]. rewrite Hs. auto.
Qed.

Lemma inv_write_only io what b s s' : session_inv s ->
  write_control io what b s = Ok s' -> session_inv s'.
Proof.
  intros Hi Hw. pose proof (si_idle _ Hi) as Hidle. pose proof (write_control_spec io what b s) as H. rewrite Hw in H.
  destruct H as (H1 & H2 & H3 & H4 & H5 & H6 & H7).
  eapply inv_same_core; eauto. rewrite H1, H7.
  destruct (decide (ms_state s = Session_Idle)) as [E|E]; [right|by left].
  by rewrite (proj1 (Hidle E)).
Qed.

Lemma record_in_alias d qs q :
  q ∈ qr_track_alias <$> record_in d qs <-> q = track_alias d \/ q ∈ qr_track_alias <$> qs.
Proof.
  induction qs as [|r qs IH]; csimpl; [set_solver|].
  destruct (qr_track_alias r =? track_alias d) eqn:E; bool_to_prop; csimpl; set_solver.
Qed.

Lemma record_in_nodup d qs :
  NoDup (qr_track_alias <$> qs) -> NoDup (qr_track_alias <$> record_in d qs).
Proof.
  induction qs as [|r qs IH]; csimpl; intros H; [by apply NoDup_singleton|].
  apply NoDup_cons in H as [Hn H].
  destruct (qr_track_alias r =? track_alias d) eqn:E; bool_to_prop; csimpl;
    apply NoDup_cons; split; try done; [|by apply IH].
  rewrite record_in_alias. intros [?|?]; done.
Qed.

Lemma record_in_reports d qs :
  Forall (fun q => 1 <= qr_received q /\ qr_lost q = 0) qs ->
  Forall (fun q => 1 <= qr_received q /\ qr_lost q = 0) (record_in d qs).
Proof.
  induction qs as [|r qs IH]; simpl; intros H; [apply Forall_singleton; simpl; lia|].
  apply Forall_cons in H as [[Hr Hl] H].
  destruct (qr_track_alias r =? track_alias d); apply Forall_cons; simpl; [|by auto].
  split_and!; [lia|done|done].
Qed.

(** Failing part-way leaves only the state [SettingUp] (and the open stream) behind. *)
Lemma inv_setting_up s : session_inv s -> ms_state s = Session_Idle ->
  session_inv (set_ms_state Session_SettingUp s) /\
  session_inv (open_control (set_ms_state Session_SettingUp s)).
Proof. intros [] H. by split; split. Qed.

Lemma inv_activate s : session_inv s -> control s = true ->
  session_inv (set_ms_state Session_Active s).
Proof. intros [] H. by split. Qed.

Lemma write_control_open io what b s s' :
  write_control io what b s = Ok s' -> control s' = control s.
Proof. intros H. pose proof (write_control_spec io what b s) as W. rewrite H in W. tauto. Qed.

Lemma send_reports_inv ws qs s : session_inv s -> session_inv (send_reports ws qs s).
Proof.
  revert ws s; induction qs as [|q qs IH]; intros ws s Hi; [by destruct ws|].
  destruct ws as [|w ws]; simpl; apply IH; unfold session_send_quality_report;
    case_match; simpl; eauto using inv_write_only.
Qed.

Lemma inv_setup o w r s : session_inv s -> session_inv (fst (session_setup o w r s)).
Proof.
  intros Hi. unfold session_setup. case_bool_decide as Hs; [|done]. cbn [negb].
  destruct (inv_setting_up s Hi Hs) as [H1 H2]. destruct o; [|done]. cbn [negb].
  destruct (write_control _ _ _ _) as [s2|e] eqn:Hw; [|done].
  pose proof (inv_write_only _ _ _ _ _ H2 Hw) as H3.
  pose proof (write_control_open _ _ _ _ _ Hw) as Hc.
  destruct r as [| |[|b buf]]; try done.
  destruct (setup_reply (b :: buf)); [|done]. simpl. by apply inv_activate.
Qed.

Lemma inv_accept o w r s x :
  session_inv s -> session_accept o w r s = Some x -> session_inv (fst x).
Proof.
  intros Hi. unfold session_accept. case_bool_decide as Hs; cbn [negb]; [|by intros [= <-]].
  destruct (inv_setting_up s Hi Hs) as [H1 H2].
  destruct o; cbn [negb]; [|by intros [= <-]].
  destruct r as [| |[|b buf]]; try by intros [= <-].
  destruct (parse_client_setup (b :: buf)) as [[c|e]|]; [|by intros [= <-]|done].
  case_bool_decide; cbn [negb]; [|by intros [= <-]].
  destruct (write_control _ _ _ _) as [s2|e] eqn:Hw; intros [= <-]; [|done].
  apply inv_activate; [by eapply inv_write_only|].
  by rewrite (write_control_open _ _ _ _ _ Hw).
Qed.

Lemma inv_subscribe w ns start s :
  session_inv s -> session_inv (fst (session_subscribe w ns start s)).
Proof.
  intros Hi. unfold session_subscribe. case_bool_decide as Hs; [|done]. cbn [negb].
  set (s1 := {| ms_state := ms_state s |}).
  assert (session_inv s1) as H1.
  { destruct Hi. split; simpl; try done; [|lia].
    eapply Forall_impl; [done|]. simpl. intros; lia. }
  destruct (write_control _ _ _ _) as [s2|e] eqn:Hw; [|done]. simpl.
  pose proof (inv_write_only _ _ _ _ _ H1 Hw) as [].
  pose proof (write_control_spec w "send SUBSCRIBE"
    (subscribe_bytes (next_subscribe_id s) ns start) s1) as W. rewrite Hw in W.
  destruct W as (W1 & W2 & _ & _ & W5 & W6 & _). simpl in *.
  destruct Hi as [_ Hb Hn _ _ _ _].
  split; simpl; try done.
  - rewrite fmap_app. apply NoDup_app. split_and!; [done| |apply NoDup_singleton].
    intros i Hin. rewrite W2 in Hin. apply list_elem_of_fmap in Hin as (t & -> & Ht).
    rewrite Forall_forall in Hb. specialize (Hb t Ht). csimpl. set_solver by lia.
  - rewrite W5. apply Forall_app. split; [by rewrite <- W5|].
    apply Forall_singleton. simpl. lia.
  - rewrite W1, Hs. done.
Qed.

Lemma inv_announce w ns s : session_inv s -> session_inv (fst (session_announce w ns s)).
Proof.
  intros Hi. unfold session_announce. case_bool_decide as Hs; [|done]. cbn [negb].
  destruct (write_control _ _ _ _) as [s2|e] eqn:Hw; [|done].
  pose proof (write_control_spec w "send ANNOUNCE" (announce_bytes ns) s) as W.
  rewrite Hw in W. destruct W as (W1 & _).
  destruct (inv_write_only _ _ _ _ _ Hi Hw). split; simpl; try done.
  rewrite W1, Hs. done.
Qed.

Lemma session_step_inv s s' : session_inv s -> session_step s s' -> session_inv s'.
Proof.
  intros Hi Hstep. revert Hi. destruct Hstep as [o w r s|o w r s x Hx|w ns s|w ns start s|w q s
    |w i p s|w a b s|d s|ws s s1 Hf|s]; intros Hi.
  - by apply inv_setup.
  - exact (inv_accept _ _ _ _ _ Hi Hx).
  - by apply inv_announce.
  - by apply inv_subscribe.
  - unfold session_send_quality_report. case_match; simpl; eauto using inv_write_only.
  - unfold session_send_track_update. case_match; simpl; eauto using inv_write_only.
  - unfold session_send_migration_message. case_match; simpl; eauto using inv_write_only.
  - destruct Hi. split; simpl; try done; [by apply record_in_nodup|by apply record_in_reports].
  - revert Hf. unfold feedback_tick. case_match; intros [= <-]. by apply send_reports_inv.
  - destruct Hi. by split.
Qed.

(** ** Properties *)

(** C21: a media datagram whose sequence number and timestamp fit 62 bits decodes to
    itself; the encoding is its five header bytes, two integers of 1, 2, 4 or 8 bytes
    and the payload. *)
Theorem moq_datagram_roundtrip (d : MoqDatagram) :
  datagram_wf d ->
  datagram_decode (datagram_encode d) = Ok d /\
  length (datagram_encode d) =
    (5 + varint_size (sequence d) + varint_size (timestamp d) + length (payload d))%nat.
Proof.
  intros H. split; [by apply datagram_roundtrip|]. unfold datagram_encode.
  rewrite !length_app, !length_to_be, !encode_varint_length. lia.
Qed.

Lemma moq_datagram_roundtrip_witness :
  let d := datagram_new 7 16384 960000 [1; 2; 3] in
  datagram_decode (datagram_encode d) = Ok d /\
  length (datagram_encode d) =
    (5 + varint_size (sequence d) + varint_size (timestamp d) + length (payload d))%nat.
Proof.
  apply (moq_datagram_roundtrip (datagram_new 7 16384 960000 [1; 2; 3])).
  split; simpl; lia.
Defined.

(** The variable-length integer codec is exact below [2^62] and loses the top two
    bits of larger [u64] values; it consumes exactly the bytes written, for any bytes
    that follow. *)
Lemma moq_varint_exact (v : Z) (rest : list Z) :
  0 <= v < 2 ^ 64 ->
  decode_varint (encode_varint v ++ rest) =
    (if v <? 2 ^ 62 then v else v mod 2 ^ 62, zlen (encode_varint v)).
Proof.
  intros H. rewrite decode_encode_varint by done. unfold zlen.
  by rewrite encode_varint_length.
Qed.

Lemma moq_varint_exact_witness :
  decode_varint (encode_varint (2 ^ 63 + 5) ++ [9]) =
    (if 2 ^ 63 + 5 <? 2 ^ 62 then 2 ^ 63 + 5 else (2 ^ 63 + 5) mod 2 ^ 62,
     zlen (encode_varint (2 ^ 63 + 5))).
Proof. apply (moq_varint_exact (2 ^ 63 + 5)). lia. Defined.

(** Decoding never fails on a datagram of at least five bytes with the media type:
    a datagram whose integers are cut off is accepted, with 0 for the missing fields. *)
Lemma moq_decode_accepts_truncated (data : list Z) :
  match datagram_decode data with
  | Err (DatagramTooShort got need) => zlen data < 5 /\ got = zlen data /\ need = 5
  | Err (InvalidDatagramType t) => 5 <= zlen data /\ t <> DATAGRAM_TYPE_MEDIA
  | Err _ => False
  | Ok d => 5 <= zlen data /\ datagram_type d = DATAGRAM_TYPE_MEDIA
  end /\
  forall a b c e, datagram_decode [1; a; b; c; e] =
    Ok {| datagram_type := 1; track_alias := from_be [a; b; c; e]; sequence := 0;
          timestamp := 0; payload := [] |}.
Proof.
  split; [|done]. unfold datagram_decode.
  destruct (Z.ltb_spec (zlen data) 5); [done|].
  destruct (from_be (take 1 data) =? DATAGRAM_TYPE_MEDIA) eqn:E; bool_to_prop; cbn [negb].
  - destruct (decode_varint _) as [sq n1]. destruct (decode_varint _) as [ts n2].
    cbn [datagram_type]. done.
  - done.
Qed.

(** The two sides of a session agree: what the initiator writes makes the acceptor
    active, what the acceptor answers makes the initiator active. *)
Lemma moq_handshake_completes :
  match session_accept true WriteOk (ReadData (client_setup_encode voip_default)) session_new with
  | Some (server, Ok _) =>
      match session_setup true WriteOk (ReadData (concat (sent server))) session_new with
      | (client, Ok _) =>
          ms_state server = Session_Active /\ ms_state client = Session_Active /\
          sent client = [client_setup_encode voip_default]
      | (_, Err _) => False
      end
  | _ => False
  end.
Proof. vm_compute. tauto. Qed.

(** In every reachable session the subscription identifiers are distinct and below
    the counter, an active session has a control stream, an idle one has sent nothing,
    there is one quality report per track -- and the count of lost packets is 0 in every
    report, whatever was received. *)
Lemma moq_session_invariant (s : MoqSession) : session_reachable s -> session_inv s.
Proof.
  apply reachable_invariant; [|apply session_step_inv].
  intros ? ->. by split; simpl; try constructor.
Qed.

Lemma moq_session_invariant_witness :
  session_inv (session_record_received_datagram (datagram_new 7 40 0 [])
    (session_record_received_datagram (datagram_new 7 2 0 []) session_new)).
Proof.
  apply moq_session_invariant. eapply reachable_step; [|apply st_record].
  eapply reachable_step; [|apply st_record]. by apply reachable_init.
Defined.

(** A CLIENT_SETUP message that announces [2^60] versions or more, nine bytes on the
    wire, makes the acceptor panic: the count is passed to the allocator unchecked. *)
Lemma client_setup_count_panics (n : Z) (rest : list Z) :
  2 ^ 60 <= n < 2 ^ 62 ->
  session_accept true WriteOk
    (ReadData (encode_varint MSG_CLIENT_SETUP ++ encode_varint n ++ rest)) session_new = None.
Proof.
  intros Hn. unfold session_accept. cbn [negb bool_decide ms_state session_new].
  rewrite bool_decide_eq_true_2 by done. cbn [negb].
  change (encode_varint MSG_CLIENT_SETUP) with [1]. cbn [app].
  unfold parse_client_setup. change (1 :: ?l) with (encode_varint MSG_CLIENT_SETUP ++ l).
  rewrite take_varint_encode by (unfold MSG_CLIENT_SETUP; lia).
  change (MSG_CLIENT_SETUP =? MSG_CLIENT_SETUP) with true. cbn [negb].
  rewrite take_varint_encode by lia.
  by rewrite (proj2 (Z.ltb_lt _ _)) by (unfold ISIZE_MAX; lia).
Qed.

Lemma client_setup_count_panics_witness :
  session_accept true WriteOk
    (ReadData (encode_varint MSG_CLIENT_SETUP ++ encode_varint (2 ^ 61) ++ [])) session_new = None.
Proof. apply (client_setup_count_panics (2 ^ 61)). lia. Defined.
