(* ===== verification/RustStr.v ===== *)
(** * String operations of the Rust standard library

    The [str] methods the sources use to take URLs, tokens and paths apart, on the byte
    sequences of the strings: [strip_prefix], [trim_start_matches], [split], [rfind],
    slicing, [parse::<uN>] and the decimal output of [format!]. *)

From S2P Require Import Prelude.

Local Open Scope Z_scope.
Local Open Scope rust_scope.

(** [s.strip_prefix(p)]. *)
Fixpoint strip_prefix (p l : list Z) : option (list Z) :=
  match p, l with
  | [], _ => Some l
  | _ :: _, [] => None
  | c :: p', b :: l' => if c =? b then strip_prefix p' l' else None
  end.

Definition starts_with (p l : list Z) : bool :=
  match strip_prefix p l with Some _ => true | None => false end.

(** [s.is_char_boundary(i)]: the ends, and every byte that does not continue a character. *)
Definition is_char_boundary (l : list Z) (i : Z) : bool :=
  (i =? 0) ||
  match l !! Z.to_nat i with
  | Some b => negb ((128 <=? b) && (b <? 192))
  | None => i =? zlen l
  end.

(** [&s[..n]], which panics off the character boundaries. *)
Definition str_prefix (s : string) (n : Z) : option string :=
  if is_char_boundary (as_bytes s) n then Some (string_of_bytes (take (Z.to_nat n) (as_bytes s)))
  else None.

(** [s.trim_start_matches(p)]: every leading copy of a non-empty [p] goes; the fuel is
    the length of the string, and each round removes at least one byte. *)
Fixpoint trim_matches (fuel : nat) (p l : list Z) : list Z :=
  match fuel with
  | O => l
  | S fuel' =>
      match strip_prefix p l with
      | Some l' => trim_matches fuel' p l'
      | None => l
      end
  end.

Definition trim_start_matches (p l : list Z) : list Z := trim_matches (length l) p l.

(** [s.split(c)]: never empty. *)
Fixpoint split_on (c : Z) (l : list Z) : list (list Z) :=
  match l with
  | [] => [[]]
  | b :: l' =>
      if b =? c then [] :: split_on c l'
      else match split_on c l' with
           | [] => [[b]]
           | p :: ps => (b :: p) :: ps
           end
  end.

(** [s.rfind(c)], as the parts before and after the last occurrence. *)
Fixpoint rfind (c : Z) (l : list Z) : option (list Z * list Z) :=
  match l with
  | [] => None
  | b :: l' =>
      match rfind c l' with
      | Some (x, y) => Some (b :: x, y)
      | None => if b =? c then Some ([], l') else None
      end
  end.

(** [s.parse::<uN>()]: an optional [+], at least one digit, no overflow. *)
Fixpoint parse_digits (w acc : Z) (l : list Z) : option Z :=
  match l with
  | [] => Some acc
  | d :: l' =>
      if (48 <=? d) && (d <=? 57) then
        let v := acc * 10 + (d - 48) in
        if v <? 2 ^ w then parse_digits w v l' else None
      else None
  end.

Definition PLUS : Z := 43.

Definition parse_uint (w : Z) (l : list Z) : option Z :=
  match l with
  | [] => None
  | [_] => parse_digits w 0 l
  | c :: l' => if c =? PLUS then parse_digits w 0 l' else parse_digits w 0 l
  end.

(** [format!("{}", n)]; twenty digits hold every [u64]. *)
Fixpoint decimal_acc (fuel : nat) (n : Z) (acc : list Z) : list Z :=
  match fuel with
  | O => acc
  | S fuel' =>
      let acc' := (48 + n mod 10) :: acc in
      if n / 10 =? 0 then acc' else decimal_acc fuel' (n / 10) acc'
  end.

Definition decimal (n : Z) : list Z := decimal_acc 20 n [].

Definition signed_decimal (n : Z) : list Z := if n <? 0 then 45 :: decimal (- n) else decimal n.

(** [{:x}] of a [u16]. *)
Definition hex_digit_char (d : Z) : Z := if d <? 10 then 48 + d else 87 + d.

Definition hex_text (n : Z) : list Z :=
  map hex_digit_char
    (if n <? 16 then [n]
     else if n <? 256 then [n / 16; n mod 16]
     else if n <? 4096 then [n / 256; n / 16 mod 16; n mod 16]
     else [n / 4096; n / 256 mod 16; n / 16 mod 16; n mod 16]).

(** [String::from_utf8_lossy]: the first character of [b0 :: l], whether it is well formed
    and how many bytes of [l] belong to it; an ill-formed one ends before the first byte
    that cannot continue it. *)
Definition in_range (lo hi b : Z) : bool := (lo <=? b) && (b <=? hi).

Definition utf8_second (b0 b1 : Z) : bool :=
  if b0 =? 224 then in_range 160 191 b1
  else if b0 =? 237 then in_range 128 159 b1
  else if b0 =? 240 then in_range 144 191 b1
  else if b0 =? 244 then in_range 128 143 b1
  else utf8_cont b1.

Definition utf8_width (b0 : Z) : nat :=
  if in_range 194 223 b0 then 2
  else if in_range 224 239 b0 then 3
  else if in_range 240 244 b0 then 4
  else 0.

Definition utf8_char (b0 : Z) (l : list Z) : bool * nat :=
  if b0 <? 128 then (true, 0%nat)
  else
    match utf8_width b0, l with
    | O, _ => (false, 0%nat)
    | _, [] => (false, 0%nat)
    | w, b1 :: l1 =>
        if negb (utf8_second b0 b1) then (false, 0%nat)
        else
          match w, l1 with
          | 2%nat, _ => (true, 1%nat)
          | _, [] => (false, 1%nat)
          | _, b2 :: l2 =>
              if negb (utf8_cont b2) then (false, 1%nat)
              else
                match w, l2 with
                | 3%nat, _ => (true, 2%nat)
                | _, [] => (false, 2%nat)
                | _, b3 :: _ => if utf8_cont b3 then (true, 3%nat) else (false, 2%nat)
                end
          end
    end.

(** U+FFFD. *)
Definition REPLACEMENT : list Z := [239; 191; 189].

Fixpoint lossy_bytes (fuel : nat) (l : list Z) : list Z :=
  match fuel, l with
  | S fuel', b0 :: l' =>
      let '(ok, n) := utf8_char b0 l' in
      (if ok then b0 :: take n l' else REPLACEMENT) ++ lossy_bytes fuel' (drop n l')
  | _, _ => []
  end.

Definition from_utf8_lossy (l : list Z) : string := string_of_bytes (lossy_bytes (length l) l).

(** [char::escape_debug] on a byte of a string; the characters outside ASCII are taken to be
    printable and stay as they are. *)
Definition escape_debug (b : Z) : list Z :=
  if b =? 0 then [92; 48]
  else if b =? 9 then [92; 116]
  else if b =? 10 then [92; 110]
  else if b =? 13 then [92; 114]
  else if (b =? 34) || (b =? 92) then [92; b]
  else if (b <? 32) || (b =? 127) then [92; 117; 123] ++ hex_text b ++ [125]
  else [b].

(** [{:?}] of a string. *)
Definition debug_string (s : string) : string :=
  string_of_bytes ([34] ++ concat (map escape_debug (as_bytes s)) ++ [34]).

(** [str::trim_end]: the length in bytes of the white space character that ends a text, given
    in reverse; zero when there is none. *)
Definition white_tail (r : list Z) : nat :=
  match r with
  | b :: r' =>
      if in_range 9 13 b || (b =? 32) then 1
      else
        match r' with
        | c :: r'' =>
            if (c =? 194) && ((b =? 133) || (b =? 160)) then 2
            else
              match r'' with
              | d :: _ =>
                  if (d =? 225) && (c =? 154) && (b =? 128) ||
                     (d =? 226) && (c =? 128) && (in_range 128 138 b || in_range 168 169 b || (b =? 175)) ||
                     (d =? 226) && (c =? 129) && (b =? 159) ||
                     (d =? 227) && (c =? 128) && (b =? 128)
                  then 3 else 0
              | [] => 0
              end
        | [] => 0
        end
  | [] => 0
  end.

Fixpoint trim_rev (fuel : nat) (r : list Z) : list Z :=
  match fuel, white_tail r with
  | S fuel', S n => trim_rev fuel' (drop (S n) r)
  | _, _ => r
  end.

Definition trim_end (s : string) : string :=
  let r := reverse (as_bytes s) in string_of_bytes (reverse (trim_rev (length r) r)).

(** ** Facts *)

Local Ltac Zify.zify_post_hook ::= Z.div_mod_to_equations.

Lemma strip_prefix_app p l : strip_prefix p (p ++ l) = Some l.
Proof. induction p as [|c p IH]; simpl; [done|]. by rewrite Z.eqb_refl. Qed.

Lemma strip_prefix_Some p l l' : strip_prefix p l = Some l' -> l = p ++ l'.
Proof.
  revert l; induction p as [|c p IH]; intros [|b l]; simpl; try (intros; by simplify_eq).
  destruct (c =? b) eqn:E; [|done]. bool_to_prop. subst. intros H. by rewrite (IH _ H).
Qed.

Lemma trim_start_matches_app p l :
  p <> [] -> strip_prefix p l = None -> trim_start_matches p (p ++ l) = l.
Proof.
  intros Hp Hl. unfold trim_start_matches. rewrite length_app.
  destruct p as [|c p]; [done|]. cbn [length Nat.add trim_matches].
  rewrite strip_prefix_app. destruct (length p + length l)%nat; cbn [trim_matches]; by rewrite ?Hl.
Qed.

Lemma trim_start_matches_none p l :
  strip_prefix p l = None -> trim_start_matches p l = l.
Proof. intros Hl. unfold trim_start_matches. destruct (length l); cbn [trim_matches]; by rewrite ?Hl. Qed.

Lemma split_on_fresh c l : c ∉ l -> split_on c l = [l].
Proof.
  induction l as [|b l IH]; simpl; [done|]. rewrite not_elem_of_cons. intros [Hb Hl].
  rewrite IH by done. by destruct (Z.eqb_spec b c); subst.
Qed.

Lemma split_on_app c l1 l2 : c ∉ l1 -> split_on c (l1 ++ c :: l2) = l1 :: split_on c l2.
Proof.
  induction l1 as [|b l1 IH]; simpl; [by rewrite Z.eqb_refl|].
  rewrite not_elem_of_cons. intros [Hb Hl]. rewrite IH by done.
  by destruct (Z.eqb_spec b c); subst.
Qed.

Lemma rfind_fresh c l : c ∉ l -> rfind c l = None.
Proof.
  induction l as [|b l IH]; simpl; [done|]. rewrite not_elem_of_cons. intros [Hb Hl].
  rewrite IH by done. by destruct (Z.eqb_spec b c); subst.
Qed.

Lemma rfind_app c l1 l2 : c ∉ l2 -> rfind c (l1 ++ c :: l2) = Some (l1, l2).
Proof.
  intros Hl. induction l1 as [|b l1 IH]; simpl.
  - by rewrite rfind_fresh, Z.eqb_refl.
  - by rewrite IH.
Qed.

Lemma parse_decimal_acc w fuel n rest :
  0 <= n < 2 ^ w -> n < 10 ^ Z.of_nat fuel ->
  parse_digits w 0 (decimal_acc fuel n rest) = parse_digits w n rest.
Proof.
  revert n rest. induction fuel as [|f IH]; intros n rest Hn Hf.
  - simpl in Hf. by replace n with 0 by lia.
  - cbn [decimal_acc].
    assert (Hd : forall a, a * 10 + n mod 10 = n ->
              parse_digits w a ((48 + n mod 10) :: rest) = parse_digits w n rest).
    { intros a Ha. cbn [parse_digits].
      replace ((48 <=? 48 + n mod 10) && (48 + n mod 10 <=? 57)) with true by lia.
      replace (a * 10 + (48 + n mod 10 - 48)) with n by lia.
      by replace (n <? 2 ^ w) with true by lia. }
    destruct (n / 10 =? 0) eqn:E; bool_to_prop; [apply Hd; lia|].
    rewrite IH; [apply Hd; lia|lia|].
    rewrite Nat2Z.inj_succ, Z.pow_succ_r in Hf by lia. lia.
Qed.

Lemma decimal_acc_digits fuel n acc :
  0 <= n -> Forall (fun d => 48 <= d <= 57) acc ->
  Forall (fun d => 48 <= d <= 57) (decimal_acc fuel n acc).
Proof.
  revert n acc. induction fuel as [|f IH]; intros n acc Hn Ha; simpl; [done|].
  assert (Forall (fun d => 48 <= d <= 57) ((48 + n mod 10) :: acc))
    by (constructor; [lia|done]).
  destruct (n / 10 =? 0); [done|]. apply IH; [lia|done].
Qed.

Lemma decimal_digits n : 0 <= n -> Forall (fun d => 48 <= d <= 57) (decimal n).
Proof. intros. by apply decimal_acc_digits. Qed.

Lemma decimal_acc_nonempty fuel n acc : acc <> [] -> decimal_acc fuel n acc <> [].
Proof.
  revert n acc. induction fuel as [|f IH]; intros n acc Ha; simpl; [done|].
  destruct (n / 10 =? 0); [done|]. by apply IH.
Qed.

Lemma decimal_nonempty n : decimal n <> [].
Proof.
  unfold decimal. cbn [decimal_acc]. destruct (n / 10 =? 0); [done|].
  by apply (decimal_acc_nonempty 19).
Qed.

(** Printing and parsing an unsigned integer of at most 64 bits. *)
Lemma parse_uint_decimal w n : w <= 64 -> 0 <= n < 2 ^ w -> parse_uint w (decimal n) = Some n.
Proof.
  intros Hw Hn.
  assert (Hp : parse_digits w 0 (decimal n) = Some n).
  { unfold decimal. rewrite parse_decimal_acc; [done|done|].
    assert (2 ^ w <= 2 ^ 64) by (apply Z.pow_le_mono_r; lia). simpl. lia. }
  pose proof (decimal_digits n ltac:(lia)) as Hd.
  pose proof (decimal_nonempty n) as Hne.
  destruct (decimal n) as [|c [|c' l]]; [done|done|].
  unfold parse_uint. apply Forall_cons in Hd as [Hc _].
  by replace (c =? PLUS) with false by (unfold PLUS; lia).
Qed.

Lemma decimal_fresh c n : 0 <= n -> (c < 48 \/ 57 < c) -> c ∉ decimal n.
Proof.
  intros Hn Hc Hin. pose proof (decimal_digits n Hn) as Hd.
  rewrite Forall_forall in Hd. specialize (Hd _ Hin). lia.
Qed.

(** The first occurrence of a byte determines where a sequence splits. *)
Lemma app_cons_inj_fresh (c : Z) l1 r1 l2 r2 :
  c ∉ l1 -> c ∉ l2 -> l1 ++ c :: r1 = l2 ++ c :: r2 -> l1 = l2 /\ r1 = r2.
Proof.
  revert l2. induction l1 as [|a l1 IH]; intros [|b l2]; simpl; rewrite ?not_elem_of_cons;
    intros H1 H2 H; simplify_eq; try tauto.
  destruct H1, H2. edestruct IH as [-> ->]; eauto.
Qed.

(** ASCII text is unchanged. *)
Lemma from_utf8_lossy_ascii l :
  Forall (fun b => 0 <= b < 128) l -> from_utf8_lossy l = string_of_bytes l.
Proof.
  intros H. unfold from_utf8_lossy. f_equal. induction H as [|b l Hb _ IH]; simpl; [done|].
  unfold utf8_char. rewrite (proj2 (Z.ltb_lt _ _)) by lia. rewrite take_0, drop_0. simpl.
  by rewrite IH.
Qed.

Lemma decimal_ascii n : 0 <= n -> Forall (fun x => 0 <= x < 128) (decimal n).
Proof. intros Hn. eapply Forall_impl; [by apply decimal_digits|]. simpl. lia. Qed.

Lemma hex_text_ascii n : 0 <= n < 65536 -> Forall (fun x => 0 <= x < 128) (hex_text n).
Proof.
  intros Hn. unfold hex_text. apply Forall_fmap.
  assert (forall d, 0 <= d < 16 -> 0 <= hex_digit_char d < 128) as Hd.
  { intros d Hd. unfold hex_digit_char. case_goal; lia. }
  pose proof (Z.mod_pos_bound n 16). pose proof (Z.mod_pos_bound (n / 16) 16).
  pose proof (Z.mod_pos_bound (n / 256) 16).
  repeat case_goal; bool_to_prop; repeat constructor; cbn; apply Hd; try lia;
    (split; [apply Z.div_pos; lia|apply Z.div_lt_upper_bound; lia]).
Qed.

(** *** Lossy decoding of a valid string is the string *)

Lemma utf8_char_valid b0 l : utf8_valid (b0 :: l) = true ->
  exists n, utf8_char b0 l = (true, n) /\ (n <= length l)%nat /\ utf8_valid (drop n l) = true.
Proof.
  cbn [utf8_valid]. unfold utf8_char, utf8_width, utf8_second, in_range.
  destruct (b0 <? 128) eqn:E0; [intros; exists 0%nat; split_and!; [done|lia|done]|].
  destruct l as [|b1 [|b2 [|b3 l]]]; try done;
    repeat case_goal; bool_to_prop; intros; bool_to_prop; try done; try lia;
    try (eexists; split; [reflexivity|]; split; [cbn; lia|done]); try congruence; exfalso;
    repeat match goal with H : andb _ _ = false |- _ => apply andb_false_iff in H as [H|H] end;
    bool_to_prop; congruence || lia.
Qed.

Lemma utf8_char_app b0 l r n : utf8_char b0 l = (true, n) -> utf8_char b0 (l ++ r) = (true, n).
Proof.
  unfold utf8_char. destruct (b0 <? 128); [done|]. destruct (utf8_width b0) as [|w]; [done|].
  destruct l as [|b1 l]; [done|]. cbn [app]. destruct (negb _); [done|].
  destruct w as [|[|w]]; (destruct l as [|b2 l]; cbn [app]; try done);
    (destruct (negb _); [done|]); destruct l as [|b3 l]; cbn [app]; try done; by destruct w.
Qed.

(** Decide the comparisons that the context settles. *)
Ltac decide_tests :=
  repeat match goal with
  | |- context [?x <=? ?y] =>
      first [rewrite (proj2 (Z.leb_le x y)) by lia | rewrite (proj2 (Z.leb_gt x y)) by lia]
  | |- context [?x =? ?y] =>
      first [rewrite (proj2 (Z.eqb_eq x y)) by lia | rewrite (proj2 (Z.eqb_neq x y)) by lia]
  end; cbn [andb orb negb].

Lemma utf8_char_step b0 l n : utf8_char b0 l = (true, n) ->
  utf8_valid (b0 :: l) = utf8_valid (drop n l).
Proof.
  unfold utf8_char, utf8_width, utf8_second, in_range. cbn [utf8_valid].
  destruct (b0 <? 128) eqn:E0; [by intros [= <-]|]. bool_to_prop.
  assert (b0 < 194 \/ 194 <= b0 <= 223 \/ b0 = 224 \/ 225 <= b0 <= 236 \/ b0 = 237 \/
          238 <= b0 <= 239 \/ b0 = 240 \/ 241 <= b0 <= 243 \/ b0 = 244 \/ 244 < b0) as Hb by lia.
  destruct l as [|b1 l]; [by repeat case_goal|].
  repeat match type of Hb with _ \/ _ => destruct Hb as [Hb|Hb] end; decide_tests; cbv beta iota; try done;
    match goal with |- context [negb ?x] => destruct x eqn:E1 end; cbn [negb andb]; cbv beta iota;
    try done; try (by intros [= <-]);
    destruct l as [|b2 l]; try done; try (by intros [= <-]);
    destruct (utf8_cont b2) eqn:E2; cbn [negb andb]; cbv beta iota; try done; try (by intros [= <-]);
    destruct l as [|b3 l]; try done; try (by intros [= <-]);
    destruct (utf8_cont b3) eqn:E3; try done; try (by intros [= <-]).
Qed.

Lemma utf8_valid_app l1 l2 :
  utf8_valid l1 = true -> utf8_valid l2 = true -> utf8_valid (l1 ++ l2) = true.
Proof.
  intros H1 H2. remember (length l1) as n eqn:Hn. revert l1 Hn H1.
  induction (lt_wf n) as [n _ IH]. intros [|b0 l] -> H1; [done|].
  destruct (utf8_char_valid b0 l H1) as (k & Hc & Hk & Hd). cbn [app].
  rewrite (utf8_char_step _ _ k) by (by apply utf8_char_app).
  rewrite drop_app_le by done. apply (IH (length (drop k l))); [|done|done].
  rewrite length_drop. cbn. lia.
Qed.

Lemma lossy_bytes_valid fuel l : (length l <= fuel)%nat -> utf8_valid l = true ->
  lossy_bytes fuel l = l.
Proof.
  revert l. induction fuel as [|fuel IH]; intros [|b0 l] Hf Hv; cbn in Hf; try done; [lia|].
  destruct (utf8_char_valid b0 l Hv) as (n & Hc & Hn & Hd). cbn [lossy_bytes]. rewrite Hc.
  rewrite IH by (done || rewrite length_drop; lia). cbn. by rewrite take_drop.
Qed.

Lemma from_utf8_lossy_valid l : utf8_valid l = true -> from_utf8_lossy l = string_of_bytes l.
Proof. intros H. unfold from_utf8_lossy. by rewrite lossy_bytes_valid. Qed.

Lemma str_prefix_ascii s n : Forall (fun b => 0 <= b < 128) (as_bytes s) -> 0 <= n <= str_len s ->
  str_prefix s n = Some (string_of_bytes (take (Z.to_nat n) (as_bytes s))).
Proof.
  intros Ha Hn. unfold str_prefix, is_char_boundary, str_len in *. destruct (n =? 0); [done|].
  destruct (as_bytes s !! Z.to_nat n) as [b|] eqn:E; cbn [orb].
  - rewrite Forall_lookup in Ha. specialize (Ha _ _ E). cbn in Ha.
    by rewrite (proj2 (Z.leb_gt 128 b)) by lia.
  - apply lookup_ge_None in E. unfold zlen. by rewrite (proj2 (Z.eqb_eq _ _)) by lia.
Qed.

(** A line feed at the end is trimmed. *)
Lemma trim_end_newline s : trim_end (s +:+ string_of_bytes [10]) = trim_end s.
Proof.
  unfold trim_end. rewrite as_bytes_app. change (as_bytes (string_of_bytes [10])) with [10].
  rewrite reverse_app. change (reverse [10]) with [10]. cbn [app length trim_rev white_tail].
  change (in_range 9 13 10 || (10 =? 32)) with true. cbn iota. cbn [drop]. by rewrite drop_0.
Qed.

(** Text that ends in a digit stays. *)
Lemma trim_end_digit s d : 48 <= d <= 57 -> last (as_bytes s) = Some d -> trim_end s = s.
Proof.
  intros Hd Hl. unfold trim_end. rewrite <- head_reverse in Hl.
  destruct (reverse (as_bytes s)) as [|b r] eqn:E; [done|]. injection Hl as ->.
  cbn [length trim_rev white_tail].
  assert (white_tail (d :: r) = 0%nat) as Hw.
  { cbn [white_tail]. unfold in_range. repeat case_goal; bool_to_prop; try done;
      repeat match goal with H : orb _ _ = true |- _ => apply orb_prop in H as [H|H] end;
      bool_to_prop; lia. }
  cbn [white_tail] in Hw. rewrite Hw, <- E, reverse_involutive. apply string_of_as_bytes.
Qed.
