(* ===== verification/RustNet.v ===== *)
(** * Socket addresses of the Rust standard library

    [str::parse::<SocketAddr>] and the text of an IP address, as in [core::net].  The parser
    reads dotted IPv4 with a port, or IPv6 in brackets with an optional scope and a port.  Each
    part of it takes the remaining bytes and gives its value with the bytes it leaves; one
    that fails consumes nothing. *)

From S2P Require Import Prelude RustStr.

Local Open Scope Z_scope.
Local Open Scope rust_scope.

Inductive SocketAddr :=
| V4 (octets : list Z) (port : Z)
| V6 (groups : list Z) (scope port : Z).

Definition is_ipv6_addr (a : SocketAddr) : bool := match a with V6 _ _ _ => true | V4 _ _ => false end.

Definition addr_port (a : SocketAddr) : Z := match a with V6 _ _ p => p | V4 _ p => p end.

Definition read_given_char (c : Z) (l : list Z) : option (list Z) :=
  match l with b :: l' => if b =? c then Some l' else None | [] => None end.

(** [char::to_digit]. *)
Definition to_digit (radix b : Z) : option Z :=
  let d := if (48 <=? b) && (b <=? 57) then Some (b - 48)
           else if (97 <=? b) && (b <=? 122) then Some (b - 87)
           else if (65 <=? b) && (b <=? 90) then Some (b - 55)
           else None in
  let?o v := d in if v <? radix then Some v else None.

(** The digits at the front: their value, their number and the rest. *)
Fixpoint read_digits (radix value count : Z) (l : list Z) : Z * Z * list Z :=
  match l with
  | [] => (value, count, l)
  | b :: l' =>
      match to_digit radix b with
      | Some d => read_digits radix (value * radix + d) (count + 1) l'
      | None => (value, count, l)
      end
  end.

Definition read_number (radix : Z) (max_digits : option Z) (allow_zero_prefix : bool) (w : Z)
    (l : list Z) : option (Z * list Z) :=
  let '(value, count, rest) := read_digits radix 0 0 l in
  if count =? 0 then None
  else if match max_digits with Some k => k <? count | None => false end then None
  else if negb allow_zero_prefix && bool_decide (head l = Some 48) && (1 <? count) then None
  else if value <? 2 ^ w then Some (value, rest) else None.

Definition DOT_CHAR : Z := 46.

Definition read_octet : list Z -> option (Z * list Z) := read_number 10 (Some 3) false 8.

Definition read_ipv4_addr (l : list Z) : option (list Z * list Z) :=
  let?o (a, l) := read_octet l in
  let?o l := read_given_char DOT_CHAR l in
  let?o (b, l) := read_octet l in
  let?o l := read_given_char DOT_CHAR l in
  let?o (c, l) := read_octet l in
  let?o l := read_given_char DOT_CHAR l in
  let?o (d, l) := read_octet l in
  Some ([a; b; c; d], l).

Definition read_port (l : list Z) : option (Z * list Z) :=
  let?o l := read_given_char 58 l in read_number 10 None true 16 l.

(** [read_separator]: a colon before every item but the first. *)
Definition read_separator (i : nat) (l : list Z) : option (list Z) :=
  match i with O => Some l | _ => read_given_char 58 l end.

(** [read_groups] with room for [limit] more groups, of which [i] were read: the groups, and
    whether they end with an embedded IPv4 address. *)
Fixpoint read_groups (limit i : nat) (l : list Z) : list Z * bool * list Z :=
  match limit with
  | O => ([], false, l)
  | S limit' =>
      let ipv4 := match limit' with
                  | O => None
                  | _ => let?o l1 := read_separator i l in read_ipv4_addr l1
                  end in
      match ipv4 with
      | Some ([a; b; c; d], rest) => ([a * 256 + b; c * 256 + d], true, rest)
      | _ =>
          match (let?o l1 := read_separator i l in read_number 16 (Some 4) true 16 l1) with
          | Some (g, rest) =>
              let '(gs, v4, rest') := read_groups limit' (S i) rest in (g :: gs, v4, rest')
          | None => ([], false, l)
          end
      end
  end.

Definition read_ipv6_addr (l : list Z) : option (list Z * list Z) :=
  let '(hd_groups, hd_v4, rest) := read_groups 8 0 l in
  if zlen hd_groups =? 8 then Some (hd_groups, rest)
  else if hd_v4 then None
  else
    let?o rest := read_given_char 58 rest in
    let?o rest := read_given_char 58 rest in
    let '(tl_groups, _, rest) := read_groups (7 - length hd_groups) 0 rest in
    Some (hd_groups ++ replicate (8 - length hd_groups - length tl_groups) 0 ++ tl_groups, rest).

Definition read_scope_id (l : list Z) : option (Z * list Z) :=
  let?o l := read_given_char 37 l in read_number 10 None true 32 l.

Definition read_socket_addr_v4 (l : list Z) : option (SocketAddr * list Z) :=
  let?o (ip, l) := read_ipv4_addr l in
  let?o (port, l) := read_port l in
  Some (V4 ip port, l).

Definition read_socket_addr_v6 (l : list Z) : option (SocketAddr * list Z) :=
  let?o l := read_given_char 91 l in
  let?o (ip, l) := read_ipv6_addr l in
  let '(scope, l) := match read_scope_id l with Some r => r | None => (0, l) end in
  let?o l := read_given_char 93 l in
  let?o (port, l) := read_port l in
  Some (V6 ip scope port, l).

(** The whole text must be read. *)
Definition parse_socket_addr (s : string) : option SocketAddr :=
  match (match read_socket_addr_v4 (as_bytes s) with
         | Some r => Some r
         | None => read_socket_addr_v6 (as_bytes s)
         end) with
  | Some (a, []) => Some a
  | _ => None
  end.

(** [Ipv4Addr]'s text. *)
Definition ipv4_text (a b c d : Z) : string :=
  string_of_bytes (decimal a ++ DOT_CHAR :: decimal b ++ DOT_CHAR :: decimal c ++
                   DOT_CHAR :: decimal d).

(** The first longest run of zero groups, as start and length; [cur] is the run that ends
    before position [i]. *)
Fixpoint zero_span (i : nat) (cur longest : nat * nat) (groups : list Z) : nat * nat :=
  match groups with
  | [] => longest
  | g :: gs =>
      if g =? 0 then
        let cur := if (cur.2 =? 0)%nat then (i, 1%nat) else (cur.1, S cur.2) in
        zero_span (S i) cur (if (longest.2 <? cur.2)%nat then cur else longest) gs
      else zero_span (S i) (0%nat, 0%nat) longest gs
  end.

Definition COLON : Z := 58.

(** [fmt_subslice]. *)
Definition groups_text (groups : list Z) : list Z :=
  match groups with
  | [] => []
  | g :: gs => hex_text g ++ concat (map (fun x => COLON :: hex_text x) gs)
  end.

Definition ipv4_bytes (octets : list Z) : list Z :=
  match octets with
  | [a; b; c; d] => decimal a ++ DOT_CHAR :: decimal b ++ DOT_CHAR :: decimal c ++
                    DOT_CHAR :: decimal d
  | _ => []
  end.

(** The four octets in the last two groups. *)
Definition mapped_octets (groups : list Z) : list Z :=
  concat (map (fun g => [g / 256; g mod 256]) (drop 6 groups)).

Definition ipv6_bytes (groups : list Z) : list Z :=
  if bool_decide (take 6 groups = [0; 0; 0; 0; 0; 65535])
  then as_bytes "::ffff:" ++ ipv4_bytes (mapped_octets groups)
  else
    let (start, len) := zero_span 0 (0%nat, 0%nat) (0%nat, 0%nat) groups in
    if (1 <? len)%nat
    then groups_text (take start groups) ++ [COLON; COLON] ++ groups_text (drop (start + len) groups)
    else groups_text groups.

(** [addr.ip().to_string()]. *)
Definition ip_text (a : SocketAddr) : string :=
  string_of_bytes
    match a with V4 octets _ => ipv4_bytes octets | V6 groups _ _ => ipv6_bytes groups end.

(** [SocketAddr]'s own text. *)
Definition socket_addr_text (a : SocketAddr) : string :=
  match a with
  | V4 _ port => ip_text a +:+ string_of_bytes (COLON :: decimal port)
  | V6 _ scope port =>
      string_of_bytes [91] +:+ ip_text a +:+
      (if scope =? 0 then EmptyString else string_of_bytes (37 :: decimal scope)) +:+
      string_of_bytes (93 :: COLON :: decimal port)
  end.

(** The values of the Rust type. *)
Definition addr_ok (a : SocketAddr) : Prop :=
  match a with
  | V4 octets port => length octets = 4%nat /\ Forall (fun x => 0 <= x < 256) octets /\ 0 <= port < 2 ^ 16
  | V6 groups scope port =>
      length groups = 8%nat /\ Forall (fun x => 0 <= x < 65536) groups /\
      0 <= scope < 2 ^ 32 /\ 0 <= port < 2 ^ 16
  end.

(** ** Facts *)

Lemma groups_text_ascii gs :
  Forall (fun x => 0 <= x < 65536) gs -> Forall (fun x => 0 <= x < 128) (groups_text gs).
Proof.
  intros Hg. destruct Hg as [|g gs Hg Hgs]; [constructor|]. cbn [groups_text].
  apply Forall_app_2; [by apply hex_text_ascii|]. apply Forall_concat, Forall_fmap.
  eapply Forall_impl; [exact Hgs|]. intros x Hx. cbn. constructor; [unfold COLON; lia|].
  by apply hex_text_ascii.
Qed.

Lemma ipv4_bytes_ascii l :
  Forall (fun x => 0 <= x < 256) l -> Forall (fun x => 0 <= x < 128) (ipv4_bytes l).
Proof.
  intros H. destruct l as [|a [|b [|c [|d [|]]]]]; try constructor. cbn.
  repeat match goal with H : Forall _ (_ :: _) |- _ => inversion_clear H end.
  repeat (apply Forall_app_2 || apply Forall_cons_2); try (apply decimal_ascii; lia);
    unfold DOT_CHAR; lia.
Qed.

Lemma ipv6_bytes_ascii l :
  Forall (fun x => 0 <= x < 65536) l -> Forall (fun x => 0 <= x < 128) (ipv6_bytes l).
Proof.
  intros H. unfold ipv6_bytes. case_goal.
  - apply Forall_app_2; [repeat constructor; done|]. apply ipv4_bytes_ascii, Forall_concat, Forall_fmap.
    apply (Forall_drop _ 6) in H. eapply Forall_impl; [exact H|]. intros g Hg. cbn.
    cbn in Hg. pose proof (Z.mod_pos_bound g 256). pose proof (Z.div_pos g 256).
    pose proof (Z.div_lt_upper_bound g 256 256).
    apply Forall_cons; split; [lia|]. apply Forall_cons; split; [lia|constructor].
  - destruct (zero_span _ _ _ _) as [start len]. case_goal.
    + apply Forall_app_2; [by apply groups_text_ascii, Forall_take|].
      apply Forall_app_2; [repeat constructor; done|]. by apply groups_text_ascii, Forall_drop.
    + by apply groups_text_ascii.
Qed.

(** The text of an address is not empty, and it is ASCII. *)
Lemma ip_text_ascii a : addr_ok a ->
  ip_text a <> "" /\ Forall (fun x => 0 <= x < 128) (as_bytes (ip_text a)).
Proof.
  intros Ha.
  assert (exists l, ip_text a = string_of_bytes l /\ l <> [] /\ Forall (fun x => 0 <= x < 128) l)
    as (l & -> & Hne & Hl).
  { eexists. split; [reflexivity|]. destruct a as [o p|g sc p]; destruct Ha as (Hlen & Hr & _).
    - split; [|by apply ipv4_bytes_ascii].
      destruct o as [|a [|b [|c [|d [|]]]]]; try done. cbn. intros [_ Hn]%app_eq_nil. done.
    - split; [|by apply ipv6_bytes_ascii]. unfold ipv6_bytes. case_goal; [done|].
      destruct (zero_span _ _ _ _) as [start len]. case_goal.
      + intros [_ Hn]%app_eq_nil. done.
      + destruct g as [|g gs]; [done|]. cbn. unfold hex_text. by repeat case_goal. }
  rewrite as_bytes_of_bytes by (eapply Forall_impl; [exact Hl|]; unfold byte_ok; simpl; lia).
  split; [|done]. by destruct l.
Qed.

Definition no_digit (l : list Z) : Prop :=
  match l with [] => True | b :: _ => to_digit 10 b = None end.

Lemma to_digit_decimal d : 48 <= d <= 57 -> to_digit 10 d = Some (d - 48).
Proof.
  intros Hd. unfold to_digit.
  replace ((48 <=? d) && (d <=? 57)) with true by lia.
  by replace (d - 48 <? 10) with true by lia.
Qed.

Lemma read_digits_app l rest v c :
  Forall (fun d => 48 <= d <= 57) l -> no_digit rest ->
  read_digits 10 v c (l ++ rest) =
    (foldl (fun acc d => acc * 10 + (d - 48)) v l, c + zlen l, rest).
Proof.
  intros Hl Hr. revert v c. induction Hl as [|d l Hd _ IH]; intros v c.
  - cbn [app foldl]. change (zlen (@nil Z)) with 0. rewrite Z.add_0_r.
    destruct rest as [|b rest]; simpl in *; [done|]. by rewrite Hr.
  - cbn [app read_digits foldl]. rewrite to_digit_decimal by done.
    rewrite IH, zlen_cons. do 2 f_equal. lia.
Qed.

Lemma parse_digits_value w v l x :
  parse_digits w v l = Some x -> foldl (fun acc d => acc * 10 + (d - 48)) v l = x.
Proof.
  revert v. induction l as [|d l IH]; intros v; simpl; [by intros [= ->]|].
  destruct (_ && _); [|done]. destruct (_ <? _); [|done]. apply IH.
Qed.

Lemma decimal_value n :
  0 <= n < 2 ^ 64 -> foldl (fun acc d => acc * 10 + (d - 48)) 0 (decimal n) = n.
Proof.
  intros Hn. apply (parse_digits_value 64). unfold decimal.
  rewrite parse_decimal_acc; [done|done|]. simpl. lia.
Qed.

Lemma decimal_length n : 0 < zlen (decimal n).
Proof.
  pose proof (decimal_nonempty n). destruct (decimal n); [done|].
  rewrite zlen_cons. pose proof (zlen_nonneg l). lia.
Qed.

(** The decimals of octets have at most three digits and no leading zero. *)
Definition octet_text_ok (n : Z) : bool :=
  (zlen (decimal n) <=? 3) &&
  (negb (bool_decide (head (decimal n) = Some 48)) || (zlen (decimal n) =? 1)).

Lemma octet_text n : 0 <= n < 256 -> octet_text_ok n = true.
Proof.
  intros Hn. apply (Z_interval_ind (fun n => octet_text_ok n = true) 0 256); [|lia].
  apply Forall_forall. intros x Hx.
  assert (forallb octet_text_ok (seqZ 0 256) = true) as Hall by (vm_compute; reflexivity).
  rewrite forallb_forall in Hall. by apply Hall, list_elem_of_In.
Qed.

Lemma head_app_ne {A} (l rest : list A) : l <> [] -> head (l ++ rest) = head l.
Proof. by destruct l. Qed.

Lemma read_octet_decimal n rest :
  0 <= n < 256 -> no_digit rest -> read_octet (decimal n ++ rest) = Some (n, rest).
Proof.
  intros Hn Hr. unfold read_octet, read_number.
  rewrite read_digits_app by (done || apply decimal_digits; lia).
  rewrite decimal_value by lia. rewrite Z.add_0_l, head_app_ne by apply decimal_nonempty.
  pose proof (decimal_length n). pose proof (octet_text n Hn) as Ht.
  unfold octet_text_ok in Ht. apply andb_true_iff in Ht as [H3 H0].
  rewrite (proj2 (Z.eqb_neq _ _)) by lia. apply Z.leb_le in H3.
  rewrite (proj2 (Z.ltb_ge 3 _)) by lia. cbn [negb andb].
  rewrite (proj2 (Z.ltb_lt n _)) by lia.
  destruct (bool_decide _); [|done]. simpl in H0. apply Z.eqb_eq in H0. by rewrite H0.
Qed.

Lemma read_port_decimal n :
  0 <= n < 2 ^ 16 -> read_port (58 :: decimal n) = Some (n, []).
Proof.
  intros Hn. unfold read_port. cbn [read_given_char]. rewrite Z.eqb_refl.
  unfold read_number. rewrite <- (app_nil_r (decimal n)) at 1.
  rewrite read_digits_app by (done || apply decimal_digits; lia).
  rewrite decimal_value by lia. pose proof (decimal_length n).
  rewrite Z.add_0_l, (proj2 (Z.eqb_neq _ _)) by lia. cbn [negb andb].
  by rewrite (proj2 (Z.ltb_lt n _)) by lia.
Qed.

(** An IPv4 address followed by a port is read back. *)
Lemma parse_ipv4_port a b c d port :
  0 <= a < 256 -> 0 <= b < 256 -> 0 <= c < 256 -> 0 <= d < 256 -> 0 <= port < 2 ^ 16 ->
  parse_socket_addr (ipv4_text a b c d +:+ ":" +:+ string_of_bytes (decimal port)) =
    Some (V4 [a; b; c; d] port).
Proof.
  intros Ha Hb Hc Hd Hp. unfold parse_socket_addr.
  assert (as_bytes (ipv4_text a b c d +:+ ":" +:+ string_of_bytes (decimal port)) =
    decimal a ++ DOT_CHAR :: decimal b ++ DOT_CHAR :: decimal c ++ DOT_CHAR :: decimal d ++
    58 :: decimal port) as ->.
  { assert (forall n, 0 <= n -> bytes_ok (decimal n)) as Hok.
    { intros n Hn. eapply Forall_impl; [by apply decimal_digits|]. unfold byte_ok. simpl. lia. }
    rewrite !as_bytes_app. unfold ipv4_text. rewrite !as_bytes_of_bytes by
      (repeat (apply Forall_app_2 || apply Forall_cons_2); try (apply Hok; lia);
       unfold byte_ok, DOT_CHAR; lia).
    change (as_bytes ":") with [58].
    by repeat (rewrite <- app_assoc || (progress cbn [app])). }
  unfold read_socket_addr_v4, read_ipv4_addr.
  do 3 (rewrite read_octet_decimal by done; cbn [read_given_char]; rewrite Z.eqb_refl).
  rewrite read_octet_decimal by done.
  by rewrite read_port_decimal by done.
Qed.
