(* ===== verification/Tls.v ===== *)
(** * TLS configurations

    [voip-client/src/tls.rs]: which server certificates a client accepts in each build
    profile, and the self-signed server of the local relay connection.  [rustls], [quinn],
    [rustls-native-certs] and [rcgen] are the classes [Rcgen] and [Rustls]; certificates and
    keys are their DER bytes, errors are the texts they print. *)

From S2P Require Import Prelude.

Local Open Scope Z_scope.
Local Open Scope rust_scope.

(** [debug_assertions] selects the client configuration. *)
Inductive BuildProfile := DebugBuild | ReleaseBuild.

(** One run of the generator: the parameters for a list of names, a fresh key pair in DER,
    and the certificate of these names and a subject (the generator's own where none is set),
    signed with the key. *)
Class Rcgen := {
  rcgen_params : list string -> result string unit;
  rcgen_key_pair : result string (list Z);
  rcgen_self_signed : list string -> option (list (string * string)) -> list Z -> result string (list Z)
}.

(** What a client configuration decides by: the certificates it accepts and the protocols it
    offers. *)
Record ClientConfig := { cc_accepts : list Z -> bool; cc_alpn : list string }.

Class Rustls := {
  (** the check against the certificates of the system *)
  rustls_native_roots : result string (list Z -> bool);
  (** the text of [rustls::Error::General] *)
  rustls_general : string -> string;
  rustls_quic_client : ClientConfig -> result string unit;
  rustls_private_key : list Z -> result string unit;
  (** the checks of [with_single_cert], and those of the QUIC configuration built from it *)
  rustls_single_cert : list (list Z) -> list Z -> result string unit;
  rustls_quic : list (list Z) -> list Z -> result string unit
}.

Record QuinnClientConfig := {
  qc_tls : ClientConfig;
  qc_datagram_receive_buffer : option Z;
  qc_datagram_send_buffer : Z;
  qc_idle_timeout_secs : option Z
}.

(** [qs_datagram_buffers]: the receive and send buffers where they are set. *)
Record QuinnServerConfig := {
  qs_chain : list (list Z);
  qs_key : list Z;
  qs_datagram_buffers : option (option Z * Z)
}.

(** [NoVerifier]: every certificate, and every handshake signature, is accepted. *)
Definition no_verifier (cert : list Z) : bool := true.

Section Configurations.
Context {G : Rcgen} {T : Rustls}.

Definition dangerous_client_config : result string ClientConfig :=
  Ok {| cc_accepts := no_verifier; cc_alpn := [] |}.

Definition production_client_config : result string ClientConfig :=
  let? roots := map_err (fun e => rustls_general ("failed to load native certs: " +:+ e))
                  rustls_native_roots in
  Ok {| cc_accepts := roots; cc_alpn := [] |}.

Definition tls_client_config (b : BuildProfile) : result string ClientConfig :=
  match b with DebugBuild => dangerous_client_config | ReleaseBuild => production_client_config end.

Definition dangerous_quinn_client_config (b : BuildProfile) : result string QuinnClientConfig :=
  let? c := map_err (fun e => "TLS config: " +:+ e) (tls_client_config b) in
  let? _ := map_err (fun e => "QuicClientConfig: " +:+ e) (rustls_quic_client c) in
  Ok {| qc_tls := c; qc_datagram_receive_buffer := Some 65536; qc_datagram_send_buffer := 65536;
        qc_idle_timeout_secs := Some 30 |}.

Definition LOOPBACK_NAME : string := "voip-masque-loopback".

Definition dangerous_quinn_server_config : result string QuinnServerConfig :=
  let? key := map_err (fun e => "rcgen key pair: " +:+ e) rcgen_key_pair in
  let? cert := map_err (fun e => "rcgen cert: " +:+ e)
                 (let? _ := rcgen_params [LOOPBACK_NAME] in
                  rcgen_self_signed [LOOPBACK_NAME] None key) in
  let? _ := map_err (fun e => "private key: " +:+ e) (rustls_private_key key) in
  let? _ := map_err (fun e => "server config: " +:+ e) (rustls_single_cert [cert] key) in
  Ok {| qs_chain := [cert]; qs_key := key; qs_datagram_buffers := None |}.
End Configurations.

(** ** Handshakes

    The server side of a handshake: its certificate, the text of the failure when the client
    refuses it, and what the handshake gives otherwise. *)
Record ServerSide (A : Type) := {
  hs_cert : list Z;
  hs_refused : string;
  hs_outcome : result string A
}.

Arguments Build_ServerSide {A}.
Arguments hs_cert {A}.
Arguments hs_refused {A}.
Arguments hs_outcome {A}.

Definition tls_handshake {A} (c : ClientConfig) (s : ServerSide A) : result string A :=
  if cc_accepts c (hs_cert s) then hs_outcome s else Err (hs_refused s).

(** ** Facts *)

(** A debug build accepts every certificate; a release build those of the system's roots. *)
Lemma profile_accepts {T : Rustls} b c cert : tls_client_config b = Ok c ->
  cc_accepts c cert = match b with
                      | DebugBuild => true
                      | ReleaseBuild => match rustls_native_roots with Ok roots => roots cert | Err _ => false end
                      end.
Proof.
  destruct b; cbn; [by intros [= <-]|]. unfold production_client_config.
  destruct rustls_native_roots; cbn; [by intros [= <-]|done].
Qed.
