(* ===== verification/Masque.v ===== *)
(** * MASQUE tunnels

    [voip-client/src/masque.rs]: the CONNECT-UDP request, tunnel establishment over
    HTTP/3 and HTTP/2, recovery, the datagram capsules of the HTTP/2 path, and the
    decision whether a relay is needed.

    The HTTP stacks ([quinn], [h3], [h2], [rustls]) are outside: [Http3Io] and [Http2Io]
    hold the outcome of each of their calls, and the answer of the proxy as a function of
    the request it is sent.  Their errors are the texts they print. *)

From S2P Require Import Prelude Types RustStr RustNet Tls.

Local Open Scope Z_scope.
Local Open Scope rust_scope.

Inductive MasqueError :=
| Http3Error (what : string)
| Http2Error (what : string)
| ConnectUdpRejected (status : Z)
| WaitingForPeer
| TunnelClosed
| MasqueSendFailed (what : string)
| MasqueRecvFailed (what : string)
| TlsError (what : string)
| AllTransportsFailed.

(** ** The CONNECT-UDP request *)

Record HttpRequest := {
  req_uri : string;
  req_headers : list (string * string);
  req_protocol : string
}.

Definition HTTPS_PREFIX : list Z := as_bytes "https://".
Definition HTTP_PREFIX : list Z := as_bytes "http://".
Definition COLON : Z := 58.
Definition SLASH_CHAR : Z := 47.

(** [parts[0]] of [url.split('/')], which has at least one element. *)
Definition first_part (l : list Z) : list Z := hd [] (split_on SLASH_CHAR l).

Definition parse_proxy_url (url : string) : result MasqueError (string * Z) :=
  let url := trim_start_matches HTTP_PREFIX (trim_start_matches HTTPS_PREFIX (as_bytes url)) in
  let host_port := first_part url in
  match rfind COLON host_port with
  | Some (host, port) =>
      Ok (string_of_bytes host, default 443 (parse_uint 16 port))
  | None => Ok (string_of_bytes host_port, 443)
  end.

Definition authority (host : string) (port : Z) : string :=
  host +:+ ":" +:+ string_of_bytes (decimal port).

Definition base_headers (host : string) (port : Z) (call_id : string) : list (string * string) :=
  [("host", authority host port); ("connect-udp-target-host", "voip-relay");
   ("connect-udp-target-port", "0"); ("x-voip-call-id", call_id)].

Definition token_header (proxy_token : option string) : list (string * string) :=
  match proxy_token with
  | Some token => [("x-voip-proxy-token", token)]
  | None => []
  end.

(** The [http] crate validates URI and header values when the request is built. *)
Definition build_connect_udp_request_with_peer
    (http_build : HttpRequest -> option string) (host : string) (port : Z)
    (call_id peer_id : string) (proxy_token : option string) : result MasqueError HttpRequest :=
  let req := {|
    req_uri := "https://" +:+ authority host port +:+ "/masque";
    req_headers := base_headers host port call_id ++
      (if bool_decide (peer_id = "") then [] else [("x-voip-peer-id", peer_id)]) ++
      token_header proxy_token;
    req_protocol := "connect-udp"
  |} in
  match http_build req with
  | None => Ok req
  | Some e => Err (Http3Error ("build request: " +:+ e))
  end.

Definition build_connect_udp_request (http_build : HttpRequest -> option string)
    (host : string) (port : Z) (call_id : string) (proxy_token : option string)
    : result MasqueError HttpRequest :=
  build_connect_udp_request_with_peer http_build host port call_id "" proxy_token.

Definition build_connect_udp_request_h2 (http_build : HttpRequest -> option string)
    (host : string) (port : Z) (call_id : string) (proxy_token : option string)
    : result MasqueError HttpRequest :=
  let req := {|
    req_uri := "https://" +:+ authority host port +:+ "/masque";
    req_headers := base_headers host port call_id ++ token_header proxy_token;
    req_protocol := "connect-udp"
  |} in
  match http_build req with
  | None => Ok req
  | Some e => Err (Http2Error ("build request: " +:+ e))
  end.

(** ** Tunnels *)

Record MasqueTunnel := {
  proxy_url : string;
  transport : MasqueTransport;
  quic_conn : Z;
  tunnel_call_id : string;
  tunnel_state : TunnelStatus;
  h3_driver : bool;
  server_task : bool
}.

Inductive ProxyAnswer :=
| AnswerTimeout
| AnswerError (what : string)
| AnswerStatus (status : Z).

(** The calls behind the local pair of connections of the HTTP/2 path: [None] is success for
    the calls without a result. *)
Record LoopbackIo := {
  lb_server_config : result string QuinnServerConfig;
  lb_server_endpoint : option string;
  lb_local_addr : option string;
  lb_client_config : result string QuinnClientConfig;
  lb_client_endpoint : option string;
  lb_connect : option string;
  lb_refused : string;
  lb_outcome : result string Z
}.

(** One attempt's calls into the HTTP/3 stack. *)
Record Http3Io := {
  h3_lookup : string -> result string (list SocketAddr);
  h3_config : result string QuinnClientConfig;
  h3_endpoint : option string;
  h3_connect : SocketAddr -> string -> result string (ServerSide Z);
  h3_handshake : option string;
  h3_build : HttpRequest -> option string;
  h3_send : option string;
  h3_finish : option string;
  h3_answer : HttpRequest -> ProxyAnswer
}.

Record Http2Io := {
  h2_tcp : option string;
  h2_tls_config : result string ClientConfig;
  h2_server_name : string -> option string;
  h2_tls : ServerSide unit;
  h2_build : HttpRequest -> option string;
  h2_handshake : option string;
  h2_send : option string;
  h2_answer : HttpRequest -> ProxyAnswer;
  h2_loopback : LoopbackIo
}.

(** [map_err] with a labelled text. *)
Definition labelled {A} (err : string -> MasqueError) (what : string) (r : result string A)
    : result MasqueError A :=
  map_err (fun e => err (what +:+ ": " +:+ e)) r.

Definition io_done (err : string -> MasqueError) (what : string) (o : option string)
    : result MasqueError unit :=
  labelled err what (match o with None => Ok tt | Some e => Err e end).

Definition STATUS_OK : Z := 200.

Definition check_answer (err : string -> MasqueError) (what : string) (a : ProxyAnswer)
    : result MasqueError unit :=
  match a with
  | AnswerTimeout => Err (err "CONNECT-UDP response timeout")
  | AnswerError e => Err (err (what +:+ ": " +:+ e))
  | AnswerStatus status =>
      if negb (status =? STATUS_OK) then Err (ConnectUdpRejected status) else Ok tt
  end.

(** The QUIC connection goes to the first address of the proxy. *)
Definition establish_quic_to_proxy (io : Http3Io) (host : string) (port : Z) : result MasqueError Z :=
  let? addrs := labelled Http3Error "DNS lookup" (h3_lookup io (authority host port)) in
  let? addr := ok_or (head addrs) (Http3Error "no address found") in
  let? config := map_err Http3Error (h3_config io) in
  let? _ := io_done Http3Error "create endpoint" (h3_endpoint io) in
  let? server := labelled Http3Error "connect" (h3_connect io addr host) in
  labelled Http3Error "handshake" (tls_handshake (qc_tls config) server).

Definition connect_http3 (io : Http3Io) (url call_id : string) (proxy_token : option string)
    : result MasqueError MasqueTunnel :=
  let? (host, port) := parse_proxy_url url in
  let? conn := establish_quic_to_proxy io host port in
  let? _ := io_done Http3Error "h3 handshake" (h3_handshake io) in
  let? request := build_connect_udp_request (h3_build io) host port call_id proxy_token in
  let? _ := io_done Http3Error "send CONNECT-UDP" (h3_send io) in
  let? _ := io_done Http3Error "finish request" (h3_finish io) in
  let? _ := check_answer Http3Error "recv response" (h3_answer io request) in
  Ok {| proxy_url := url; transport := Transport_Http3; quic_conn := conn;
        tunnel_call_id := call_id; tunnel_state := Tunnel_Active;
        h3_driver := true; server_task := false |}.

(** The protocol offered is [h2]. *)
Definition perform_tls_handshake (io : Http2Io) (host : string) : result MasqueError unit :=
  let? config := labelled TlsError "TLS config" (h2_tls_config io) in
  let config := {| cc_accepts := cc_accepts config; cc_alpn := ["h2"] |} in
  let? _ := io_done TlsError "invalid server name" (h2_server_name io host) in
  labelled TlsError "TLS handshake" (tls_handshake config (h2_tls io)).

(** The wait for the server's settings between the two steps changes nothing but a log entry. *)
Definition perform_h2_handshake (io : Http2Io) (request : HttpRequest)
    : result MasqueError unit :=
  let? _ := io_done Http2Error "h2 handshake" (h2_handshake io) in
  let? _ := io_done Http2Error "send CONNECT-UDP request" (h2_send io) in
  check_answer Http2Error "CONNECT-UDP response error" (h2_answer io request).

(** The client side of the pair.  The addresses that are bound are constants. *)
Definition create_loopback_quic_pair (io : LoopbackIo) : result MasqueError Z :=
  let? server := labelled Http2Error "server config" (lb_server_config io) in
  let? _ := io_done Http2Error "create server endpoint" (lb_server_endpoint io) in
  let? _ := io_done Http2Error "local addr" (lb_local_addr io) in
  let? client := labelled Http2Error "client config" (lb_client_config io) in
  let? _ := io_done Http2Error "create client endpoint" (lb_client_endpoint io) in
  let? _ := io_done Http2Error "loopback connect" (lb_connect io) in
  labelled Http2Error "loopback handshake"
    (tls_handshake (qc_tls client)
       {| hs_cert := default [] (head (qs_chain server)); hs_refused := lb_refused io;
          hs_outcome := lb_outcome io |}).

Definition connect_http2 (io : Http2Io) (url call_id : string) (proxy_token : option string)
    : result MasqueError MasqueTunnel :=
  let? (host, port) := parse_proxy_url url in
  let? _ := io_done Http2Error "TCP connect" (h2_tcp io) in
  let? _ := perform_tls_handshake io host in
  let? request := build_connect_udp_request_h2 (h2_build io) host port call_id proxy_token in
  let? _ := perform_h2_handshake io request in
  let? conn := create_loopback_quic_pair (h2_loopback io) in
  Ok {| proxy_url := url; transport := Transport_Http2; quic_conn := conn;
        tunnel_call_id := call_id; tunnel_state := Tunnel_Active;
        h3_driver := false; server_task := true |}.

Definition tunnel_send_datagram (t : MasqueTunnel) (quic_send : option string)
    : result MasqueError unit :=
  let send := map_err MasqueSendFailed (match quic_send with None => Ok tt | Some e => Err e end) in
  match transport t with Transport_Http3 => send | Transport_Http2 => send end.

Definition tunnel_recv_datagram (t : MasqueTunnel) (quic_read : result string (list Z))
    : result MasqueError (list Z) :=
  match transport t with
  | Transport_Http3 => map_err MasqueRecvFailed quic_read
  | Transport_Http2 => map_err MasqueRecvFailed quic_read
  end.

Definition set_tunnel_state (s : TunnelStatus) (t : MasqueTunnel) : MasqueTunnel := {|
  proxy_url := proxy_url t; transport := transport t; quic_conn := quic_conn t;
  tunnel_call_id := tunnel_call_id t; tunnel_state := s;
  h3_driver := h3_driver t; server_task := server_task t
|}.

(** The closed QUIC connection is returned. *)
Definition tunnel_close (t : MasqueTunnel) : MasqueTunnel * Z :=
  (set_tunnel_state Tunnel_Failed t, quic_conn t).

(** One record of [proxy_records] with what the network does when it is tried. *)
Record ProxyAttempt := { pa_url : string; pa_h3 : Http3Io; pa_h2 : Http2Io }.

Fixpoint recover_loop (call_id : string) (attempts : list ProxyAttempt) : option MasqueTunnel :=
  match attempts with
  | [] => None
  | a :: attempts' =>
      match connect_http3 (pa_h3 a) (pa_url a) call_id None with
      | Ok t => Some t
      | Err _ =>
          match connect_http2 (pa_h2 a) (pa_url a) call_id None with
          | Ok t => Some t
          | Err _ => recover_loop call_id attempts'
          end
      end
  end.

Definition recover (t : MasqueTunnel) (attempts : list ProxyAttempt)
    : MasqueTunnel * result MasqueError unit :=
  let t := set_tunnel_state Tunnel_Recovering t in
  match recover_loop (tunnel_call_id t) attempts with
  | Some t' => (t', Ok tt)
  | None => (set_tunnel_state Tunnel_Failed t, Err AllTransportsFailed)
  end.

Definition establish_masque_tunnel_with_token (io3 : Http3Io) (io2 : Http2Io)
    (url call_id : string) (udp_blocked : bool) (proxy_token : option string)
    : result MasqueError MasqueTunnel :=
  match (if negb udp_blocked then connect_http3 io3 url call_id proxy_token
         else Err AllTransportsFailed) with
  | Ok t => Ok t
  | Err _ =>
      match connect_http2 io2 url call_id proxy_token with
      | Ok t => Ok t
      | Err _ => Err AllTransportsFailed
      end
  end.

Definition establish_masque_tunnel (io3 : Http3Io) (io2 : Http2Io)
    (url call_id : string) (udp_blocked : bool) : result MasqueError MasqueTunnel :=
  establish_masque_tunnel_with_token io3 io2 url call_id udp_blocked None.

Definition detect_masque_need (local_nat_type peer_nat_type : NATType) (udp_blocked : bool) : bool :=
  if udp_blocked then true
  else if bool_decide (local_nat_type = NATType_SymmetricRandom)
          && bool_decide (peer_nat_type = NATType_SymmetricRandom) then true
  else if bool_decide (local_nat_type = NATType_None)
          || bool_decide (peer_nat_type = NATType_None) then false
  else if bool_decide (local_nat_type = NATType_Cone)
          || bool_decide (peer_nat_type = NATType_Cone) then false
  else if NATType_is_predictable local_nat_type || NATType_is_predictable peer_nat_type then false
  else true.

(** The signaling server's version of the decision ([voip-signaling/src/masque.rs]). *)
Definition server_detect_masque_need (caller_nat callee_nat : NATType) (udp_blocked : bool) : bool :=
  match caller_nat, callee_nat with
  | NATType_SymmetricRandom, NATType_SymmetricRandom => true
  | _, _ => false
  end || udp_blocked.

(** ** Datagram capsules

    [encode_varint] writes seven bits per byte; a [u64] takes at most ten bytes. *)

Fixpoint varint_loop (fuel : nat) (value : Z) : list Z :=
  match fuel with
  | O => []
  | S fuel' =>
      let byte := Z.land value 0x7F in
      let value := Z.shiftr value 7 in
      if value =? 0 then [byte] else Z.lor byte 0x80 :: varint_loop fuel' value
  end.

Definition encode_varint (value : Z) : list Z := varint_loop 10 value.

Fixpoint varint_len_loop (fuel : nat) (v len : Z) : Z :=
  match fuel with
  | O => len
  | S fuel' => if 0x7F <? v then varint_len_loop fuel' (Z.shiftr v 7) (len + 1) else len
  end.

Definition varint_len (value : Z) : Z := varint_len_loop 10 value 1.

Definition encode_h2_datagram_capsule (data : list Z) : list Z :=
  let quarter_stream_id := 0 in
  let payload_len := zlen data + varint_len quarter_stream_id in
  encode_varint 0 ++ encode_varint payload_len ++ encode_varint quarter_stream_id ++ data.

Definition encode_datagram_capsule (quic_packet : list Z) : list Z :=
  let quarter_stream_id := 0 in
  let payload_len := varint_len quarter_stream_id + zlen quic_packet in
  encode_varint 0 ++ encode_varint payload_len ++ encode_varint quarter_stream_id ++ quic_packet.

Definition decode_h2_varint (data : list Z) : Z * Z :=
  match data with
  | [] => (0, 0)
  | first :: _ =>
      let prefix := Z.shiftr first 6 in
      if prefix =? 0 then (Z.land first 0x3F, 1)
      else if prefix =? 1 then
        if zlen data <? 2 then (0, 0)
        else (Z.land (from_be (take 2 data)) 0x3FFF, 2)
      else if prefix =? 2 then
        if zlen data <? 4 then (0, 0)
        else (Z.land (from_be (take 4 data)) 0x3FFFFFFF, 4)
      else
        if zlen data <? 8 then (0, 0)
        else (Z.land (from_be (take 8 data)) 0x3FFFFFFFFFFFFFFF, 8)
  end.

(** The message of a capsule whose length runs past its frame. *)
Definition truncated_capsule (expected have : Z) : MasqueError :=
  Http2Error ("capsule payload truncated: expected " +:+ string_of_bytes (decimal expected)
    +:+ " bytes, have " +:+ string_of_bytes (decimal have)).

(** [None] is the panic of [data[pos..end]] with [end < pos]. *)
Definition decode_datagram_capsule (data : list Z) : option (result MasqueError (list Z)) :=
  let '(capsule_type, ct_len) := decode_h2_varint data in
  let pos := ct_len in
  if negb (capsule_type =? 0) then Some (Err (Http2Error
    ("expected DATAGRAM capsule type 0, got " +:+ string_of_bytes (decimal capsule_type))))
  else
    let '(capsule_len, cl_len) := decode_h2_varint (drop (Z.to_nat pos) data) in
    let pos := pos + cl_len in
    let '(_, qs_len) := decode_h2_varint (drop (Z.to_nat pos) data) in
    let pos := pos + qs_len in
    let end_ := pos + capsule_len - qs_len in
    if zlen data <? end_ then Some (Err (truncated_capsule (end_ - pos) (zlen data - pos)))
    else let?o packet := slice data pos end_ in Some (Ok packet).

(** The bridge task [h2_to_quic] on a sequence of DATA frames, with the QUIC side
    accepting every datagram: the packets forwarded, and whether the task is still
    running (a panic ends it). *)
Fixpoint h2_to_quic (frames : list (list Z)) : list (list Z) * bool :=
  match frames with
  | [] => ([], true)
  | f :: frames' =>
      match decode_datagram_capsule f with
      | None => ([], false)
      | Some (Err _) => h2_to_quic frames'
      | Some (Ok pkt) => let '(out, alive) := h2_to_quic frames' in (pkt :: out, alive)
      end
  end.

(** The opposite task [quic_to_h2]: one DATA frame per datagram. *)
Definition quic_to_h2 (packets : list (list Z)) : list (list Z) := map encode_datagram_capsule packets.

(** ** Specifications *)

(** The value of an unsigned LEB128 sequence: seven bits per byte, least significant
    group first, the top bit marking a continuation. *)
Fixpoint leb128_value (l : list Z) : Z :=
  match l with
  | [] => 0
  | b :: l' => if b <? 128 then b else (b - 128) + 128 * leb128_value l'
  end.

(** The first attempt on which one of the transports succeeds. *)
Definition attempt_result (call_id : string) (a : ProxyAttempt) : option MasqueTunnel :=
  match connect_http3 (pa_h3 a) (pa_url a) call_id None,
        connect_http2 (pa_h2 a) (pa_url a) call_id None with
  | Ok t, _ => Some t
  | Err _, Ok t => Some t
  | Err _, Err _ => None
  end.

(** A proxy that refuses every request without a token, on both transports. *)
Definition requires_token (a : ProxyAttempt) : Prop :=
  forall req status,
    h3_answer (pa_h3 a) req = AnswerStatus status \/ h2_answer (pa_h2 a) req = AnswerStatus status ->
    Forall (fun h => h.1 <> "x-voip-proxy-token") (req_headers req) ->
    status <> STATUS_OK.

(** A concrete proxy of that kind. *)
Module TokenProxy.
Definition answer (r : HttpRequest) : ProxyAnswer :=
  if existsb (fun h => String.eqb h.1 "x-voip-proxy-token") (req_headers r)
  then AnswerStatus 200 else AnswerStatus 407.

Definition config : ClientConfig := {| cc_accepts := no_verifier; cc_alpn := [] |}.

Definition quic_config : QuinnClientConfig := {|
  qc_tls := config; qc_datagram_receive_buffer := Some 65536; qc_datagram_send_buffer := 65536;
  qc_idle_timeout_secs := Some 30
|}.

Definition io3 : Http3Io := {|
  h3_lookup := fun _ => Ok [V4 [192; 0; 2; 1] 443]; h3_config := Ok quic_config;
  h3_endpoint := None;
  h3_connect := fun _ _ => Ok {| hs_cert := [48]; hs_refused := "refused"; hs_outcome := Ok 1 |};
  h3_handshake := None; h3_build := fun _ => None; h3_send := None;
  h3_finish := None; h3_answer := answer |}.

Definition loopback : LoopbackIo := {|
  lb_server_config := Ok {| qs_chain := [[48]]; qs_key := [7]; qs_datagram_buffers := None |};
  lb_server_endpoint := None; lb_local_addr := None; lb_client_config := Ok quic_config;
  lb_client_endpoint := None; lb_connect := None; lb_refused := "refused"; lb_outcome := Ok 2
|}.

Definition io2 : Http2Io := {|
  h2_tcp := None; h2_tls_config := Ok config; h2_server_name := fun _ => None;
  h2_tls := {| hs_cert := [48]; hs_refused := "refused"; hs_outcome := Ok tt |};
  h2_build := fun _ => None; h2_handshake := None; h2_send := None; h2_answer := answer;
  h2_loopback := loopback |}.

Definition tunnel : MasqueTunnel := {|
  proxy_url := "https://p:443/"; transport := Transport_Http3; quic_conn := 1;
  tunnel_call_id := "call"; tunnel_state := Tunnel_Active; h3_driver := true;
  server_task := false |}.
End TokenProxy.

(** ** Facts *)

Local Ltac Zify.zify_post_hook ::= Z.div_mod_to_equations.

Lemma varint_small v : 0 <= v < 128 -> encode_varint v = [v].
Proof.
  intros Hv. unfold encode_varint. cbn [varint_loop].
  change 0x7F with (Z.ones 7). rewrite Z.shiftr_div_pow2, Z.land_ones by lia.
  replace (v / 2 ^ 7 =? 0) with true by lia. f_equal. lia.
Qed.

Lemma lor_0x80 x : 0 <= x < 128 -> Z.lor x 0x80 = 128 + x.
Proof.
  intros Hx. rewrite Z.lor_comm. apply (lor_shiftl_add 1 x 7); lia.
Qed.

Lemma varint_loop_step f v :
  128 <= v -> varint_loop (S f) v = (128 + v mod 128) :: varint_loop f (v / 128).
Proof.
  intros Hv. cbn [varint_loop].
  change 0x7F with (Z.ones 7). rewrite Z.shiftr_div_pow2, Z.land_ones by lia. change (2 ^ 7) with 128.
  replace (v / 128 =? 0) with false by lia. by rewrite lor_0x80 by lia.
Qed.

Lemma varint_loop_end f v : 0 <= v < 128 -> varint_loop (S f) v = [v].
Proof.
  intros Hv. cbn [varint_loop]. change 0x7F with (Z.ones 7). rewrite Z.shiftr_div_pow2, Z.land_ones by lia.
  replace (v / 2 ^ 7 =? 0) with true by lia. f_equal. lia.
Qed.

Lemma varint_two v : 128 <= v < 16384 -> encode_varint v = [128 + v mod 128; v / 128].
Proof.
  intros Hv. unfold encode_varint. rewrite varint_loop_step by lia.
  by rewrite varint_loop_end by lia.
Qed.

Lemma varint_len_zero : varint_len 0 = 1.
Proof. reflexivity. Qed.

Lemma capsule_eq p :
  encode_datagram_capsule p = 0 :: encode_varint (1 + zlen p) ++ 0 :: p.
Proof. unfold encode_datagram_capsule. by rewrite varint_len_zero. Qed.

Lemma varint_loop_len f v len :
  0 <= v < 128 ^ Z.of_nat (S f) ->
  len + zlen (varint_loop (S f) v) = varint_len_loop (S f) v len + 1.
Proof.
  revert v len. induction f as [|f IH]; intros v len Hv.
  - change (128 ^ Z.of_nat 1) with 128 in Hv. rewrite varint_loop_end by lia.
    cbn [varint_len_loop]. replace (0x7F <? v) with false by lia. reflexivity.
  - destruct (Z.lt_ge_cases v 128).
    + rewrite varint_loop_end by lia. cbn [varint_len_loop].
      replace (0x7F <? v) with false by lia. reflexivity.
    + rewrite varint_loop_step by lia. remember (S f) as g. cbn [varint_len_loop]. subst g.
      replace (0x7F <? v) with true by lia. rewrite Z.shiftr_div_pow2 by lia.
      change (2 ^ 7) with 128. rewrite <- IH.
      * unfold zlen. simpl length. lia.
      * rewrite (Nat2Z.inj_succ (S f)), Z.pow_succ_r in Hv by lia. lia.
Qed.

Lemma varint_loop_value f v :
  0 <= v < 128 ^ Z.of_nat f -> leb128_value (varint_loop f v) = v.
Proof.
  revert v. induction f as [|f IH]; intros v Hv; [simpl in *; lia|].
  rewrite Nat2Z.inj_succ, Z.pow_succ_r in Hv by lia.
  destruct (Z.lt_ge_cases v 128).
  - rewrite varint_loop_end by lia. cbn [leb128_value]. by replace (v <? 128) with true by lia.
  - rewrite varint_loop_step by lia. cbn [leb128_value].
    replace (128 + v mod 128 <? 128) with false by lia. rewrite IH; lia.
Qed.

Lemma decode_h2_varint_1 b l : 0 <= b < 64 -> decode_h2_varint (b :: l) = (b, 1).
Proof.
  intros Hb. unfold decode_h2_varint. rewrite Z.shiftr_div_pow2 by lia.
  replace (b / 2 ^ 6 =? 0) with true by lia.
  change 0x3F with (Z.ones 6). rewrite Z.land_ones by lia. f_equal. lia.
Qed.

Lemma decode_h2_varint_2 b c l :
  64 <= b < 128 -> byte_ok c -> decode_h2_varint (b :: c :: l) = ((b - 64) * 256 + c, 2).
Proof.
  unfold byte_ok. intros Hb Hc. unfold decode_h2_varint. rewrite Z.shiftr_div_pow2 by lia.
  replace (b / 2 ^ 6 =? 0) with false by lia. replace (b / 2 ^ 6 =? 1) with true by lia.
  replace (zlen (b :: c :: l) <? 2) with false
    by (rewrite !zlen_cons; pose proof (zlen_nonneg l); lia).
  change 0x3FFF with (Z.ones 14). rewrite (Z.land_ones _ 14) by lia. unfold from_be.
  cbn [take from_be_acc]. rewrite take_0. cbn [from_be_acc]. change (2 ^ 14) with 16384. f_equal. lia.
Qed.

(** A four- or eight-byte integer is at least its second byte times the weight. *)
Lemma decode_h2_varint_wide b c l :
  128 <= b < 256 -> 0 < c < 128 -> bytes_ok l -> 6 <= zlen l ->
  exists v n, decode_h2_varint (b :: c :: l) = (v, n) /\ 65536 <= v.
Proof.
  intros Hb Hc Hl Hlen.
  destruct l as [|d [|e [|g [|h [|i [|j l]]]]]]; try (exfalso; clear -Hlen; unfold zlen in *; simpl in *; lia).
  repeat (apply Forall_cons in Hl as [? Hl]). unfold byte_ok in *.
  set (data := b :: c :: d :: e :: g :: h :: i :: j :: l).
  assert (Hz : 8 <= zlen data)
    by (unfold data; rewrite !zlen_cons; pose proof (zlen_nonneg l); lia).
  unfold decode_h2_varint, data at 1. rewrite Z.shiftr_div_pow2 by lia.
  replace (b / 2 ^ 6 =? 0) with false by lia. replace (b / 2 ^ 6 =? 1) with false by lia.
  replace (zlen data <? 4) with false by lia. replace (zlen data <? 8) with false by lia.
  change 0x3FFFFFFF with (Z.ones 30). change 0x3FFFFFFFFFFFFFFF with (Z.ones 62).
  rewrite (Z.land_ones _ 30), (Z.land_ones _ 62) by lia. unfold data, from_be.
  cbn [take from_be_acc]. rewrite !take_0. cbn [from_be_acc].
  destruct (b / 2 ^ 6 =? 2); do 2 eexists; (split; [reflexivity|]).
  - change (2 ^ 30) with 1073741824. lia.
  - change (2 ^ 62) with 4611686018427387904. lia.
Qed.

Lemma decode_truncated t l v n :
  decode_h2_varint t = (v, n) -> 0 <= n -> zlen (0 :: l) < 1 + n + v -> t = l ->
  exists expected have, have < expected /\
    decode_datagram_capsule (0 :: l) = Some (Err (truncated_capsule expected have)).
Proof.
  intros Hv Hn Hlen ->. unfold decode_datagram_capsule. rewrite decode_h2_varint_1 by lia.
  change (drop (Z.to_nat 1) (0 :: l)) with l. cbn [negb Z.eqb]. rewrite Hv.
  destruct (decode_h2_varint (drop _ _)) as [q qs].
  replace (zlen (0 :: l) <? 1 + n + qs + v - qs) with true by lia.
  do 2 eexists. split; [|reflexivity]. lia.
Qed.

Lemma decode_h2_varint_len l : 0 <= (decode_h2_varint l).2.
Proof. unfold decode_h2_varint. repeat case_match; simpl; lia. Qed.

Lemma capsule_small p :
  zlen p <= 62 -> decode_datagram_capsule (encode_datagram_capsule p) = Some (Ok p).
Proof.
  intros Hp. pose proof (zlen_nonneg p). rewrite capsule_eq, varint_small by lia.
  unfold decode_datagram_capsule. cbn [app]. rewrite decode_h2_varint_1 by lia.
  change (drop (Z.to_nat 1) (0 :: 1 + zlen p :: 0 :: p)) with (1 + zlen p :: 0 :: p).
  cbn [negb Z.eqb]. rewrite decode_h2_varint_1 by lia.
  change (drop (Z.to_nat (1 + 1)) (0 :: 1 + zlen p :: 0 :: p)) with (0 :: p).
  rewrite decode_h2_varint_1 by lia.
  change (0 :: 1 + zlen p :: 0 :: p) with ([0; 1 + zlen p; 0] ++ p).
  rewrite zlen_app. change (zlen [0; 1 + zlen p; 0]) with 3.
  replace (3 + zlen p <? _) with false by lia.
  pose proof (slice_app_mid [0; 1 + zlen p; 0] p [] 3 (3 + zlen p) eq_refl eq_refl) as Hs.
  rewrite app_nil_r in Hs. replace (1 + 1 + 1 + (1 + zlen p) - 1) with (3 + zlen p) by lia.
  change (1 + 1 + 1) with 3. by rewrite Hs.
Qed.

Lemma capsule_63 p :
  bytes_ok p -> zlen p = 63 -> decode_datagram_capsule (encode_datagram_capsule p) = None.
Proof.
  intros Hok Hp. rewrite capsule_eq, varint_small, Hp by lia.
  destruct p as [|b [|c p]]; [done|done|]. set (q := b :: c :: p) in *.
  unfold decode_datagram_capsule. cbn [app]. rewrite decode_h2_varint_1 by lia.
  change (drop (Z.to_nat 1) (0 :: 1 + 63 :: 0 :: q)) with (64 :: 0 :: q).
  cbn [negb Z.eqb]. rewrite decode_h2_varint_2 by (unfold byte_ok; lia).
  change (drop (Z.to_nat (1 + 2)) (0 :: 1 + 63 :: 0 :: q)) with q.
  assert (Hqs : 0 < (decode_h2_varint q).2).
  { unfold decode_h2_varint, q. fold q. rewrite Hp. repeat case_match; simpl; lia. }
  destruct (decode_h2_varint q) as [v qs]. cbn [snd] in Hqs.
  rewrite !zlen_cons, Hp. replace (_ <? _) with false by lia.
  unfold slice. replace (1 + 2 + qs <=? _) with false by lia.
  by rewrite andb_false_r.
Qed.

Lemma capsule_mid p :
  64 <= zlen p <= 126 ->
  exists expected have, have < expected /\
    decode_datagram_capsule (encode_datagram_capsule p)
    = Some (Err (truncated_capsule expected have)).
Proof.
  intros Hp. rewrite capsule_eq, varint_small by lia. cbn [app].
  eapply decode_truncated; [apply decode_h2_varint_2| | |reflexivity];
    unfold byte_ok; rewrite ?zlen_cons; lia.
Qed.

Lemma capsule_wide p :
  bytes_ok p -> 127 <= zlen p <= 16382 ->
  exists expected have, have < expected /\
    decode_datagram_capsule (encode_datagram_capsule p)
    = Some (Err (truncated_capsule expected have)).
Proof.
  intros Hok Hp. rewrite capsule_eq, varint_two by lia. cbn [app].
  destruct (decode_h2_varint_wide (128 + (1 + zlen p) mod 128) ((1 + zlen p) / 128) (0 :: p))
    as (v & n & Hv & Hle); [lia|lia|constructor; [unfold byte_ok; lia|done]|rewrite zlen_cons; lia|].
  eapply decode_truncated; [exact Hv| | |reflexivity].
  - pose proof (decode_h2_varint_len (128 + (1 + zlen p) mod 128 :: (1 + zlen p) / 128 :: 0 :: p)) as H.
    by rewrite Hv in H.
  - pose proof (decode_h2_varint_len (128 + (1 + zlen p) mod 128 :: (1 + zlen p) / 128 :: 0 :: p)) as H.
    rewrite Hv in H. cbn [snd] in H. rewrite !zlen_cons. lia.
Qed.

Lemma strip_scheme_host name h rest :
  COLON ∉ name -> SLASH_CHAR ∉ name -> COLON ∉ h -> SLASH_CHAR ∉ h ->
  match rest with
  | [] => True
  | c :: rest' => c = SLASH_CHAR \/ c = COLON /\ hd 0 rest' <> SLASH_CHAR
  end ->
  strip_prefix (name ++ [COLON; SLASH_CHAR; SLASH_CHAR]) (h ++ rest) = None.
Proof.
  intros Hn Hn' Hc Hs Hr. destruct (strip_prefix _ _) as [l|] eqn:E; [exfalso|done].
  apply strip_prefix_Some in E. rewrite <- app_assoc in E. cbn [app] in E.
  destruct rest as [|c rest]; [rewrite app_nil_r in E; subst h; apply Hc; set_solver|].
  destruct Hr as [->|[-> Hd]].
  - change (name ++ COLON :: SLASH_CHAR :: SLASH_CHAR :: l)
      with (name ++ [COLON] ++ SLASH_CHAR :: SLASH_CHAR :: l) in E.
    rewrite app_assoc in E. apply app_cons_inj_fresh in E as [-> _]; [|done|].
    + apply Hc. set_solver.
    + rewrite not_elem_of_app, list_elem_of_singleton. split; [done|discriminate].
  - apply app_cons_inj_fresh in E as [-> ->]; [|done|done]. by simpl in Hd.
Qed.

(** A URL is one of the two schemes or none, then a host, then the rest. *)
Lemma trim_schemes (scheme : list Z) h rest :
  scheme = HTTPS_PREFIX \/ scheme = HTTP_PREFIX \/ scheme = [] ->
  COLON ∉ h -> SLASH_CHAR ∉ h ->
  match rest with
  | [] => True
  | c :: rest' => c = SLASH_CHAR \/ c = COLON /\ hd 0 rest' <> SLASH_CHAR
  end ->
  trim_start_matches HTTP_PREFIX (trim_start_matches HTTPS_PREFIX (scheme ++ h ++ rest)) = h ++ rest.
Proof.
  intros Hsch Hc Hs Hr.
  assert (H1 : strip_prefix HTTPS_PREFIX (h ++ rest) = None)
    by (apply (strip_scheme_host (as_bytes "https")); auto;
        intros Hin; vm_compute in Hin; set_solver).
  assert (H2 : strip_prefix HTTP_PREFIX (h ++ rest) = None)
    by (apply (strip_scheme_host (as_bytes "http")); auto;
        intros Hin; vm_compute in Hin; set_solver).
  destruct Hsch as [->|[->| ->]].
  - rewrite (trim_start_matches_app HTTPS_PREFIX) by done. by apply trim_start_matches_none.
  - rewrite (trim_start_matches_none HTTPS_PREFIX) by reflexivity.
    by apply trim_start_matches_app.
  - cbn [app]. rewrite (trim_start_matches_none HTTPS_PREFIX) by done.
    by apply trim_start_matches_none.
Qed.

Lemma first_part_path l path :
  SLASH_CHAR ∉ l -> match path with [] => True | c :: _ => c = SLASH_CHAR end ->
  first_part (l ++ path) = l.
Proof.
  intros Hl Hp. unfold first_part. destruct path as [|c path].
  - by rewrite app_nil_r, split_on_fresh.
  - subst c. by rewrite split_on_app.
Qed.

Lemma connect_http3_ok io url cid tok t :
  connect_http3 io url cid tok = Ok t ->
  proxy_url t = url /\ transport t = Transport_Http3 /\ tunnel_call_id t = cid /\
  tunnel_state t = Tunnel_Active.
Proof.
  unfold connect_http3, result_bind. intros H. repeat (case_in H; try discriminate).
  by simplify_eq.
Qed.

Lemma connect_http2_ok io url cid tok t :
  connect_http2 io url cid tok = Ok t ->
  proxy_url t = url /\ transport t = Transport_Http2 /\ tunnel_call_id t = cid /\
  tunnel_state t = Tunnel_Active.
Proof.
  unfold connect_http2, result_bind. intros H. repeat (case_in H; try discriminate).
  by simplify_eq.
Qed.

(** In a release build there is no HTTP/2 tunnel: the local connection behind it is to a
    certificate that was generated on the spot, and the client checks it against the
    system's roots, which vouch for no self-signed one. *)
Lemma release_http2_refused {G : Rcgen} {T : Rustls} io url cid tok roots :
  lb_server_config (h2_loopback io) = dangerous_quinn_server_config ->
  lb_client_config (h2_loopback io) = dangerous_quinn_client_config ReleaseBuild ->
  rustls_native_roots = Ok roots ->
  (forall names subject key cert, rcgen_self_signed names subject key = Ok cert -> roots cert = false) ->
  is_ok (connect_http2 io url cid tok) = false.
Proof.
  intros Hs Hc Hr Hself.
  assert (Hl : is_ok (create_loopback_quic_pair (h2_loopback io)) = false).
  { unfold create_loopback_quic_pair, dangerous_quinn_client_config, tls_client_config,
      production_client_config, dangerous_quinn_server_config in *. rewrite Hs, Hc, Hr.
    unfold labelled, io_done, map_err, result_bind, tls_handshake.
    repeat (case_goal; try done); cbn in *; simplify_eq/=; naive_solver congruence. }
  unfold connect_http2, result_bind. repeat (case_goal; try done).
Qed.

Lemma recover_loop_spec cid attempts :
  match recover_loop cid attempts with
  | Some t => exists pre a post, attempts = pre ++ a :: post /\
      Forall (fun b => attempt_result cid b = None) pre /\ attempt_result cid a = Some t
  | None => Forall (fun b => attempt_result cid b = None) attempts
  end.
Proof.
  induction attempts as [|a l IH]; simpl; [constructor|].
  assert (Hstep : forall t, attempt_result cid a = Some t -> exists pre a' post,
    a :: l = pre ++ a' :: post /\
    Forall (fun b => attempt_result cid b = None) pre /\ attempt_result cid a' = Some t)
    by (intros t Ht; exists [], a, l; auto).
  unfold attempt_result in Hstep at 1.
  destruct (connect_http3 _ _ _ _) eqn:E3; [by apply Hstep|].
  destruct (connect_http2 _ _ _ _) eqn:E2; [by apply Hstep|].
  assert (Ha : attempt_result cid a = None) by (unfold attempt_result; by rewrite E3, E2).
  destruct (recover_loop cid l); [|by constructor].
  destruct IH as (pre & a' & post & -> & Hpre & Hr). exists (a :: pre), a', post. auto.
Qed.

Lemma attempt_result_ok cid a t :
  attempt_result cid a = Some t ->
  tunnel_state t = Tunnel_Active /\ proxy_url t = pa_url a /\ tunnel_call_id t = cid /\
  (transport t = Transport_Http3 <-> is_ok (connect_http3 (pa_h3 a) (pa_url a) cid None) = true).
Proof.
  unfold attempt_result. intros H.
  destruct (connect_http3 _ _ _ _) eqn:E3; simplify_eq/=.
  - by destruct (connect_http3_ok _ _ _ _ _ E3) as (-> & -> & -> & ->).
  - destruct (connect_http2 _ _ _ _) eqn:E2; simplify_eq.
    by destruct (connect_http2_ok _ _ _ _ _ E2) as (-> & -> & -> & ->).
Qed.

Lemma build_request_no_token hb host port cid req :
  build_connect_udp_request hb host port cid None = Ok req ->
  Forall (fun h => h.1 <> "x-voip-proxy-token") (req_headers req).
Proof.
  unfold build_connect_udp_request, build_connect_udp_request_with_peer.
  destruct (hb _); intros H; simplify_eq. simpl. by repeat constructor.
Qed.

Lemma build_request_h2_no_token hb host port cid req :
  build_connect_udp_request_h2 hb host port cid None = Ok req ->
  Forall (fun h => h.1 <> "x-voip-proxy-token") (req_headers req).
Proof.
  unfold build_connect_udp_request_h2.
  destruct (hb _); intros H; simplify_eq. simpl. by repeat constructor.
Qed.

Lemma check_answer_ok err what a u : check_answer err what a = Ok u -> a = AnswerStatus STATUS_OK.
Proof.
  destruct a; simpl; try done. destruct (status =? STATUS_OK) eqn:E; [|done].
  bool_to_prop. by subst.
Qed.

Lemma perform_h2_handshake_ok io req u :
  perform_h2_handshake io req = Ok u -> h2_answer io req = AnswerStatus STATUS_OK.
Proof.
  unfold perform_h2_handshake, result_bind. destruct (io_done _ _ _); [|done].
  destruct (io_done _ _ _); [|done]. apply check_answer_ok.
Qed.

Lemma requires_token_refuses cid a : requires_token a -> attempt_result cid a = None.
Proof.
  intros Ha. unfold attempt_result.
  assert (H3 : is_ok (connect_http3 (pa_h3 a) (pa_url a) cid None) = false).
  { unfold connect_http3, result_bind. repeat case_goal; try done.
    all: repeat match goal with H : check_answer _ _ _ = Ok _ |- _ => apply check_answer_ok in H end.
    all: exfalso; eapply Ha; [left; eassumption|eapply build_request_no_token; eassumption|done]. }
  assert (H2 : is_ok (connect_http2 (pa_h2 a) (pa_url a) cid None) = false).
  { unfold connect_http2, result_bind. repeat case_goal; try done.
    all: repeat match goal with
         | H : perform_h2_handshake _ _ = Ok _ |- _ => apply perform_h2_handshake_ok in H end.
    all: exfalso; eapply Ha; [right; eassumption|eapply build_request_h2_no_token; eassumption|done]. }
  by repeat case_match.
Qed.

(** C26: the HTTP/2 capsule codec on packets of at most 16382 bytes: packets of up to 62
    bytes survive encoding and decoding, a 63-byte packet makes the decoder panic, and
    every longer one is rejected as truncated, its message saying that more bytes were expected
    than are there.  The length is written in LEB128 (seven
    bits per byte) and read as a QUIC variable-length integer (a two-bit length prefix),
    and the two agree below 64 only. *)
Theorem h2_capsule_behaviour p :
  bytes_ok p -> zlen p <= 16382 ->
  let decoded := decode_datagram_capsule (encode_datagram_capsule p) in
  if zlen p <=? 62 then decoded = Some (Ok p)
  else if zlen p =? 63 then decoded = None
  else exists expected have, have < expected /\
    decoded = Some (Err (truncated_capsule expected have)).
Proof.
  intros Hok Hlen decoded. destruct (zlen p <=? 62) eqn:E1; bool_to_prop; [by apply capsule_small|].
  destruct (zlen p =? 63) eqn:E2; bool_to_prop; [by apply capsule_63|].
  destruct (Z.le_gt_cases (zlen p) 126); [apply capsule_mid|apply capsule_wide]; auto; lia.
Qed.

Lemma h2_capsule_behaviour_witness :
  exists expected have, have < expected /\
    decode_datagram_capsule (encode_datagram_capsule (repeat 7 1200))
    = Some (Err (truncated_capsule expected have)).
Proof.
  refine (h2_capsule_behaviour (repeat 7 1200) _ _).
  - apply Forall_forall. intros x Hx. apply list_elem_of_In, repeat_spec in Hx. subst.
    unfold byte_ok. lia.
  - vm_compute. discriminate.
Defined.

(** What the encoder writes is LEB128, with the length the code computes for it: for
    every [u64] the bytes stand for the value, and there are [varint_len] of them. *)
Lemma masque_varint_is_leb128 v :
  0 <= v < 2 ^ 64 ->
  leb128_value (encode_varint v) = v /\ zlen (encode_varint v) = varint_len v.
Proof.
  intros Hv. split.
  - apply varint_loop_value. simpl. lia.
  - pose proof (varint_loop_len 9 v 1 ltac:(simpl; lia)). unfold encode_varint, varint_len. lia.
Qed.

Lemma masque_varint_is_leb128_witness :
  leb128_value (encode_varint 300) = 300 /\ zlen (encode_varint 300) = varint_len 300.
Proof. apply (masque_varint_is_leb128 300). lia. Defined.

(** Of the packets that are not 63 bytes long the bridge delivers those of at most 62. *)
Lemma bridge_filters ps :
  Forall (fun p => bytes_ok p /\ zlen p <= 16382 /\ zlen p <> 63) ps ->
  h2_to_quic (quic_to_h2 ps) = (filter (fun p => zlen p <= 62) ps, true).
Proof.
  induction 1 as [|p ps (Hok & Hle & Hne) _ IH]; unfold quic_to_h2 in *; simpl; [done|].
  rewrite filter_cons; destruct (decide (zlen p <= 62)); [by rewrite capsule_small, IH|].
  destruct (Z.le_gt_cases (zlen p) 126);
    [destruct (capsule_mid p) as (? & ? & _ & ->)|destruct (capsule_wide p) as (? & ? & _ & ->)];
    (done || lia || exact IH).
Qed.

(** The HTTP/2 bridge of one client feeding that of another: of the packets that are
    not 63 bytes long exactly those of at most 62 bytes arrive, in order, and the first
    packet of 63 bytes ends the receiving task. *)
Lemma h2_bridge_delivers ps rest :
  Forall (fun p => bytes_ok p /\ zlen p <= 16382 /\ zlen p <> 63) ps ->
  h2_to_quic (quic_to_h2 ps) = (filter (fun p => zlen p <= 62) ps, true) /\
  forall q, bytes_ok q -> zlen q = 63 ->
    h2_to_quic (quic_to_h2 (ps ++ q :: rest)) = (filter (fun p => zlen p <= 62) ps, false).
Proof.
  intros Hps. split; [by apply bridge_filters|]. intros q Hq Hq'.
  induction Hps as [|p ps (Hok & Hle & Hne) _ IH]; unfold quic_to_h2 in *; simpl;
    [by rewrite capsule_63|].
  rewrite filter_cons; destruct (decide (zlen p <= 62)); [by rewrite capsule_small, IH|].
  destruct (Z.le_gt_cases (zlen p) 126);
    [destruct (capsule_mid p) as (? & ? & _ & ->)|destruct (capsule_wide p) as (? & ? & _ & ->)];
    (done || lia || exact IH).
Qed.

Lemma h2_bridge_delivers_witness :
  h2_to_quic (quic_to_h2 [[1; 2]; repeat 0 100]) = ([[1; 2]], true).
Proof.
  assert (Hz : Forall byte_ok (repeat 0 100)).
  { apply Forall_forall. intros x Hx. apply list_elem_of_In, repeat_spec in Hx. subst.
    unfold byte_ok. lia. }
  refine (proj1 (h2_bridge_delivers [[1; 2]; repeat 0 100] [] _)).
  repeat constructor; try exact Hz; unfold byte_ok; try lia; vm_compute; discriminate.
Defined.

(** Recovery of a tunnel: it keeps the call, and either ends Active on the first
    proxy of the list that accepts one of the transports (HTTP/3 whenever that worked),
    or, when every proxy refused both, ends Failed with [AllTransportsFailed] and nothing
    else changed. *)
Lemma tunnel_recovery_outcome t attempts :
  let '(t', r) := recover t attempts in
  tunnel_call_id t' = tunnel_call_id t /\
  match r with
  | Ok _ => tunnel_state t' = Tunnel_Active /\ exists pre a post,
      attempts = pre ++ a :: post /\
      Forall (fun b => attempt_result (tunnel_call_id t) b = None) pre /\
      attempt_result (tunnel_call_id t) a = Some t' /\ proxy_url t' = pa_url a /\
      (transport t' = Transport_Http3 <->
       is_ok (connect_http3 (pa_h3 a) (pa_url a) (tunnel_call_id t) None) = true)
  | Err e => e = AllTransportsFailed /\ t' = set_tunnel_state Tunnel_Failed t /\
      Forall (fun b => attempt_result (tunnel_call_id t) b = None) attempts
  end.
Proof.
  unfold recover. cbn [set_tunnel_state tunnel_call_id].
  pose proof (recover_loop_spec (tunnel_call_id t) attempts) as H.
  destruct (recover_loop _ _) as [t'|]; [|done].
  destruct H as (pre & a & post & Heq & Hpre & Ha).
  pose proof (attempt_result_ok _ _ _ Ha) as (Hs & Hu & Hc & Ht).
  split; [done|]. split; [done|]. by exists pre, a, post.
Qed.

(** Recovery sends no proxy token, so where every known proxy refuses requests without
    one, recovery always fails. *)
Lemma recovery_refused_without_token t attempts :
  Forall requires_token attempts ->
  recover t attempts = (set_tunnel_state Tunnel_Failed t, Err AllTransportsFailed).
Proof.
  intros H. unfold recover. cbn [set_tunnel_state tunnel_call_id].
  pose proof (recover_loop_spec (tunnel_call_id t) attempts) as Hl.
  destruct (recover_loop _ _); [|done].
  destruct Hl as (pre & a & post & -> & _ & Ha).
  apply Forall_app in H as [_ H]. apply Forall_cons in H as [H _].
  by rewrite (requires_token_refuses _ _ H) in Ha.
Qed.

(** The proxy of the witness accepts the same call with a token. *)
Lemma recovery_refused_without_token_witness :
  recover TokenProxy.tunnel [{| pa_url := "https://p:443/"; pa_h3 := TokenProxy.io3; pa_h2 := TokenProxy.io2 |}]
  = (set_tunnel_state Tunnel_Failed TokenProxy.tunnel, Err AllTransportsFailed) /\
  is_ok (establish_masque_tunnel_with_token TokenProxy.io3 TokenProxy.io2 "https://p:443/" "call"
           false (Some "t")) = true.
Proof.
  split; [|reflexivity].
  apply (recovery_refused_without_token TokenProxy.tunnel). constructor; [|constructor].
  intros req status Hans Hreq.
  assert (Hno : existsb (fun h => String.eqb h.1 "x-voip-proxy-token") (req_headers req) = false).
  { induction Hreq as [|h l Hh _ IH]; simpl; [done|].
    destruct (String.eqb_spec h.1 "x-voip-proxy-token"); [done|]. exact IH. }
  simpl in Hans. unfold TokenProxy.answer in Hans. rewrite Hno in Hans.
  by destruct Hans as [[= <-]|[= <-]].
Defined.

(** Client and signaling server take the same decision, and request a relay exactly
    when UDP is blocked or neither side's NAT supports a direct attempt
    ([NATInfo::supports_direct]). *)
Lemma masque_need_matches_direct_support l p pl pp blocked :
  detect_masque_need l p blocked =
  blocked || negb (supports_direct {| nat_type := l; prediction := pl |} ||
                   supports_direct {| nat_type := p; prediction := pp |}) /\
  server_detect_masque_need l p blocked = detect_masque_need l p blocked.
Proof. by destruct blocked, l, p. Qed.

(** A proxy URL with either scheme or none, a host without [:] and [/], an optional
    port and an optional path yields that host and port (443 without one); an IPv6
    literal is cut at its last colon. *)
Lemma proxy_url_parsed scheme host port path :
  (scheme = "https://" \/ scheme = "http://" \/ scheme = "") ->
  COLON ∉ as_bytes host -> SLASH_CHAR ∉ as_bytes host -> 0 <= port < 2 ^ 16 ->
  (path = "" \/ exists p, path = "/" +:+ p) ->
  parse_proxy_url (scheme +:+ host +:+ ":" +:+ string_of_bytes (decimal port) +:+ path)
    = Ok (host, port) /\
  parse_proxy_url (scheme +:+ host +:+ path) = Ok (host, 443) /\
  parse_proxy_url "https://[::1]:8443/masque" = Ok ("[::1]", 8443) /\
  parse_proxy_url "https://[::1]/masque" = Ok ("[:", 443).
Proof.
  intros Hsch Hc Hs Hport Hpath.
  assert (Hsch' : as_bytes scheme = HTTPS_PREFIX \/ as_bytes scheme = HTTP_PREFIX \/
                  as_bytes scheme = []) by (destruct Hsch as [->|[->| ->]]; auto).
  assert (Hp : match as_bytes path with [] => True | c :: _ => c = SLASH_CHAR end)
    by (destruct Hpath as [->|[p ->]]; done).
  pose proof (decimal_digits port ltac:(lia)) as Hdig.
  assert (Hdec : as_bytes (string_of_bytes (decimal port)) = decimal port).
  { apply as_bytes_of_bytes. eapply Forall_impl; [exact Hdig|]. unfold byte_ok. simpl. lia. }
  split; [|split; [|by split]]; unfold parse_proxy_url; rewrite !as_bytes_app, ?Hdec.
  - rewrite trim_schemes; auto.
    + change (as_bytes ":") with [COLON]. rewrite !app_assoc, first_part_path; auto.
      * rewrite <- app_assoc. simpl app. rewrite rfind_app by (apply decimal_fresh; unfold COLON; lia).
        by rewrite string_of_as_bytes, parse_uint_decimal by lia.
      * rewrite !not_elem_of_app, list_elem_of_singleton. repeat split; [done|discriminate|].
        apply decimal_fresh; unfold SLASH_CHAR; lia.
    + simpl. right. split; [done|]. pose proof (decimal_nonempty port).
      destruct (decimal port); [done|]. apply Forall_cons in Hdig as [? _]. simpl.
      unfold SLASH_CHAR. lia.
  - rewrite trim_schemes; auto; [|by destruct (as_bytes path); auto].
    rewrite first_part_path by auto. rewrite rfind_fresh by done. by rewrite string_of_as_bytes.
Qed.

Lemma proxy_url_parsed_witness :
  parse_proxy_url "https://proxy.example:8443/masque" = Ok ("proxy.example", 8443).
Proof.
  refine (proj1 (proxy_url_parsed "https://" "proxy.example" 8443 "/masque" _ _ _ _ _)).
  - auto.
  - intros H. vm_compute in H. set_solver.
  - intros H. vm_compute in H. set_solver.
  - lia.
  - right. by exists "masque".
Defined.
