(* ===== verification/RateLimit.v ===== *)
(** * Token-bucket rate limiting

    [voip-signaling/src/rate_limit.rs].  Times are nanoseconds; the code measures
    intervals in whole milliseconds.

    The code keeps [tokens] in an [f64].  This file counts in integers; [RateLimitFloat] has the
    buckets in doubles and proves that both limiters answer alike. *)

From S2P Require Import Prelude.

Local Open Scope Z_scope.

Record BucketConfig := {
  max_tokens : Z;
  refill_amount : Z;
  refill_interval_ms : Z
}.

Definition CALLS : BucketConfig :=
  {| max_tokens := 10; refill_amount := 10; refill_interval_ms := 60000 |}.

Definition REGISTRATIONS : BucketConfig :=
  {| max_tokens := 6; refill_amount := 6; refill_interval_ms := 60000 |}.

Definition WS_MESSAGES : BucketConfig :=
  {| max_tokens := 30; refill_amount := 30; refill_interval_ms := 1000 |}.

Record Bucket := {
  tokens : Z;
  last_refill : Z;
  bucket_config : BucketConfig
}.

Definition bucket_new (now : Z) (config : BucketConfig) : Bucket :=
  {| tokens := max_tokens config; last_refill := now; bucket_config := config |}.

(** [now.duration_since(t).as_millis() as u64]. *)
Definition elapsed_ms (now t : Z) : Z := cast 64 (elapsed now t / NS_PER_MS).

(** [None] is the division by a zero interval. *)
Definition refill (now : Z) (b : Bucket) : option Bucket :=
  let c := bucket_config b in
  let e := elapsed_ms now (last_refill b) in
  if refill_interval_ms c <=? e then
    if refill_interval_ms c =? 0 then None
    else
      let intervals := e / refill_interval_ms c in
      let added := intervals * refill_amount c in
      Some {| tokens := Z.min (tokens b + added) (max_tokens c); last_refill := now;
              bucket_config := c |}
  else Some b.

Definition try_consume (now count : Z) (b : Bucket) : option (Bucket * bool) :=
  match refill now b with
  | None => None
  | Some b =>
      if count <=? tokens b then
        Some ({| tokens := tokens b - count; last_refill := last_refill b;
                 bucket_config := bucket_config b |}, true)
      else Some (b, false)
  end.

Record RateLimitConfig := {
  cfg_calls : BucketConfig;
  cfg_registrations : BucketConfig;
  cfg_ws_messages : BucketConfig;
  max_entries : Z
}.

Definition default_rate_limits : RateLimitConfig := {|
  cfg_calls := CALLS; cfg_registrations := REGISTRATIONS; cfg_ws_messages := WS_MESSAGES;
  max_entries := 50000
|}.

Record RateLimiter := {
  call_buckets : gmap string Bucket;
  registration_buckets : gmap string Bucket;
  ws_buckets : gmap string Bucket;
  limiter_config : RateLimitConfig
}.

Definition limiter_new (config : RateLimitConfig) : RateLimiter :=
  {| call_buckets := ∅; registration_buckets := ∅; ws_buckets := ∅; limiter_config := config |}.

(** [entry(peer_id).or_insert_with(...)] and [try_consume(1)]; a zero refill interval
    panics, which the limiter reports as [None]. *)
Definition check_bucket (now : Z) (config : BucketConfig) (peer_id : string)
    (m : gmap string Bucket) : option (gmap string Bucket * bool) :=
  let b := default (bucket_new now config) (m !! peer_id) in
  match try_consume now 1 b with
  | None => None
  | Some (b', allowed) => Some (<[peer_id := b']> m, allowed)
  end.

Inductive Action := Action_Call | Action_Registration | Action_WsMessage.

Definition buckets (a : Action) (r : RateLimiter) : gmap string Bucket :=
  match a with
  | Action_Call => call_buckets r
  | Action_Registration => registration_buckets r
  | Action_WsMessage => ws_buckets r
  end.

Definition action_config (a : Action) (c : RateLimitConfig) : BucketConfig :=
  match a with
  | Action_Call => cfg_calls c
  | Action_Registration => cfg_registrations c
  | Action_WsMessage => cfg_ws_messages c
  end.

Definition set_buckets (a : Action) (m : gmap string Bucket) (r : RateLimiter) : RateLimiter :=
  match a with
  | Action_Call => {| call_buckets := m; registration_buckets := registration_buckets r;
                      ws_buckets := ws_buckets r; limiter_config := limiter_config r |}
  | Action_Registration => {| call_buckets := call_buckets r; registration_buckets := m;
                      ws_buckets := ws_buckets r; limiter_config := limiter_config r |}
  | Action_WsMessage => {| call_buckets := call_buckets r;
                      registration_buckets := registration_buckets r;
                      ws_buckets := m; limiter_config := limiter_config r |}
  end.

(** [check_call], [check_registration] and [check_ws_message], which differ in the map. *)
Definition limiter_check (now : Z) (peer_id : string) (a : Action) (r : RateLimiter)
    : option (RateLimiter * bool) :=
  match check_bucket now (action_config a (limiter_config r)) peer_id (buckets a r) with
  | None => None
  | Some (m, allowed) => Some (set_buckets a m r, allowed)
  end.

Definition limiter_remove_peer (peer_id : string) (r : RateLimiter) : RateLimiter := {|
  call_buckets := delete peer_id (call_buckets r);
  registration_buckets := delete peer_id (registration_buckets r);
  ws_buckets := delete peer_id (ws_buckets r);
  limiter_config := limiter_config r
|}.

(** Stale buckets are dropped; then the first keys in the iteration order of the hash map,
    which is an argument, one for each of the three maps, until [max] are left.  Twice the
    interval is a [u64] product. *)
Definition bucket_fresh (now : Z) (b : Bucket) : bool :=
  elapsed_ms now (last_refill b) <? cast 64 (refill_interval_ms (bucket_config b) * 2).

Fixpoint evict (order : list string) (max : Z) (m : gmap string Bucket) : gmap string Bucket :=
  match order with
  | [] => m
  | k :: order' => if max <? Z.of_nat (size m) then evict order' max (delete k m) else m
  end.

Definition cleanup_map (now : Z) (order : gmap string Bucket -> list string) (max : Z)
    (m : gmap string Bucket) : gmap string Bucket :=
  let m := filter (fun kb => bucket_fresh now kb.2 = true) m in
  evict (order m) max m.

Definition limiter_cleanup (now : Z) (order : Action -> gmap string Bucket -> list string)
    (r : RateLimiter) : RateLimiter :=
  let max := max_entries (limiter_config r) in
  {| call_buckets := cleanup_map now (order Action_Call) max (call_buckets r);
     registration_buckets := cleanup_map now (order Action_Registration) max (registration_buckets r);
     ws_buckets := cleanup_map now (order Action_WsMessage) max (ws_buckets r);
     limiter_config := limiter_config r |}.

(** A bucket used at a sequence of times: the number of requests let through. *)
Fixpoint consume_all (times : list Z) (b : Bucket) : option (Bucket * Z) :=
  match times with
  | [] => Some (b, 0)
  | t :: times' =>
      match try_consume t 1 b with
      | None => None
      | Some (b', allowed) =>
          match consume_all times' b' with
          | None => None
          | Some (b'', n) => Some (b'', (if allowed then 1 else 0) + n)
          end
      end
  end.

(** A reachable bucket: tokens between 0 and the maximum, a positive interval. *)
Record bucket_wf (b : Bucket) : Prop := {
  bwf_tokens : 0 <= tokens b <= max_tokens (bucket_config b);
  bwf_refill : 0 <= refill_amount (bucket_config b);
  bwf_interval : 0 < refill_interval_ms (bucket_config b)
}.

(** Times that do not go back and stay in the range of the 64-bit millisecond count. *)
Fixpoint clock_ok (from : Z) (times : list Z) : Prop :=
  match times with
  | [] => True
  | t :: times' => from <= t < 2 ^ 64 /\ clock_ok t times'
  end.

(** ** Facts *)

Lemma elapsed_ms_eq now t :
  0 <= t <= now -> now < 2 ^ 64 -> elapsed_ms now t = (now - t) / NS_PER_MS.
Proof.
  intros Ht Hnow. unfold elapsed_ms, elapsed, saturating_sub, NS_PER_MS.
  rewrite Z.max_r by lia. apply cast_small. split; [apply Z.div_pos; lia|].
  apply Z.div_lt_upper_bound; lia.
Qed.

Lemma refill_wf now b : bucket_wf b -> exists b', refill now b = Some b' /\ bucket_wf b' /\
  bucket_config b' = bucket_config b /\ tokens b <= tokens b'.
Proof.
  intros [Ht Hr Hi]. unfold refill. destruct (_ <=? _) eqn:E; bool_to_prop.
  - rewrite (proj2 (Z.eqb_neq _ 0)) by lia. eexists; split; [done|].
    assert (0 <= elapsed_ms now (last_refill b) / refill_interval_ms (bucket_config b) *
      refill_amount (bucket_config b)) by (apply Z.mul_nonneg_nonneg; [apply Z.div_pos; lia|done]).
    split; [constructor; simpl; lia|]. simpl. split; [done|lia].
  - eexists; split; [done|]. split; [by constructor|]. split; [done|lia].
Qed.

Lemma try_consume_wf now b : bucket_wf b -> exists b' a, try_consume now 1 b = Some (b', a) /\
  bucket_wf b' /\ bucket_config b' = bucket_config b.
Proof.
  intros Hb. unfold try_consume. destruct (refill_wf now b Hb) as (b' & -> & [Ht Hr Hi] & Hc & _).
  destruct (1 <=? tokens b') eqn:E; bool_to_prop; do 2 eexists; (split; [done|]).
  - split; [constructor; simpl; lia|done].
  - split; [by constructor|done].
Qed.

(** A bucket never panics and keeps its invariant. *)
Lemma consume_all_wf times b : bucket_wf b -> exists b' n, consume_all times b = Some (b', n) /\
  bucket_wf b' /\ bucket_config b' = bucket_config b /\ 0 <= n.
Proof.
  revert b. induction times as [|t times IH]; intros b Hb; simpl; [by eauto 6 with lia|].
  destruct (try_consume_wf t b Hb) as (b' & a & -> & Hb' & Hc).
  destruct (IH b' Hb') as (b'' & n & -> & Hb'' & Hc' & Hn).
  do 2 eexists; split; [done|]. split; [done|]. split; [congruence|destruct a; lia].
Qed.

(** The time of the last request. *)
Fixpoint final_time (from : Z) (times : list Z) : Z :=
  match times with [] => from | t :: times' => final_time t times' end.

Lemma final_time_ge from times : clock_ok from times -> from <= final_time from times.
Proof.
  revert from; induction times as [|t times IH]; simpl; intros from; [lia|].
  intros [Ht Hc]. specialize (IH t Hc). lia.
Qed.

Lemma div_superadd a b c : 0 < c -> a / c + b / c <= (a + b) / c.
Proof.
  intros Hc. apply Z.div_le_lower_bound; [done|].
  pose proof (Z.mul_div_le a c Hc). pose proof (Z.mul_div_le b c Hc). lia.
Qed.

(** One request, from a bucket last refilled at [r]. *)
Lemma try_consume_budget t b b' a :
  bucket_wf b -> 0 <= last_refill b <= t -> t < 2 ^ 64 ->
  try_consume t 1 b = Some (b', a) ->
  let period := NS_PER_MS * refill_interval_ms (bucket_config b) in
  last_refill b <= last_refill b' <= t /\ t - last_refill b' < period /\
  (if a then 1 else 0) + tokens b' <= max_tokens (bucket_config b) /\
  (if a then 1 else 0) + tokens b' <=
    tokens b + refill_amount (bucket_config b) * ((last_refill b' - last_refill b) / period).
Proof.
  intros [Ht Hr Hi] Hl Hnow. unfold try_consume, refill. rewrite elapsed_ms_eq by lia.
  destruct (_ <=? _) eqn:E; bool_to_prop.
  - rewrite (proj2 (Z.eqb_neq _ 0)) by lia. rewrite Z.div_div by (unfold NS_PER_MS; lia).
    set (period := NS_PER_MS * refill_interval_ms (bucket_config b)).
    assert (0 < period) by (unfold period, NS_PER_MS; lia).
    intros Hres. case_in Hres; simplify_eq; simpl; lia.
  - assert (t - last_refill b < NS_PER_MS * refill_interval_ms (bucket_config b)).
    { apply Z.nle_gt. intros Hge.
      assert (refill_interval_ms (bucket_config b) <= (t - last_refill b) / NS_PER_MS)
        by (apply Z.div_le_lower_bound; unfold NS_PER_MS in *; lia). lia. }
    intros Hres. case_in Hres; simplify_eq; simpl; rewrite Z.sub_diag, Z.div_0_l, Z.mul_0_r
      by (unfold NS_PER_MS; lia); lia.
Qed.

Lemma consume_all_budget times cur b b' n :
  bucket_wf b -> 0 <= last_refill b <= cur -> clock_ok cur times ->
  consume_all times b = Some (b', n) ->
  n <= tokens b + refill_amount (bucket_config b) *
       ((final_time cur times - last_refill b) /
        (NS_PER_MS * refill_interval_ms (bucket_config b))).
Proof.
  revert cur b b' n. induction times as [|t times IH]; simpl; intros cur b b' n Hb Hl Hc Hn.
  - simplify_eq. destruct Hb as [? ? ?].
    assert (0 <= (cur - last_refill b') / (NS_PER_MS * refill_interval_ms (bucket_config b')))
      by (apply Z.div_pos; unfold NS_PER_MS; lia). nia.
  - destruct Hc as [Ht Hc]. case_in Hn; [|done]. destruct p as [b1 a].
    case_in Hn; [|done]. destruct p as [b2 m]. simplify_eq.
    pose proof (try_consume_wf t b Hb) as (b1' & a' & E1 & Hb1 & Hcfg). rewrite E in E1. simplify_eq.
    pose proof (try_consume_budget t b b1' a' Hb ltac:(lia) ltac:(lia) E) as (Hr & _ & _ & Hbud).
    specialize (IH t b1' b' m Hb1 ltac:(lia) Hc E0). rewrite Hcfg in IH.
    set (period := NS_PER_MS * refill_interval_ms (bucket_config b)) in *.
    destruct Hb as [? Hra Hi].
    pose proof (div_superadd (last_refill b1' - last_refill b)
                  (final_time t times - last_refill b1') period
                  ltac:(unfold period, NS_PER_MS; lia)) as Hs.
    replace (last_refill b1' - last_refill b + (final_time t times - last_refill b1'))
      with (final_time t times - last_refill b) in Hs by lia.
    nia.
Qed.

(** A refused request leaves the refill time alone, so a bucket that lets nothing through has not
    yet reached the end of its interval. *)
Lemma try_consume_refused t b b' :
  bucket_wf b -> 0 <= last_refill b <= t -> t < 2 ^ 64 ->
  1 <= max_tokens (bucket_config b) -> 1 <= refill_amount (bucket_config b) ->
  try_consume t 1 b = Some (b', false) ->
  b' = b /\ t < last_refill b + NS_PER_MS * refill_interval_ms (bucket_config b).
Proof.
  intros [Ht Hr Hi] Hl Hnow Hmax Hamt. unfold try_consume, refill. rewrite elapsed_ms_eq by lia.
  destruct (_ <=? (_ - _) / _) eqn:E; bool_to_prop.
  - rewrite (proj2 (Z.eqb_neq _ 0)) by lia. intros Hres. exfalso. case_in Hres; simplify_eq.
    bool_to_prop. cbn [tokens] in *.
    assert (1 <= (t - last_refill b) / NS_PER_MS / refill_interval_ms (bucket_config b))
      by (apply Z.div_le_lower_bound; lia). nia.
  - intros Hres. case_in Hres; simplify_eq. split; [done|].
    apply Z.nle_gt. intros Hge.
    assert (refill_interval_ms (bucket_config b') <= (t - last_refill b') / NS_PER_MS)
      by (apply Z.div_le_lower_bound; unfold NS_PER_MS in *; lia). lia.
Qed.

Lemma consume_all_starved times cur b b' :
  bucket_wf b -> 0 <= last_refill b <= cur -> clock_ok cur times ->
  1 <= max_tokens (bucket_config b) -> 1 <= refill_amount (bucket_config b) ->
  cur < last_refill b + NS_PER_MS * refill_interval_ms (bucket_config b) ->
  consume_all times b = Some (b', 0) ->
  final_time cur times < last_refill b + NS_PER_MS * refill_interval_ms (bucket_config b).
Proof.
  revert cur. induction times as [|t times IH]; simpl; intros cur Hb Hl Hc Hmax Hamt Hcur Hn; [done|].
  destruct Hc as [Ht Hc]. case_in Hn; [|done]. destruct p as [b1 a].
  pose proof (try_consume_wf t b Hb) as (b1' & a' & E1 & Hb1 & _). rewrite E in E1. simplify_eq.
  destruct (consume_all_wf times b1' Hb1) as (b2 & n & En & _ & _ & Hpos). rewrite En in Hn.
  injection Hn as -> Hn. destruct a'; [lia|]. replace n with 0 in En by lia.
  destruct (try_consume_refused t b b1' Hb ltac:(lia) ltac:(lia) Hmax Hamt E) as [-> Hlt].
  apply (IH t); try done; lia.
Qed.

(** C40: the number of requests a well-formed bucket lets through in a window that starts
    at its first request and lasts [w] nanoseconds is at most the capacity plus the refill
    for every refill interval that fits in the window and one more.  No request panics.  And
    nobody is locked out by asking again: where the requests reach the end of the interval, at
    least one of them is let through. *)
Theorem bucket_rate_bound t0 w times b :
  bucket_wf b -> 0 <= last_refill b <= t0 -> 0 <= w ->
  clock_ok t0 times -> Forall (fun t => t <= t0 + w) (t0 :: times) -> t0 < 2 ^ 64 ->
  let period := NS_PER_MS * refill_interval_ms (bucket_config b) in
  exists b' n, consume_all (t0 :: times) b = Some (b', n) /\ bucket_wf b' /\
    n <= max_tokens (bucket_config b) + refill_amount (bucket_config b) * (w / period + 1) /\
    (1 <= max_tokens (bucket_config b) -> 1 <= refill_amount (bucket_config b) ->
     last_refill b + period <= final_time t0 times -> 1 <= n).
Proof.
  intros Hb Hl Hw Hc Hwin H64. cbn zeta.
  destruct (consume_all_wf (t0 :: times) b Hb) as (b' & n & Hn & Hb' & _ & Hpos).
  exists b', n. split; [done|]. split; [done|]. split.
  2: { intros Hmax Hamt Hend. apply Z.nlt_ge. intros Hlt. replace n with 0 in Hn by lia.
       assert (0 < NS_PER_MS * refill_interval_ms (bucket_config b))
         by (destruct Hb; unfold NS_PER_MS; lia).
       apply (consume_all_starved (t0 :: times) (last_refill b)) in Hn; simpl in *; (done || lia || idtac).
       split; [lia|done]. }
  simpl in Hn.
  pose proof (try_consume_wf t0 b Hb) as (b1 & a & E & Hb1 & Hcfg). rewrite E in Hn.
  pose proof (try_consume_budget t0 b b1 a Hb Hl H64 E) as (Hr & Hp & Hmax & _).
  case_in Hn; [|done]. destruct p as [b2 m]. simplify_eq.
  pose proof (consume_all_budget times t0 b1 b' m Hb1 ltac:(lia) Hc E0) as Hm. rewrite Hcfg in Hm.
  set (period := NS_PER_MS * refill_interval_ms (bucket_config b)) in *.
  assert (Hfin : final_time t0 times <= t0 + w).
  { apply Forall_cons in Hwin as [_ Hwin]. clear -Hwin Hw.
    assert (Hle : t0 <= t0 + w) by lia. revert Hle. generalize t0 at 1 3 as c.
    induction Hwin as [|t ts Ht _ IH]; simpl; [done|]. intros c _. by apply IH. }
  assert (Hdiv : (final_time t0 times - last_refill b1) / period <= w / period + 1).
  { destruct Hb as [_ _ Hi]. assert (0 < period) by (unfold period, NS_PER_MS; lia).
    transitivity ((w + 1 * period) / period); [apply Z.div_le_mono; lia|].
    by rewrite Z.div_add by lia. }
  destruct Hb as [_ Hra _]. nia.
Qed.

(** The bound is reached: twenty calls within a tenth of a second of the ten-a-minute
    bucket. *)
Lemma bucket_rate_bound_witness :
  (exists b' n, consume_all (59900000000 :: repeat 59900000000 9 ++ repeat 60000000000 10)
                  (bucket_new 0 CALLS) = Some (b', n) /\ bucket_wf b' /\ 1 <= n <= 20) /\
  option_map snd (consume_all (59900000000 :: repeat 59900000000 9 ++ repeat 60000000000 10)
                    (bucket_new 0 CALLS)) = Some 20.
Proof.
  split; [|reflexivity].
  destruct (bucket_rate_bound 59900000000 100000000
              (repeat 59900000000 9 ++ repeat 60000000000 10) (bucket_new 0 CALLS))
    as (b' & n & Hn & Hwf & Hle & Hge).
  - constructor; simpl; lia.
  - simpl. lia.
  - lia.
  - simpl. lia.
  - repeat constructor; lia.
  - lia.
  - exists b', n. split; [exact Hn|]. split; [exact Hwf|]. split; [|exact Hle].
    apply Hge; vm_compute; congruence.
Defined.
