(* ===== verification/RateLimitFloat.v ===== *)
(** * The token buckets in double precision

    [voip-signaling/src/rate_limit.rs] keeps the tokens of a bucket in an [f64].  This file has the
    buckets and the limiter as the code computes them, and shows that they are those of
    [RateLimit], which counts in integers. *)

From S2P Require Import Prelude Float64 RateLimit.

Local Open Scope Z_scope.
Local Open Scope rust_scope.

Record FBucket := {
  f_tokens : f64;
  f_last_refill : Z;
  f_config : BucketConfig
}.

Definition fbucket_new (now : Z) (config : BucketConfig) : FBucket :=
  {| f_tokens := f64_of_Z (max_tokens config); f_last_refill := now; f_config := config |}.

(** [None] is the division by a zero interval. *)
Definition f_refill (now : Z) (b : FBucket) : option FBucket :=
  let c := f_config b in
  let elapsed := elapsed_ms now (f_last_refill b) in
  if refill_interval_ms c <=? elapsed then
    if refill_interval_ms c =? 0 then None
    else
      let intervals := elapsed / refill_interval_ms c in
      let added := f64_mul (f64_of_Z intervals) (f64_of_Z (refill_amount c)) in
      Some {| f_tokens := f64_min (f64_add (f_tokens b) added) (f64_of_Z (max_tokens c));
              f_last_refill := now; f_config := c |}
  else Some b.

Definition f_try_consume (now count : Z) (b : FBucket) : option (FBucket * bool) :=
  match f_refill now b with
  | None => None
  | Some b =>
      if f64_ge (f_tokens b) (f64_of_Z count) then
        Some ({| f_tokens := f64_sub (f_tokens b) (f64_of_Z count);
                 f_last_refill := f_last_refill b; f_config := f_config b |}, true)
      else Some (b, false)
  end.

Record FRateLimiter := {
  f_call_buckets : gmap string FBucket;
  f_registration_buckets : gmap string FBucket;
  f_ws_buckets : gmap string FBucket;
  f_limiter_config : RateLimitConfig
}.

Definition f_limiter_new (config : RateLimitConfig) : FRateLimiter := {|
  f_call_buckets := ∅; f_registration_buckets := ∅; f_ws_buckets := ∅; f_limiter_config := config
|}.

Definition f_check_bucket (now : Z) (config : BucketConfig) (peer_id : string)
    (m : gmap string FBucket) : option (gmap string FBucket * bool) :=
  let b := default (fbucket_new now config) (m !! peer_id) in
  match f_try_consume now 1 b with
  | None => None
  | Some (b', allowed) => Some (<[peer_id := b']> m, allowed)
  end.

Definition f_buckets (a : Action) (r : FRateLimiter) : gmap string FBucket :=
  match a with
  | Action_Call => f_call_buckets r
  | Action_Registration => f_registration_buckets r
  | Action_WsMessage => f_ws_buckets r
  end.

Definition f_set_buckets (a : Action) (m : gmap string FBucket) (r : FRateLimiter) : FRateLimiter :=
  match a with
  | Action_Call => {| f_call_buckets := m; f_registration_buckets := f_registration_buckets r;
                      f_ws_buckets := f_ws_buckets r; f_limiter_config := f_limiter_config r |}
  | Action_Registration => {| f_call_buckets := f_call_buckets r; f_registration_buckets := m;
                      f_ws_buckets := f_ws_buckets r; f_limiter_config := f_limiter_config r |}
  | Action_WsMessage => {| f_call_buckets := f_call_buckets r;
                      f_registration_buckets := f_registration_buckets r;
                      f_ws_buckets := m; f_limiter_config := f_limiter_config r |}
  end.

(** [check_call], [check_registration] and [check_ws_message]. *)
Definition f_limiter_check (now : Z) (peer_id : string) (a : Action) (r : FRateLimiter)
    : option (FRateLimiter * bool) :=
  match f_check_bucket now (action_config a (f_limiter_config r)) peer_id (f_buckets a r) with
  | None => None
  | Some (m, allowed) => Some (f_set_buckets a m r, allowed)
  end.

Definition f_limiter_remove_peer (peer_id : string) (r : FRateLimiter) : FRateLimiter := {|
  f_call_buckets := delete peer_id (f_call_buckets r);
  f_registration_buckets := delete peer_id (f_registration_buckets r);
  f_ws_buckets := delete peer_id (f_ws_buckets r);
  f_limiter_config := f_limiter_config r
|}.

Definition f_bucket_fresh (now : Z) (b : FBucket) : bool :=
  elapsed_ms now (f_last_refill b) <? cast 64 (refill_interval_ms (f_config b) * 2).

Fixpoint f_evict (order : list string) (max : Z) (m : gmap string FBucket) : gmap string FBucket :=
  match order with
  | [] => m
  | k :: order' => if max <? Z.of_nat (size m) then f_evict order' max (delete k m) else m
  end.

(** [order] is the iteration order of the map once the stale buckets are gone. *)
Definition f_cleanup_map (now : Z) (order : list string) (max : Z) (m : gmap string FBucket)
    : gmap string FBucket :=
  f_evict order max (filter (fun kb => f_bucket_fresh now kb.2 = true) m).

Definition f_limiter_cleanup (now : Z) (order : Action -> list string) (r : FRateLimiter) : FRateLimiter :=
  let max := max_entries (f_limiter_config r) in
  {| f_call_buckets := f_cleanup_map now (order Action_Call) max (f_call_buckets r);
     f_registration_buckets := f_cleanup_map now (order Action_Registration) max (f_registration_buckets r);
     f_ws_buckets := f_cleanup_map now (order Action_WsMessage) max (f_ws_buckets r);
     f_limiter_config := f_limiter_config r |}.

(** ** The integers behind the doubles *)

Definition of_bucket (b : Bucket) : FBucket :=
  {| f_tokens := exactly (tokens b); f_last_refill := last_refill b; f_config := bucket_config b |}.

Definition of_limiter (r : RateLimiter) : FRateLimiter := {|
  f_call_buckets := of_bucket <$> call_buckets r;
  f_registration_buckets := of_bucket <$> registration_buckets r;
  f_ws_buckets := of_bucket <$> ws_buckets r;
  f_limiter_config := limiter_config r
|}.

(** The fields of a configuration are unsigned: two of 32 bits. *)
Definition u32_config (c : BucketConfig) : Prop :=
  0 <= max_tokens c < 2 ^ 32 /\ 0 <= refill_amount c < 2 ^ 32 /\ 0 <= refill_interval_ms c.

Record bucket_ok (b : Bucket) : Prop := {
  bok_config : u32_config (bucket_config b);
  bok_tokens : 0 <= tokens b <= max_tokens (bucket_config b);
  bok_time : 0 <= last_refill b
}.

(** Clearing the two terms of a refill that may be inexact. *)
Lemma refill_exact t intervals amount max :
  0 <= t < 2 ^ 32 -> 0 <= intervals < 2 ^ 53 -> 0 <= amount < 2 ^ 32 -> 0 <= max < 2 ^ 32 ->
  f64_min (f64_add (exactly t) (f64_mul (f64_of_Z intervals) (f64_of_Z amount))) (f64_of_Z max) =
  exactly (Z.min (t + intervals * amount) max).
Proof.
  intros Ht Hi Ha Hm. rewrite !f64_of_Z_exact by (unfold small; lia).
  destruct (Z.lt_ge_cases (intervals * amount) (2 ^ 53)) as [Hs|Hs].
  - rewrite f64_mul_exact by lia. destruct (Z.lt_ge_cases (t + intervals * amount) (2 ^ 53)).
    + rewrite f64_add_exact by (unfold small; nia). apply f64_min_exact; nia.
    + destruct (add_carry t (intervals * amount)) as [b Hb]; [nia..|].
      rewrite (min_big b) by (done || lia). f_equal. lia.
  - destruct intervals as [|p|p]; [lia| |lia]. destruct amount as [|q|q]; [lia| |lia].
    destruct (add_big 100 t (f64_mul (exactly (Zpos p)) (exactly (Zpos q)))) as [b Hb];
      [lia|apply mul_big; lia|lia|].
    rewrite (min_big b) by (done || lia). f_equal. lia.
Qed.

Lemma elapsed_ms_bound now t : 0 <= t -> now < 2 ^ 64 -> 0 <= elapsed_ms now t < 2 ^ 53.
Proof.
  intros Ht Hn. unfold elapsed_ms, elapsed, saturating_sub, cast.
  assert (0 <= Z.max 0 (now - t) / NS_PER_MS < 2 ^ 53).
  { split; [apply Z.div_pos; unfold NS_PER_MS; lia|].
    apply Z.div_lt_upper_bound; unfold NS_PER_MS; lia. }
  rewrite Z.mod_small; lia.
Qed.

(** One use of a bucket: the same answer, and the bucket that counts in integers. *)
Lemma try_consume_exact now count b :
  bucket_ok b -> 0 <= now < 2 ^ 64 -> 0 <= count < 2 ^ 32 ->
  f_try_consume now count (of_bucket b) =
    (let?o (b', allowed) := try_consume now count b in Some (of_bucket b', allowed)) /\
  forall b' allowed, try_consume now count b = Some (b', allowed) ->
    bucket_ok b' /\ bucket_config b' = bucket_config b.
Proof.
  intros [(Hm & Ha & Hi) Ht Hl] Hn Hc. pose proof (elapsed_ms_bound now (last_refill b) Hl ltac:(lia)) as He.
  assert (exists b1, f_refill now (of_bucket b) = of_bucket <$> b1 /\ refill now b = b1 /\
    forall x, b1 = Some x -> bucket_ok x /\ bucket_config x = bucket_config b) as (b1 & Hf & Hr & Hok).
  { eexists. split; [|split; [reflexivity|]].
    - unfold f_refill, refill. cbn [f_config f_last_refill of_bucket f_tokens].
      destruct (_ <=? _) eqn:E1; [|done]. destruct (_ =? 0) eqn:E2; [done|]. bool_to_prop.
      rewrite refill_exact; [done|lia| |lia|lia]. split; [apply Z.div_pos; lia|].
      apply Z.div_lt_upper_bound; nia.
    - unfold refill. destruct (_ <=? _) eqn:E1; [|intros x [= <-]; done].
      destruct (_ =? 0) eqn:E2; [done|]. bool_to_prop. intros x [= <-]. split; [|done].
      assert (0 <= elapsed_ms now (last_refill b) / refill_interval_ms (bucket_config b))
        by (apply Z.div_pos; lia).
      split; cbn; [done|nia|lia]. }
  unfold f_try_consume, try_consume. rewrite Hf, Hr. destruct b1 as [b1|]; [|done].
  destruct (Hok b1 eq_refl) as [[(Hm1 & _) Ht1 Hl1] Hc1]. cbn [fmap option_fmap option_map of_bucket f_tokens].
  rewrite f64_of_Z_exact, f64_ge_exact by (unfold small; lia).
  destruct (count <=? tokens b1) eqn:E; bool_to_prop; cbn.
  - rewrite f64_sub_exact by (unfold small; lia). split; [done|]. intros b' a [= <- <-]. split; [|done].
    destruct (Hok b1 eq_refl) as [[? ? ?] _]. split; cbn; [done|lia|done].
  - split; [done|]. intros b' a [= <- <-]. by apply Hok.
Qed.

(** ** Runs of the limiter *)

Inductive LimiterCall :=
| CallCheck (peer_id : string) (a : Action)
| CallRemove (peer_id : string)
| CallCleanup (order : Action -> list string).

(** Each call with its time; the answers to the checks.  [None] is a panic. *)
Fixpoint limiter_run (cs : list (Z * LimiterCall)) (r : RateLimiter) : option (list bool * RateLimiter) :=
  match cs with
  | [] => Some ([], r)
  | (now, CallCheck peer_id a) :: cs =>
      let?o (r, allowed) := limiter_check now peer_id a r in
      let?o (out, r) := limiter_run cs r in Some (allowed :: out, r)
  | (_, CallRemove peer_id) :: cs => limiter_run cs (limiter_remove_peer peer_id r)
  | (now, CallCleanup order) :: cs => limiter_run cs (limiter_cleanup now (fun a _ => order a) r)
  end.

Fixpoint f_limiter_run (cs : list (Z * LimiterCall)) (r : FRateLimiter)
    : option (list bool * FRateLimiter) :=
  match cs with
  | [] => Some ([], r)
  | (now, CallCheck peer_id a) :: cs =>
      let?o (r, allowed) := f_limiter_check now peer_id a r in
      let?o (out, r) := f_limiter_run cs r in Some (allowed :: out, r)
  | (_, CallRemove peer_id) :: cs => f_limiter_run cs (f_limiter_remove_peer peer_id r)
  | (now, CallCleanup order) :: cs => f_limiter_run cs (f_limiter_cleanup now order r)
  end.

Record limiter_ok (r : RateLimiter) : Prop := {
  lok_config a : u32_config (action_config a (limiter_config r));
  lok_buckets a : map_Forall (fun _ b => bucket_ok b) (buckets a r)
}.

Lemma evict_exact order max m : f_evict order max (of_bucket <$> m) = of_bucket <$> evict order max m.
Proof.
  revert m. induction order as [|k order IH]; intros m; [done|]. cbn [f_evict evict].
  rewrite map_size_fmap. destruct (_ <? _); [|done]. by rewrite <- fmap_delete, IH.
Qed.

Lemma cleanup_map_exact now order max m :
  f_cleanup_map now order max (of_bucket <$> m) = of_bucket <$> cleanup_map now (fun _ => order) max m.
Proof. unfold f_cleanup_map, cleanup_map. rewrite map_filter_fmap. apply evict_exact. Qed.

Lemma evict_subseteq order max (m : gmap string Bucket) : evict order max m ⊆ m.
Proof.
  revert m. induction order as [|k order IH]; intros m; [done|]. cbn [evict].
  destruct (_ <? _); [|done]. etrans; [apply IH|]. apply delete_subseteq.
Qed.

Lemma cleanup_map_subseteq now order max m : cleanup_map now order max m ⊆ m.
Proof. unfold cleanup_map. etrans; [apply evict_subseteq|]. apply map_filter_subseteq. Qed.

Lemma limiter_check_exact now peer_id a r :
  limiter_ok r -> 0 <= now < 2 ^ 64 ->
  f_limiter_check now peer_id a (of_limiter r) =
    (let?o (r', allowed) := limiter_check now peer_id a r in Some (of_limiter r', allowed)) /\
  forall r' allowed, limiter_check now peer_id a r = Some (r', allowed) -> limiter_ok r'.
Proof.
  intros [Hc Hb] Hn. unfold f_limiter_check, limiter_check, f_check_bucket, check_bucket.
  set (c := action_config a (limiter_config r)). set (b := default (bucket_new now c) (buckets a r !! peer_id)).
  assert (default (fbucket_new now c) (f_buckets a (of_limiter r) !! peer_id) = of_bucket b) as Hdef.
  { assert (f_buckets a (of_limiter r) = of_bucket <$> buckets a r) as -> by (by destruct a).
    rewrite lookup_fmap. unfold b. destruct (buckets a r !! peer_id); [done|]. cbn.
    unfold fbucket_new. rewrite f64_of_Z_exact; [done|]. destruct (Hc a) as (Hmax & _). fold c in Hmax. unfold small. lia. }
  assert (bucket_ok b) as Hok.
  { unfold b. destruct (buckets a r !! peer_id) eqn:E; [by apply (Hb a peer_id)|]. cbn.
    destruct (Hc a) as (Hmax & Hrest). fold c in Hmax, Hrest. split; cbn; [by split|lia|lia]. }
  change (f_limiter_config (of_limiter r)) with (limiter_config r). fold c. rewrite Hdef.
  destruct (try_consume_exact now 1 b Hok Hn ltac:(lia)) as [-> Hok'].
  destruct (try_consume now 1 b) as [[b' allowed]|]; [|done]. cbn. split.
  - f_equal. f_equal. unfold of_limiter. destruct a; cbn; by rewrite fmap_insert.
  - intros r' ? [= <- <-]. destruct (Hok' b' allowed eq_refl) as [Hb' _].
    split; [by destruct a|]. intros a'.
    destruct a, a'; cbn; try (apply map_Forall_insert_2; [done|]);
      first [exact (Hb Action_Call)|exact (Hb Action_Registration)|exact (Hb Action_WsMessage)].
Qed.

Lemma limiter_remove_ok peer_id r : limiter_ok r -> limiter_ok (limiter_remove_peer peer_id r).
Proof.
  intros [Hc Hb]. split; [done|]. intros a k b Hk. apply (Hb a k). eapply lookup_weaken; [exact Hk|].
  destruct a; apply delete_subseteq.
Qed.

Lemma limiter_cleanup_ok now order r : limiter_ok r -> limiter_ok (limiter_cleanup now order r).
Proof.
  intros [Hc Hb]. split; [done|]. intros a k b Hk. apply (Hb a k). eapply lookup_weaken; [exact Hk|].
  destruct a; apply cleanup_map_subseteq.
Qed.

(** C34: the double-precision limiter is the integer one.  For every configuration of unsigned
    32-bit amounts, every sequence of checks, removals and clean-ups within the range of the
    64-bit nanosecond clock gives the same answers and panics at the same call; at its end every
    bucket holds exactly the number of tokens that the integer bucket counts, although the
    number that a refill adds may itself be rounded. *)
Theorem f64_limiter_counts_integers config calls :
  (forall a, u32_config (action_config a config)) ->
  Forall (fun c => 0 <= c.1 < 2 ^ 64) calls ->
  f_limiter_run calls (f_limiter_new config) =
    (let?o (answers, r) := limiter_run calls (limiter_new config) in Some (answers, of_limiter r)).
Proof.
  intros Hc. assert (limiter_ok (limiter_new config)) as Hok.
  { split; [done|]. intros []; apply map_Forall_empty. }
  change (f_limiter_new config) with (of_limiter (limiter_new config)).
  revert Hok. generalize (limiter_new config). induction calls as [|[now c] calls IH]; intros r Hr Ht; [done|].
  apply Forall_cons in Ht as [Hn Ht]. destruct c as [peer_id a|peer_id|order]; cbn [f_limiter_run limiter_run].
  - destruct (limiter_check_exact now peer_id a r Hr Hn) as [-> Hok].
    destruct (limiter_check now peer_id a r) as [[r' allowed]|]; [|done]. cbn.
    rewrite IH by eauto. by destruct (limiter_run calls r') as [[? ?]|].
  - rewrite <- IH; [|by apply limiter_remove_ok|done]. f_equal. unfold of_limiter. cbn. by rewrite !fmap_delete.
  - rewrite <- IH; [|by apply limiter_cleanup_ok|done]. f_equal. unfold f_limiter_cleanup, of_limiter. cbn.
    by rewrite !cleanup_map_exact.
Qed.

(** More calls than tokens, a pause of seventeen days after which the added amount is rounded, and a
    clean-up. *)
Module FloatSample.
Definition config : RateLimitConfig := {|
  cfg_calls := {| max_tokens := 2; refill_amount := 4294967295; refill_interval_ms := 1 |};
  cfg_registrations := REGISTRATIONS; cfg_ws_messages := WS_MESSAGES; max_entries := 1
|}.

Definition calls : list (Z * LimiterCall) := [
  (0, CallCheck "a" Action_Call); (0, CallCheck "a" Action_Call); (0, CallCheck "a" Action_Call);
  (1500000000000000, CallCheck "a" Action_Call); (1500000000000000, CallCheck "b" Action_Call);
  (1500000000000000, CallCleanup (fun _ => ["b"; "a"]%string)); (1500000000000000, CallCheck "a" Action_Call)
].
End FloatSample.

Lemma f64_limiter_counts_integers_witness :
  fst <$> f_limiter_run FloatSample.calls (f_limiter_new FloatSample.config) =
  Some [true; true; false; true; true; true].
Proof.
  rewrite f64_limiter_counts_integers.
  - vm_compute. reflexivity.
  - intros []; repeat split; vm_compute; congruence.
  - repeat constructor; vm_compute; congruence.
Defined.
