(* ===== verification/Lru.v ===== *)
(** * The bounded LRU cache

    The signaling server keeps its registries in the [LruCache] of the [lru] crate, which
    is not part of the sources.  [Lru] is the interface the server uses and [LruLaws] its
    documented behaviour: a map of bounded size in which inserting a new key into a full
    cache removes one other entry.  [ListLru] shows that the laws can be met. *)

From S2P Require Import Prelude.

Local Open Scope Z_scope.

Class Lru := {
  lru : Type -> Type;
  lru_new {V} : nat -> lru V;
  (** [get] and [get_mut] move the entry to the front. *)
  lru_promote {V} : string -> lru V -> lru V;
  (** the write through [get_mut] *)
  lru_modify {V} : (V -> V) -> string -> lru V -> lru V;
  lru_put {V} : string -> V -> lru V -> lru V;
  lru_pop {V} : string -> lru V -> lru V;
  (** the entries *)
  lru_map {V} : lru V -> gmap string V;
  lru_cap {V} : lru V -> nat
}.

Class LruLaws (L : Lru) := {
  new_map {V} n : lru_map (lru_new (V := V) n) = ∅;
  new_cap {V} n : (0 < n)%nat -> lru_cap (lru_new (V := V) n) = n;
  promote_map {V} k (c : lru V) : lru_map (lru_promote k c) = lru_map c;
  promote_cap {V} k (c : lru V) : lru_cap (lru_promote k c) = lru_cap c;
  modify_map {V} f k (c : lru V) : lru_map (lru_modify f k c) = alter f k (lru_map c);
  modify_cap {V} f k (c : lru V) : lru_cap (lru_modify f k c) = lru_cap c;
  pop_map {V} k (c : lru V) : lru_map (lru_pop k c) = delete k (lru_map c);
  pop_cap {V} k (c : lru V) : lru_cap (lru_pop k c) = lru_cap c;
  put_map {V} k v (c : lru V) :
    (is_Some (lru_map c !! k) \/ (size (lru_map c) < lru_cap c)%nat) ->
    lru_map (lru_put k v c) = <[k := v]> (lru_map c);
  put_map_full {V} k v (c : lru V) :
    lru_map c !! k = None -> size (lru_map c) = lru_cap c -> (0 < lru_cap c)%nat ->
    exists j, is_Some (lru_map c !! j) /\ lru_map (lru_put k v c) = <[k := v]> (delete j (lru_map c));
  put_cap {V} k v (c : lru V) : lru_cap (lru_put k v c) = lru_cap c
}.

(** The invariant of every cache of the server. *)
Definition lru_ok {L : Lru} {V : Type} (cap : nat) (c : lru V) : Prop :=
  lru_cap c = cap /\ (size (lru_map c) <= cap)%nat.

(** ** An implementation

    The entries, the keys in order of use (most recent first) and the capacity. *)

Module ListLru.
Record cache (V : Type) := { entries : gmap string V; recency : list string; capacity : nat }.
Arguments entries {V}.
Arguments recency {V}.
Arguments capacity {V}.

Definition touch (k : string) (l : list string) : list string := k :: filter (fun j => j <> k) l.

(** The least recently used key that has an entry. *)
Definition victim {V} (c : cache V) : option string :=
  match filter (fun k => is_Some (entries c !! k)) (reverse (recency c)) with
  | k :: _ => Some k
  | [] => head (map_to_list (entries c)).*1
  end.

Definition put {V} (k : string) (v : V) (c : cache V) : cache V :=
  let m :=
    if decide (is_Some (entries c !! k) \/ (size (entries c) < capacity c)%nat) then entries c
    else match victim c with Some j => delete j (entries c) | None => entries c end in
  {| entries := <[k := v]> m; recency := touch k (recency c); capacity := capacity c |}.

Definition ops : Lru := {|
  lru := cache;
  lru_new V n := {| entries := ∅; recency := []; capacity := n |};
  lru_promote V k c :=
    {| entries := entries c; recency := touch k (recency c); capacity := capacity c |};
  lru_modify V f k c :=
    {| entries := alter f k (entries c); recency := touch k (recency c); capacity := capacity c |};
  lru_put V k v c := put k v c;
  lru_pop V k c := {| entries := delete k (entries c);
    recency := filter (fun j => j <> k) (recency c); capacity := capacity c |};
  lru_map V c := entries c;
  lru_cap V c := capacity c
|}.
End ListLru.

(** ** Facts *)

Lemma list_lru_victim {V} (c : ListLru.cache V) :
  (0 < size (ListLru.entries c))%nat ->
  exists j, ListLru.victim c = Some j /\ is_Some (ListLru.entries c !! j).
Proof.
  intros Hs. unfold ListLru.victim. destruct (filter _ _) as [|k ks] eqn:E.
  - destruct (map_to_list (ListLru.entries c)) as [|[j v] l] eqn:El.
    + apply (f_equal length) in El. rewrite length_map_to_list in El. simpl in El. lia.
    + exists j. split; [done|]. exists v. apply elem_of_map_to_list. rewrite El. left.
  - exists k. split; [done|].
    assert (Hk : k ∈ filter (fun k => is_Some (ListLru.entries c !! k)) (reverse (ListLru.recency c)))
      by (rewrite E; left).
    by apply list_elem_of_filter in Hk as [? _].
Qed.

#[export] Instance list_lru_laws : LruLaws ListLru.ops.
Proof.
  split; try done.
  - intros V k v c Hc. simpl. unfold ListLru.put. cbn [ListLru.entries].
    by rewrite decide_True.
  - intros V k v c Hk Hs Hc. simpl in *.
    destruct (list_lru_victim c) as (j & Hj & Hin); [lia|].
    exists j. split; [done|]. unfold ListLru.put. cbn [ListLru.entries].
    rewrite decide_False; [by rewrite Hj|]. rewrite Hk. intros [[? ?]|?]; [done|lia].
Qed.

Section Facts.
Context {L : Lru} {LL : LruLaws L} {V : Type}.
Implicit Types c : lru V.

Lemma lru_ok_new cap : (0 < cap)%nat -> lru_ok cap (lru_new (V := V) cap).
Proof. intros. unfold lru_ok. rewrite new_cap, new_map, map_size_empty by done. lia. Qed.

Lemma lru_ok_promote cap k c : lru_ok cap c -> lru_ok cap (lru_promote k c).
Proof. unfold lru_ok. by rewrite promote_cap, promote_map. Qed.

Lemma lru_ok_modify cap f k c : lru_ok cap c -> lru_ok cap (lru_modify f k c).
Proof.
  unfold lru_ok. rewrite modify_cap, modify_map. intros [Hc Hs]. split; [done|].
  rewrite <- !(size_dom (D := gset string)) in *. by rewrite dom_alter_L.
Qed.

Lemma lru_ok_pop cap k c : lru_ok cap c -> lru_ok cap (lru_pop k c).
Proof.
  unfold lru_ok. rewrite pop_cap, pop_map, map_size_delete. intros [Hc Hs]. split; [done|].
  destruct (lru_map c !! k); unfold id; lia.
Qed.

(** Every outcome of [put]: the new entry is there, and the others are old ones. *)
Lemma lru_put_cases cap k v c : (0 < cap)%nat -> lru_ok cap c ->
  lru_map (lru_put k v c) = <[k := v]> (lru_map c) \/
  (lru_map c !! k = None /\ size (lru_map c) = cap /\
   exists j, is_Some (lru_map c !! j) /\ j <> k /\
     lru_map (lru_put k v c) = <[k := v]> (delete j (lru_map c))).
Proof.
  intros Hcap [Hc Hs]. destruct (lru_map c !! k) eqn:E; [left; apply put_map; rewrite E; eauto|].
  destruct (decide (size (lru_map c) < cap)%nat).
  - left. apply put_map. right. lia.
  - right. split; [done|]. split; [lia|].
    destruct (put_map_full k v c E) as (j & Hj & Hm); [lia|lia|].
    exists j. split; [done|]. split; [|done]. intros ->. rewrite E in Hj. by destruct Hj.
Qed.

Lemma lru_ok_put cap k v c : (0 < cap)%nat -> lru_ok cap c -> lru_ok cap (lru_put k v c).
Proof.
  intros Hcap Hok. pose proof Hok as [Hc Hs]. unfold lru_ok. rewrite put_cap. split; [done|].
  destruct (lru_map c !! k) eqn:Ek.
  - rewrite put_map by (rewrite Ek; eauto). rewrite map_size_insert, Ek. by unfold id.
  - destruct (decide (size (lru_map c) < cap)%nat).
    + rewrite put_map by (right; lia). rewrite map_size_insert, Ek. lia.
    + destruct (put_map_full k v c Ek) as (j & Hj & ->); [lia|lia|].
      assert (j <> k) by (intros ->; rewrite Ek in Hj; by destruct Hj).
      rewrite map_size_insert, lookup_delete_ne, Ek, map_size_delete_Some by done. lia.
Qed.

Lemma lru_put_lookup cap k v c : (0 < cap)%nat -> lru_ok cap c ->
  lru_map (lru_put k v c) !! k = Some v.
Proof.
  intros Hcap Hok. destruct (lru_put_cases cap k v c Hcap Hok) as [->|(_ & _ & j & _ & _ & ->)];
    by rewrite lookup_insert_eq.
Qed.

(** A predicate on the entries that [put] respects. *)
Lemma lru_put_forall (P : string -> V -> Prop) cap k v c : (0 < cap)%nat -> lru_ok cap c ->
  map_Forall P (lru_map c) -> P k v -> map_Forall P (lru_map (lru_put k v c)).
Proof.
  intros Hcap Hok Hall Hkv.
  destruct (lru_put_cases cap k v c Hcap Hok) as [->|(_ & _ & j & _ & _ & ->)].
  - by apply map_Forall_insert_2.
  - apply map_Forall_insert_2; [done|]. by apply map_Forall_delete.
Qed.

Lemma lru_modify_forall (P : string -> V -> Prop) f k c :
  map_Forall P (lru_map c) -> (forall v, P k v -> P k (f v)) ->
  map_Forall P (lru_map (lru_modify f k c)).
Proof.
  intros Hall Hf j v. rewrite modify_map. intros Hj.
  destruct (decide (j = k)) as [->|Hne].
  - rewrite lookup_alter_eq in Hj. destruct (lru_map c !! k) eqn:E; simplify_eq/=. by apply Hf, Hall.
  - rewrite lookup_alter_ne in Hj by done. by apply Hall.
Qed.

Lemma lru_pop_forall (P : string -> V -> Prop) k c :
  map_Forall P (lru_map c) -> map_Forall P (lru_map (lru_pop k c)).
Proof. intros. rewrite pop_map. by apply map_Forall_delete. Qed.

Lemma lru_promote_forall (P : string -> V -> Prop) k c :
  map_Forall P (lru_map c) -> map_Forall P (lru_map (lru_promote k c)).
Proof. by rewrite promote_map. Qed.
End Facts.

#[export] Hint Resolve lru_modify_forall lru_pop_forall lru_promote_forall : voip.
#[export] Hint Resolve lru_ok_new lru_ok_promote lru_ok_modify lru_ok_pop lru_ok_put : voip.
