(* ===== verification/Wire.v ===== *)
(** * Signaling wire format and errors

    [voip-signaling/src/state.rs] (message framing) and [voip-signaling/src/error.rs]
    (error codes and HTTP statuses).  Messages are [prost] values: their codec is the
    interface [Prost], whose law is that decoding an encoded message returns it. *)

From S2P Require Import Prelude.

Local Open Scope Z_scope.
Local Open Scope rust_scope.

(** ** Errors *)

Definition SIG_UNKNOWN_PEER : Z := 1001.
Definition SIG_PEER_OFFLINE : Z := 1002.
Definition SIG_INVALID_CALL_ID : Z := 1003.
Definition SIG_CALL_ALREADY_EXISTS : Z := 1004.
Definition SIG_NOT_CALL_PARTICIPANT : Z := 1005.
Definition SIG_PEER_ALREADY_REGISTERED : Z := 1006.
Definition SIG_RATE_LIMITED : Z := 2001.
Definition SIG_INVALID_JWT : Z := 2002.
Definition SIG_INVALID_MESSAGE : Z := 2003.
Definition SIG_UNAUTHORIZED : Z := 2004.
Definition SIG_MASQUE_NO_PROXY : Z := 3001.
Definition SIG_MASQUE_PROXY_TIMEOUT : Z := 3002.
Definition SIG_MASQUE_COORDINATION_FAILED : Z := 3003.
Definition SIG_PROXY_TOKEN_INVALID : Z := 3004.
Definition SIG_PROXY_TOKEN_EXPIRED : Z := 3005.
Definition SIG_INTERNAL_ERROR : Z := 9999.

Inductive SignalingError :=
| Sig_UnknownPeer (p : string)
| Sig_PeerOffline (p : string)
| Sig_InvalidCallId (c : string)
| Sig_CallAlreadyExists (c : string)
| Sig_NotCallParticipant (w : string)
| Sig_PeerAlreadyRegistered (p : string)
| Sig_RateLimited
| Sig_InvalidJwt (w : string)
| Sig_InvalidMessage (w : string)
| Sig_Unauthorized (w : string)
| Sig_MasqueNoProxy
| Sig_MasqueProxyTimeout
| Sig_MasqueCoordinationFailed
| Sig_ProxyTokenInvalid (w : string)
| Sig_ProxyTokenExpired (w : string)
| Sig_Internal (w : string).

Definition sig_code (e : SignalingError) : Z :=
  match e with
  | Sig_UnknownPeer _ => SIG_UNKNOWN_PEER
  | Sig_PeerOffline _ => SIG_PEER_OFFLINE
  | Sig_InvalidCallId _ => SIG_INVALID_CALL_ID
  | Sig_CallAlreadyExists _ => SIG_CALL_ALREADY_EXISTS
  | Sig_NotCallParticipant _ => SIG_NOT_CALL_PARTICIPANT
  | Sig_PeerAlreadyRegistered _ => SIG_PEER_ALREADY_REGISTERED
  | Sig_RateLimited => SIG_RATE_LIMITED
  | Sig_InvalidJwt _ => SIG_INVALID_JWT
  | Sig_InvalidMessage _ => SIG_INVALID_MESSAGE
  | Sig_Unauthorized _ => SIG_UNAUTHORIZED
  | Sig_MasqueNoProxy => SIG_MASQUE_NO_PROXY
  | Sig_MasqueProxyTimeout => SIG_MASQUE_PROXY_TIMEOUT
  | Sig_MasqueCoordinationFailed => SIG_MASQUE_COORDINATION_FAILED
  | Sig_ProxyTokenInvalid _ => SIG_PROXY_TOKEN_INVALID
  | Sig_ProxyTokenExpired _ => SIG_PROXY_TOKEN_EXPIRED
  | Sig_Internal _ => SIG_INTERNAL_ERROR
  end.

(** The message of [thiserror]'s [Display]. *)
Definition sig_to_string (e : SignalingError) : string :=
  match e with
  | Sig_UnknownPeer p => "unknown peer: " +:+ p
  | Sig_PeerOffline p => "peer offline: " +:+ p
  | Sig_InvalidCallId c => "invalid call ID: " +:+ c
  | Sig_CallAlreadyExists c => "call already exists: " +:+ c
  | Sig_NotCallParticipant w => "not a call participant: " +:+ w
  | Sig_PeerAlreadyRegistered p => "peer already registered: " +:+ p
  | Sig_RateLimited => "rate limited"
  | Sig_InvalidJwt w => "invalid JWT: " +:+ w
  | Sig_InvalidMessage w => "invalid message: " +:+ w
  | Sig_Unauthorized w => "unauthorized: " +:+ w
  | Sig_MasqueNoProxy => "MASQUE no proxy available"
  | Sig_MasqueProxyTimeout => "MASQUE proxy timeout"
  | Sig_MasqueCoordinationFailed => "MASQUE coordination failed"
  | Sig_ProxyTokenInvalid w => "proxy token invalid: " +:+ w
  | Sig_ProxyTokenExpired w => "proxy token expired: " +:+ w
  | Sig_Internal w => "internal error: " +:+ w
  end.

Definition http_status (e : SignalingError) : Z :=
  match e with
  | Sig_UnknownPeer _ | Sig_PeerOffline _ => 404
  | Sig_InvalidCallId _ | Sig_InvalidMessage _ => 400
  | Sig_CallAlreadyExists _ | Sig_PeerAlreadyRegistered _ => 409
  | Sig_NotCallParticipant _ => 403
  | Sig_RateLimited => 429
  | Sig_InvalidJwt _ | Sig_Unauthorized _ => 401
  | Sig_MasqueNoProxy | Sig_MasqueProxyTimeout | Sig_MasqueCoordinationFailed => 503
  | Sig_ProxyTokenInvalid _ => 400
  | Sig_ProxyTokenExpired _ => 401
  | Sig_Internal _ => 500
  end.

(** ** Framing *)

Definition CALL_REQUEST_CS : Z := 0x0001.
Definition CALL_REQUEST_SC : Z := 0x0002.
Definition CALL_ACCEPT_CS : Z := 0x0003.
Definition CALL_ACCEPT_SC : Z := 0x0004.
Definition CALL_REJECT_CS : Z := 0x0005.
Definition CALL_REJECT_SC : Z := 0x0006.
Definition CALL_FAILED : Z := 0x0007.
Definition CALL_ENDED : Z := 0x0008.
Definition PUSH_RETRY : Z := 0x0009.
Definition PEER_REGISTER : Z := 0x0100.
Definition PEER_UNREGISTER : Z := 0x0101.
Definition PATH_PROBE_RESPONSE : Z := 0x0200.
Definition MASQUE_RELAY_NEEDED : Z := 0x0300.
Definition ERROR_TYPE : Z := 0x8001.

Record FramedMessage := { type_id : Z; framed_payload : list Z }.

Definition encode_message (type_id : Z) (payload : list Z) : list Z := to_be 2 type_id ++ payload.

Definition decode_message (data : list Z) : result SignalingError (Z * list Z) :=
  if zlen data <? 2
  then Err (Sig_InvalidMessage "message too short: need at least 2 bytes for type ID")
  else Ok (from_be (take 2 data), drop 2 data).

Definition framed_to_bytes (m : FramedMessage) : list Z :=
  encode_message (type_id m) (framed_payload m).

Definition framed_from_bytes (data : list Z) : option FramedMessage :=
  match decode_message data with
  | Ok (t, p) => Some {| type_id := t; framed_payload := p |}
  | Err _ => None
  end.

(** ** Protobuf messages *)

Class Prost (M : Type) := {
  encode_to_vec : M -> list Z;
  prost_decode : list Z -> option M
}.

Class ProstLaws (M : Type) {P : Prost M} := {
  prost_roundtrip (m : M) : prost_decode (encode_to_vec m) = Some m
}.

Record ProtoError := { err_code : Z; err_message : string }.

Definition framed_error {P : Prost ProtoError} (code : Z) (message : string) : FramedMessage :=
  {| type_id := ERROR_TYPE;
     framed_payload := encode_to_vec {| err_code := code; err_message := message |} |}.

(** ** Facts *)

Lemma decode_encode_message t p :
  0 <= t < 2 ^ 16 -> decode_message (encode_message t p) = Ok (t, p).
Proof.
  intros Ht. unfold decode_message, encode_message.
  assert (Hlen : zlen (to_be 2 t ++ p) = 2 + zlen p)
    by (rewrite zlen_app; unfold zlen at 1; by rewrite length_to_be).
  pose proof (zlen_nonneg p). rewrite Hlen, (proj2 (Z.ltb_ge _ _)) by lia.
  rewrite take_app_length', drop_app_length' by (by rewrite length_to_be).
  by rewrite from_be_to_be_small by exact Ht.
Qed.

(** Framing is a bijection between messages with a 16-bit type and byte sequences of
    at least two bytes: every framed message is read back, every such sequence is the
    framing of what is read from it, and shorter ones are refused. *)
Lemma framing_bijective m data :
  0 <= type_id m < 2 ^ 16 -> bytes_ok data ->
  framed_from_bytes (framed_to_bytes m) = Some m /\
  match framed_from_bytes data with
  | Some m' => framed_to_bytes m' = data /\ 0 <= type_id m' < 2 ^ 16
  | None => zlen data < 2
  end.
Proof.
  intros Hm Hd. split.
  - unfold framed_from_bytes, framed_to_bytes. rewrite decode_encode_message by done. by destruct m.
  - unfold framed_from_bytes, decode_message. destruct (zlen data <? 2) eqn:E; bool_to_prop; [done|].
    destruct data as [|a [|b l]]; [done|done|].
    apply Forall_cons in Hd as [Ha Hd]. apply Forall_cons in Hd as [Hb _]. unfold byte_ok in *.
    unfold framed_to_bytes, encode_message. cbn [type_id framed_payload take drop].
    rewrite take_0. unfold from_be. cbn [from_be_acc to_be Z.of_nat Pos.of_succ_nat Z.mul Pos.mul].
    change (2 ^ 8) with 256. change (2 ^ 0) with 1. split; [|lia]. rewrite drop_0. simpl.
    f_equal; [|f_equal]; rewrite ?Z.div_1_r.
    + rewrite Z.add_comm, Z.div_add, Z.div_small, Z.mod_small; lia.
    + by rewrite Z.add_comm, Z.mod_add, Z.mod_small by lia.
Qed.

Lemma framing_bijective_witness :
  framed_from_bytes (framed_to_bytes {| type_id := CALL_ENDED; framed_payload := [1; 2] |})
    = Some {| type_id := CALL_ENDED; framed_payload := [1; 2] |} /\
  framed_from_bytes [1; 0; 7] = Some {| type_id := PEER_REGISTER; framed_payload := [7] |}.
Proof.
  split; [|reflexivity].
  refine (proj1 (framing_bijective {| type_id := CALL_ENDED; framed_payload := [1; 2] |} [1; 0; 7] _ _)).
  - by vm_compute.
  - repeat apply Forall_cons_2; try apply Forall_nil_2; unfold byte_ok; lia.
Defined.
