(* ===== verification/Jwt.v ===== *)
(** * Tokens and request authentication

    [voip-signaling/src/jwt.rs], [voip-signaling/src/auth.rs] and the route table of
    [voip-signaling/src/server.rs].  The JSON form of the claims is [serde_json]'s: the
    interface [JsonClaims], with the law that parsing what was written returns it. *)

From S2P Require Import Prelude Types Config Crypto Base64 RustStr Wire.

Local Open Scope Z_scope.
Local Open Scope rust_scope.

Record JwtClaims := {
  claim_sub : string;
  claim_iat : Z;
  claim_exp : Z;
  claim_nbf : Z;
  claim_pub_key : string
}.

Class JsonClaims := {
  json_to_string : JwtClaims -> option string;
  json_from_slice : list Z -> option JwtClaims
}.

Class JsonLaws (J : JsonClaims) := {
  json_serializes c : is_Some (json_to_string c);
  json_roundtrip c s : json_to_string c = Some s -> json_from_slice (as_bytes s) = Some c
}.

Definition JWT_HEADER : string := "eyJhbGciOiJFZERTQSIsInR5cCI6IkpXVCJ9".
Definition DOT : Z := 46.

Section WithInterfaces.
Context {S : SigScheme} {J : JsonClaims}.

(** [None] is the overflow panic of [now + expiry_secs]. *)
Definition create_jwt (m : overflow_mode) (now : Z) (signing_key : SigningKey)
    (peer_id : string) (expiry_secs : Z) : option (result SignalingError string) :=
  let?o exp := arith m 64 (now + expiry_secs) in
  let claims := {| claim_sub := peer_id; claim_iat := now; claim_exp := exp;
                   claim_nbf := now; claim_pub_key := peer_id |} in
  Some (let? payload_json :=
          ok_or (json_to_string claims) (Sig_Internal "failed to serialize claims") in
        let payload_b64 := base64url_encode (as_bytes payload_json) in
        let signing_input := JWT_HEADER +:+ "." +:+ payload_b64 in
        let signature := sign signing_key (as_bytes signing_input) in
        let sig_b64 := base64url_encode (sig_to_bytes signature) in
        Ok (JWT_HEADER +:+ "." +:+ payload_b64 +:+ "." +:+ sig_b64)).

Definition verify_jwt (now : Z) (vk : VerifyingKey) (token : string)
    : result SignalingError JwtClaims :=
  match split_on DOT (as_bytes token) with
  | [header; payload_b64; sig_b64] =>
      if negb (bool_decide (header = as_bytes JWT_HEADER))
      then Err (Sig_InvalidJwt "invalid JWT header")
      else
        let? sig_bytes := ok_or (base64url_decode (string_of_bytes sig_b64))
                            (Sig_InvalidJwt "invalid signature encoding") in
        if negb (zlen sig_bytes =? 64) then Err (Sig_InvalidJwt "invalid signature length")
        else
          let signature := sig_from_bytes sig_bytes in
          let signing_input := header ++ [DOT] ++ payload_b64 in
          if negb (verify_sig vk signing_input signature)
          then Err (Sig_InvalidJwt "invalid JWT signature")
          else
            let? payload_bytes := ok_or (base64url_decode (string_of_bytes payload_b64))
                                    (Sig_InvalidJwt "invalid payload encoding") in
            let? claims := ok_or (json_from_slice payload_bytes)
                             (Sig_InvalidJwt "invalid claims JSON") in
            if claim_exp claims <? now then Err (Sig_InvalidJwt "token expired")
            else if negb (bool_decide (claim_sub claims = claim_pub_key claims))
            then Err (Sig_InvalidJwt "sub claim does not match pub_key claim")
            else if now <? claim_nbf claims then Err (Sig_InvalidJwt "token not yet valid")
            else Ok claims
  | _ => Err (Sig_InvalidJwt "invalid JWT format")
  end.

(** ** The authentication middleware *)

Inductive Method := GET | POST | PUT | DELETE | OtherMethod (name : string).

Definition is_get (m : Method) : bool := match m with GET => true | _ => false end.
Definition is_post (m : Method) : bool := match m with POST => true | _ => false end.

Definition is_public_path (path : string) (method : Method) : bool :=
  if bool_decide (path = "/v1/peers") && is_post method then true
  else if bool_decide (path = "/v1/myip") && is_get method then true
  else if bool_decide (path = "/v1/ws") && is_get method then true
  else if bool_decide (path = "/v1/openapi.json") && is_get method then true
  else if starts_with (as_bytes "/swagger-ui") (as_bytes path) && is_get method then true
  else false.

(** The [Authorization] header: absent, present but not visible ASCII, or a string.  The
    result is the peer the request continues with. *)
Definition auth_middleware (now : Z) (signing_key : SigningKey) (path : string)
    (method : Method) (authorization : option (option string)) : result SignalingError string :=
  if is_public_path path method then Ok ""
  else
    let? header := ok_or authorization (Sig_Unauthorized "missing Authorization header") in
    let? auth_header := ok_or header (Sig_Unauthorized "invalid Authorization header") in
    let? jwt_token := ok_or (strip_prefix (as_bytes "Bearer ") (as_bytes auth_header))
                        (Sig_Unauthorized "Authorization header must use Bearer scheme") in
    let? claims := map_err (fun e => Sig_Unauthorized ("invalid JWT: " +:+ sig_to_string e))
                     (verify_jwt now (verifying_key signing_key) (string_of_bytes jwt_token)) in
    Ok (claim_sub claims).
End WithInterfaces.

(** ** The routes of the server *)

Inductive Route :=
| R_RegisterPeer
| R_LookupPeer
| R_GetPeer (peer_id : string)
| R_UpdatePeer (peer_id : string)
| R_UnregisterPeer (peer_id : string)
| R_PeerStatus (peer_id : string)
| R_MyIp
| R_WsUpgrade
| R_Proxies
| R_DhtBootstrap
| R_ProxyToken
| R_OpenApi
| R_SwaggerUi (rest : string).

Definition route_request (r : Route) : Method * string :=
  match r with
  | R_RegisterPeer => (POST, "/v1/peers")
  | R_LookupPeer => (GET, "/v1/peers/lookup")
  | R_GetPeer p => (GET, "/v1/peers/" +:+ p)
  | R_UpdatePeer p => (PUT, "/v1/peers/" +:+ p)
  | R_UnregisterPeer p => (DELETE, "/v1/peers/" +:+ p)
  | R_PeerStatus p => (GET, "/v1/peers/" +:+ p +:+ "/status")
  | R_MyIp => (GET, "/v1/myip")
  | R_WsUpgrade => (GET, "/v1/ws")
  | R_Proxies => (GET, "/v1/proxies")
  | R_DhtBootstrap => (GET, "/v1/dht/bootstrap")
  | R_ProxyToken => (POST, "/v1/proxy-token")
  | R_OpenApi => (GET, "/v1/openapi.json")
  | R_SwaggerUi rest => (GET, "/swagger-ui" +:+ rest)
  end.

(** What the documentation lists as public. *)
Definition documented_public (r : Route) : bool :=
  match r with
  | R_RegisterPeer | R_MyIp | R_WsUpgrade | R_OpenApi | R_SwaggerUi _ => true
  | _ => false
  end.

(** A text form of the claims for witnesses: the binary digits of their code. *)
#[export] Instance JwtClaims_eq_dec : EqDecision JwtClaims.
Proof. solve_decision. Defined.

#[export] Instance JwtClaims_countable : Countable JwtClaims.
Proof.
  apply (inj_countable'
    (fun c => (claim_sub c, claim_iat c, claim_exp c, claim_nbf c, claim_pub_key c))
    (fun '(a, b, c, d, e) => {| claim_sub := a; claim_iat := b; claim_exp := c; claim_nbf := d;
                                claim_pub_key := e |})).
  by intros [].
Defined.

Module ToyJson.
Fixpoint digits (p : positive) : list Z :=
  match p with xH => [] | xO p' => 48 :: digits p' | xI p' => 49 :: digits p' end.

Fixpoint undigits (l : list Z) : positive :=
  match l with [] => xH | d :: l' => if d =? 48 then xO (undigits l') else xI (undigits l') end.

Definition json : JsonClaims := {|
  json_to_string c := Some (string_of_bytes (digits (encode c)));
  json_from_slice l := decode (undigits l)
|}.
End ToyJson.

(** A token of that form, and its claims. *)
Module JwtSample.
Definition token : string :=
  match create_jwt (S := ToySig.scheme) (J := ToyJson.json) Checked 1000 "k"%char "a" 3600 with
  | Some (Ok t) => t
  | _ => ""
  end.

Definition claims : JwtClaims := {| claim_sub := "a"; claim_iat := 1000; claim_exp := 4600;
  claim_nbf := 1000; claim_pub_key := "a" |}.
End JwtSample.

(** ** Facts *)

Lemma toy_undigits p : ToyJson.undigits (ToyJson.digits p) = p.
Proof. by induction p as [p IH|p IH|]; simpl; rewrite ?IH. Qed.

Lemma toy_digits_ok p : bytes_ok (ToyJson.digits p).
Proof. induction p; simpl; constructor; try done; unfold byte_ok; lia. Qed.

#[export] Instance toy_json_laws : JsonLaws ToyJson.json.
Proof.
  split; simpl; [eauto|]. intros c s [= <-].
  rewrite as_bytes_of_bytes by apply toy_digits_ok. rewrite toy_undigits. apply decode_encode.
Qed.

Lemma header_no_dot : DOT ∉ as_bytes JWT_HEADER.
Proof. by apply (bool_decide_unpack _). Qed.

Section Facts.
Context {S : SigScheme} {L : SigLaws S} {J : JsonClaims} {JL : JsonLaws J}.

Lemma base64url_dot l : bytes_ok l -> DOT ∉ base64url_bytes l.
Proof.
  intros Hl Hin. pose proof (base64url_no_dot l Hl) as H. rewrite Forall_forall in H.
  by apply (H _ Hin).
Qed.

(** The three parts of a token are recovered from it. *)
Lemma split_token p q :
  bytes_ok p -> bytes_ok q ->
  split_on DOT (as_bytes (JWT_HEADER +:+ "." +:+ base64url_encode p +:+ "." +:+ base64url_encode q))
  = [as_bytes JWT_HEADER; base64url_bytes p; base64url_bytes q].
Proof.
  intros Hp Hq. rewrite !as_bytes_app. unfold base64url_encode.
  rewrite !as_bytes_of_bytes by by apply base64url_bytes_ok.
  change (as_bytes ".") with [DOT]. cbn [app].
  rewrite split_on_app by apply header_no_dot.
  rewrite split_on_app by by apply base64url_dot.
  by rewrite split_on_fresh by by apply base64url_dot.
Qed.

Lemma decode_part p : bytes_ok p ->
  base64url_decode (string_of_bytes (base64url_bytes p)) = Some p.
Proof. apply base64url_roundtrip. Qed.

Lemma create_jwt_ok m now sk pid expiry :
  0 <= now -> 0 <= expiry -> now + expiry < 2 ^ 64 ->
  exists token, create_jwt m now sk pid expiry = Some (Ok token) /\ forall now',
    verify_jwt now' (verifying_key sk) token =
    if now + expiry <? now' then Err (Sig_InvalidJwt "token expired")
    else if now' <? now then Err (Sig_InvalidJwt "token not yet valid")
    else Ok {| claim_sub := pid; claim_iat := now; claim_exp := now + expiry;
               claim_nbf := now; claim_pub_key := pid |}.
Proof.
  intros Hnow Hexp Hmax. unfold create_jwt. rewrite arith_in_range by lia.
  set (claims := {| claim_sub := pid |}).
  destruct (json_serializes claims) as [s Hs]. rewrite Hs. cbn [ok_or result_bind].
  eexists; split; [reflexivity|]. intros now'. unfold verify_jwt.
  rewrite split_token by auto with voip. rewrite bool_decide_eq_true_2 by done. cbn [negb].
  rewrite decode_part by auto with voip. cbn [ok_or result_bind].
  unfold zlen. rewrite sig_bytes_length. cbn [negb Z.eqb Z.of_nat Pos.of_succ_nat Pos.eqb Pos.succ].
  rewrite sig_from_to_bytes. rewrite !as_bytes_app. unfold base64url_encode.
  rewrite as_bytes_of_bytes by (apply base64url_bytes_ok; auto with voip).
  change (as_bytes ".") with [DOT]. rewrite verify_sign. cbn [negb].
  rewrite decode_part by auto with voip. cbn [ok_or result_bind].
  rewrite (json_roundtrip _ _ Hs). cbn [ok_or result_bind claims claim_exp claim_sub claim_pub_key claim_nbf].
  destruct (now + expiry <? now'); [done|]. by rewrite bool_decide_eq_true_2.
Qed.
End Facts.

(** The components of an accepted token. *)
Lemma verify_jwt_sound {S : SigScheme} {J : JsonClaims} now vk token c :
  verify_jwt now vk token = Ok c ->
  exists payload sig raw,
    split_on DOT (as_bytes token) = [as_bytes JWT_HEADER; payload; sig] /\
    base64url_decode (string_of_bytes sig) = Some raw /\ zlen raw = 64 /\
    verify_sig vk (as_bytes JWT_HEADER ++ [DOT] ++ payload) (sig_from_bytes raw) = true /\
    (exists body, base64url_decode (string_of_bytes payload) = Some body /\
                  json_from_slice body = Some c) /\
    claim_sub c = claim_pub_key c /\ claim_nbf c <= now <= claim_exp c.
Proof.
  unfold verify_jwt. destruct (split_on DOT (as_bytes token)) as [|h [|p [|s [|]]]]; try done.
  intros H. case_in H; [done|]. bool_to_prop. subst h.
  destruct (base64url_decode (string_of_bytes s)) as [raw|] eqn:Es; [|done].
  cbn [ok_or result_bind] in H. case_in H; [done|]. case_in H; [done|]. bool_to_prop.
  destruct (base64url_decode (string_of_bytes p)) as [body|] eqn:Ep; [|done].
  cbn [ok_or result_bind] in H. destruct (json_from_slice body) as [c'|] eqn:Ec; [|done].
  cbn [ok_or result_bind] in H. repeat (case_in H; [done|]). bool_to_prop. simplify_eq.
  exists p, s, raw. repeat (split; [done|]). split; [by eauto|]. split; [done|lia].
Qed.

Lemma peers_path_private p (m : Method) : is_public_path ("/v1/peers/" +:+ p) m = false.
Proof.
  unfold is_public_path.
  change (starts_with _ (as_bytes ("/v1/peers/" +:+ p))) with false.
  by rewrite !bool_decide_eq_false_2 by discriminate.
Qed.

Lemma route_public_spec r :
  is_public_path (route_request r).2 (route_request r).1 = documented_public r.
Proof.
  destruct r; try reflexivity; cbn [route_request fst snd documented_public];
    apply peers_path_private.
Qed.

(** Every refusal of the middleware is of one kind. *)
Lemma auth_refuses {S : SigScheme} {J : JsonClaims} now sk path method header e :
  auth_middleware now sk path method header = Err e -> exists msg, e = Sig_Unauthorized msg.
Proof.
  unfold auth_middleware, ok_or, map_err. repeat (case_goal; cbn [result_bind]; try done);
    intros [= <-]; by eexists.
Qed.

(** Whom a request continues as. *)
Lemma auth_subject {S : SigScheme} {J : JsonClaims} now sk r header p :
  auth_middleware now sk (route_request r).2 (route_request r).1 header = Ok p ->
  if documented_public r then p = ""
  else exists tok c, header = Some (Some ("Bearer " +:+ tok)) /\
         verify_jwt now (verifying_key sk) tok = Ok c /\ claim_sub c = p.
Proof.
  unfold auth_middleware. rewrite route_public_spec. destruct (documented_public r); [by intros [= <-]|].
  destruct header as [[h|]|]; try done. cbn [ok_or result_bind].
  destruct (strip_prefix _ _) as [tok|] eqn:E; [|done]. cbn [ok_or result_bind].
  destruct (verify_jwt _ _ _) as [c|] eqn:Ev; [|done]. cbn [map_err result_bind]. intros [= <-].
  exists (string_of_bytes tok), c. split; [|done]. do 2 f_equal.
  apply strip_prefix_Some in E. apply as_bytes_inj. rewrite as_bytes_app, E. f_equal.
  symmetry. apply as_bytes_of_bytes.
  pose proof (as_bytes_ok h) as Hok. rewrite E in Hok. by apply Forall_app in Hok as [_ ?].
Qed.

(** A token issued at [now] for a peer is accepted, with that peer as subject, exactly
    from [now] to its expiry inclusive; before it is not yet valid and after it expired. *)
Lemma jwt_lifetime {S : SigScheme} {L : SigLaws S} {J : JsonClaims} {JL : JsonLaws J}
    m now sk pid expiry :
  0 <= now -> 0 <= expiry -> now + expiry < 2 ^ 64 ->
  exists token, create_jwt m now sk pid expiry = Some (Ok token) /\ forall now',
    verify_jwt now' (verifying_key sk) token =
    if now + expiry <? now' then Err (Sig_InvalidJwt "token expired")
    else if now' <? now then Err (Sig_InvalidJwt "token not yet valid")
    else Ok {| claim_sub := pid; claim_iat := now; claim_exp := now + expiry;
               claim_nbf := now; claim_pub_key := pid |}.
Proof. apply create_jwt_ok. Qed.

Lemma jwt_lifetime_witness :
  exists token,
    create_jwt (S := ToySig.scheme) (J := ToyJson.json) Checked 1000 "k"%char "a" 3600 = Some (Ok token)
    /\ verify_jwt (S := ToySig.scheme) (J := ToyJson.json) 4600 "k"%char token
       = Ok {| claim_sub := "a"; claim_iat := 1000; claim_exp := 4600; claim_nbf := 1000;
               claim_pub_key := "a" |}.
Proof.
  destruct (jwt_lifetime (S := ToySig.scheme) (L := ToySig.laws) (J := ToyJson.json)
              (JL := toy_json_laws) Checked 1000 "k"%char "a" 3600) as (t & Ht & Hv); [lia..|].
  exists t. split; [exact Ht|]. exact (Hv 4600).
Defined.

(** C39: whatever token is accepted has the fixed header and carries a 64-byte signature
    that verifies over its header and payload, and its claims name the same key as subject
    and public key and cover the current time. *)
Theorem jwt_accepts_only_signed {S : SigScheme} {J : JsonClaims} now vk token c :
  verify_jwt now vk token = Ok c ->
  exists payload sig raw,
    split_on DOT (as_bytes token) = [as_bytes JWT_HEADER; payload; sig] /\
    base64url_decode (string_of_bytes sig) = Some raw /\ zlen raw = 64 /\
    verify_sig vk (as_bytes JWT_HEADER ++ [DOT] ++ payload) (sig_from_bytes raw) = true /\
    (exists body, base64url_decode (string_of_bytes payload) = Some body /\
                  json_from_slice body = Some c) /\
    claim_sub c = claim_pub_key c /\ claim_nbf c <= now <= claim_exp c.
Proof. apply verify_jwt_sound. Qed.

Lemma jwt_accepts_only_signed_witness :
  claim_sub JwtSample.claims = claim_pub_key JwtSample.claims /\
  claim_nbf JwtSample.claims <= 2000 <= claim_exp JwtSample.claims.
Proof.
  destruct (jwt_accepts_only_signed (S := ToySig.scheme) (J := ToyJson.json) 2000 "k"%char
              JwtSample.token JwtSample.claims) as (? & ? & ? & _ & _ & _ & _ & _ & H).
  - vm_compute. reflexivity.
  - exact H.
Defined.

(** Of the routes the server registers, exactly the documented ones are public (they
    run with an empty peer), and a request on any other continues only with a bearer token
    the server accepts, as the token's subject. *)
Lemma protected_routes_need_jwt {S : SigScheme} {J : JsonClaims} now sk r header p :
  auth_middleware now sk (route_request r).2 (route_request r).1 header = Ok p ->
  if documented_public r then p = ""
  else exists tok c, header = Some (Some ("Bearer " +:+ tok)) /\
         verify_jwt now (verifying_key sk) tok = Ok c /\ claim_sub c = p.
Proof. apply auth_subject. Qed.

Lemma protected_routes_need_jwt_witness :
  exists tok c, Some (Some ("Bearer " +:+ JwtSample.token)) = Some (Some ("Bearer " +:+ tok)) /\
    verify_jwt (S := ToySig.scheme) (J := ToyJson.json) 2000 "k"%char tok = Ok c /\ claim_sub c = "a".
Proof.
  refine (protected_routes_need_jwt (S := ToySig.scheme) (J := ToyJson.json) 2000 "k"%char R_Proxies
            (Some (Some ("Bearer " +:+ JwtSample.token))) "a" _).
  vm_compute. reflexivity.
Defined.
