(* ===== verification/Server.v ===== *)
(** * The signaling server's state

    [voip-signaling/src/state.rs], [push.rs] and [masque.rs]: the registries of peers and
    calls, the operations the handlers call, relay coordination and push retries.

    Shared state behind locks is passed explicitly; each operation holds its locks from
    start to end, so operations are the atomic steps.  A session's channel is a number;
    [chan_open] says whether its receiver still exists, and what was delivered is
    appended to the trace [sent].  Push notifications go to the trace [pushed].  The
    current time is a [Clock]. *)

From S2P Require Import Prelude Types Config Crypto Base64 Wire RateLimit Lru.

Local Open Scope Z_scope.
Local Open Scope rust_scope.

(** ** Messages *)

Record PeerRegisterMsg := {
  pr_peer_id : string;
  pr_display_name : string;
  pr_ipv6_addresses : list string;
  pr_ipv4_reflexive : list string;
  pr_nat_info : option ProtoNATInfo;
  pr_status : Z;
  pr_fcm_token : string
}.

Record PeerUnregisterMsg := { pu_peer_id : string }.

(** Of the call messages the server reads these fields and forwards the bytes. *)
Record CallRequestMsg := {
  cr_call_id : string;
  cr_caller_id : string;
  cr_callee_id : string;
  cr_discovery_method : Z
}.

Record CallAcceptMsg := { ca_call_id : string }.
Record CallRejectMsg := { cj_call_id : string }.
Record CallFailedMsg := { cf_call_id : string; cf_reason : Z; cf_description : string }.
Record CallEndedMsg := { ce_call_id : string }.

Record PushRetryMsg := {
  rt_call_id : string;
  rt_caller_id : string;
  rt_callee_id : string;
  rt_reason : Z;
  rt_retry_attempt : Z;
  rt_retry_after_ms : Z
}.

Record ProtoProxyToken := {
  pxt_peer_id : string;
  pxt_target_peer_id : string;
  pxt_issued_at : Z;
  pxt_ttl_seconds : Z;
  pxt_signature : list Z
}.

Record MasqueRelayNeededMsg := {
  mr_call_id : string;
  mr_proxy_url : string;
  mr_wait_timeout_ms : Z;
  mr_proxy_token : option ProtoProxyToken
}.

Class ServerProto := {
  px_error :: Prost ProtoError;
  px_register :: Prost PeerRegisterMsg;
  px_unregister :: Prost PeerUnregisterMsg;
  px_request :: Prost CallRequestMsg;
  px_accept :: Prost CallAcceptMsg;
  px_reject :: Prost CallRejectMsg;
  px_failed :: Prost CallFailedMsg;
  px_ended :: Prost CallEndedMsg;
  px_push :: Prost PushRetryMsg;
  px_token :: Prost ProtoProxyToken;
  px_relay :: Prost MasqueRelayNeededMsg
}.

(** ** State *)

Record PeerInfo := {
  pi_peer_id : string;
  pi_display_name : string;
  pi_ipv6_addresses : list string;
  pi_ipv4_reflexive : list string;
  pi_nat_type : Z;
  pi_status : Z;
  pi_fcm_token : option string;
  pi_last_seen : Z
}.

Record PeerEntry := { pe_info : PeerInfo; pe_sender : option Z }.

Record CallEntry := {
  call_id : string;
  caller_id : string;
  callee_id : string;
  call_state : Z;
  connection_method : Z;
  discovery_method : Z;
  created_at : Z;
  connected_at : option Z;
  ended_at : option Z;
  failure_reason : option string;
  retry_count : Z
}.

Record ProxyInfo := {
  px_node_id : string;
  px_proxy_url : string;
  px_capacity : Z;
  px_region : string;
  px_latency_hint_ms : Z
}.

Record PushNotification := {
  pn_fcm_token : string;
  pn_call_id : string;
  pn_caller_id : string;
  pn_callee_id : string;
  pn_reason : Z;
  pn_retry_attempt : Z;
  pn_retry_after_ms : Z
}.

Record Clock := { instant : Z; unix_secs : Z }.

Definition PEERS_CAP : nat := Z.to_nat 10000.
Definition CALLS_CAP : nat := Z.to_nat 1000.

Section WithInterfaces.
Context {S : SigScheme} {L : Lru} {P : ServerProto}.

Record Server := {
  peers : lru PeerEntry;
  calls : lru CallEntry;
  limiter : RateLimiter;
  proxies : list ProxyInfo;
  server_ips : list string;
  srv_key : SigningKey;
  srv_config : VoIPConfig;
  dht_bootstrap : list string;
  sent : list (Z * FramedMessage);
  pushed : list PushNotification
}.

Definition set_peers (p : lru PeerEntry) (s : Server) : Server := {|
  peers := p; calls := calls s; limiter := limiter s; proxies := proxies s;
  server_ips := server_ips s; srv_key := srv_key s; srv_config := srv_config s;
  dht_bootstrap := dht_bootstrap s; sent := sent s; pushed := pushed s |}.

Definition set_calls (c : lru CallEntry) (s : Server) : Server := {|
  peers := peers s; calls := c; limiter := limiter s; proxies := proxies s;
  server_ips := server_ips s; srv_key := srv_key s; srv_config := srv_config s;
  dht_bootstrap := dht_bootstrap s; sent := sent s; pushed := pushed s |}.

Definition set_limiter (r : RateLimiter) (s : Server) : Server := {|
  peers := peers s; calls := calls s; limiter := r; proxies := proxies s;
  server_ips := server_ips s; srv_key := srv_key s; srv_config := srv_config s;
  dht_bootstrap := dht_bootstrap s; sent := sent s; pushed := pushed s |}.

Definition set_proxies (l : list ProxyInfo) (s : Server) : Server := {|
  peers := peers s; calls := calls s; limiter := limiter s; proxies := l;
  server_ips := server_ips s; srv_key := srv_key s; srv_config := srv_config s;
  dht_bootstrap := dht_bootstrap s; sent := sent s; pushed := pushed s |}.

Definition deliver (chan : Z) (m : FramedMessage) (s : Server) : Server := {|
  peers := peers s; calls := calls s; limiter := limiter s; proxies := proxies s;
  server_ips := server_ips s; srv_key := srv_key s; srv_config := srv_config s;
  dht_bootstrap := dht_bootstrap s; sent := sent s ++ [(chan, m)]; pushed := pushed s |}.

Definition notify (n : PushNotification) (s : Server) : Server := {|
  peers := peers s; calls := calls s; limiter := limiter s; proxies := proxies s;
  server_ips := server_ips s; srv_key := srv_key s; srv_config := srv_config s;
  dht_bootstrap := dht_bootstrap s; sent := sent s; pushed := pushed s ++ [n] |}.

Definition server_new (rate_limits : RateLimitConfig) (ips : list string) (key : SigningKey)
    (config : VoIPConfig) : Server := {|
  peers := lru_new PEERS_CAP; calls := lru_new CALLS_CAP; limiter := limiter_new rate_limits;
  proxies := []; server_ips := ips; srv_key := key; srv_config := config;
  dht_bootstrap := dht_bootstrap_nodes config; sent := []; pushed := [] |}.

(** ** Peers *)

Definition register_peer (info : PeerInfo) (sender : option Z) (s : Server) : Server :=
  let peer_id := pi_peer_id info in
  match lru_map (peers s) !! peer_id with
  | Some _ =>
      set_peers (lru_modify (fun existing =>
        {| pe_info := info;
           pe_sender := match sender with Some _ => sender | None => pe_sender existing end |})
        peer_id (peers s)) s
  | None => set_peers (lru_put peer_id {| pe_info := info; pe_sender := sender |} (peers s)) s
  end.

Definition unregister_peer (peer_id : string) (s : Server) : Server :=
  match lru_map (peers s) !! peer_id with
  | Some _ => set_limiter (limiter_remove_peer peer_id (limiter s)) (set_peers (lru_pop peer_id (peers s)) s)
  | None => s
  end.

Definition set_status (st : Z) (i : PeerInfo) : PeerInfo := {|
  pi_peer_id := pi_peer_id i; pi_display_name := pi_display_name i;
  pi_ipv6_addresses := pi_ipv6_addresses i; pi_ipv4_reflexive := pi_ipv4_reflexive i;
  pi_nat_type := pi_nat_type i; pi_status := st; pi_fcm_token := pi_fcm_token i;
  pi_last_seen := pi_last_seen i |}.

Definition STATUS_OFFLINE : Z := 1.

Definition disconnect_peer (peer_id : string) (s : Server) : Server :=
  match lru_map (peers s) !! peer_id with
  | Some entry =>
      let s := set_peers (lru_promote peer_id (peers s)) s in
      if bool_decide (pe_sender entry = None) && (pi_status (pe_info entry) =? STATUS_OFFLINE)
      then s
      else
        let s := set_peers (lru_modify (fun e =>
          {| pe_info := set_status STATUS_OFFLINE (pe_info e); pe_sender := None |})
          peer_id (peers s)) s in
        set_limiter (limiter_remove_peer peer_id (limiter s)) s
  | None => set_limiter (limiter_remove_peer peer_id (limiter s)) s
  end.

Definition get_peer (peer_id : string) (s : Server) : option PeerInfo * Server :=
  (option_map pe_info (lru_map (peers s) !! peer_id), set_peers (lru_promote peer_id (peers s)) s).

Definition send_to_peer (chan_open : Z -> bool) (peer_id : string) (msg : FramedMessage)
    (s : Server) : result SignalingError unit * Server :=
  let entry := lru_map (peers s) !! peer_id in
  let s := set_peers (lru_promote peer_id (peers s)) s in
  match entry with
  | None => (Err (Sig_UnknownPeer peer_id), s)
  | Some e =>
      match pe_sender e with
      | None => (Err (Sig_PeerOffline peer_id), s)
      | Some chan =>
          if chan_open chan then (Ok tt, deliver chan msg s)
          else (Err (Sig_PeerOffline peer_id), s)
      end
  end.

(** ** Calls *)

Definition lru_contains {V} (k : string) (c : lru V) : bool :=
  match lru_map c !! k with Some _ => true | None => false end.

Definition create_call (call : CallEntry) (s : Server) : result SignalingError unit * Server :=
  if negb (lru_contains (caller_id call) (peers s)) then (Err (Sig_UnknownPeer (caller_id call)), s)
  else if negb (lru_contains (callee_id call) (peers s)) then (Err (Sig_UnknownPeer (callee_id call)), s)
  else if lru_contains (call_id call) (calls s) then (Err (Sig_CallAlreadyExists (call_id call)), s)
  else (Ok tt, set_calls (lru_put (call_id call) call (calls s)) s).

Definition with_state (st : Z) (c : CallEntry) : CallEntry := {|
  call_id := call_id c; caller_id := caller_id c; callee_id := callee_id c; call_state := st;
  connection_method := connection_method c; discovery_method := discovery_method c;
  created_at := created_at c; connected_at := connected_at c; ended_at := ended_at c;
  failure_reason := failure_reason c; retry_count := retry_count c |}.

Definition STATE_RINGING : Z := 0.
Definition STATE_ACCEPTED : Z := 1.
Definition STATE_ENDED : Z := 4.

Definition update_call_state (id : string) (new_state : Z) (s : Server)
    : result SignalingError unit * Server :=
  if lru_contains id (calls s)
  then (Ok tt, set_calls (lru_modify (with_state new_state) id (calls s)) s)
  else (Err (Sig_InvalidCallId id), s).

Definition mark_ended (now : Z) (reason : option string) (c : CallEntry) : CallEntry := {|
  call_id := call_id c; caller_id := caller_id c; callee_id := callee_id c;
  call_state := STATE_ENDED;
  connection_method := connection_method c; discovery_method := discovery_method c;
  created_at := created_at c; connected_at := connected_at c; ended_at := Some now;
  failure_reason := reason; retry_count := retry_count c |}.

Definition end_call (clk : Clock) (id : string) (reason : option string) (s : Server)
    : result SignalingError unit * Server :=
  if lru_contains id (calls s)
  then (Ok tt, set_calls (lru_modify (mark_ended (unix_secs clk) reason) id (calls s)) s)
  else (Err (Sig_InvalidCallId id), s).

Definition remove_call (id : string) (s : Server) : Server := set_calls (lru_pop id (calls s)) s.

Definition get_call (id : string) (s : Server) : option CallEntry * Server :=
  (lru_map (calls s) !! id, set_calls (lru_promote id (calls s)) s).

Definition get_proxies (s : Server) : list ProxyInfo := proxies s.

Definition add_proxy (p : ProxyInfo) (s : Server) : Server := set_proxies (proxies s ++ [p]) s.

(** ** Relay coordination *)

Definition select_proxy (s : Server) : option ProxyInfo := head (get_proxies s).

Definition TOKEN_TTL : Z := 60.

Definition issue_proxy_token (clk : Clock) (s : Server) (peer_id target_peer_id : string)
    : ProtoProxyToken :=
  let unsigned := {| pxt_peer_id := peer_id; pxt_target_peer_id := target_peer_id;
                     pxt_issued_at := unix_secs clk; pxt_ttl_seconds := TOKEN_TTL;
                     pxt_signature := [] |} in
  let data_to_sign := encode_to_vec unsigned in
  let signature := sign (srv_key s) data_to_sign in
  {| pxt_peer_id := peer_id; pxt_target_peer_id := target_peer_id;
     pxt_issued_at := unix_secs clk; pxt_ttl_seconds := TOKEN_TTL;
     pxt_signature := sig_to_bytes signature |}.

Definition WAIT_TIMEOUT_MS : Z := 10000.

Definition relay_message (id url : string) (token : ProtoProxyToken) : FramedMessage := {|
  type_id := MASQUE_RELAY_NEEDED;
  framed_payload := encode_to_vec {| mr_call_id := id; mr_proxy_url := url;
                                     mr_wait_timeout_ms := WAIT_TIMEOUT_MS;
                                     mr_proxy_token := Some token |} |}.

Definition send_relay_needed (chan_open : Z -> bool) (clk : Clock) (id caller callee : string)
    (s : Server) : result SignalingError unit * Server :=
  match select_proxy s with
  | None => (Err Sig_MasqueNoProxy, s)
  | Some proxy =>
      let caller_token := issue_proxy_token clk s caller callee in
      let callee_token := issue_proxy_token clk s callee caller in
      match send_to_peer chan_open caller (relay_message id (px_proxy_url proxy) caller_token) s with
      | (Err e, s) => (Err e, s)
      | (Ok _, s) =>
          send_to_peer chan_open callee (relay_message id (px_proxy_url proxy) callee_token) s
      end
  end.

(** ** Push retries *)

Definition RETRYABLE_REASONS : list Z := [3; 4; 7].

Definition is_retryable_reason (reason : Z) : bool := bool_decide (reason ∈ RETRYABLE_REASONS).

Definition build_push_retry_message (id caller callee : string) (reason attempt after_ms : Z)
    : FramedMessage := {|
  type_id := PUSH_RETRY;
  framed_payload := encode_to_vec {| rt_call_id := id; rt_caller_id := caller; rt_callee_id := callee;
                                     rt_reason := reason; rt_retry_attempt := attempt;
                                     rt_retry_after_ms := after_ms |} |}.

(** [None] is the overflow panic of the delay. *)
Definition handle_retryable_failure (m : overflow_mode) (chan_open : Z -> bool)
    (id caller callee : string) (reason : Z) (other_peer_id : string) (count : Z) (s : Server)
    : option Server :=
  if push_retry_max_attempts (srv_config s) <=? count then Some s
  else
    let?o next_attempt := arith m 32 (count + 1) in
    let?o delay := retry_delay_secs m (srv_config s) next_attempt in
    let?o retry_after_ms := arith m 64 (delay * 1000) in
    let msg := build_push_retry_message id caller callee reason next_attempt retry_after_ms in
    let s := (send_to_peer chan_open other_peer_id msg s).2 in
    let '(peer_info, s) := get_peer other_peer_id s in
    match peer_info with
    | Some info =>
        match pi_fcm_token info with
        | Some token =>
            Some (notify {| pn_fcm_token := token; pn_call_id := id; pn_caller_id := caller;
                            pn_callee_id := callee; pn_reason := reason;
                            pn_retry_attempt := next_attempt;
                            pn_retry_after_ms := retry_after_ms |} s)
        | None => Some s
        end
    | None => Some s
    end.
End WithInterfaces.

(** ** The invariant of the server *)

(** A call the server keeps: under its own identifier, ringing, accepted or ended, never
    marked connected, and never retried. *)
Record call_ok (k : string) (c : CallEntry) : Prop := {
  co_key : call_id c = k;
  co_state : call_state c ∈ [STATE_RINGING; STATE_ACCEPTED; STATE_ENDED];
  co_connected : connected_at c = None;
  co_retry : retry_count c = 0
}.

(** A push-retry message announces the first attempt. *)
Definition push_first {P : ServerProto} (m : FramedMessage) : Prop :=
  type_id m = PUSH_RETRY ->
  exists id caller callee reason after_ms,
    m = build_push_retry_message id caller callee reason 1 after_ms.

Record srv_ok {S : SigScheme} {L : Lru} {P : ServerProto} (s : Server) : Prop := {
  ok_peers : lru_ok PEERS_CAP (peers s);
  ok_calls : lru_ok CALLS_CAP (calls s);
  ok_peer_keys : map_Forall (fun k e => pi_peer_id (pe_info e) = k) (lru_map (peers s));
  ok_call_entries : map_Forall call_ok (lru_map (calls s));
  ok_sent : Forall (fun x => push_first x.2) (sent s);
  ok_pushed : Forall (fun n => pn_retry_attempt n = 1) (pushed s)
}.

(** ** Facts *)

Lemma peers_cap_pos : (0 < PEERS_CAP)%nat.
Proof. unfold PEERS_CAP. lia. Qed.

Lemma calls_cap_pos : (0 < CALLS_CAP)%nat.
Proof. unfold CALLS_CAP. lia. Qed.

#[export] Hint Resolve peers_cap_pos calls_cap_pos : voip.

Section Facts.
Context {S : SigScheme} {L : Lru} {LL : LruLaws L} {P : ServerProto}.
Implicit Types s : Server.

Lemma ok_set_peers p s : srv_ok s -> lru_ok PEERS_CAP p ->
  map_Forall (fun k e => pi_peer_id (pe_info e) = k) (lru_map p) -> srv_ok (set_peers p s).
Proof. intros [] ? ?. by constructor. Qed.

Lemma ok_set_calls c s : srv_ok s -> lru_ok CALLS_CAP c ->
  map_Forall call_ok (lru_map c) -> srv_ok (set_calls c s).
Proof. intros [] ? ?. by constructor. Qed.

Lemma ok_set_limiter r s : srv_ok s -> srv_ok (set_limiter r s).
Proof. intros []. by constructor. Qed.

Lemma ok_set_proxies l s : srv_ok s -> srv_ok (set_proxies l s).
Proof. intros []. by constructor. Qed.

Lemma ok_deliver ch m s : srv_ok s -> push_first m -> srv_ok (deliver ch m s).
Proof. intros [] ?. constructor; try done. apply Forall_app. split; [done|by repeat constructor]. Qed.

Lemma ok_notify n s : srv_ok s -> pn_retry_attempt n = 1 -> srv_ok (notify n s).
Proof. intros [] ?. constructor; try done. apply Forall_app. split; [done|by repeat constructor]. Qed.

Lemma ok_server_new rl ips key cfg : srv_ok (server_new rl ips key cfg).
Proof.
  constructor; cbn [peers calls sent pushed server_new]; try done.
  1,2: apply lru_ok_new; auto with voip.
  all: rewrite new_map; apply map_Forall_empty.
Qed.

(** *** The operations keep the invariant *)

Lemma ok_register info sender s : srv_ok s -> srv_ok (register_peer info sender s).
Proof.
  intros Hs. unfold register_peer. destruct (_ !! _).
  - apply ok_set_peers; [done|by apply lru_ok_modify, ok_peers|].
    apply lru_modify_forall; [by apply ok_peer_keys|done].
  - apply ok_set_peers; [done|apply lru_ok_put; [apply peers_cap_pos|by apply ok_peers]|].
    apply (lru_put_forall _ PEERS_CAP); [apply peers_cap_pos|by apply ok_peers|by apply ok_peer_keys|done].
Qed.

Lemma ok_promote_peer k s : srv_ok s -> srv_ok (set_peers (lru_promote k (peers s)) s).
Proof.
  intros Hs. apply ok_set_peers; [done|by apply lru_ok_promote, ok_peers|].
  by apply lru_promote_forall, ok_peer_keys.
Qed.

Lemma ok_unregister k s : srv_ok s -> srv_ok (unregister_peer k s).
Proof.
  intros Hs. unfold unregister_peer. destruct (_ !! _); [|done].
  apply ok_set_limiter, ok_set_peers; [done|by apply lru_ok_pop, ok_peers|].
  by apply lru_pop_forall, ok_peer_keys.
Qed.

Lemma ok_disconnect k s : srv_ok s -> srv_ok (disconnect_peer k s).
Proof.
  intros Hs. unfold disconnect_peer. destruct (_ !! _); [|by apply ok_set_limiter].
  pose proof (ok_promote_peer k s Hs) as Hp. case_goal; [done|].
  apply ok_set_limiter, ok_set_peers; [done|by apply lru_ok_modify, ok_peers|].
  apply lru_modify_forall; [by apply ok_peer_keys|done].
Qed.

Lemma ok_get_peer k s : srv_ok s -> srv_ok (get_peer k s).2.
Proof. apply ok_promote_peer. Qed.

Lemma ok_send co k m s : srv_ok s -> push_first m -> srv_ok (send_to_peer co k m s).2.
Proof.
  intros Hs Hm. unfold send_to_peer. pose proof (ok_promote_peer k s Hs) as Hp.
  repeat case_goal; simpl; auto using ok_deliver.
Qed.

Lemma ok_promote_call k s : srv_ok s -> srv_ok (set_calls (lru_promote k (calls s)) s).
Proof.
  intros Hs. apply ok_set_calls; [done|by apply lru_ok_promote, ok_calls|].
  by apply lru_promote_forall, ok_call_entries.
Qed.

Lemma ok_get_call k s : srv_ok s -> srv_ok (get_call k s).2.
Proof. apply ok_promote_call. Qed.

Lemma ok_create_call c s : srv_ok s -> call_ok (call_id c) c -> srv_ok (create_call c s).2.
Proof.
  intros Hs Hc. unfold create_call. repeat case_goal; simpl; try done.
  apply ok_set_calls; [done|apply lru_ok_put; [apply calls_cap_pos|by apply ok_calls]|].
  apply (lru_put_forall _ CALLS_CAP); [apply calls_cap_pos|by apply ok_calls|by apply ok_call_entries|done].
Qed.

Lemma ok_modify_call f k s : srv_ok s -> (forall c, call_ok k c -> call_ok k (f c)) ->
  srv_ok (set_calls (lru_modify f k (calls s)) s).
Proof.
  intros Hs Hf. apply ok_set_calls; [done|by apply lru_ok_modify, ok_calls|].
  apply lru_modify_forall; [by apply ok_call_entries|done].
Qed.

Lemma ok_update_state k st s : srv_ok s -> st ∈ [STATE_RINGING; STATE_ACCEPTED; STATE_ENDED] ->
  srv_ok (update_call_state k st s).2.
Proof.
  intros Hs Hst. unfold update_call_state. case_goal; [|done].
  apply ok_modify_call; [done|]. intros c []. by constructor.
Qed.

Lemma ok_end_call clk k r s : srv_ok s -> srv_ok (end_call clk k r s).2.
Proof.
  intros Hs. unfold end_call. case_goal; [|done].
  apply ok_modify_call; [done|]. intros c []. constructor; try done. set_solver.
Qed.

Lemma ok_remove_call k s : srv_ok s -> srv_ok (remove_call k s).
Proof.
  intros Hs. apply ok_set_calls; [done|by apply lru_ok_pop, ok_calls|].
  by apply lru_pop_forall, ok_call_entries.
Qed.

Lemma push_first_other m : type_id m <> PUSH_RETRY -> push_first m.
Proof. by intros ? ?. Qed.

Lemma ok_relay co clk id a b s : srv_ok s -> srv_ok (send_relay_needed co clk id a b s).2.
Proof.
  intros Hs. unfold send_relay_needed. destruct (select_proxy s) as [p|]; [|done].
  assert (Hm : forall t, push_first (relay_message id (px_proxy_url p) t))
    by (intros t; by apply push_first_other).
  pose proof (ok_send co a (relay_message id (px_proxy_url p) (issue_proxy_token clk s a b)) s Hs (Hm _)) as H.
  destruct (send_to_peer _ _ _ _) as [[u|e] s1]; [|done]. by apply ok_send.
Qed.

Lemma ok_retry m co id a b r o s s' : srv_ok s ->
  handle_retryable_failure m co id a b r o 0 s = Some s' -> srv_ok s'.
Proof.
  intros Hs. unfold handle_retryable_failure. case_goal; [by intros [= <-]|].
  rewrite arith_in_range by lia. repeat case_goal; try done; simplify_eq/=.
  all: assert (Hsend : forall z, srv_ok (send_to_peer co o (build_push_retry_message id a b r 1 z) s).2)
         by (intros ?; apply ok_send; [done|]; intros _; by repeat eexists).
  all: match goal with H : get_peer ?o ?s1 = (_, ?s2) |- _ =>
         assert (srv_ok s2) by (replace s2 with (get_peer o s1).2 by (by rewrite H);
                                apply ok_get_peer, Hsend) end.
  all: intros [= <-]; try done. by apply ok_notify.
Qed.
End Facts.

#[export] Hint Resolve ok_set_limiter ok_set_proxies ok_deliver ok_register ok_unregister
  ok_disconnect ok_get_peer ok_send ok_get_call ok_create_call ok_update_state ok_end_call
  ok_remove_call ok_relay push_first_other : voip.
