(* ===== verification/Session.v ===== *)
(** * WebSocket sessions

    [voip-signaling/src/session.rs]: the message handlers, the dispatch, and the life of a
    session, over the state of [Server].  A session is its channel and the peer identifier
    it holds ([peer_id_holder]).  [None] as a result of a handler is a panic. *)

From S2P Require Import Prelude Types Config Crypto Wire RateLimit Lru Server.

Local Open Scope Z_scope.
Local Open Scope rust_scope.

Section WithInterfaces.
Context {S : SigScheme} {L : Lru} {P : ServerProto}.

(** What surrounds a handler: the clock, which channels are open, the session's own
    channel and the overflow behaviour of the build. *)
Record Ctx := {
  clock : Clock;
  chan_open : Z -> bool;
  tx : Z;
  mode : overflow_mode
}.

(** [let _ = tx.send(err).await]. *)
Definition reply (c : Ctx) (m : FramedMessage) (s : Server) : Server :=
  if chan_open c (tx c) then deliver (tx c) m s else s.

Definition reply_error (c : Ctx) (code : Z) (message : string) (s : Server) : Server :=
  reply c (framed_error code message) s.

Definition check_limit (c : Ctx) (a : Action) (peer_id : string) (s : Server) : option (Server * bool) :=
  match limiter_check (instant (clock c)) peer_id a (limiter s) with
  | None => None
  | Some (r, allowed) => Some (set_limiter r s, allowed)
  end.

Definition session_state := (option string * Server)%type.

Definition peer_info_of (now : Z) (msg : PeerRegisterMsg) : PeerInfo := {|
  pi_peer_id := pr_peer_id msg; pi_display_name := pr_display_name msg;
  pi_ipv6_addresses := pr_ipv6_addresses msg; pi_ipv4_reflexive := pr_ipv4_reflexive msg;
  pi_nat_type := default 0 (option_map pni_nat_type (pr_nat_info msg));
  pi_status := pr_status msg;
  pi_fcm_token := if bool_decide (pr_fcm_token msg = "") then None else Some (pr_fcm_token msg);
  pi_last_seen := now |}.

Definition ws_handle_peer_register (c : Ctx) (payload : list Z) (st : session_state)
    : option session_state :=
  let '(holder, s) := st in
  match prost_decode payload with
  | None => Some (holder, reply_error c SIG_INVALID_MESSAGE "invalid PeerRegister payload" s)
  | Some msg =>
      let?o (s, allowed) := check_limit c Action_Registration (pr_peer_id msg) s in
      if negb allowed then
        Some (holder, reply_error c SIG_RATE_LIMITED "registration rate limit exceeded" s)
      else
        let info := peer_info_of (unix_secs (clock c)) msg in
        Some (Some (pr_peer_id msg), register_peer info (Some (tx c)) s)
  end.

Definition ws_handle_peer_unregister (payload : list Z) (st : session_state) : option session_state :=
  let '(holder, s) := st in
  match prost_decode (M := PeerUnregisterMsg) payload with
  | None => Some (holder, s)
  | Some msg => Some (None, unregister_peer (pu_peer_id msg) s)
  end.

(** [if let Some(session_peer) = holder && session_peer != peer]. *)
Definition holder_differs (holder : option string) (peer : string) : bool :=
  match holder with
  | Some session_peer => negb (bool_decide (session_peer = peer))
  | None => false
  end.

Definition new_call (now : Z) (msg : CallRequestMsg) : CallEntry := {|
  call_id := cr_call_id msg; caller_id := cr_caller_id msg; callee_id := cr_callee_id msg;
  call_state := STATE_RINGING; connection_method := 0;
  discovery_method := cr_discovery_method msg; created_at := now;
  connected_at := None; ended_at := None; failure_reason := None; retry_count := 0 |}.

Definition forward (t : Z) (payload : list Z) : FramedMessage :=
  {| type_id := t; framed_payload := payload |}.

Definition ws_handle_call_request (c : Ctx) (payload : list Z) (st : session_state)
    : option session_state :=
  let '(holder, s) := st in
  match prost_decode payload with
  | None => Some (holder, reply_error c SIG_INVALID_MESSAGE "invalid CallRequest payload" s)
  | Some msg =>
      let?o (s, allowed) := check_limit c Action_Call (cr_caller_id msg) s in
      if negb allowed then
        Some (holder, reply_error c SIG_RATE_LIMITED "call rate limit exceeded" s)
      else if holder_differs holder (cr_caller_id msg) then
        Some (holder, reply_error c SIG_NOT_CALL_PARTICIPANT
                        "caller_id does not match session peer_id" s)
      else
        match create_call (new_call (unix_secs (clock c)) msg) s with
        | (Err e, s) => Some (holder, reply_error c (sig_code e) (sig_to_string e) s)
        | (Ok _, s) =>
            match send_to_peer (chan_open c) (cr_callee_id msg) (forward CALL_REQUEST_SC payload) s with
            | (Ok _, s) => Some (holder, s)
            | (Err e, s) =>
                Some (holder, remove_call (cr_call_id msg)
                                (reply_error c (sig_code e) (sig_to_string e) s))
            end
        end
  end.

Definition ws_handle_call_accept (c : Ctx) (payload : list Z) (st : session_state)
    : option session_state :=
  let '(holder, s) := st in
  match prost_decode payload with
  | None => Some (holder, reply_error c SIG_INVALID_MESSAGE "invalid CallAccept payload" s)
  | Some msg =>
      let id := ca_call_id msg in
      match get_call id s with
      | (None, s) => Some (holder, reply_error c SIG_INVALID_CALL_ID "call not found" s)
      | (Some call_entry, s) =>
          if holder_differs holder (callee_id call_entry) then
            Some (holder, reply_error c SIG_NOT_CALL_PARTICIPANT "only the callee can accept a call" s)
          else
            match update_call_state id STATE_ACCEPTED s with
            | (Err e, s) => Some (holder, reply_error c (sig_code e) (sig_to_string e) s)
            | (Ok _, s) =>
                match get_call id s with
                | (None, s) => Some (holder, reply_error c SIG_INVALID_CALL_ID
                                               "call not found after state update" s)
                | (Some call, s) =>
                    match send_to_peer (chan_open c) (caller_id call) (forward CALL_ACCEPT_SC payload) s with
                    | (Ok _, s) => Some (holder, s)
                    | (Err e, s) => Some (holder, reply_error c (sig_code e) (sig_to_string e) s)
                    end
                end
            end
      end
  end.

Definition ws_handle_call_reject (c : Ctx) (payload : list Z) (st : session_state)
    : option session_state :=
  let '(holder, s) := st in
  match prost_decode payload with
  | None => Some (holder, s)
  | Some msg =>
      let id := cj_call_id msg in
      match get_call id s with
      | (None, s) => Some (holder, reply_error c SIG_INVALID_CALL_ID "call not found" s)
      | (Some call_entry, s) =>
          if holder_differs holder (callee_id call_entry) then
            Some (holder, reply_error c SIG_NOT_CALL_PARTICIPANT "only the callee can reject a call" s)
          else
            let s := (end_call (clock c) id (Some "rejected") s).2 in
            let s := (send_to_peer (chan_open c) (caller_id call_entry)
                        (forward CALL_REJECT_SC payload) s).2 in
            Some (holder, remove_call id s)
      end
  end.

(** The sender must be one of the two peers, when the session has an identity. *)
Definition not_participant (holder : option string) (call : CallEntry) : bool :=
  holder_differs holder (caller_id call) && holder_differs holder (callee_id call).

Definition other_peer_of (holder : option string) (call : CallEntry) : string :=
  if bool_decide (Some (caller_id call) = holder) then callee_id call else caller_id call.

Definition ws_handle_call_failed (c : Ctx) (payload : list Z) (st : session_state)
    : option session_state :=
  let '(holder, s) := st in
  match prost_decode payload with
  | None => Some (holder, s)
  | Some msg =>
      let id := cf_call_id msg in
      match get_call id s with
      | (None, s) => Some (holder, reply_error c SIG_INVALID_CALL_ID "call not found" s)
      | (Some call_entry, s) =>
          if not_participant holder call_entry then
            Some (holder, reply_error c SIG_NOT_CALL_PARTICIPANT "not a participant in this call" s)
          else
            let other_peer := other_peer_of holder call_entry in
            let s := (send_to_peer (chan_open c) other_peer (forward CALL_FAILED payload) s).2 in
            let reason := cf_reason msg in
            let retry s := handle_retryable_failure (mode c) (chan_open c) id (caller_id call_entry)
                             (callee_id call_entry) reason other_peer (retry_count call_entry) s in
            let?o s :=
              if (reason =? 3) || (reason =? 4) then
                match send_relay_needed (chan_open c) (clock c) id (caller_id call_entry)
                        (callee_id call_entry) s with
                | (Ok _, s) => Some s
                | (Err _, s) => if is_retryable_reason reason then retry s else Some s
                end
              else if is_retryable_reason reason then retry s
              else Some s in
            Some (holder, (end_call (clock c) id (Some (cf_description msg)) s).2)
      end
  end.

Definition ws_handle_call_ended (c : Ctx) (payload : list Z) (st : session_state)
    : option session_state :=
  let '(holder, s) := st in
  match prost_decode payload with
  | None => Some (holder, s)
  | Some msg =>
      let id := ce_call_id msg in
      match get_call id s with
      | (None, s) => Some (holder, reply_error c SIG_INVALID_CALL_ID "call not found" s)
      | (Some call_entry, s) =>
          if not_participant holder call_entry then
            Some (holder, reply_error c SIG_NOT_CALL_PARTICIPANT "not a participant in this call" s)
          else
            let other_peer := other_peer_of holder call_entry in
            let s := (send_to_peer (chan_open c) other_peer (forward CALL_ENDED payload) s).2 in
            let s := (end_call (clock c) id None s).2 in
            Some (holder, remove_call id s)
      end
  end.

Definition dispatch_ws_message (c : Ctx) (m : FramedMessage) (st : session_state)
    : option session_state :=
  let p := framed_payload m in
  let t := type_id m in
  if t =? PEER_REGISTER then ws_handle_peer_register c p st
  else if t =? PEER_UNREGISTER then ws_handle_peer_unregister p st
  else if t =? CALL_REQUEST_CS then ws_handle_call_request c p st
  else if t =? CALL_ACCEPT_CS then ws_handle_call_accept c p st
  else if t =? CALL_REJECT_CS then ws_handle_call_reject c p st
  else if t =? CALL_FAILED then ws_handle_call_failed c p st
  else if t =? CALL_ENDED then ws_handle_call_ended c p st
  else Some (st.1, reply_error c SIG_INVALID_MESSAGE "unknown message type ID" st.2).

(** ** The life of a session *)

(** A binary frame in the receive loop. *)
Definition ws_receive (c : Ctx) (data : list Z) (st : session_state) : option session_state :=
  if zlen data <? 2 then Some st
  else
    match framed_from_bytes data with
    | None => Some st
    | Some framed =>
        match st.1 with
        | Some peer_id =>
            let?o (s, allowed) := check_limit c Action_WsMessage peer_id st.2 in
            if negb allowed then
              Some (st.1, reply_error c SIG_RATE_LIMITED "WebSocket message rate limit exceeded" s)
            else dispatch_ws_message c framed (st.1, s)
        | None => dispatch_ws_message c framed st
        end
    end.

(** After the upgrade the session holds the subject of its token. *)
Definition ws_open (peer_id : string) (s : Server) : session_state := (Some peer_id, s).

(** The end of the session, from whichever of its two tasks ends first. *)
Definition ws_close (st : session_state) : Server :=
  match st.1 with
  | Some peer_id => disconnect_peer peer_id st.2
  | None => st.2
  end.
End WithInterfaces.

(** ** The server with all its sessions *)

Record World {S : SigScheme} {L : Lru} := {
  server : Server;
  sessions : gmap Z (option string)
}.
Arguments World S L : clear implicits.

Section Steps.
Context {S : SigScheme} {L : Lru} {P : ServerProto}.

(** One atomic step: a session opens with the subject of its token, receives a frame or
    ends; the REST interface registers, updates or removes a peer; a proxy is added. *)
Inductive server_step : World S L -> World S L -> Prop :=
| step_open w ch peer_id :
    sessions w !! ch = None ->
    server_step w {| server := server w; sessions := <[ch := Some peer_id]> (sessions w) |}
| step_receive w c data h h' s' :
    sessions w !! tx c = Some h ->
    ws_receive c data (h, server w) = Some (h', s') ->
    server_step w {| server := s'; sessions := <[tx c := h']> (sessions w) |}
| step_close w ch h :
    sessions w !! ch = Some h ->
    server_step w {| server := ws_close (h, server w); sessions := delete ch (sessions w) |}
| step_rest_register w info :
    server_step w {| server := register_peer info None (server w); sessions := sessions w |}
| step_rest_unregister w peer_id :
    server_step w {| server := unregister_peer peer_id (server w); sessions := sessions w |}
| step_add_proxy w p :
    server_step w {| server := add_proxy p (server w); sessions := sessions w |}.

Definition server_init (w : World S L) : Prop :=
  exists rl ips key cfg, server w = server_new rl ips key cfg /\ sessions w = ∅.
End Steps.

(** ** Specification: who may change which call

    The registry of calls as the messages of a session bound to peer [p] may change it. *)

Definition participant (p : string) (c : CallEntry) : Prop := p = caller_id c \/ p = callee_id c.

Inductive registry_step (p : string) : gmap string CallEntry -> gmap string CallEntry -> Prop :=
| reg_stay m : registry_step p m m
| reg_ring m c :
    m !! call_id c = None -> caller_id c = p -> call_state c = STATE_RINGING ->
    registry_step p m (<[call_id c := c]> m)
| reg_ring_full m c j :
    m !! call_id c = None -> caller_id c = p -> call_state c = STATE_RINGING ->
    size m = CALLS_CAP -> registry_step p m (<[call_id c := c]> (delete j m))
| reg_undelivered_full m j :
    size m = CALLS_CAP -> registry_step p m (delete j m)
| reg_accept m id c :
    m !! id = Some c -> callee_id c = p ->
    registry_step p m (<[id := with_state STATE_ACCEPTED c]> m)
| reg_reject m id c :
    m !! id = Some c -> callee_id c = p -> registry_step p m (delete id m)
| reg_fail m id c now reason :
    m !! id = Some c -> participant p c ->
    registry_step p m (<[id := mark_ended now reason c]> m)
| reg_end m id c :
    m !! id = Some c -> participant p c -> registry_step p m (delete id m).

(** ** A small server

    Two connected peers, [a] on channel 1 and [b] on channel 2, for the witnesses.  Its
    message codec knows one message of each kind. *)

Module Sample.
Definition one {M} (m : M) : Prost M := {|
  encode_to_vec _ := [1]; prost_decode p := if bool_decide (p = [1]) then Some m else None |}.

Definition request : CallRequestMsg :=
  {| cr_call_id := "k"; cr_caller_id := "a"; cr_callee_id := "b"; cr_discovery_method := 0 |}.

Definition registration : PeerRegisterMsg := {|
  pr_peer_id := "b"; pr_display_name := ""; pr_ipv6_addresses := []; pr_ipv4_reflexive := [];
  pr_nat_info := None; pr_status := 0; pr_fcm_token := "" |}.

Definition failure : CallFailedMsg :=
  {| cf_call_id := "k"; cf_reason := 7; cf_description := "unreachable" |}.

Definition proto : ServerProto := {|
  px_error := one {| err_code := 0; err_message := "" |};
  px_register := one registration;
  px_unregister := one {| pu_peer_id := "b" |};
  px_request := one request;
  px_accept := one {| ca_call_id := "k" |};
  px_reject := one {| cj_call_id := "k" |};
  px_failed := one failure;
  px_ended := one {| ce_call_id := "k" |};
  px_push := one {| rt_call_id := ""; rt_caller_id := ""; rt_callee_id := ""; rt_reason := 0;
                    rt_retry_attempt := 0; rt_retry_after_ms := 0 |};
  px_token := one {| pxt_peer_id := ""; pxt_target_peer_id := ""; pxt_issued_at := 0;
                     pxt_ttl_seconds := 0; pxt_signature := [] |};
  px_relay := one {| mr_call_id := ""; mr_proxy_url := ""; mr_wait_timeout_ms := 0;
                     mr_proxy_token := None |}
|}.

Definition info (p : string) : PeerInfo := {|
  pi_peer_id := p; pi_display_name := p; pi_ipv6_addresses := []; pi_ipv4_reflexive := [];
  pi_nat_type := 0; pi_status := 0; pi_fcm_token := None; pi_last_seen := 0 |}.

Definition server0 : @Server ToySig.scheme ListLru.ops :=
  server_new (S := ToySig.scheme) (L := ListLru.ops) default_rate_limits [] "k"%char default_config.

Definition server : @Server ToySig.scheme ListLru.ops :=
  register_peer (info "b") (Some 2) (register_peer (info "a") (Some 1) server0).

Definition ctx (ch : Z) : Ctx := {|
  clock := {| instant := 0; unix_secs := 0 |}; chan_open := fun _ => true; tx := ch;
  mode := Checked |}.

(** The server after the limiter let a call of [a] through. *)
Definition limited : @Server ToySig.scheme ListLru.ops :=
  match check_limit (ctx 1) Action_Call "a" server with Some (s, _) => s | None => server end.

(** The server after the frame with which [a] calls [b]. *)
Definition calling : @Server ToySig.scheme ListLru.ops :=
  match ws_receive (P := proto) (ctx 1) [0; 1; 1] (Some "a", server) with
  | Some (_, s) => s
  | None => server
  end.
End Sample.

(** ** Facts *)

Section Facts.
Context {S : SigScheme} {L : Lru} {LL : LruLaws L} {P : ServerProto}.
Implicit Types s : Server.

Lemma ok_reply c code msg s : srv_ok s -> srv_ok (reply_error c code msg s).
Proof.
  intros Hs. unfold reply_error, reply. case_goal; [|done]. by apply ok_deliver, push_first_other.
Qed.

Lemma ok_check_limit c a k s s' b : srv_ok s -> check_limit c a k s = Some (s', b) -> srv_ok s'.
Proof.
  intros Hs. unfold check_limit. repeat case_goal; try done. intros [= <- _]. by apply ok_set_limiter.
Qed.

Lemma ok_send_eq co k t p s r s' :
  srv_ok s -> t <> PUSH_RETRY -> send_to_peer co k (forward t p) s = (r, s') -> srv_ok s'.
Proof.
  intros Hs Ht H. replace s' with (send_to_peer co k (forward t p) s).2 by (by rewrite H).
  by apply ok_send, push_first_other.
Qed.

Lemma ok_create_eq c s r s' :
  srv_ok s -> call_ok (call_id c) c -> create_call c s = (r, s') -> srv_ok s'.
Proof.
  intros Hs Hc H. replace s' with (create_call c s).2 by (by rewrite H). by apply ok_create_call.
Qed.

Lemma ok_update_eq k s r s' :
  srv_ok s -> update_call_state k STATE_ACCEPTED s = (r, s') -> srv_ok s'.
Proof.
  intros Hs H. replace s' with (update_call_state k STATE_ACCEPTED s).2 by (by rewrite H).
  apply ok_update_state; [done|set_solver].
Qed.

Lemma ok_get_call_eq k s r s' : srv_ok s -> get_call k s = (r, s') -> srv_ok s'.
Proof. intros Hs H. replace s' with (get_call k s).2 by (by rewrite H). by apply ok_get_call. Qed.

Lemma ok_relay_eq co clk id a b s r s' :
  srv_ok s -> send_relay_needed co clk id a b s = (r, s') -> srv_ok s'.
Proof.
  intros Hs H. replace s' with (send_relay_needed co clk id a b s).2 by (by rewrite H).
  by apply ok_relay.
Qed.

Lemma new_call_ok now m : call_ok (call_id (new_call now m)) (new_call now m).
Proof. constructor; simpl; try done. set_solver. Qed.

(** Add the invariant of every intermediate state an equation names. *)
Ltac ok_forward :=
  repeat match goal with
  | Hs : srv_ok ?s, H : check_limit _ _ _ ?s = Some (?s', _) |- _ =>
      pose proof (ok_check_limit _ _ _ _ _ _ Hs H); clear H
  | Hs : srv_ok ?s, H : send_to_peer _ _ (forward _ _) ?s = (_, ?s') |- _ =>
      assert (srv_ok s') by (eapply ok_send_eq; [exact Hs| |exact H]; done); clear H
  | Hs : srv_ok ?s, H : create_call (new_call _ _) ?s = (_, ?s') |- _ =>
      pose proof (ok_create_eq _ _ _ _ Hs (new_call_ok _ _) H); clear H
  | Hs : srv_ok ?s, H : update_call_state _ _ ?s = (_, ?s') |- _ =>
      pose proof (ok_update_eq _ _ _ _ Hs H); clear H
  | Hs : srv_ok ?s, H : send_relay_needed _ _ _ _ _ ?s = (_, ?s') |- _ =>
      pose proof (ok_relay_eq _ _ _ _ _ _ _ _ Hs H); clear H
  | Hs : srv_ok ?s, H : get_call _ ?s = (_, ?s') |- _ =>
      pose proof (ok_get_call_eq _ _ _ _ Hs H); clear H
  end.

Ltac ok_finish := simplify_eq/=; ok_forward; eauto using ok_reply, ok_remove_call, ok_end_call.

Lemma ok_handle_register c p h s h' s' :
  srv_ok s -> ws_handle_peer_register c p (h, s) = Some (h', s') -> srv_ok s'.
Proof.
  intros Hs. unfold ws_handle_peer_register. repeat case_goal; intros; try done; ok_finish.
  by apply ok_register.
Qed.

Lemma ok_handle_unregister p h s h' s' :
  srv_ok s -> ws_handle_peer_unregister p (h, s) = Some (h', s') -> srv_ok s'.
Proof.
  intros Hs. unfold ws_handle_peer_unregister. repeat case_goal; intros; ok_finish.
  by apply ok_unregister.
Qed.

Lemma ok_handle_request c p h s h' s' :
  srv_ok s -> ws_handle_call_request c p (h, s) = Some (h', s') -> srv_ok s'.
Proof. intros Hs. unfold ws_handle_call_request. repeat case_goal; intros; try done; ok_finish. Qed.

Lemma ok_handle_accept c p h s h' s' :
  srv_ok s -> ws_handle_call_accept c p (h, s) = Some (h', s') -> srv_ok s'.
Proof. intros Hs. unfold ws_handle_call_accept. repeat case_goal; intros; try done; ok_finish. Qed.

Lemma ok_send_forward co k t p s :
  srv_ok s -> t <> PUSH_RETRY -> srv_ok (send_to_peer co k (forward t p) s).2.
Proof. intros. by apply ok_send, push_first_other. Qed.

Lemma ok_handle_reject c p h s h' s' :
  srv_ok s -> ws_handle_call_reject c p (h, s) = Some (h', s') -> srv_ok s'.
Proof.
  intros Hs. unfold ws_handle_call_reject. repeat case_goal; intros; ok_finish.
  apply ok_remove_call, ok_send_forward; [|done]. by apply ok_end_call.
Qed.

Lemma ok_handle_ended c p h s h' s' :
  srv_ok s -> ws_handle_call_ended c p (h, s) = Some (h', s') -> srv_ok s'.
Proof.
  intros Hs. unfold ws_handle_call_ended. repeat case_goal; intros; ok_finish.
  apply ok_remove_call, ok_end_call. by apply ok_send_forward.
Qed.

Lemma get_call_entry k s c s' : srv_ok s -> get_call k s = (Some c, s') -> retry_count c = 0.
Proof.
  intros Hs. unfold get_call. intros [= H _]. by apply (ok_call_entries s Hs) in H as [].
Qed.

Lemma ok_handle_failed c p h s h' s' :
  srv_ok s -> ws_handle_call_failed c p (h, s) = Some (h', s') -> srv_ok s'.
Proof.
  intros Hs. unfold ws_handle_call_failed.
  destruct (prost_decode p) as [msg|]; [|by intros [= _ <-]].
  destruct (get_call (cf_call_id msg) s) as [[e|] s1] eqn:E; [|intros; ok_finish].
  pose proof (get_call_entry _ _ _ _ Hs E) as Hr. ok_forward.
  case_goal; [intros; ok_finish|]. rewrite Hr.
  set (s2 := (send_to_peer _ _ _ s1).2).
  assert (Hs2 : srv_ok s2) by (by apply ok_send_forward).
  repeat case_goal; intros H0; try done; simplify_eq; ok_forward; apply ok_end_call; try done;
    match goal with
    | H : handle_retryable_failure _ _ _ _ _ _ _ _ _ = Some _ |- _ => by apply ok_retry in H
    end.
Qed.

Lemma ok_dispatch c m h s h' s' :
  srv_ok s -> dispatch_ws_message c m (h, s) = Some (h', s') -> srv_ok s'.
Proof.
  intros Hs. unfold dispatch_ws_message.
  case_goal; [by apply ok_handle_register|]. case_goal; [by apply ok_handle_unregister|].
  case_goal; [by apply ok_handle_request|]. case_goal; [by apply ok_handle_accept|].
  case_goal; [by apply ok_handle_reject|]. case_goal; [by apply ok_handle_failed|].
  case_goal; [by apply ok_handle_ended|]. intros; ok_finish.
Qed.

Lemma ok_receive c data h s h' s' :
  srv_ok s -> ws_receive c data (h, s) = Some (h', s') -> srv_ok s'.
Proof.
  intros Hs. unfold ws_receive. cbn [fst snd]. repeat case_goal; intros; try done; try (by ok_finish).
  - ok_forward. eauto using ok_dispatch.
  - eauto using ok_dispatch.
Qed.

Lemma ok_close h s : srv_ok s -> srv_ok (ws_close (h, s)).
Proof. intros. unfold ws_close. case_goal; [by apply ok_disconnect|done]. Qed.

(** *** The calls after each operation *)

Lemma send_calls co k m s : calls (send_to_peer co k m s).2 = calls s.
Proof. unfold send_to_peer. by repeat case_goal. Qed.

Lemma send_calls_eq co k m s r s' : send_to_peer co k m s = (r, s') -> calls s' = calls s.
Proof. intros H. by rewrite <- (send_calls co k m s), H. Qed.

Lemma reply_calls c code msg s : calls (reply_error c code msg s) = calls s.
Proof. unfold reply_error, reply. by case_goal. Qed.

Lemma limit_calls c a k s s' b : check_limit c a k s = Some (s', b) -> calls s' = calls s.
Proof. unfold check_limit. repeat case_goal; try done. by intros [= <- _]. Qed.

Lemma relay_calls co clk id a b s : calls (send_relay_needed co clk id a b s).2 = calls s.
Proof.
  unfold send_relay_needed. case_goal; [|done]. case_goal. apply send_calls_eq in E0.
  case_goal; [|done]. by rewrite send_calls, E0.
Qed.

Lemma retry_calls m co id a b r o n s s' :
  handle_retryable_failure m co id a b r o n s = Some s' -> calls s' = calls s.
Proof.
  unfold handle_retryable_failure, get_peer. cbn zeta.
  repeat case_goal; try done; intros [= <-]; try done; simplify_eq; cbn [calls notify set_peers];
    by rewrite send_calls.
Qed.

Lemma register_calls info o s : calls (register_peer info o s) = calls s.
Proof. unfold register_peer. by case_goal. Qed.

Lemma unregister_calls k s : calls (unregister_peer k s) = calls s.
Proof. unfold unregister_peer. by case_goal. Qed.

Lemma get_call_eq k s o s' : get_call k s = (o, s') ->
  lru_map (calls s) !! k = o /\ lru_map (calls s') = lru_map (calls s).
Proof. unfold get_call. intros [= <- <-]. simpl. by rewrite promote_map. Qed.

Lemma end_call_map clk k r s c : lru_map (calls s) !! k = Some c ->
  lru_map (calls (end_call clk k r s).2) = <[k := mark_ended (unix_secs clk) r c]> (lru_map (calls s)).
Proof.
  intros H. unfold end_call, lru_contains. rewrite H. simpl. rewrite modify_map.
  apply map_eq. intros j. destruct (decide (j = k)) as [->|].
  - by rewrite lookup_alter_eq, H, lookup_insert_eq.
  - by rewrite lookup_alter_ne, lookup_insert_ne.
Qed.

Lemma remove_call_map k s : lru_map (calls (remove_call k s)) = delete k (lru_map (calls s)).
Proof. simpl. apply pop_map. Qed.

Lemma update_state_map k st s c : lru_map (calls s) !! k = Some c ->
  exists s', update_call_state k st s = (Ok tt, s') /\ s' = set_calls (calls s') s /\
    lru_map (calls s') = <[k := with_state st c]> (lru_map (calls s)).
Proof.
  intros H. unfold update_call_state, lru_contains. rewrite H. eexists; split; [done|].
  split; [done|]. simpl. rewrite modify_map. apply map_eq. intros j.
  destruct (decide (j = k)) as [->|].
  - by rewrite lookup_alter_eq, H, lookup_insert_eq.
  - by rewrite lookup_alter_ne, lookup_insert_ne.
Qed.

Lemma create_call_map c s r s' : srv_ok s -> create_call c s = (r, s') ->
  match r with
  | Err _ => calls s' = calls s
  | Ok _ => lru_map (calls s) !! call_id c = None /\
      (lru_map (calls s') = <[call_id c := c]> (lru_map (calls s)) \/
       size (lru_map (calls s)) = CALLS_CAP /\
       exists j, j <> call_id c /\
         lru_map (calls s') = <[call_id c := c]> (delete j (lru_map (calls s))))
  end.
Proof.
  intros Hs. unfold create_call. repeat case_goal; intros [= <- <-]; try done.
  unfold lru_contains in *. destruct (lru_map (calls s) !! call_id c) eqn:Ec; [done|].
  split; [done|]. simpl.
  destruct (lru_put_cases CALLS_CAP (call_id c) c (calls s) calls_cap_pos (ok_calls s Hs))
    as [->|(_ & Hsz & j & _ & Hj & ->)]; [by left|]. right. split; [done|]. by exists j.
Qed.

Lemma holder_same p q : holder_differs (Some p) q = false -> p = q.
Proof. unfold holder_differs. intros H. by bool_to_prop. Qed.

Lemma not_participant_false p c : not_participant (Some p) c = false -> participant p c.
Proof.
  unfold not_participant, participant. intros H. apply andb_false_iff in H as [H|H];
    apply holder_same in H; auto.
Qed.

Lemma ok_server_step w w' : srv_ok (server w) -> server_step w w' -> srv_ok (server w').
Proof.
  intros Hs Hstep. revert Hs. destruct Hstep; simpl; intros Hs; try done.
  - by eapply ok_receive.
  - by apply ok_close.
  - by apply ok_register.
  - by apply ok_unregister.
  - by apply ok_set_proxies.
Qed.

(** *** Each handler follows the specification *)

Lemma step_same p s s' : calls s' = calls s ->
  registry_step p (lru_map (calls s)) (lru_map (calls s')).
Proof. intros ->. constructor. Qed.

Lemma access_request c pl p s h' s' : srv_ok s ->
  ws_handle_call_request c pl (Some p, s) = Some (h', s') ->
  registry_step p (lru_map (calls s)) (lru_map (calls s')).
Proof.
  intros Hs. unfold ws_handle_call_request.
  destruct (prost_decode pl) as [msg|]; [|intros [= _ <-]; apply step_same, reply_calls].
  destruct (check_limit _ _ _ _) as [[s1 b]|] eqn:El; [|done].
  pose proof (ok_check_limit _ _ _ _ _ _ Hs El) as Hs1. apply limit_calls in El.
  case_goal; [intros [= _ <-]; apply step_same; by rewrite reply_calls|].
  case_goal; [intros [= _ <-]; apply step_same; by rewrite reply_calls|].
  apply holder_same in E0.
  destruct (create_call _ _) as [r s2] eqn:Ec. pose proof (create_call_map _ _ _ _ Hs1 Ec) as Hm.
  destruct r as [u|e]; [|intros [= _ <-]; apply step_same; by rewrite reply_calls, Hm].
  destruct Hm as [Hnone Hm]. rewrite El in *.
  destruct (send_to_peer _ _ _ _) as [r s3] eqn:Es. apply send_calls_eq in Es.
  destruct r as [u'|e]; intros [= _ <-].
  - rewrite Es. destruct Hm as [->|(Hsz & j & Hj & ->)]; [by apply reg_ring|by apply reg_ring_full].
  - rewrite remove_call_map, reply_calls, Es.
    destruct Hm as [->|(Hsz & j & Hj & ->)].
    + rewrite delete_insert_id by done. constructor.
    + rewrite delete_insert_id by (by rewrite lookup_delete_ne). by apply reg_undelivered_full.
Qed.

Lemma access_accept c pl p s h' s' :
  ws_handle_call_accept c pl (Some p, s) = Some (h', s') ->
  registry_step p (lru_map (calls s)) (lru_map (calls s')).
Proof.
  unfold ws_handle_call_accept.
  destruct (prost_decode pl) as [msg|]; [|intros [= _ <-]; apply step_same, reply_calls].
  destruct (get_call _ s) as [o s1] eqn:Eg. apply get_call_eq in Eg as [Ho Hm].
  destruct o as [e|]; [|intros [= _ <-]; rewrite reply_calls, Hm; constructor].
  case_goal; [intros [= _ <-]; rewrite reply_calls, Hm; constructor|].
  apply holder_same in E. rewrite <- Hm in Ho.
  destruct (update_state_map (ca_call_id msg) STATE_ACCEPTED s1 e Ho) as (s2 & -> & _ & Hm2).
  destruct (get_call _ s2) as [o2 s3] eqn:Eg2. apply get_call_eq in Eg2 as [Ho2 Hm3].
  assert (Hstep : registry_step p (lru_map (calls s)) (lru_map (calls s3))).
  { rewrite Hm3, Hm2, Hm. eapply reg_accept; [by rewrite <- Hm|done]. }
  destruct o2 as [e2|]; [|intros [= _ <-]; by rewrite reply_calls].
  destruct (send_to_peer _ _ _ _) as [r s4] eqn:Es. apply send_calls_eq in Es.
  destruct r; intros [= _ <-]; by rewrite ?reply_calls, Es.
Qed.

Lemma access_reject c pl p s h' s' :
  ws_handle_call_reject c pl (Some p, s) = Some (h', s') ->
  registry_step p (lru_map (calls s)) (lru_map (calls s')).
Proof.
  unfold ws_handle_call_reject.
  destruct (prost_decode pl) as [msg|]; [|intros [= _ <-]; constructor].
  destruct (get_call _ s) as [o s1] eqn:Eg. apply get_call_eq in Eg as [Ho Hm].
  destruct o as [e|]; [|intros [= _ <-]; rewrite reply_calls, Hm; constructor].
  case_goal; [intros [= _ <-]; rewrite reply_calls, Hm; constructor|].
  apply holder_same in E. intros [= _ <-].
  rewrite remove_call_map, send_calls, (end_call_map _ _ _ _ e) by (by rewrite Hm).
  rewrite delete_insert_eq, Hm. by eapply reg_reject.
Qed.

Lemma access_ended c pl p s h' s' :
  ws_handle_call_ended c pl (Some p, s) = Some (h', s') ->
  registry_step p (lru_map (calls s)) (lru_map (calls s')).
Proof.
  unfold ws_handle_call_ended.
  destruct (prost_decode pl) as [msg|]; [|intros [= _ <-]; constructor].
  destruct (get_call _ s) as [o s1] eqn:Eg. apply get_call_eq in Eg as [Ho Hm].
  destruct o as [e|]; [|intros [= _ <-]; rewrite reply_calls, Hm; constructor].
  case_goal; [intros [= _ <-]; rewrite reply_calls, Hm; constructor|].
  apply not_participant_false in E. intros [= _ <-].
  rewrite remove_call_map, (end_call_map _ _ _ _ e) by (by rewrite send_calls, Hm).
  rewrite delete_insert_eq, send_calls, Hm. by eapply reg_end.
Qed.

Lemma failed_map c pl h s h' s' msg e :
  prost_decode pl = Some msg -> lru_map (calls s) !! cf_call_id msg = Some e ->
  not_participant h e = false ->
  ws_handle_call_failed c pl (h, s) = Some (h', s') ->
  lru_map (calls s') =
    <[cf_call_id msg := mark_ended (unix_secs (clock c)) (Some (cf_description msg)) e]>
      (lru_map (calls s)).
Proof.
  intros Hd Hk Hp. unfold ws_handle_call_failed. rewrite Hd. unfold get_call. rewrite Hk, Hp.
  set (s1 := set_calls _ s). set (s2 := (send_to_peer _ _ _ s1).2).
  assert (Hm : lru_map (calls s1) = lru_map (calls s)) by (simpl; by rewrite promote_map).
  assert (Hend : forall s3, calls s3 = calls s1 ->
    lru_map (calls (end_call (clock c) (cf_call_id msg) (Some (cf_description msg)) s3).2) =
    <[cf_call_id msg := mark_ended (unix_secs (clock c)) (Some (cf_description msg)) e]>
      (lru_map (calls s))).
  { intros s3 H3. rewrite (end_call_map _ _ _ _ e) by (by rewrite H3, Hm). by rewrite H3, Hm. }
  assert (H2 : calls s2 = calls s1) by apply send_calls.
  intros H. repeat (case_in H; try discriminate); simplify_eq; apply Hend; try done;
    repeat match goal with
    | H : handle_retryable_failure _ _ _ _ _ _ _ _ _ = Some _ |- _ => apply retry_calls in H; rewrite H
    | H : send_relay_needed ?co ?clk ?id ?a ?b ?s = (_, ?s') |- _ =>
        pose proof (relay_calls co clk id a b s); rewrite H in *; clear H; simpl in *
    end; congruence.
Qed.

Lemma access_failed c pl p s h' s' :
  ws_handle_call_failed c pl (Some p, s) = Some (h', s') ->
  registry_step p (lru_map (calls s)) (lru_map (calls s')).
Proof.
  intros H. pose proof H as H'. unfold ws_handle_call_failed in H.
  destruct (prost_decode pl) as [msg|] eqn:Hd; [|simplify_eq; constructor].
  destruct (get_call _ s) as [o s1] eqn:Eg. apply get_call_eq in Eg as [Ho Hm].
  destruct o as [e|]; [|injection H as _ <-; rewrite reply_calls, Hm; constructor].
  destruct (not_participant (Some p) e) eqn:Hp;
    [injection H as _ <-; rewrite reply_calls, Hm; constructor|clear H].
  rewrite (failed_map _ _ _ _ _ _ _ _ Hd Ho Hp H').
  apply not_participant_false in Hp. by eapply reg_fail.
Qed.

Lemma access_receive c data p s h' s' : srv_ok s ->
  ws_receive c data (Some p, s) = Some (h', s') ->
  registry_step p (lru_map (calls s)) (lru_map (calls s')).
Proof.
  intros Hs. unfold ws_receive. cbn [fst snd].
  case_goal; [intros [= _ <-]; constructor|].
  destruct (framed_from_bytes data) as [m|]; [|intros [= _ <-]; constructor].
  destruct (check_limit _ _ _ _) as [[s1 b]|] eqn:El; [|done].
  pose proof (ok_check_limit _ _ _ _ _ _ Hs El) as Hs1. apply limit_calls in El.
  case_goal; [intros [= _ <-]; apply step_same; by rewrite reply_calls|].
  rewrite <- El. unfold dispatch_ws_message.
  case_goal.
  { unfold ws_handle_peer_register. repeat case_goal; intros; simplify_eq; apply step_same;
      rewrite ?register_calls, ?reply_calls; try done;
      match goal with H : check_limit _ _ _ _ = _ |- _ => by apply limit_calls in H end. }
  case_goal.
  { unfold ws_handle_peer_unregister. case_goal; intros [= _ <-]; apply step_same;
      by rewrite ?unregister_calls. }
  repeat (case_goal; [eauto using access_request, access_accept, access_reject, access_failed,
    access_ended|]).
  intros [= _ <-]. apply step_same, reply_calls.
Qed.
End Facts.

(** *** What the theorems below share *)

Section TheoremFacts.
Context {S : SigScheme} {L : Lru} {LL : LruLaws L} {P : ServerProto}.
Implicit Types s : Server.

Lemma unregister_gone k s : lru_map (peers (unregister_peer k s)) !! k = None.
Proof.
  unfold unregister_peer. destruct (lru_map (peers s) !! k) eqn:E; [|done].
  simpl. by rewrite pop_map, lookup_delete_eq.
Qed.

Lemma register_sender info ch s : srv_ok s ->
  lru_map (peers (register_peer info (Some ch) s)) !! pi_peer_id info
  = Some {| pe_info := info; pe_sender := Some ch |}.
Proof.
  intros Hs. unfold register_peer. destruct (lru_map (peers s) !! pi_peer_id info) eqn:E; simpl.
  - by rewrite modify_map, lookup_alter_eq, E.
  - apply (lru_put_lookup PEERS_CAP); [apply peers_cap_pos|by apply ok_peers].
Qed.

Lemma send_delivers co k m s i ch :
  lru_map (peers s) !! k = Some {| pe_info := i; pe_sender := Some ch |} -> co ch = true ->
  exists s', send_to_peer co k m s = (Ok tt, s') /\ sent s' = sent s ++ [(ch, m)] /\
    lru_map (peers s') = lru_map (peers s) /\ calls s' = calls s.
Proof.
  intros Hk Hco. unfold send_to_peer. rewrite Hk. cbn [pe_sender]. rewrite Hco.
  eexists; split; [done|]. simpl. by rewrite promote_map.
Qed.

Lemma disconnect_sender k s e :
  lru_map (peers s) !! k = Some e ->
  exists i, lru_map (peers (disconnect_peer k s)) !! k = Some {| pe_info := i; pe_sender := None |}.
Proof.
  intros Hk. unfold disconnect_peer. rewrite Hk. case_goal; simpl.
  - bool_to_prop. rewrite promote_map, Hk. exists (pe_info e). destruct e; simpl in *; by subst.
  - rewrite modify_map, lookup_alter_eq, promote_map, Hk. by eexists.
Qed.

Lemma send_offline co k m s i :
  lru_map (peers s) !! k = Some {| pe_info := i; pe_sender := None |} ->
  (send_to_peer co k m s).1 = Err (Sig_PeerOffline k).
Proof. intros Hk. unfold send_to_peer. by rewrite Hk. Qed.

(** A call message of a session that is allowed to send it. *)
Lemma handle_ended_removes c pl h s k e :
  prost_decode (M := CallEndedMsg) pl = Some {| ce_call_id := k |} ->
  lru_map (calls s) !! k = Some e -> not_participant h e = false ->
  exists s', ws_handle_call_ended c pl (h, s) = Some (h, s') /\
    lru_map (calls s') = delete k (lru_map (calls s)) /\
    sent s' = sent (send_to_peer (chan_open c) (other_peer_of h e) (forward CALL_ENDED pl)
                      (get_call k s).2).2.
Proof.
  intros Hd Hk Hp. unfold ws_handle_call_ended. rewrite Hd. cbn [ce_call_id].
  unfold get_call at 1. rewrite Hk, Hp. eexists; split; [done|].
  rewrite remove_call_map, (end_call_map _ _ _ _ e)
    by (rewrite send_calls; simpl; by rewrite promote_map).
  rewrite delete_insert_eq, send_calls. cbn [calls set_calls]. rewrite promote_map. split; [done|].
  simpl. unfold end_call. by case_goal.
Qed.

Lemma handle_accept_sets c pl h s k e i ch :
  prost_decode (M := CallAcceptMsg) pl = Some {| ca_call_id := k |} ->
  lru_map (calls s) !! k = Some e -> holder_differs h (callee_id e) = false ->
  lru_map (peers s) !! caller_id e = Some {| pe_info := i; pe_sender := Some ch |} ->
  chan_open c ch = true ->
  exists s', ws_handle_call_accept c pl (h, s) = Some (h, s') /\
    lru_map (calls s') = <[k := with_state STATE_ACCEPTED e]> (lru_map (calls s)) /\
    lru_map (peers s') = lru_map (peers s) /\
    sent s' = sent s ++ [(ch, forward CALL_ACCEPT_SC pl)].
Proof.
  intros Hd Hk Hh Hp Hco. unfold ws_handle_call_accept. rewrite Hd. cbn [ca_call_id].
  unfold get_call at 1. rewrite Hk, Hh.
  set (s1 := set_calls (lru_promote k (calls s)) s).
  assert (Hk1 : lru_map (calls s1) !! k = Some e) by (simpl; by rewrite promote_map).
  destruct (update_state_map k STATE_ACCEPTED s1 e Hk1) as (s2 & -> & Heq & Hm2).
  unfold get_call. rewrite Hm2, lookup_insert_eq. cbn [with_state caller_id].
  set (s3 := set_calls (lru_promote k (calls s2)) s2).
  destruct (send_delivers (chan_open c) (caller_id e) (forward CALL_ACCEPT_SC pl) s3 i ch)
    as (s4 & -> & Hsent & Hpeers & Hcalls); [simpl; rewrite Heq; done|done|].
  eexists; split; [done|]. rewrite Hcalls, Hpeers, Hsent. simpl. rewrite promote_map, Hm2.
  simpl. rewrite promote_map. rewrite Heq. done.
Qed.

Lemma limit_frame c a k s s' b : check_limit c a k s = Some (s', b) ->
  peers s' = peers s /\ calls s' = calls s /\ sent s' = sent s.
Proof. unfold check_limit. repeat case_goal; try done. by intros [= <- _]. Qed.

Lemma handle_request_rings c pl h s s1 msg i ch :
  srv_ok s -> prost_decode pl = Some msg ->
  check_limit c Action_Call (cr_caller_id msg) s = Some (s1, true) ->
  holder_differs h (cr_caller_id msg) = false ->
  is_Some (lru_map (peers s) !! cr_caller_id msg) ->
  lru_map (peers s) !! cr_callee_id msg = Some {| pe_info := i; pe_sender := Some ch |} ->
  chan_open c ch = true -> lru_map (calls s) !! cr_call_id msg = None ->
  (size (lru_map (calls s)) < CALLS_CAP)%nat ->
  exists s', ws_handle_call_request c pl (h, s) = Some (h, s') /\
    lru_map (calls s') =
      <[cr_call_id msg := new_call (unix_secs (clock c)) msg]> (lru_map (calls s)) /\
    lru_map (peers s') = lru_map (peers s) /\
    sent s' = sent s ++ [(ch, forward CALL_REQUEST_SC pl)].
Proof.
  intros Hs Hd Hl Hh [ce Hcaller] Hcallee Hco Hfresh Hsz. unfold ws_handle_call_request.
  rewrite Hd, Hl, Hh. cbn [negb]. destruct (limit_frame _ _ _ _ _ _ Hl) as (Hp & Hc & Hsent).
  unfold create_call, lru_contains. cbn [new_call caller_id callee_id call_id].
  rewrite Hp, Hc, Hcaller, Hcallee, Hfresh. cbn [negb].
  set (s2 := set_calls _ s1).
  assert (Hs2 : lru_map (calls s2) =
      <[cr_call_id msg := new_call (unix_secs (clock c)) msg]> (lru_map (calls s))).
  { simpl. apply put_map. right. destruct (ok_calls s Hs) as [-> _]. done. }
  destruct (send_delivers (chan_open c) (cr_callee_id msg) (forward CALL_REQUEST_SC pl) s2 i ch)
    as (s3 & -> & H3 & Hp3 & Hc3); [simpl; by rewrite Hp|done|].
  eexists; split; [done|]. rewrite Hc3, Hs2, Hp3, H3. simpl. by rewrite Hp, Hsent.
Qed.
End TheoremFacts.

Lemma sample_server_ok : srv_ok (P := Sample.proto) Sample.server.
Proof. apply ok_register, ok_register, ok_server_new. Qed.

(** ** Properties *)

(** In every reachable state of the server the registries stay within their bounds of
    10000 peers and 1000 calls, every entry is kept under its own identifier, a call is
    ringing, accepted or ended (never marked connected), and no retry is ever counted:
    every push retry sent is the first attempt. *)
Lemma server_registry_invariant {S : SigScheme} {L : Lru} {LL : LruLaws L} {P : ServerProto}
    (w : World S L) :
  reachable server_init server_step w -> srv_ok (server w).
Proof.
  revert w. apply (reachable_invariant _ _ (fun w => srv_ok (server w))).
  - intros w0 (rl & ips & key & cfg & -> & _). apply ok_server_new.
  - intros w0 w1. apply ok_server_step.
Qed.

(** A frame received by a session bound to peer [p] changes the calls only as the
    access rules allow: [p] rings calls as their caller, accepts and rejects calls as
    their callee, and fails or ends calls it takes part in; a new call in a full registry
    displaces one other call. *)
Lemma calls_access_control {S : SigScheme} {L : Lru} {LL : LruLaws L} {P : ServerProto}
    c data p s h' s' :
  srv_ok s -> ws_receive c data (Some p, s) = Some (h', s') ->
  registry_step p (lru_map (calls s)) (lru_map (calls s')).
Proof. apply access_receive. Qed.

(** C37: a call through the server.  With both peers connected, a fresh identifier, room in
    the registry and the caller within its limit, the request is forwarded to the callee and the call
    rings; the callee's acceptance is forwarded to the caller and marks it accepted; the
    caller's end is forwarded to the callee and removes it. *)
Theorem call_lifecycle {S : SigScheme} {L : Lru} {LL : LruLaws L} {P : ServerProto}
    ca cb p1 p2 p3 s s1 msg ia ib cha chb :
  let A := cr_caller_id msg in let B := cr_callee_id msg in let k := cr_call_id msg in
  srv_ok s -> A <> B -> prost_decode p1 = Some msg ->
  prost_decode p2 = Some {| ca_call_id := k |} -> prost_decode p3 = Some {| ce_call_id := k |} ->
  check_limit ca Action_Call A s = Some (s1, true) ->
  lru_map (peers s) !! A = Some {| pe_info := ia; pe_sender := Some cha |} ->
  lru_map (peers s) !! B = Some {| pe_info := ib; pe_sender := Some chb |} ->
  (forall ch, chan_open ca ch = true) -> (forall ch, chan_open cb ch = true) ->
  lru_map (calls s) !! k = None -> (size (lru_map (calls s)) < CALLS_CAP)%nat ->
  exists t1 t2 t3,
    ws_handle_call_request ca p1 (Some A, s) = Some (Some A, t1) /\
    option_map call_state (lru_map (calls t1) !! k) = Some STATE_RINGING /\
    ws_handle_call_accept cb p2 (Some B, t1) = Some (Some B, t2) /\
    option_map call_state (lru_map (calls t2) !! k) = Some STATE_ACCEPTED /\
    ws_handle_call_ended ca p3 (Some A, t2) = Some (Some A, t3) /\
    lru_map (calls t3) = lru_map (calls s) /\
    sent t3 = sent s ++ [(chb, forward CALL_REQUEST_SC p1); (cha, forward CALL_ACCEPT_SC p2);
                         (chb, forward CALL_ENDED p3)].
Proof.
  intros A B k Hs HAB Hd1 Hd2 Hd3 Hl HA HB Hca Hcb Hk Hsz.
  destruct (handle_request_rings ca p1 (Some A) s s1 msg ib chb) as (t1 & Ht1 & Hm1 & Hp1 & Hs1);
    try done; [by apply negb_false_iff, bool_decide_eq_true|].
  destruct (handle_accept_sets cb p2 (Some B) t1 k (new_call (unix_secs (clock ca)) msg) ia cha)
    as (t2 & Ht2 & Hm2 & Hp2 & Hs2); try done.
  { by rewrite Hm1, lookup_insert_eq. }
  { by apply negb_false_iff, bool_decide_eq_true. }
  { by rewrite Hp1. }
  destruct (handle_ended_removes ca p3 (Some A) t2 k
    (with_state STATE_ACCEPTED (new_call (unix_secs (clock ca)) msg))) as (t3 & Ht3 & Hm3 & Hs3); try done.
  { by rewrite Hm2, lookup_insert_eq. }
  { apply andb_false_iff. left. by apply negb_false_iff, bool_decide_eq_true. }
  exists t1, t2, t3. split; [done|]. rewrite Hm1, lookup_insert_eq. split; [done|]. split; [done|].
  rewrite Hm2, lookup_insert_eq. split; [done|]. split; [done|]. split.
  - by rewrite Hm3, Hm2, Hm1, delete_insert_eq, delete_insert_id.
  - rewrite Hs3. unfold other_peer_of. cbn [with_state new_call caller_id callee_id].
    rewrite bool_decide_eq_true_2 by done.
    destruct (send_delivers (chan_open ca) B (forward CALL_ENDED p3) (get_call k t2).2 ib chb)
      as (t4 & Ht4 & Hsent & _); [simpl; by rewrite Hp2, Hp1|done|].
    unfold B in Ht4. rewrite Ht4. simpl. rewrite Hsent. simpl. by rewrite Hs2, Hs1, <- !app_assoc.
Qed.

Lemma server_registry_invariant_witness :
  srv_ok (S := ToySig.scheme) (L := ListLru.ops) (P := Sample.proto) Sample.server0.
Proof.
  refine (server_registry_invariant (S := ToySig.scheme) (L := ListLru.ops) (LL := list_lru_laws)
            (P := Sample.proto) {| server := Sample.server0; sessions := ∅ |} _).
  apply reachable_init. exists default_rate_limits, [], "k"%char, default_config.
  split; reflexivity.
Defined.

Lemma calls_access_control_witness :
  registry_step "a" (lru_map (calls Sample.server)) (lru_map (calls Sample.calling)) /\
  option_map call_state (lru_map (calls Sample.calling) !! "k") = Some STATE_RINGING.
Proof.
  split; [|vm_compute; reflexivity].
  refine (calls_access_control (S := ToySig.scheme) (L := ListLru.ops) (LL := list_lru_laws)
            (P := Sample.proto) (Sample.ctx 1) [0; 1; 1] "a" Sample.server (Some "a") Sample.calling _ _).
  - exact sample_server_ok.
  - assert (H : option_map fst (ws_receive (P := Sample.proto) (Sample.ctx 1) [0; 1; 1]
                                  (Some "a", Sample.server)) = Some (Some "a"))
      by (vm_compute; reflexivity).
    unfold Sample.calling. destruct (ws_receive _ _ _) as [[h x]|]; [|discriminate H].
    injection H as ->. reflexivity.
Defined.

Lemma call_lifecycle_witness :
  exists t1 t2 t3,
    ws_handle_call_request (P := Sample.proto) (Sample.ctx 1) [1] (Some "a", Sample.server)
      = Some (Some "a", t1) /\
    ws_handle_call_accept (P := Sample.proto) (Sample.ctx 2) [1] (Some "b", t1) = Some (Some "b", t2) /\
    ws_handle_call_ended (P := Sample.proto) (Sample.ctx 1) [1] (Some "a", t2) = Some (Some "a", t3) /\
    sent t3 = [(2, forward CALL_REQUEST_SC [1]); (1, forward CALL_ACCEPT_SC [1]);
               (2, forward CALL_ENDED [1])].
Proof.
  destruct (call_lifecycle (S := ToySig.scheme) (L := ListLru.ops) (LL := list_lru_laws)
              (P := Sample.proto) (Sample.ctx 1) (Sample.ctx 2) [1] [1] [1] Sample.server
              Sample.limited Sample.request (Sample.info "a") (Sample.info "b") 1 2)
    as (t1 & t2 & t3 & H1 & _ & H2 & _ & H3 & _ & Hsent).
  - exact sample_server_ok.
  - discriminate.
  - reflexivity.
  - reflexivity.
  - reflexivity.
  - assert (H : option_map snd (check_limit (Sample.ctx 1) Action_Call "a" Sample.server) = Some true)
      by (vm_compute; reflexivity).
    unfold Sample.limited. cbn [cr_caller_id Sample.request].
    destruct (check_limit _ _ _ _) as [[x b]|]; [|discriminate H].
    injection H as ->. reflexivity.
  - vm_compute. reflexivity.
  - vm_compute. reflexivity.
  - reflexivity.
  - reflexivity.
  - vm_compute. reflexivity.
  - vm_compute. lia.
  - exists t1, t2, t3. auto.
Defined.

(** Nothing ties an unregistration to the session that sends it: any session can
    unregister any peer, and the session that did so holds no identity and passes the
    participant checks of every call, for instance to end it. *)
Lemma anonymous_session_ends_any_call {S : SigScheme} {L : Lru} {LL : LruLaws L} {P : ServerProto}
    c p1 p2 h s v k e :
  prost_decode p1 = Some {| pu_peer_id := v |} -> prost_decode p2 = Some {| ce_call_id := k |} ->
  lru_map (calls s) !! k = Some e ->
  exists s1 s2,
    dispatch_ws_message c {| type_id := PEER_UNREGISTER; framed_payload := p1 |} (h, s) = Some (None, s1) /\
    lru_map (peers s1) !! v = None /\
    dispatch_ws_message c {| type_id := CALL_ENDED; framed_payload := p2 |} (None, s1) = Some (None, s2) /\
    lru_map (calls s2) !! k = None.
Proof.
  intros Hd1 Hd2 Hk. unfold dispatch_ws_message at 1. cbn [type_id framed_payload Z.eqb Pos.eqb].
  unfold ws_handle_peer_unregister. rewrite Hd1.
  destruct (handle_ended_removes c p2 None (unregister_peer v s) k e) as (s2 & H2 & Hm & _);
    [done|by rewrite unregister_calls|done|].
  exists (unregister_peer v s), s2. split; [done|]. split; [apply unregister_gone|].
  split; [done|]. by rewrite Hm, lookup_delete_eq.
Qed.

Lemma anonymous_session_ends_any_call_witness :
  exists s1 s2,
    dispatch_ws_message (P := Sample.proto) (Sample.ctx 9)
      {| type_id := PEER_UNREGISTER; framed_payload := [1] |} (Some "x", Sample.calling) = Some (None, s1) /\
    dispatch_ws_message (P := Sample.proto) (Sample.ctx 9)
      {| type_id := CALL_ENDED; framed_payload := [1] |} (None, s1) = Some (None, s2) /\
    lru_map (calls s2) !! "k" = None.
Proof.
  destruct (anonymous_session_ends_any_call (S := ToySig.scheme) (L := ListLru.ops) (LL := list_lru_laws)
              (P := Sample.proto) (Sample.ctx 9) [1] [1] (Some "x") Sample.calling "b" "k"
              (new_call 0 Sample.request)) as (s1 & s2 & H1 & _ & H2 & H3).
  - reflexivity.
  - reflexivity.
  - vm_compute. reflexivity.
  - exists s1, s2. auto.
Defined.

(** A registration is not tied to the token of the session: whatever peer a session
    registers as, it then holds that identity and receives what is sent to that peer,
    also when another session was registered as it. *)
Lemma registration_takes_over_peer {S : SigScheme} {L : Lru} {LL : LruLaws L} {P : ServerProto}
    c p h s s1 msg :
  srv_ok s -> prost_decode p = Some msg ->
  check_limit c Action_Registration (pr_peer_id msg) s = Some (s1, true) ->
  exists s', ws_handle_peer_register c p (h, s) = Some (Some (pr_peer_id msg), s') /\
    forall co m, co (tx c) = true -> exists s'',
      send_to_peer co (pr_peer_id msg) m s' = (Ok tt, s'') /\ sent s'' = sent s' ++ [(tx c, m)].
Proof.
  intros Hs Hd Hl. unfold ws_handle_peer_register. rewrite Hd, Hl. cbn [negb].
  eexists; split; [done|]. intros co m Hco.
  pose proof (register_sender (peer_info_of (unix_secs (clock c)) msg) (tx c) s1
                (ok_check_limit _ _ _ _ _ _ Hs Hl)) as Hreg.
  destruct (send_delivers co (pr_peer_id msg) m _ _ _ Hreg Hco) as (s'' & H & Hsent & _).
  by exists s''.
Qed.

Lemma registration_takes_over_peer_witness :
  exists s', ws_handle_peer_register (P := Sample.proto) (Sample.ctx 9) [1] (Some "x", Sample.server)
             = Some (Some "b", s') /\
    forall m, exists s'', send_to_peer (fun _ => true) "b" m s' = (Ok tt, s'') /\
                          sent s'' = sent s' ++ [(9, m)].
Proof.
  pose (s1 := match check_limit (Sample.ctx 9) Action_Registration "b" Sample.server with
              | Some (s, _) => s | None => Sample.server end).
  destruct (registration_takes_over_peer (S := ToySig.scheme) (L := ListLru.ops) (LL := list_lru_laws)
              (P := Sample.proto) (Sample.ctx 9) [1] (Some "x") Sample.server s1 Sample.registration)
    as (s' & H & Hm).
  - exact sample_server_ok.
  - reflexivity.
  - assert (H : option_map snd (check_limit (Sample.ctx 9) Action_Registration "b" Sample.server)
                = Some true) by (vm_compute; reflexivity).
    unfold s1. cbn [pr_peer_id Sample.registration].
    destruct (check_limit _ _ _ _) as [[x b]|]; [|discriminate H].
    injection H as ->. reflexivity.
  - exists s'. split; [exact H|]. intros m. apply (Hm (fun _ => true) m). reflexivity.
Defined.

(** The end of a session takes the peer it holds offline whatever session the peer is
    registered with: when a client has reconnected and registered on a new channel, the
    late end of its old session makes messages to it fail as offline. *)
Lemma stale_close_disconnects {S : SigScheme} {L : Lru} {LL : LruLaws L} {P : ServerProto}
    co p m s i new_chan :
  lru_map (peers s) !! p = Some {| pe_info := i; pe_sender := Some new_chan |} ->
  (send_to_peer co p m (ws_close (Some p, s))).1 = Err (Sig_PeerOffline p).
Proof.
  intros Hp. destruct (disconnect_sender p s _ Hp) as [i' Hi].
  by apply (send_offline co p m _ i').
Qed.

Lemma stale_close_disconnects_witness :
  (send_to_peer (fun _ => true) "b" (forward CALL_ENDED [1]) (ws_close (Some "b", Sample.server))).1
  = Err (Sig_PeerOffline "b").
Proof.
  refine (stale_close_disconnects (S := ToySig.scheme) (L := ListLru.ops) (LL := list_lru_laws)
            (P := Sample.proto) (fun _ => true) "b" (forward CALL_ENDED [1]) Sample.server
            (Sample.info "b") 2 _).
  vm_compute. reflexivity.
Defined.

(** A failed call is marked ended but stays in the registry, where its identifier
    cannot be used again and the callee can still accept it: the acceptance is forwarded
    and the call is accepted once more. *)
Lemma failed_call_accepted_later {S : SigScheme} {L : Lru} {LL : LruLaws L} {P : ServerProto}
    c c2 p1 p2 h s s1 h1 msg e i ch now :
  let k := cf_call_id msg in
  prost_decode p1 = Some msg -> prost_decode p2 = Some {| ca_call_id := k |} ->
  lru_map (calls s) !! k = Some e -> not_participant h e = false ->
  ws_handle_call_failed c p1 (h, s) = Some (h1, s1) ->
  lru_map (peers s1) !! caller_id e = Some {| pe_info := i; pe_sender := Some ch |} ->
  chan_open c2 ch = true ->
  option_map call_state (lru_map (calls s1) !! k) = Some STATE_ENDED /\
  (forall r, cr_call_id r = k -> is_ok (create_call (new_call now r) s1).1 = false) /\
  exists s2, ws_handle_call_accept c2 p2 (Some (callee_id e), s1) = Some (Some (callee_id e), s2) /\
    option_map call_state (lru_map (calls s2) !! k) = Some STATE_ACCEPTED /\
    sent s2 = sent s1 ++ [(ch, forward CALL_ACCEPT_SC p2)].
Proof.
  intros k Hd1 Hd2 Hk Hp H Hcaller Hco. pose proof (failed_map _ _ _ _ _ _ _ _ Hd1 Hk Hp H) as Hm.
  set (e1 := mark_ended _ _ e) in Hm.
  assert (Hk1 : lru_map (calls s1) !! k = Some e1) by (by rewrite Hm, lookup_insert_eq).
  split; [by rewrite Hk1|]. split.
  { intros r Hr. unfold create_call, lru_contains. cbn [new_call call_id caller_id callee_id].
    rewrite Hr, Hk1. by repeat case_goal. }
  destruct (handle_accept_sets c2 p2 (Some (callee_id e)) s1 k e1 i ch) as (s2 & H2 & Hm2 & _ & Hs2);
    try done; [by apply negb_false_iff, bool_decide_eq_true|].
  exists s2. split; [done|]. by rewrite Hm2, lookup_insert_eq.
Qed.

Lemma failed_call_accepted_later_witness :
  exists s1 s2,
    ws_handle_call_failed (P := Sample.proto) (Sample.ctx 1) [1] (Some "a", Sample.calling)
      = Some (Some "a", s1) /\
    ws_handle_call_accept (P := Sample.proto) (Sample.ctx 2) [1] (Some "b", s1) = Some (Some "b", s2) /\
    option_map call_state (lru_map (calls s2) !! "k") = Some STATE_ACCEPTED.
Proof.
  pose (f := ws_handle_call_failed (P := Sample.proto) (Sample.ctx 1) [1] (Some "a", Sample.calling)).
  pose (s1 := match f with Some (_, s) => s | None => Sample.server end).
  assert (Hf : f = Some (Some "a", s1)).
  { assert (H : option_map fst f = Some (Some "a")) by (vm_compute; reflexivity).
    unfold s1. destruct f as [[h x]|]; [|discriminate H]. injection H as ->. reflexivity. }
  destruct (failed_call_accepted_later (S := ToySig.scheme) (L := ListLru.ops) (LL := list_lru_laws)
              (P := Sample.proto) (Sample.ctx 1) (Sample.ctx 2) [1] [1] (Some "a") Sample.calling s1
              (Some "a") Sample.failure (new_call 0 Sample.request) (Sample.info "a") 1 0)
    as (_ & _ & s2 & H2 & H3 & _).
  - reflexivity.
  - reflexivity.
  - vm_compute. reflexivity.
  - vm_compute. reflexivity.
  - exact Hf.
  - vm_compute. reflexivity.
  - reflexivity.
  - exists s1, s2. split; [exact Hf|]. split; [exact H2|exact H3].
Defined.
