(* ===== verification/Rest.v ===== *)
(** * The REST interface

    [voip-signaling/src/handlers.rs]: the handlers over the state of [Server], with the
    peer of the authentication middleware as an argument where the handler takes it.  A
    handler returns its answer and the new state; [None] is a panic.  [lookup_peer] and the
    routes without a state change are in [Deployment]. *)

From S2P Require Import Prelude Types Config Crypto Base64 RustStr Wire RateLimit Lru Jwt Server Session.

Local Open Scope Z_scope.
Local Open Scope rust_scope.

Record PeerResponse := {
  resp_peer_id : string;
  resp_display_name : string;
  resp_ipv6_addresses : list string;
  resp_ipv4_reflexive : list string;
  resp_nat_type : string;
  resp_status : string;
  resp_last_seen : Z
}.

Record RegisterPeerRequest := {
  req_peer_id : string;
  req_display_name : string;
  req_ipv6_addresses : list string;
  req_ipv4_reflexive : list string;
  req_nat_type : option string;
  req_status : option string;
  req_fcm_token : option string
}.

Record RegisterPeerResponse := {
  rpr_peer_id : string;
  rpr_jwt_token : string;
  rpr_expires_in_secs : Z
}.

Record ProxyTokenResponse := { ptr_token : string; ptr_ttl_seconds : Z }.

Definition unknown_str (val : Z) : string :=
  "UNKNOWN(" +:+ string_of_bytes (signed_decimal val) +:+ ")".

Definition nat_type_str (val : Z) : string :=
  if val =? 0 then "NONE"
  else if val =? 1 then "CONE"
  else if val =? 2 then "SYMMETRIC_SEQUENTIAL"
  else if val =? 3 then "SYMMETRIC_PSEUDO"
  else if val =? 4 then "SYMMETRIC_RANDOM"
  else unknown_str val.

Definition peer_status_str (val : Z) : string :=
  if val =? 0 then "ONLINE"
  else if val =? 1 then "OFFLINE"
  else if val =? 2 then "IN_CALL"
  else unknown_str val.

(** The two [match]es on the request strings, with the default of the caller. *)
Definition parse_nat_type (o : option string) (dflt : Z) : Z :=
  match o with
  | Some s =>
      if bool_decide (s = "NONE") then 0
      else if bool_decide (s = "CONE") then 1
      else if bool_decide (s = "SYMMETRIC_SEQUENTIAL") then 2
      else if bool_decide (s = "SYMMETRIC_PSEUDO") then 3
      else if bool_decide (s = "SYMMETRIC_RANDOM") then 4
      else dflt
  | None => dflt
  end.

Definition parse_status (o : option string) (dflt : Z) : Z :=
  match o with
  | Some s =>
      if bool_decide (s = "ONLINE") then 0
      else if bool_decide (s = "OFFLINE") then 1
      else if bool_decide (s = "IN_CALL") then 2
      else dflt
  | None => dflt
  end.

Definition peer_response (i : PeerInfo) : PeerResponse := {|
  resp_peer_id := pi_peer_id i; resp_display_name := pi_display_name i;
  resp_ipv6_addresses := pi_ipv6_addresses i; resp_ipv4_reflexive := pi_ipv4_reflexive i;
  resp_nat_type := nat_type_str (pi_nat_type i); resp_status := peer_status_str (pi_status i);
  resp_last_seen := pi_last_seen i |}.

Section WithInterfaces.
Context {S : SigScheme} {L : Lru} {P : ServerProto} {J : JsonClaims}.

Definition rest_register_peer (m : overflow_mode) (clk : Clock) (body : RegisterPeerRequest)
    (s : Server) : option (result SignalingError RegisterPeerResponse * Server) :=
  match parse_peer_id (req_peer_id body) with
  | Err _ => Some (Err (Sig_InvalidMessage "peer_id must be a valid 64-char hex Ed25519 public key"), s)
  | Ok _ =>
      match limiter_check (instant clk) (req_peer_id body) Action_Registration (limiter s) with
      | None => None
      | Some (r, allowed) =>
          let s := set_limiter r s in
          if negb allowed then Some (Err Sig_RateLimited, s)
          else
            let info := {|
              pi_peer_id := req_peer_id body; pi_display_name := req_display_name body;
              pi_ipv6_addresses := req_ipv6_addresses body;
              pi_ipv4_reflexive := req_ipv4_reflexive body;
              pi_nat_type := parse_nat_type (req_nat_type body) 0;
              pi_status := parse_status (req_status body) 0;
              pi_fcm_token := req_fcm_token body; pi_last_seen := unix_secs clk |} in
            let s := register_peer info None s in
            let expiry_secs := jwt_expiry_secs (srv_config s) in
            let?o token := create_jwt m (unix_secs clk) (srv_key s) (req_peer_id body) expiry_secs in
            Some (let? jwt_token := map_err (fun e => Sig_Internal (sig_to_string e)) token in
                  Ok {| rpr_peer_id := req_peer_id body; rpr_jwt_token := jwt_token;
                        rpr_expires_in_secs := expiry_secs |}, s)
      end
  end.

Definition or_existing {A} (l existing : list A) : list A :=
  match l with [] => existing | _ => l end.

Definition rest_update_peer (clk : Clock) (auth peer_id : string) (body : RegisterPeerRequest)
    (s : Server) : result SignalingError PeerResponse * Server :=
  if negb (bool_decide (auth = peer_id))
  then (Err (Sig_Unauthorized "authenticated peer_id does not match target"), s)
  else
    match get_peer peer_id s with
    | (None, s) => (Err (Sig_UnknownPeer peer_id), s)
    | (Some existing, s) =>
        let info := {|
          pi_peer_id := peer_id;
          pi_display_name := if bool_decide (req_display_name body = "") then pi_display_name existing
                             else req_display_name body;
          pi_ipv6_addresses := or_existing (req_ipv6_addresses body) (pi_ipv6_addresses existing);
          pi_ipv4_reflexive := or_existing (req_ipv4_reflexive body) (pi_ipv4_reflexive existing);
          pi_nat_type := parse_nat_type (req_nat_type body) (pi_nat_type existing);
          pi_status := parse_status (req_status body) (pi_status existing);
          pi_fcm_token := match req_fcm_token body with Some t => Some t | None => pi_fcm_token existing end;
          pi_last_seen := unix_secs clk |} in
        (Ok (peer_response info), register_peer info None s)
    end.

Definition rest_unregister_peer (auth peer_id : string) (s : Server)
    : result SignalingError Z * Server :=
  if negb (bool_decide (auth = peer_id))
  then (Err (Sig_Unauthorized "authenticated peer_id does not match target"), s)
  else (Ok 204, unregister_peer peer_id s).

Definition rest_get_peer (peer_id : string) (s : Server) : result SignalingError PeerResponse * Server :=
  let '(info, s) := get_peer peer_id s in
  (let? i := ok_or info (Sig_UnknownPeer peer_id) in Ok (peer_response i), s).

Definition rest_get_peer_status (peer_id : string) (s : Server)
    : result SignalingError (string * string) * Server :=
  let '(info, s) := get_peer peer_id s in
  (let? i := ok_or info (Sig_UnknownPeer peer_id) in Ok (pi_peer_id i, peer_status_str (pi_status i)), s).

(** [POST /v1/proxy-token]: the authenticated peer is not looked at. *)
Definition rest_issue_proxy_token (clk : Clock) (peer_id target : string) (s : Server)
    : result SignalingError ProxyTokenResponse * Server :=
  match get_peer peer_id s with
  | (None, s) => (Err (Sig_UnknownPeer peer_id), s)
  | (Some _, s) =>
      match get_peer target s with
      | (None, s) => (Err (Sig_UnknownPeer target), s)
      | (Some _, s) =>
          let token := issue_proxy_token clk s peer_id target in
          (Ok {| ptr_token := handlers_base64_encode (encode_to_vec token); ptr_ttl_seconds := TOKEN_TTL |}, s)
      end
  end.

Definition rest_ws_upgrade (clk : Clock) (token : string) (s : Server)
    : result SignalingError session_state :=
  let? claims := verify_jwt (unix_secs clk) (verifying_key (srv_key s)) token in
  Ok (ws_open (claim_sub claims) s).
End WithInterfaces.

(** A registration for the witness. *)
Module RestSample.
Definition body : RegisterPeerRequest := {|
  req_peer_id := "6161616161616161616161616161616161616161616161616161616161616161";
  req_display_name := "alice"; req_ipv6_addresses := []; req_ipv4_reflexive := [];
  req_nat_type := None; req_status := None; req_fcm_token := None |}.

Definition limits : RateLimiter :=
  match limiter_check 0 (req_peer_id body) Action_Registration (limiter Sample.server) with
  | Some (r, _) => r
  | None => limiter Sample.server
  end.
End RestSample.

(** ** Facts *)

Lemma register_key {S : SigScheme} {L : Lru} info o s :
  srv_key (register_peer info o s) = srv_key s /\ srv_config (register_peer info o s) = srv_config s.
Proof. unfold register_peer. by case_goal. Qed.

Definition registered_info (clk : Clock) (body : RegisterPeerRequest) : PeerInfo := {|
  pi_peer_id := req_peer_id body; pi_display_name := req_display_name body;
  pi_ipv6_addresses := req_ipv6_addresses body; pi_ipv4_reflexive := req_ipv4_reflexive body;
  pi_nat_type := parse_nat_type (req_nat_type body) 0;
  pi_status := parse_status (req_status body) 0;
  pi_fcm_token := req_fcm_token body; pi_last_seen := unix_secs clk |}.

(** A registration within the limit stores the peer and answers with a valid token. *)
Lemma rest_register_ok {S : SigScheme} {SL : SigLaws S} {L : Lru} {J : JsonClaims}
    {JL : JsonLaws J} m clk body s vk r :
  parse_peer_id (req_peer_id body) = Ok vk ->
  limiter_check (instant clk) (req_peer_id body) Action_Registration (limiter s) = Some (r, true) ->
  0 <= unix_secs clk -> 0 <= jwt_expiry_secs (srv_config s) ->
  unix_secs clk + jwt_expiry_secs (srv_config s) < 2 ^ 64 ->
  exists token,
    rest_register_peer m clk body s =
      Some (Ok {| rpr_peer_id := req_peer_id body; rpr_jwt_token := token;
                  rpr_expires_in_secs := jwt_expiry_secs (srv_config s) |},
            register_peer (registered_info clk body) None (set_limiter r s)) /\
    forall now, unix_secs clk <= now <= unix_secs clk + jwt_expiry_secs (srv_config s) ->
      exists c, verify_jwt now (verifying_key (srv_key s)) token = Ok c /\
        claim_sub c = req_peer_id body.
Proof.
  intros Hp Hl Hn He Hmax. unfold rest_register_peer. rewrite Hp, Hl. cbn [negb].
  change {| pi_peer_id := req_peer_id body; pi_display_name := req_display_name body;
    pi_ipv6_addresses := req_ipv6_addresses body; pi_ipv4_reflexive := req_ipv4_reflexive body;
    pi_nat_type := parse_nat_type (req_nat_type body) 0;
    pi_status := parse_status (req_status body) 0;
    pi_fcm_token := req_fcm_token body; pi_last_seen := unix_secs clk |}
    with (registered_info clk body).
  destruct (register_key (registered_info clk body) None (set_limiter r s)) as [Hk Hc].
  rewrite Hk, Hc. simpl.
  destruct (create_jwt_ok m (unix_secs clk) (srv_key s) (req_peer_id body)
              (jwt_expiry_secs (srv_config s)) Hn He Hmax) as (token & -> & Hv).
  exists token. split; [done|]. intros now Hnow. rewrite Hv.
  rewrite (proj2 (Z.ltb_ge _ _)), (proj2 (Z.ltb_ge _ _)) by lia. by eexists.
Qed.

(** ** Properties *)

(** Registration needs no proof of the key.  Whoever posts a peer's identifier, a
    public value, within the registration limit receives a token of that peer, with which
    the WebSocket upgrade opens a session holding that identity for the token's lifetime. *)
Lemma registration_needs_no_key {S : SigScheme} {SL : SigLaws S} {L : Lru}
    {J : JsonClaims} {JL : JsonLaws J} m clk body s vk r :
  parse_peer_id (req_peer_id body) = Ok vk ->
  limiter_check (instant clk) (req_peer_id body) Action_Registration (limiter s) = Some (r, true) ->
  0 <= unix_secs clk -> 0 <= jwt_expiry_secs (srv_config s) ->
  unix_secs clk + jwt_expiry_secs (srv_config s) < 2 ^ 64 ->
  exists resp s', rest_register_peer m clk body s = Some (Ok resp, s') /\
    forall clk', unix_secs clk <= unix_secs clk' <= unix_secs clk + jwt_expiry_secs (srv_config s) ->
      rest_ws_upgrade clk' (rpr_jwt_token resp) s' = Ok (ws_open (req_peer_id body) s').
Proof.
  intros Hp Hl Hn He Hmax.
  destruct (rest_register_ok m clk body s vk r Hp Hl Hn He Hmax) as (token & Hr & Hv).
  do 2 eexists; split; [exact Hr|]. intros clk' Hclk. unfold rest_ws_upgrade.
  rewrite (proj1 (register_key _ _ _)). destruct (Hv _ Hclk) as (c & Hc & <-).
  cbn [rpr_jwt_token srv_key set_limiter]. by rewrite Hc.
Qed.

Lemma registration_needs_no_key_witness :
  exists resp s',
    rest_register_peer (S := ToySig.scheme) (J := ToyJson.json) Checked
      {| instant := 0; unix_secs := 1000 |} RestSample.body Sample.server = Some (Ok resp, s') /\
    rest_ws_upgrade (S := ToySig.scheme) (J := ToyJson.json) {| instant := 5; unix_secs := 1060 |}
      (rpr_jwt_token resp) s' = Ok (ws_open (req_peer_id RestSample.body) s').
Proof.
  destruct (registration_needs_no_key (S := ToySig.scheme) (SL := ToySig.laws) (L := ListLru.ops)
              (J := ToyJson.json) (JL := toy_json_laws) Checked
              {| instant := 0; unix_secs := 1000 |} RestSample.body Sample.server "a"%char
              RestSample.limits) as (resp & s' & H & Hv).
  - vm_compute. reflexivity.
  - assert (H : option_map snd (limiter_check 0 (req_peer_id RestSample.body) Action_Registration
                                  (limiter Sample.server)) = Some true) by (vm_compute; reflexivity).
    unfold RestSample.limits. cbn [instant]. destruct (limiter_check _ _ _ _) as [[x b]|]; [|discriminate H].
    injection H as ->. reflexivity.
  - vm_compute. discriminate.
  - vm_compute. discriminate.
  - vm_compute. reflexivity.
  - exists resp, s'. split; [exact H|]. apply Hv. vm_compute. split; discriminate.
Defined.
