(* ===== verification/NatProbe.v ===== *)
(** * NAT probing

    [voip-client/src/nat_probe.rs]: reading probe responses, classification of the NAT
    from the observed ports, port prediction, the cache and its refresh.

    The QUIC exchange of one probe is its outcome.  The classification computes a standard
    deviation in [f64], whose arithmetic is that of [Float64]. *)

From S2P Require Import Prelude Float64 Types Config RustStr Wire Masque.

Local Open Scope Z_scope.
Local Open Scope rust_scope.

Inductive NatProbeError :=
| NatNotConnected
| ProbeTimeout (ip : string)
| MigrationFailed (ip reason : string)
| InsufficientProbes (got need : Z).

Record NATProbeResult := {
  probe_server_ip : string;
  probe_local_port : Z;
  probe_external_ip : string;
  probe_external_port : Z;
  probe_timestamp_ms : Z;
  probe_rtt_ms : Z
}.

Record NATProbeCache := {
  cache_probes : list NATProbeResult;
  average_delta : Z;
  delta_variance : Z;
  cache_confidence : PredictionConfidence;
  cache_timestamp : Z;
  cache_ttl_seconds : Z
}.

(** ** Reading a probe response *)

(** The value and the bytes consumed: seven bits per byte, at most ten bytes; bits beyond
    the 64th are shifted out. *)
Fixpoint decode_varint_loop (data : list Z) (value shift i : Z) : Z * Z :=
  match data with
  | [] => (value, i)
  | byte :: data' =>
      let value := Z.lor value (cast 64 (Z.shiftl (Z.land byte 0x7F) shift)) in
      let i := i + 1 in
      if Z.land byte 0x80 =? 0 then (value, i)
      else if 64 <=? shift + 7 then (value, i)
      else decode_varint_loop data' value (shift + 7) i
  end.

Definition decode_varint (data : list Z) : Z * Z := decode_varint_loop data 0 0 0.

Inductive ParseOutcome := Parsed (observed_ip : string) (observed_port : Z) | ParsePanic | ParseNoFuel.

(** One iteration at position [pos < data.len()]: [None] is an overflow panic of the
    position, [Some None] the [break] on an unknown wire type. *)
Definition parse_step (m : overflow_mode) (data : list Z) (pos : Z) (ip : string) (port : Z)
    : option (option (Z * string * Z)) :=
  let '(key, key_len) := decode_varint (drop (Z.to_nat pos) data) in
  let pos := pos + key_len in
  let field_number := cast 32 (Z.shiftr key 3) in
  let wire_type := Z.land key 7 in
  let '(v, n) := decode_varint (drop (Z.to_nat pos) data) in
  let skip := let?o p := arith m 64 (n + v) in
              let?o p := arith m 64 (pos + p) in Some (Some (p, ip, port)) in
  if (field_number =? 1) && (wire_type =? 2) then skip
  else if (field_number =? 2) && (wire_type =? 2) then
    let pos := pos + n in
    let?o stop := arith m 64 (pos + v) in
    if (stop <=? zlen data) then
      let?o bytes := slice data pos stop in Some (Some (stop, from_utf8_lossy bytes, port))
    else Some (Some (stop, ip, port))
  else if (field_number =? 3) && (wire_type =? 0) then Some (Some (pos + n, ip, cast 32 v))
  else if (field_number =? 4) && (wire_type =? 0) then Some (Some (pos + n, ip, port))
  else if wire_type =? 0 then Some (Some (pos + n, ip, port))
  else if wire_type =? 2 then skip
  else if wire_type =? 1 then Some (Some (pos + 8, ip, port))
  else if wire_type =? 5 then Some (Some (pos + 4, ip, port))
  else Some None.

Fixpoint parse_loop (m : overflow_mode) (fuel : nat) (data : list Z) (pos : Z) (ip : string)
    (port : Z) : ParseOutcome :=
  if pos <? zlen data then
    match fuel with
    | O => ParseNoFuel
    | S fuel' =>
        match parse_step m data pos ip port with
        | None => ParsePanic
        | Some None => Parsed ip (cast 16 port)
        | Some (Some (pos, ip, port)) => parse_loop m fuel' data pos ip port
        end
    end
  else Parsed ip (cast 16 port).

(** One iteration consumes at least the byte of the key, so as many iterations as bytes
    are enough unless the position wraps around. *)
Definition parse_path_probe_response (m : overflow_mode) (data : list Z) : ParseOutcome :=
  parse_loop m (length data) data 0 "" 0.

(** What the stream of one probe did; [path_read] is what the one [read] into the buffer of
    1024 bytes returned, nothing when the stream had ended. *)
Inductive Timed (A : Type) := TimedOut | IoFailed (reason : string) | Got (a : A).
Arguments TimedOut {A}.
Arguments IoFailed {A} reason.
Arguments Got {A} a.

Record PathIo := {
  path_open : Timed unit;
  path_write : option string;
  path_read : Timed (list Z);
  path_rtt_ms : Z;
  path_now_ms : Z
}.

Definition timed {A} (ip : string) (t : Timed A) : result NatProbeError A :=
  match t with
  | TimedOut => Err (ProbeTimeout ip)
  | IoFailed r => Err (MigrationFailed ip r)
  | Got a => Ok a
  end.

(** [{:04x}] of a [u16]. *)
Definition hex4 (n : Z) : list Z :=
  map hex_digit_char [n / 4096; n / 256 mod 16; n / 16 mod 16; n mod 16].

(** [None] when parsing the response panics or does not end. *)
Definition probe_single_path (m : overflow_mode) (io : PathIo) (server_ip : string)
    : option (result NatProbeError NATProbeResult) :=
  match (let? _ := timed server_ip (path_open io) in
         let? _ := match path_write io with
                   | None => Ok tt | Some r => Err (MigrationFailed server_ip r) end in
         timed server_ip (path_read io)) with
  | Err e => Some (Err e)
  | Ok buf =>
      if zlen buf <? 2 then Some (Err (MigrationFailed server_ip "response too short"))
      else if negb (from_be (take 2 buf) =? PATH_PROBE_RESPONSE)
      then Some (Err (MigrationFailed server_ip
        ("unexpected response type: 0x" +:+ string_of_bytes (hex4 (from_be (take 2 buf))))))
      else
        match parse_path_probe_response m (drop 2 buf) with
        | Parsed ip port =>
            Some (Ok {| probe_server_ip := server_ip; probe_local_port := 0;
                        probe_external_ip := ip; probe_external_port := port;
                        probe_timestamp_ms := path_now_ms io; probe_rtt_ms := path_rtt_ms io |})
        | _ => None
        end
  end.

(** ** Classification *)

(** [w[1] - w[0]] over [windows(2)]. *)
Fixpoint deltas (ports : list Z) : list Z :=
  match ports with
  | p :: ((q :: _) as ports') => (q - p) :: deltas ports'
  | _ => []
  end.

Fixpoint all_same (ports : list Z) : bool :=
  match ports with
  | p :: ((q :: _) as ports') => (p =? q) && all_same ports'
  | _ => true
  end.

Definition sum (l : list Z) : Z := foldr Z.add 0 l.

(** [deltas.iter().sum::<i32>() / deltas.len() as i32], truncating. *)
Definition avg (ds : list Z) : Z := Z.quot (sum ds) (zlen ds).

(** The standard deviation in double precision: [powi(2)] is a product, [sum] adds from the left. *)
Definition std_dev (ds : list Z) (mean : Z) : Z :=
  if 1 <? zlen ds then
    let square d := let x := f64_sub (f64_of_Z d) (f64_of_Z mean) in f64_mul x x in
    let total := fold_left f64_add (map square ds) (f64_of_Z 0) in
    f64_to_i32 (f64_sqrt (f64_div total (f64_of_Z (zlen ds - 1))))
  else 0.

Definition external_ports (results : list NATProbeResult) : list Z := map probe_external_port results.

(** [i32] arithmetic of the configuration values. *)
Definition arith_i32 (m : overflow_mode) (x : Z) : option Z :=
  if (- 2 ^ 31 <=? x) && (x <? 2 ^ 31) then Some x
  else match m with Checked => None | Wrapping => Some (cast_i32 x) end.

(** The range [center ± margin], clipped; the negative [end] wraps in the [as u32] cast. *)
Definition port_range (m : overflow_mode) (center margin : Z) : option (Z * Z) :=
  let?o lo := arith_i32 m (center - margin) in
  let?o hi := arith_i32 m (center + margin) in
  Some (cast 32 (Z.max lo 1024), cast 32 (Z.min hi 65535)).

Definition compute_prediction (m : overflow_mode) (now_secs : Z) (last : NATProbeResult)
    (avg_delta : Z) (conf : PredictionConfidence) (config : VoIPConfig) : option PortPredictionData :=
  let base := probe_external_port last in
  let center := base + avg_delta * 1 in
  let margin := match conf with
                | Confidence_Sequential => cast_i32 (prediction_margin_sequential config)
                | Confidence_PseudoSequential => cast_i32 (prediction_margin_pseudo config)
                | Confidence_Random => 0
                end in
  let?o (start, stop) := port_range m center margin in
  Some {| external_ip := probe_external_ip last; predicted_port_start := start;
          predicted_port_end := stop; confidence := conf; base_port := base;
          delta_pattern := avg_delta; probed_at := now_secs; probe_method := QuicPathProbing |}.

Definition COLON_CHAR : Z := 58.

Definition is_ipv6 (ip : string) : bool := existsb (fun b => b =? COLON_CHAR) (as_bytes ip).

Definition classify_nat (m : overflow_mode) (now_secs : Z) (results : list NATProbeResult)
    (config : VoIPConfig) : option NATInfo :=
  match results with
  | [] => Some {| nat_type := NATType_None; prediction := None |}
  | first :: _ =>
      if is_ipv6 (probe_external_ip first) then Some {| nat_type := NATType_None; prediction := None |}
      else
        let ports := external_ports results in
        if all_same ports then Some {| nat_type := NATType_Cone; prediction := None |}
        else
          let ds := deltas ports in
          match ds with
          | [] => Some {| nat_type := NATType_SymmetricRandom; prediction := None |}
          | _ =>
              let avg_delta := avg ds in
              let variance := std_dev ds avg_delta in
              let threshold := cast_i32 (nat_delta_variance_threshold config) in
              let?o (t, conf) :=
                if (variance =? 0) || (variance <=? threshold)
                then Some (NATType_SymmetricSequential, Confidence_Sequential)
                else
                  let?o t3 := arith_i32 m (threshold * 3) in
                  if variance <=? t3 then Some (NATType_SymmetricPseudo, Confidence_PseudoSequential)
                  else Some (NATType_SymmetricRandom, Confidence_Random) in
              match conf with
              | Confidence_Random => Some {| nat_type := t; prediction := None |}
              | _ =>
                  let?o p := compute_prediction m now_secs (default first (last results)) avg_delta conf config in
                  Some {| nat_type := t; prediction := Some p |}
              end
          end
  end.

(** ** The cache *)

Definition build_cache (now_ms : Z) (results : list NATProbeResult) (info : NATInfo)
    (config : VoIPConfig) : NATProbeCache :=
  let ds := deltas (external_ports results) in
  let avg_delta := match ds with [] => 0 | _ => avg ds end in
  {| cache_probes := results; average_delta := avg_delta; delta_variance := std_dev ds avg_delta;
     cache_confidence := match prediction info with
                         | Some p => confidence p | None => Confidence_Random end;
     cache_timestamp := now_ms; cache_ttl_seconds := cast 32 (nat_cache_ttl_secs config) |}.

Definition cached_to_nat_info (m : overflow_mode) (c : NATProbeCache) : option NATInfo :=
  let t := match cache_confidence c with
           | Confidence_Sequential => NATType_SymmetricSequential
           | Confidence_PseudoSequential => NATType_SymmetricPseudo
           | Confidence_Random => NATType_SymmetricRandom
           end in
  if all_same (external_ports (cache_probes c)) then Some {| nat_type := NATType_Cone; prediction := None |}
  else
    match cache_confidence c with
    | Confidence_Random => Some {| nat_type := NATType_SymmetricRandom; prediction := None |}
    | conf =>
        match last (cache_probes c) with
        | None => Some {| nat_type := t; prediction := None |}
        | Some l =>
            let margin := match conf with
                          | Confidence_Sequential => 3
                          | Confidence_PseudoSequential => 8
                          | Confidence_Random => 0
                          end in
            let?o (start, stop) := port_range m (probe_external_port l + average_delta c) margin in
            Some {| nat_type := t;
                    prediction := Some {|
                      external_ip := probe_external_ip l; predicted_port_start := start;
                      predicted_port_end := stop; confidence := conf;
                      base_port := probe_external_port l; delta_pattern := average_delta c;
                      probed_at := probe_timestamp_ms l / 1000; probe_method := QuicPathProbing |} |}
        end
    end.

(** The guards the running task holds on the cache's [RwLock].  A read guard is not
    granted while a write guard is held, and a task that waits for a guard while it holds
    the conflicting one waits forever. *)
Inductive Guard := NoGuard | ReadGuard | WriteGuard.

Inductive Outcome (A : Type) := Done (a : A) | Deadlock | Panicked.
Arguments Done {A} a.
Arguments Deadlock {A}.
Arguments Panicked {A}.

Definition outcome_bind {A B} (o : Outcome A) (k : A -> Outcome B) : Outcome B :=
  match o with Done a => k a | Deadlock => Deadlock | Panicked => Panicked end.

Definition unpanic {A} (o : option A) : Outcome A :=
  match o with Some a => Done a | None => Panicked end.

Definition acquire_read (g : Guard) : Outcome Guard :=
  match g with WriteGuard => Deadlock | _ => Done ReadGuard end.

Definition acquire_write (g : Guard) : Outcome Guard :=
  match g with NoGuard => Done WriteGuard | _ => Deadlock end.

Definition cached_nat_info (m : overflow_mode) (g : Guard) (now_ms : Z)
    (cache : option NATProbeCache) : Outcome (option NATInfo) :=
  outcome_bind (acquire_read g) (fun _ =>
    match cache with
    | None => Done None
    | Some c =>
        let age_ms := saturating_sub now_ms (cache_timestamp c) in
        let ttl_ms := cache_ttl_seconds c * 1000 in
        if age_ms <? ttl_ms
        then outcome_bind (unpanic (cached_to_nat_info m c)) (fun i => Done (Some i))
        else Done None
    end).

(** The probes that succeeded, in order. *)
Fixpoint successes (outs : list (result NatProbeError NATProbeResult)) : list NATProbeResult :=
  match outs with
  | [] => []
  | Ok r :: outs' => r :: successes outs'
  | Err _ :: outs' => successes outs'
  end.

(** [server_ips[..count.min(len)]]. *)
Definition ips_to_probe (config : VoIPConfig) (count : Z) : list string :=
  take (Z.to_nat (Z.min count (zlen (signaling_server_ips config)))) (signaling_server_ips config).

(** A full probe: [path] is [probe_single_path] on each index and address.  The result and the new
    cache. *)
Definition probe (m : overflow_mode) (config : VoIPConfig) (now_ms : Z)
    (path : nat -> string -> result NatProbeError NATProbeResult) (cache : option NATProbeCache)
    : Outcome (result NatProbeError NATInfo * option NATProbeCache) :=
  let ips := ips_to_probe config (path_probe_count config) in
  match ips with
  | [] => Done (Err NatNotConnected, cache)
  | _ =>
      let results := successes (imap path ips) in
      if zlen results <? 3 then Done (Err (InsufficientProbes (zlen results) 3), cache)
      else
        outcome_bind (unpanic (classify_nat m (now_ms / 1000) results config)) (fun info =>
        outcome_bind (acquire_write NoGuard) (fun _ =>
        Done (Ok info, Some (build_cache now_ms results info config))))
  end.

Definition touch_cache (now_ms : Z) (c : NATProbeCache) : NATProbeCache := {|
  cache_probes := cache_probes c; average_delta := average_delta c;
  delta_variance := delta_variance c; cache_confidence := cache_confidence c;
  cache_timestamp := now_ms; cache_ttl_seconds := cache_ttl_seconds c |}.

Definition quick_refresh (m : overflow_mode) (config : VoIPConfig) (now_ms : Z)
    (path path2 : nat -> string -> result NatProbeError NATProbeResult) (cache : option NATProbeCache)
    : Outcome (result NatProbeError NATInfo * option NATProbeCache) :=
  let full := probe m config now_ms path2 cache in
  let ips := ips_to_probe config (path_refresh_count config) in
  match ips with
  | [] => full
  | _ =>
      let results := successes (imap path ips) in
      if zlen results <? 2 then full
      else
        outcome_bind (acquire_read NoGuard) (fun _ =>
        match cache with
        | Some c =>
            let ds := deltas (external_ports results) in
            match ds with
            | [] => full
            | _ =>
                if Z.abs (avg ds - average_delta c) <=? cast_i32 (nat_delta_variance_threshold config)
                then
                  (* the read guard is dropped, the write guard taken and kept *)
                  outcome_bind (acquire_write NoGuard) (fun g =>
                  let cache := Some (touch_cache now_ms c) in
                  outcome_bind (cached_nat_info m g now_ms cache) (fun o =>
                  match o with
                  | Some info => Done (Ok info, cache)
                  | None =>
                      outcome_bind (probe m config now_ms path2 cache) (fun '(r, cache) =>
                      Done (Ok (match r with Ok i => i | Err _ => no_nat end), cache))
                  end))
                else full
            end
        | None => full
        end)
  end.

Definition invalidate_cache (cache : option NATProbeCache) : option NATProbeCache := None.

(** ** Specifications *)

(** The protobuf form of a response, with the fields in order: a key and a length or an
    integer each, integers in LEB128. *)
Definition encode_string_field (n : Z) (s : list Z) : list Z :=
  Masque.encode_varint (n * 8 + 2) ++ Masque.encode_varint (zlen s) ++ s.

Definition encode_uint_field (n v : Z) : list Z :=
  Masque.encode_varint (n * 8) ++ Masque.encode_varint v.

Definition encode_probe_response (server ip : list Z) (port ts : Z) : list Z :=
  encode_string_field 1 server ++ encode_string_field 2 ip ++ encode_uint_field 3 port ++
  encode_uint_field 4 ts.

(** Probes that saw the ports [p, p + d, p + 2d, ...]. *)
Fixpoint progression (p d : Z) (n : nat) : list Z :=
  match n with
  | O => []
  | S n' => p :: progression (p + d) d n'
  end.

(** What a cached classification keeps: everything but the time of the probe. *)
Definition same_prediction (o1 o2 : option PortPredictionData) : Prop :=
  match o1, o2 with
  | Some a, Some b =>
      external_ip a = external_ip b /\ predicted_port_start a = predicted_port_start b /\
      predicted_port_end a = predicted_port_end b /\ confidence a = confidence b /\
      base_port a = base_port b /\ delta_pattern a = delta_pattern b
  | None, None => True
  | _, _ => False
  end.

(** A server IP field whose length is [2^64 - 11]: in a build without overflow checks the
    position wraps back to the start. *)
Definition looping_response : list Z := [10; 245; 255; 255; 255; 255; 255; 255; 255; 255; 1].

(** A probe result for the witnesses. *)
Module NatSample.
Definition result_at (ip : string) (port : Z) : NATProbeResult := {|
  probe_server_ip := "s"; probe_local_port := 0; probe_external_ip := ip;
  probe_external_port := port; probe_timestamp_ms := 5000; probe_rtt_ms := 10 |}.
End NatSample.

(** ** Facts *)

Local Ltac Zify.zify_post_hook ::= Z.div_mod_to_equations.

(** *** Reading a response *)

Lemma decode_leb f v rest acc shift i :
  0 <= v < 128 ^ Z.of_nat f -> 0 <= shift -> 0 <= acc < 2 ^ shift -> v * 2 ^ shift < 2 ^ 64 ->
  decode_varint_loop (varint_loop f v ++ rest) acc shift i
  = (acc + v * 2 ^ shift, i + zlen (varint_loop f v)) \/ f = O.
Proof.
  revert v acc shift i. induction f as [|f IH]; intros v acc shift i Hv Hs Hacc Hmax; [by right|left].
  assert (Hlor : forall b, 0 <= b -> b * 2 ^ shift < 2 ^ 64 ->
    Z.lor acc (cast 64 (Z.shiftl b shift)) = acc + b * 2 ^ shift).
  { intros b Hb Hlt. rewrite cast_small by (rewrite Z.shiftl_mul_pow2 by lia; nia).
    rewrite Z.lor_comm, lor_shiftl_add by lia. lia. }
  destruct (Z.lt_ge_cases v 128).
  - rewrite varint_loop_end by lia. cbn [app decode_varint_loop].
    change 0x7F with (Z.ones 7). rewrite Z.land_ones, Z.mod_small by lia.
    replace (Z.land v 0x80) with 0.
    + rewrite Hlor by lia. done.
    + symmetry. rewrite <- (Z.mod_small v (2 ^ 7)) by lia. rewrite <- Z.land_ones by lia.
      rewrite <- Z.land_assoc. apply Z.land_0_r.
  - rewrite varint_loop_step by lia. cbn [app decode_varint_loop].
    assert (Hpow : 2 ^ (shift + 7) = 2 ^ shift * 128) by (rewrite Z.pow_add_r by lia; done).
    assert (Hsh : shift + 7 < 64).
    { apply (Z.pow_lt_mono_r_iff 2); [lia|lia|]. nia. }
    replace (Z.land (128 + v mod 128) 0x7F) with (v mod 128).
    2:{ change 0x7F with (Z.ones 7). rewrite Z.land_ones by lia. change (2 ^ 7) with 128. lia. }
    replace (Z.land (128 + v mod 128) 0x80 =? 0) with false.
    2:{ symmetry. apply Z.eqb_neq. intros H0. apply (f_equal (fun x => Z.testbit x 7)) in H0.
        rewrite Z.land_spec, Z.bits_0 in H0. change (Z.testbit 0x80 7) with true in H0.
        rewrite andb_true_r in H0. apply Z.testbit_false in H0; [|lia].
        change (2 ^ 7) with 128 in H0. lia. }
    replace (64 <=? shift + 7) with false by lia.
    assert (0 < 2 ^ shift) by (apply Z.pow_pos_nonneg; lia).
    rewrite Hlor by nia. rewrite Nat2Z.inj_succ, Z.pow_succ_r in Hv by lia.
    destruct (IH (v / 128) (acc + v mod 128 * 2 ^ shift) (shift + 7) (i + 1)) as [->| ->];
      [lia|lia|nia|nia| |exfalso; simpl in Hv; lia].
    rewrite zlen_cons, Hpow. f_equal; [|lia].
    pose proof (Z.div_mod v 128 ltac:(lia)). nia.
Qed.

Lemma decode_encode v rest :
  0 <= v < 2 ^ 64 ->
  decode_varint (Masque.encode_varint v ++ rest) = (v, zlen (Masque.encode_varint v)).
Proof.
  intros Hv. unfold decode_varint, Masque.encode_varint.
  destruct (decode_leb 10 v rest 0 0 0) as [->|]; [|lia|done|lia|by rewrite Z.mul_1_r|done].
  change (128 ^ Z.of_nat 10) with (2 ^ 70). lia.
Qed.

Lemma encode_varint_pos v : 0 <= v < 2 ^ 64 -> 1 <= zlen (Masque.encode_varint v).
Proof.
  intros Hv. unfold Masque.encode_varint. destruct (Z.lt_ge_cases v 128).
  - by rewrite varint_loop_end by lia.
  - rewrite varint_loop_step by lia. rewrite zlen_cons. pose proof (zlen_nonneg (varint_loop 9 (v / 128))). lia.
Qed.

Lemma drop_zlen (l1 l2 : list Z) : drop (Z.to_nat (zlen l1)) (l1 ++ l2) = l2.
Proof. apply drop_app_length'. unfold zlen. lia. Qed.

(** The parser at a field that starts after [l1]. *)
Section Fields.
Context (m : overflow_mode) (l1 l2 : list Z) (ip : string) (port : Z).

Lemma key_at key rest :
  0 <= key < 2 ^ 64 ->
  decode_varint (drop (Z.to_nat (zlen l1)) (l1 ++ Masque.encode_varint key ++ rest))
    = (key, zlen (Masque.encode_varint key)) /\
  drop (Z.to_nat (zlen l1 + zlen (Masque.encode_varint key)))
    (l1 ++ Masque.encode_varint key ++ rest) = rest.
Proof.
  intros Hk. rewrite drop_zlen, decode_encode by done. split; [done|].
  rewrite app_assoc, <- zlen_app. apply drop_zlen.
Qed.

Lemma step_string_skip s :
  zlen (l1 ++ encode_string_field 1 s ++ l2) < 2 ^ 64 ->
  parse_step m (l1 ++ encode_string_field 1 s ++ l2) (zlen l1) ip port
  = Some (Some (zlen (l1 ++ encode_string_field 1 s), ip, port)).
Proof.
  unfold encode_string_field. rewrite <- !app_assoc, !zlen_app. intros Hlen.
  pose proof (zlen_nonneg l1). pose proof (zlen_nonneg s). pose proof (zlen_nonneg l2).
  pose proof (zlen_nonneg (Masque.encode_varint (1 * 8 + 2))).
  pose proof (zlen_nonneg (Masque.encode_varint (zlen s))).
  destruct (key_at (1 * 8 + 2) (Masque.encode_varint (zlen s) ++ s ++ l2)) as [Hk Hd]; [lia|].
  unfold parse_step. rewrite Hk, Hd, decode_encode by lia.
  change (cast 32 (Z.shiftr (1 * 8 + 2) 3)) with 1. change (Z.land (1 * 8 + 2) 7) with 2. cbn [Z.eqb Pos.eqb andb].
  rewrite !arith_in_range by lia. do 4 f_equal. lia.
Qed.

Lemma step_string_ip s :
  zlen (l1 ++ encode_string_field 2 s ++ l2) < 2 ^ 64 ->
  parse_step m (l1 ++ encode_string_field 2 s ++ l2) (zlen l1) ip port
  = Some (Some (zlen (l1 ++ encode_string_field 2 s), from_utf8_lossy s, port)).
Proof.
  unfold encode_string_field. rewrite <- !app_assoc. intros Hlen.
  pose proof (zlen_nonneg l1). pose proof (zlen_nonneg s). pose proof (zlen_nonneg l2).
  pose proof (zlen_nonneg (Masque.encode_varint (2 * 8 + 2))).
  pose proof (zlen_nonneg (Masque.encode_varint (zlen s))).
  pose proof Hlen as Hlen'. rewrite !zlen_app in Hlen'.
  destruct (key_at (2 * 8 + 2) (Masque.encode_varint (zlen s) ++ s ++ l2)) as [Hk Hd]; [lia|].
  unfold parse_step. rewrite Hk, Hd, decode_encode by lia.
  change (cast 32 (Z.shiftr (2 * 8 + 2) 3)) with 2. change (Z.land (2 * 8 + 2) 7) with 2. cbn [Z.eqb Pos.eqb andb].
  rewrite !arith_in_range by lia. rewrite (proj2 (Z.leb_le _ _)) by (rewrite !zlen_app; lia).
  rewrite !app_assoc, <- app_assoc, slice_app_mid by (rewrite !zlen_app; lia).
  do 4 f_equal. rewrite !zlen_app. lia.
Qed.

Lemma step_uint n v :
  n = 3 \/ n = 4 -> 0 <= v < 2 ^ 64 ->
  parse_step m (l1 ++ encode_uint_field n v ++ l2) (zlen l1) ip port
  = Some (Some (zlen (l1 ++ encode_uint_field n v), ip, if n =? 3 then cast 32 v else port)).
Proof.
  unfold encode_uint_field. rewrite <- !app_assoc. intros Hn Hv.
  destruct (key_at (n * 8) (Masque.encode_varint v ++ l2)) as [Hk Hd]; [lia|].
  unfold parse_step. rewrite Hk, Hd, decode_encode by lia.
  replace (zlen (l1 ++ Masque.encode_varint (n * 8) ++ Masque.encode_varint v))
    with (zlen l1 + zlen (Masque.encode_varint (n * 8)) + zlen (Masque.encode_varint v))
    by (rewrite !zlen_app; lia).
  destruct Hn as [-> | ->]; reflexivity.
Qed.
End Fields.

Lemma parse_response m server ip port ts :
  0 <= port < 2 ^ 16 -> 0 <= ts < 2 ^ 64 -> Forall (fun b => 0 <= b < 128) ip ->
  zlen (encode_probe_response server ip port ts) < 2 ^ 64 ->
  parse_path_probe_response m (encode_probe_response server ip port ts)
  = Parsed (string_of_bytes ip) port.
Proof.
  intros Hp Ht Hip Hlen. unfold parse_path_probe_response.
  set (data := encode_probe_response server ip port ts) in *.
  set (f1 := encode_string_field 1 server). set (f2 := encode_string_field 2 ip).
  set (f3 := encode_uint_field 3 port). set (f4 := encode_uint_field 4 ts).
  assert (Hd : data = f1 ++ f2 ++ f3 ++ f4) by done.
  assert (Hpos : 1 <= zlen f1 /\ 1 <= zlen f2 /\ 1 <= zlen f3 /\ 1 <= zlen f4).
  { unfold f1, f2, f3, f4, encode_string_field, encode_uint_field. rewrite !zlen_app.
    pose proof (encode_varint_pos (1 * 8 + 2)). pose proof (encode_varint_pos (2 * 8 + 2)).
    pose proof (encode_varint_pos (3 * 8)). pose proof (encode_varint_pos (4 * 8)).
    pose proof (zlen_nonneg server). pose proof (zlen_nonneg ip).
    repeat match goal with |- context [zlen (Masque.encode_varint ?x)] =>
      pose proof (zlen_nonneg (Masque.encode_varint x)); generalize dependent (zlen (Masque.encode_varint x)); intros end.
    lia. }
  assert (Hz : zlen data = zlen f1 + zlen f2 + zlen f3 + zlen f4) by (rewrite Hd, !zlen_app; lia).
  replace (length data) with (S (S (S (S (length data - 4))))) by (unfold zlen in *; lia).
  assert (S1 : parse_step m data 0 "" 0 = Some (Some (zlen f1, "", 0)))
    by exact (step_string_skip m [] (f2 ++ f3 ++ f4) "" 0 server Hlen).
  assert (S2 : parse_step m data (zlen f1) "" 0 = Some (Some (zlen (f1 ++ f2), from_utf8_lossy ip, 0)))
    by exact (step_string_ip m f1 (f3 ++ f4) "" 0 ip Hlen).
  pose proof (step_uint m (f1 ++ f2) f4 (from_utf8_lossy ip) 0 3 port) as S3.
  pose proof (step_uint m (f1 ++ f2 ++ f3) [] (from_utf8_lossy ip) (cast 32 port) 4 ts) as S4.
  fold f3 in S3. fold f4 in S4. rewrite app_nil_r in S4.
  replace ((f1 ++ f2 ++ f3) ++ f4) with data in S4 by (rewrite Hd; by rewrite <- !app_assoc).
  replace ((f1 ++ f2) ++ f3 ++ f4) with data in S3 by (rewrite Hd; by rewrite <- !app_assoc).
  cbn [parse_loop].
  rewrite (proj2 (Z.ltb_lt 0 _)) by lia. rewrite S1.
  rewrite (proj2 (Z.ltb_lt (zlen f1) _)) by lia. rewrite S2.
  rewrite !zlen_app in *. rewrite (proj2 (Z.ltb_lt _ _)) by lia. rewrite S3 by lia. cbn [Z.eqb Pos.eqb].
  rewrite (proj2 (Z.ltb_lt _ _)) by lia.
  rewrite Z.add_assoc in S4. rewrite S4 by lia.
  destruct (length data - 4)%nat; cbn [parse_loop]; rewrite (proj2 (Z.ltb_ge _ _)) by lia.
  all: rewrite from_utf8_lossy_ascii by done; f_equal; cbn [Z.eqb Pos.eqb];
    rewrite (cast_small 32) by lia; apply cast_small; lia.
Qed.

Lemma decode_varint_loop_len data v sh i : i <= (decode_varint_loop data v sh i).2 /\
  (data <> [] -> i < (decode_varint_loop data v sh i).2).
Proof.
  revert v sh i. induction data as [|b data IH]; intros v sh i; cbn [decode_varint_loop]; [done|].
  repeat case_goal; simpl; [lia|lia|]. destruct (IH (Z.lor v (cast 64 (Z.land b 127 ≪ sh))) (sh + 7) (i + 1)).
  lia.
Qed.

Lemma decode_varint_loop_nonneg data v sh i : 0 <= v -> 0 <= (decode_varint_loop data v sh i).1.
Proof.
  revert v sh i. induction data as [|b data IH]; intros v sh i Hv; cbn [decode_varint_loop]; [done|].
  assert (0 <= Z.lor v (cast 64 (Z.shiftl (Z.land b 0x7F) sh))).
  { apply Z.lor_nonneg. split; [done|]. unfold cast. apply Z.mod_pos_bound. lia. }
  repeat case_goal; simpl; auto.
Qed.

(** Without wrap-around every iteration moves forward. *)
Lemma parse_step_progress data pos ip port p' ip' port' :
  0 <= pos < zlen data ->
  parse_step Checked data pos ip port = Some (Some (p', ip', port')) -> pos < p'.
Proof.
  intros Hpos. unfold parse_step.
  destruct (decode_varint (drop (Z.to_nat pos) data)) as [key klen] eqn:Ek.
  assert (0 < klen).
  { pose proof (decode_varint_loop_len (drop (Z.to_nat pos) data) 0 0 0) as [_ H].
    unfold decode_varint in Ek. rewrite Ek in H. apply H. intros Hnil.
    apply (f_equal length) in Hnil. rewrite length_drop in Hnil. unfold zlen in Hpos. simpl in Hnil. lia. }
  destruct (decode_varint (drop (Z.to_nat (pos + klen)) data)) as [v n] eqn:Ev.
  assert (0 <= n /\ 0 <= v) as [Hn Hv].
  { pose proof (decode_varint_loop_len (drop (Z.to_nat (pos + klen)) data) 0 0 0) as [H1 _].
    pose proof (decode_varint_loop_nonneg (drop (Z.to_nat (pos + klen)) data) 0 0 0 ltac:(lia)) as H2.
    unfold decode_varint in Ev. by rewrite Ev in H1, H2. }
  unfold arith. intros Hs. repeat (case_in Hs; try discriminate); simplify_eq; lia.
Qed.

Lemma parse_loop_fuel fuel data pos ip port :
  0 <= pos -> zlen data - pos <= Z.of_nat fuel ->
  parse_loop Checked fuel data pos ip port <> ParseNoFuel.
Proof.
  revert pos ip port. induction fuel as [|f IH]; intros pos ip port Hpos Hf; cbn [parse_loop];
    destruct (pos <? zlen data) eqn:E; bool_to_prop; try done; [lia|].
  destruct (parse_step Checked data pos ip port) as [[[[p' ip'] port']|]|] eqn:Es; try done.
  pose proof (parse_step_progress _ _ _ _ _ _ _ (conj Hpos E) Es). apply IH; lia.
Qed.

Lemma looping_step ip port :
  parse_step Wrapping looping_response 0 ip port = Some (Some (0, ip, port)).
Proof. reflexivity. Qed.

(** Reading a probe response.  The response a server encodes gives back its address
    and port in both builds; with overflow checks the parser ends on every input within
    one iteration per byte. *)
Lemma probe_response_parsed m server ip port ts data :
  0 <= port < 2 ^ 16 -> 0 <= ts < 2 ^ 64 -> Forall (fun b => 0 <= b < 128) ip ->
  zlen (encode_probe_response server ip port ts) < 2 ^ 64 ->
  parse_path_probe_response m (encode_probe_response server ip port ts)
    = Parsed (string_of_bytes ip) port /\
  parse_path_probe_response Checked data <> ParseNoFuel.
Proof.
  intros. split; [by apply parse_response|]. apply parse_loop_fuel; [done|]. unfold zlen. lia.
Qed.

Lemma probe_response_parsed_witness :
  parse_path_probe_response Checked (encode_probe_response (as_bytes "s") (as_bytes "1.2.3.4") 40000 17)
    = Parsed "1.2.3.4" 40000 /\
  parse_path_probe_response Checked looping_response <> ParseNoFuel.
Proof.
  refine (probe_response_parsed Checked (as_bytes "s") (as_bytes "1.2.3.4") 40000 17 looping_response _ _ _ _).
  - lia.
  - lia.
  - repeat constructor; vm_compute; congruence.
  - vm_compute. reflexivity.
Defined.

(** A build without overflow checks does not end on every response: on an eleven-byte
    message the position returns to the start in each iteration, whatever the fuel. *)
Lemma probe_response_loops fuel ip port :
  parse_loop Wrapping fuel looping_response 0 ip port = ParseNoFuel.
Proof.
  revert ip port. induction fuel as [|f IH]; intros ip port; [done|].
  cbn [parse_loop]. change (0 <? zlen looping_response) with true. by rewrite looping_step.
Qed.

(** *** Classification *)

Lemma deltas_progression p d n : deltas (progression p d (S n)) = replicate n d.
Proof.
  revert p. induction n as [|n IH]; intros p; [done|].
  change (progression p d (S (S n))) with (p :: progression (p + d) d (S n)).
  cbn [replicate]. rewrite <- (IH (p + d)). simpl. f_equal. lia.
Qed.

Lemma all_same_progression p d n : d <> 0 -> all_same (progression p d (S (S n))) = false.
Proof. intros Hd. simpl. by replace (p =? p + d) with false by lia. Qed.

Lemma sum_replicate n d : sum (replicate n d) = Z.of_nat n * d.
Proof. induction n; simpl; [done|]. unfold sum in *. simpl. lia. Qed.

Lemma avg_replicate n d : avg (replicate (S n) d) = d.
Proof.
  unfold avg, zlen. rewrite sum_replicate, length_replicate.
  rewrite Z.mul_comm. apply Z.quot_mul. lia.
Qed.

Lemma std_dev_replicate n d : std_dev (replicate n d) d = 0.
Proof.
  unfold std_dev. case_goal; [|done].
  pose proof (f64_sub_self (f64_of_Z d)) as Hx. set (x := f64_sub _ _) in *.
  assert (nothing (fold_left f64_add (map (fun d' => let y := f64_sub (f64_of_Z d') (f64_of_Z d) in
    f64_mul y y) (replicate n d)) (f64_of_Z 0))) as Ht.
  { assert (nothing (f64_of_Z 0)) as H0 by done. revert H0. generalize (f64_of_Z 0).
    clear E. induction n as [|n IH]; intros a Ha; [done|]. cbn [replicate map fold_left]. apply IH.
    apply (nothing_ops a); [done|]. by apply (nothing_ops x x). }
  set (total := fold_left _ _ _) in *. destruct (nothing_ops total (f64_of_Z (zlen (replicate n d) - 1)) Ht) as (_ & Hd & _).
  destruct (nothing_ops _ x Hd) as (_ & _ & Hs & _). by apply (nothing_ops _ x).
Qed.

Lemma last_progression p d n : last (progression p d (S n)) = Some (p + d * Z.of_nat n).
Proof.
  revert p. induction n as [|n IH]; intros p; [simpl; f_equal; lia|].
  change (progression p d (S (S n))) with (p :: progression (p + d) d (S n)).
  transitivity (last (progression (p + d) d (S n))); [done|]. rewrite IH. f_equal. lia.
Qed.

Lemma last_external_port results p :
  last (external_ports results) = Some p ->
  exists r, last results = Some r /\ probe_external_port r = p.
Proof.
  unfold external_ports. change (map probe_external_port results) with (probe_external_port <$> results).
  rewrite fmap_last.
  destruct (last results) as [r|]; [|done]. intros [= <-]. by exists r.
Qed.

Lemma port_range_in m center margin :
  0 <= margin < 2 ^ 16 -> -(2 ^ 17) <= center < 2 ^ 17 -> 0 <= center + margin ->
  port_range m center margin = Some (Z.max (center - margin) 1024, Z.min (center + margin) 65535).
Proof.
  intros Hm Hc Hpos. unfold port_range, arith_i32.
  replace ((- 2 ^ 31 <=? center - margin) && (center - margin <? 2 ^ 31)) with true by lia.
  replace ((- 2 ^ 31 <=? center + margin) && (center + margin <? 2 ^ 31)) with true by lia.
  rewrite !cast_small by lia. done.
Qed.

Lemma classify_progression m now results config r0 rest p d n :
  results = r0 :: rest -> is_ipv6 (probe_external_ip r0) = false ->
  external_ports results = progression p d (S (S n)) -> d <> 0 ->
  exists l, last results = Some l /\ probe_external_port l = p + d * Z.of_nat (S n) /\
    classify_nat m now results config =
    let?o pr := compute_prediction m now l d Confidence_Sequential config in
    Some {| nat_type := NATType_SymmetricSequential; prediction := Some pr |}.
Proof.
  intros -> Hip Hports Hd.
  destruct (last_external_port (r0 :: rest) (p + d * Z.of_nat (S n))) as (l & Hl & Hlp).
  { by rewrite Hports, last_progression. }
  exists l. split; [done|]. split; [done|]. unfold classify_nat.
  rewrite Hip, Hports, all_same_progression, deltas_progression by done.
  cbn [replicate]. change (d :: replicate n d) with (replicate (S n) d).
  rewrite avg_replicate, std_dev_replicate. cbn [Z.eqb orb]. by rewrite Hl.
Qed.

(** A NAT that hands out ports in steps of [d] is recognised as sequential from two or more
    probes, and the predicted range, which lies within the user ports and is at most
    [2 * margin + 1] ports wide, contains the port it will use next. *)
Lemma next_port_predicted m now results config r0 rest p d n :
  results = r0 :: rest -> is_ipv6 (probe_external_ip r0) = false ->
  external_ports results = progression p d (S (S n)) -> d <> 0 ->
  0 <= prediction_margin_sequential config < 2 ^ 16 ->
  let next := p + d * (Z.of_nat (S n) + 1) in
  1024 <= next <= 65535 ->
  exists pr l, classify_nat m now results config =
      Some {| nat_type := NATType_SymmetricSequential; prediction := Some pr |} /\
    last results = Some l /\ external_ip pr = probe_external_ip l /\
    1024 <= predicted_port_start pr <= next /\ next <= predicted_port_end pr <= 65535 /\
    predicted_port_end pr - predicted_port_start pr <= 2 * prediction_margin_sequential config.
Proof.
  intros Hr Hip Hports Hd Hm next Hnext.
  destruct (classify_progression m now _ config _ _ _ _ _ Hr Hip Hports Hd) as (l & Hlast & Hl & ->).
  unfold compute_prediction. rewrite Hl, cast_i32_small by lia.
  replace (p + d * Z.of_nat (S n) + d * 1) with next by (unfold next; lia).
  rewrite port_range_in by lia. do 2 eexists; split; [done|]. split; [done|]. simpl.
  split; [done|]. lia.
Qed.

(** With ports falling in large steps the predicted range wraps: a centre whose upper
    end is negative gives an end port above every port, [2^32] beyond the intended one. *)
Lemma falling_ports_prediction_wraps m center margin :
  0 <= margin < 2 ^ 16 -> -(2 ^ 17) <= center -> center + margin < 0 ->
  port_range m center margin = Some (1024, 2 ^ 32 + (center + margin)) /\
  65535 < 2 ^ 32 + (center + margin).
Proof.
  intros Hm Hc Hneg. unfold port_range, arith_i32.
  replace ((- 2 ^ 31 <=? center - margin) && (center - margin <? 2 ^ 31)) with true by lia.
  replace ((- 2 ^ 31 <=? center + margin) && (center + margin <? 2 ^ 31)) with true by lia.
  rewrite Z.max_r, Z.min_l by lia. rewrite (cast_small 32 1024) by lia.
  split; [|lia]. do 2 f_equal. unfold cast.
  rewrite <- (Z.mod_add _ 1) by lia. rewrite Z.mod_small; lia.
Qed.

Lemma falling_ports_prediction_wraps_witness :
  port_range Checked (-25000) 3 = Some (1024, 4294942299) /\
  option_map (fun i => option_map (fun p => (predicted_port_start p, predicted_port_end p)) (prediction i))
    (classify_nat Checked 0 (map (NatSample.result_at "1.2.3.4") [65000; 35000; 5000]) default_config)
  = Some (Some (1024, 4294942299)).
Proof.
  split; [|vm_compute; reflexivity].
  refine (proj1 (falling_ports_prediction_wraps Checked (-25000) 3 _ _ _)); lia.
Defined.

(** For IPv4 results and the default margins the cached classification agrees with
    the fresh one in type and predicted range; for IPv6 results the fresh one is no NAT
    and the cached one never is. *)
Lemma cache_agrees_with_classification m now now_ms results config info r0 rest :
  results = r0 :: rest ->
  cast_i32 (prediction_margin_sequential config) = 3 ->
  cast_i32 (prediction_margin_pseudo config) = 8 ->
  classify_nat m now results config = Some info ->
  if is_ipv6 (probe_external_ip r0) then
    nat_type info = NATType_None /\
    exists t, cached_to_nat_info m (build_cache now_ms results info config)
              = Some {| nat_type := t; prediction := None |} /\ t <> NATType_None
  else exists info', cached_to_nat_info m (build_cache now_ms results info config) = Some info' /\
         nat_type info' = nat_type info /\ same_prediction (prediction info') (prediction info).
Proof.
  intros -> Hms Hmp. unfold classify_nat, cached_to_nat_info.
  set (results := r0 :: rest). destruct (is_ipv6 _).
  - intros [= <-]. cbn [build_cache cache_probes cache_confidence prediction].
    split; [done|]. destruct (all_same _); by eexists.
  - destruct (all_same (external_ports results)) eqn:Es.
    + intros [= <-]. cbn [build_cache cache_probes]. rewrite Es. by eexists.
    + intros H. cbn [build_cache cache_probes]. rewrite Es.
      destruct (deltas (external_ports results)) as [|d0 ds] eqn:Ed.
      { injection H as <-. by eexists. }
      assert (Hlast : exists l, last results = Some l) by (apply last_is_Some; done).
      destruct Hlast as [l Hl]. rewrite Hl in H.
      repeat (case_in H; try discriminate); simplify_eq; cbn [build_cache cache_confidence prediction];
        try (by eexists); unfold compute_prediction in *;
        repeat match goal with
        | H : (let?o _ := _ in _) = Some _ |- _ => case_in H; try discriminate
        end; change (default r0 (Some l)) with l in *.
      all: match goal with p : (Z * Z)%type |- _ => destruct p end; simplify_eq; cbn [confidence].
      all: rewrite Hl; rewrite Z.mul_1_r, ?Hms, ?Hmp in *; cbn [build_cache average_delta]; rewrite Ed.
      all: match goal with H : port_range _ _ _ = _ |- _ => rewrite H end.
      all: eexists; split; [reflexivity|]; done.
Qed.

Lemma cache_agrees_with_classification_witness :
  match classify_nat Checked 9 (map (NatSample.result_at "1.2.3.4") [40000; 40002; 40004]) default_config with
  | Some info => exists info',
      cached_to_nat_info Checked (build_cache 9000 (map (NatSample.result_at "1.2.3.4") [40000; 40002; 40004])
                                    info default_config) = Some info' /\
      nat_type info' = nat_type info /\ same_prediction (prediction info') (prediction info)
  | None => False
  end.
Proof.
  destruct (classify_nat Checked 9 _ _) as [info|] eqn:E; [|vm_compute in E; discriminate].
  refine (cache_agrees_with_classification Checked 9 9000
            (map (NatSample.result_at "1.2.3.4") [40000; 40002; 40004]) default_config info
            (NatSample.result_at "1.2.3.4" 40000) (map (NatSample.result_at "1.2.3.4") [40002; 40004])
            _ _ _ E); reflexivity.
Defined.

(** A refresh that finds the cached pattern unchanged never returns: it keeps its write
    guard on the cache while it waits for the read guard of [cached_nat_info]. *)
Lemma quick_refresh_deadlocks m config now_ms path path2 c :
  2 <= zlen (successes (imap path (ips_to_probe config (path_refresh_count config)))) ->
  Z.abs (avg (deltas (external_ports
           (successes (imap path (ips_to_probe config (path_refresh_count config)))))) - average_delta c)
    <= cast_i32 (nat_delta_variance_threshold config) ->
  quick_refresh m config now_ms path path2 (Some c) = Deadlock.
Proof.
  intros Hn Hd. unfold quick_refresh.
  destruct (ips_to_probe config (path_refresh_count config)) as [|ip ips]; [exfalso; exact (Hn eq_refl)|].
  set (results := successes _) in *. replace (zlen results <? 2) with false by lia.
  cbn [outcome_bind acquire_read].
  destruct (deltas (external_ports results)) eqn:Ed.
  { exfalso. destruct results as [|r1 [|r2 l]]; [exact (Hn eq_refl)..|done]. }
  rewrite (proj2 (Z.leb_le _ _)) by done. done.
Qed.

Lemma quick_refresh_deadlocks_witness :
  let cfg := with_server_ips ["198.51.100.1"; "198.51.100.2"] default_config in
  quick_refresh Checked cfg 9000 (fun i _ => Ok (NatSample.result_at "1.2.3.4" (40000 + 2 * Z.of_nat i)))
    (fun _ _ => Err NatNotConnected)
    (Some (build_cache 8000 (map (NatSample.result_at "1.2.3.4") [30000; 30002; 30004]) no_nat cfg))
  = Deadlock.
Proof.
  intros cfg. apply (quick_refresh_deadlocks Checked cfg 9000); vm_compute; discriminate.
Defined.
