(* ===== verification/NatStatistics.v ===== *)
(** * What the NAT classification decides

    [classify_nat] of [voip-client/src/nat_probe.rs] divides and takes a square root in double
    precision and casts the result.  This file states its decision in integers and shows that the
    doubles decide the same. *)

From S2P Require Import Prelude Float64 Types Config RustStr Wire Masque NatProbe.

Local Open Scope Z_scope.
Local Open Scope rust_scope.

(** The squared distances of the steps from their truncated mean. *)
Definition spread (ds : list Z) : Z := sum (map (fun d => (d - avg ds) * (d - avg ds)) ds).

(** The kind of a symmetric NAT from the steps between its ports, without a root or a quotient. *)
Definition symmetric_kind (threshold : Z) (ds : list Z) : NATType :=
  let k := zlen ds - 1 in
  let limit t := (t + 1) * (t + 1) * k in
  if (k <=? 0) || (spread ds <? limit threshold) then NATType_SymmetricSequential
  else if spread ds <? limit (3 * threshold) then NATType_SymmetricPseudo
  else NATType_SymmetricRandom.

(** Steps between 16-bit ports. *)
Abbreviation steps_ok := (Forall (fun d => Z.abs d <= 65535)).

Lemma sum_bounds l lo hi : Forall (fun x => lo <= x <= hi) l -> lo * zlen l <= sum l <= hi * zlen l.
Proof.
  induction 1 as [|x l Hx _ IH]; [unfold zlen, sum; cbn; lia|].
  rewrite zlen_cons. unfold sum in *. cbn [foldr]. lia.
Qed.

Lemma avg_bound ds : ds <> [] -> steps_ok ds -> Z.abs (avg ds) <= 65535.
Proof.
  intros Hne Hs. assert (0 < zlen ds) as Hn by (destruct ds; [done|]; rewrite zlen_cons; pose proof (zlen_nonneg ds); lia).
  pose proof (sum_bounds ds (-65535) 65535 ltac:(eapply Forall_impl; [exact Hs|]; cbn; lia)).
  unfold avg. rewrite <- Z.quot_abs by lia. rewrite (Z.abs_eq (zlen ds)) by lia.
  apply Z.quot_le_upper_bound; lia.
Qed.

Lemma spread_bounds ds : ds <> [] -> steps_ok ds ->
  Forall (fun x => 0 <= x) (map (fun d => (d - avg ds) * (d - avg ds)) ds) /\
  0 <= spread ds <= 131070 * 131070 * zlen ds.
Proof.
  intros Hne Hs. pose proof (avg_bound ds Hne Hs) as Ha.
  assert (Forall (fun x => 0 <= x <= 131070 * 131070) (map (fun d => (d - avg ds) * (d - avg ds)) ds)) as Hb.
  { apply Forall_map. eapply Forall_impl; [exact Hs|]. cbn. intros d Hd.
    split; [apply Z.square_nonneg|]. rewrite <- Z.abs_square. apply Z.mul_le_mono_nonneg; lia. }
  split; [eapply Forall_impl; [exact Hb|]; cbn; lia|].
  pose proof (sum_bounds _ _ _ Hb) as H. unfold spread. unfold zlen in *. rewrite length_map in H. lia.
Qed.

(** The doubles compute the integer root of the integer quotient. *)
Lemma std_dev_is_isqrt ds : 2 <= zlen ds <= 2 ^ 16 -> steps_ok ds ->
  std_dev ds (avg ds) = Z.sqrt (spread ds / (zlen ds - 1)).
Proof.
  intros Hn Hs. assert (ds <> []) as Hne by (intros ->; unfold zlen in Hn; cbn in Hn; lia).
  pose proof (avg_bound ds Hne Hs) as Ha. destruct (spread_bounds ds Hne Hs) as [Hpos Hsp].
  unfold std_dev. rewrite (proj2 (Z.ltb_lt 1 (zlen ds))) by lia.
  assert (map (fun d => f64_mul (f64_sub (f64_of_Z d) (f64_of_Z (avg ds))) (f64_sub (f64_of_Z d) (f64_of_Z (avg ds)))) ds =
    map exactly (map (fun d => (d - avg ds) * (d - avg ds)) ds)) as ->.
  { rewrite map_map. apply map_ext_in. intros d Hd. rewrite Forall_forall in Hs.
    specialize (Hs d (proj2 (list_elem_of_In _ _) Hd)). cbn in Hs.
    rewrite !f64_of_Z_exact, f64_sub_exact by (unfold small; lia).
    apply f64_square_exact. rewrite <- Z.abs_square.
    apply (Z.le_lt_trans _ (131070 * 131070)); [apply Z.mul_le_mono_nonneg; lia|done]. }
  rewrite !f64_of_Z_exact by (unfold small; lia).
  rewrite f64_fold_exact; [|lia|done|change (foldr Z.add 0) with sum; fold (spread ds); lia].
  change (0 + foldr Z.add 0 _) with (spread ds).
  apply f64_isqrt_quotient; [lia|lia|]. apply Z.div_lt_upper_bound; nia.
Qed.

Lemma isqrt_le v t : 0 <= v -> 0 <= t -> (Z.sqrt v <=? t) = (v <? (t + 1) * (t + 1)).
Proof.
  intros Hv Ht. destruct (Z.sqrt_spec v Hv) as [Hl Hu]. pose proof (Z.sqrt_nonneg v).
  apply eq_true_iff_eq. rewrite Z.leb_le, Z.ltb_lt. split; intros H'; nia.
Qed.

(** The test of [classify_nat] against a threshold. *)
Lemma std_dev_le ds t : 2 <= zlen ds <= 2 ^ 16 -> steps_ok ds -> 0 <= t ->
  (std_dev ds (avg ds) <=? t) = (spread ds <? (t + 1) * (t + 1) * (zlen ds - 1)).
Proof.
  intros Hn Hs Ht. assert (ds <> []) as Hne by (intros ->; unfold zlen in Hn; cbn in Hn; lia).
  destruct (spread_bounds ds Hne Hs) as [_ Hsp]. assert (0 <= spread ds / (zlen ds - 1)) by (apply Z.div_pos; lia).
  rewrite std_dev_is_isqrt, isqrt_le by done. apply eq_true_iff_eq. rewrite !Z.ltb_lt. split; intros Hlt.
  - pose proof (Z.mul_succ_div_gt (spread ds) (zlen ds - 1) ltac:(lia)). nia.
  - apply Z.div_lt_upper_bound; lia.
Qed.

Lemma deltas_length ports : ports <> [] -> zlen (deltas ports) = zlen ports - 1.
Proof.
  intros Hne. induction ports as [|p ports IH]; [done|]. destruct ports as [|q ports]; [done|].
  change (deltas (p :: q :: ports)) with ((q - p) :: deltas (q :: ports)).
  rewrite zlen_cons, IH, (zlen_cons p) by done. lia.
Qed.

Lemma deltas_steps ports : Forall (fun p => 0 <= p <= 65535) ports -> steps_ok (deltas ports).
Proof.
  induction 1 as [|p ports Hp Hps IH]; [constructor|]. destruct ports as [|q ports]; [constructor|].
  apply Forall_cons in Hps as [Hq _]. constructor; [lia|done].
Qed.

(** Computing a prediction never panics. *)
Lemma compute_prediction_some m now last d conf config :
  0 <= probe_external_port last <= 65535 -> Z.abs d <= 65535 ->
  0 <= prediction_margin_sequential config < 2 ^ 16 -> 0 <= prediction_margin_pseudo config < 2 ^ 16 ->
  exists p, compute_prediction m now last d conf config = Some p.
Proof.
  intros Hl Hd Hs Hp. unfold compute_prediction, port_range, arith_i32. rewrite !cast_i32_small by lia.
  set (margin := match conf with Confidence_Sequential => _ | _ => _ end).
  assert (0 <= margin < 2 ^ 16) by (destruct conf; unfold margin; lia). clearbody margin.
  set (c := probe_external_port last + d * 1). assert (Z.abs c < 2 ^ 17) by (unfold c; lia). clearbody c.
  replace ((- 2 ^ 31 <=? c - margin) && (c - margin <? 2 ^ 31)) with true by lia.
  replace ((- 2 ^ 31 <=? c + margin) && (c + margin <? 2 ^ 31)) with true by lia.
  by eexists.
Qed.

(** The first test of [classify_nat], with one step or more. *)
Lemma first_test ds t : ds <> [] -> zlen ds <= 2 ^ 16 -> steps_ok ds -> 0 <= t ->
  (std_dev ds (avg ds) =? 0) || (std_dev ds (avg ds) <=? t) =
  (zlen ds - 1 <=? 0) || (spread ds <? (t + 1) * (t + 1) * (zlen ds - 1)).
Proof.
  intros Hne Hn Hs Ht. destruct (Z.le_gt_cases (zlen ds) 1) as [Hle|Hgt].
  - unfold std_dev. rewrite (proj2 (Z.ltb_ge 1 (zlen ds))), (proj2 (Z.leb_le (zlen ds - 1) 0)) by lia. done.
  - rewrite <- std_dev_le, (proj2 (Z.leb_gt (zlen ds - 1) 0)) by (done || lia). cbn [orb].
    apply eq_true_iff_eq. rewrite orb_true_iff, Z.eqb_eq, !Z.leb_le. lia.
Qed.

(** C36: the classification by doubles equals its definition in integers.  From at most [2^16]
    probes of an IPv4 address, with 16-bit ports that are not all the same and a threshold whose
    triple fits, it never panics.  The NAT is sequential, bounded or random as the squared
    distances of the port steps from their mean compare with the squares of the threshold and
    of its triple, with no rounding error in the division, the root or the cast.  A range is
    predicted exactly for the first two. *)
Theorem classification_in_integers m now results config r0 rest :
  results = r0 :: rest -> is_ipv6 (probe_external_ip r0) = false ->
  all_same (external_ports results) = false -> zlen results <= 2 ^ 16 ->
  Forall (fun p => 0 <= p <= 65535) (external_ports results) ->
  0 <= nat_delta_variance_threshold config < 2 ^ 29 ->
  0 <= prediction_margin_sequential config < 2 ^ 16 -> 0 <= prediction_margin_pseudo config < 2 ^ 16 ->
  exists info, classify_nat m now results config = Some info /\
    nat_type info = symmetric_kind (nat_delta_variance_threshold config) (deltas (external_ports results)) /\
    (prediction info = None <-> nat_type info = NATType_SymmetricRandom).
Proof.
  intros -> Hip Hsame Hlen Hports Hth Hseq Hps. set (results := r0 :: rest) in *.
  set (ds := deltas (external_ports results)). set (t := nat_delta_variance_threshold config) in *.
  assert (zlen ds = zlen results - 1) as Hn.
  { unfold ds. rewrite deltas_length by done. unfold external_ports, zlen. by rewrite length_map. }
  assert (ds <> []) as Hne.
  { unfold ds, results in *. destruct rest; [done|]. done. }
  pose proof (deltas_steps _ Hports) as Hsteps. fold ds in Hsteps.
  assert (forall conf, exists p, compute_prediction m now (default r0 (last results)) (avg ds) conf config = Some p)
    as Hpred.
  { intros conf. apply compute_prediction_some; [|by apply avg_bound|done|done].
    rewrite Forall_forall in Hports. apply Hports. unfold external_ports. apply list_elem_of_fmap_2.
    destruct (last results) eqn:El; [by apply last_Some_elem_of|by apply last_None in El]. }
  unfold classify_nat. cbn [results]. fold results ds. rewrite Hip, Hsame. fold ds.
  rewrite cast_i32_small by lia. fold t. destruct ds as [|d ds'] eqn:Eds; [done|]. rewrite <- Eds in *.
  rewrite first_test by (done || lia). unfold symmetric_kind. fold t.
  destruct (_ || _) eqn:E1.
  { destruct (Hpred Confidence_Sequential) as [p ->]. by eexists. }
  apply orb_false_iff in E1 as [E1 _]. bool_to_prop.
  unfold arith_i32. replace ((- 2 ^ 31 <=? t * 3) && (t * 3 <? 2 ^ 31)) with true by lia.
  cbn [option_bind]. rewrite std_dev_le, (Z.mul_comm t 3) by (done || lia).
  destruct (spread ds <? _).
  - destruct (Hpred Confidence_PseudoSequential) as [p ->]. by eexists.
  - by eexists.
Qed.

(** Ports whose steps are 2, 2 and 40: the deviation is 21, between three times the threshold of
    the default configuration and beyond. *)
Lemma classification_in_integers_witness :
  exists info, classify_nat Checked 9
      (map (NatSample.result_at "1.2.3.4") [40000; 40002; 40004; 40044]) default_config = Some info /\
    nat_type info = NATType_SymmetricRandom /\ prediction info = None.
Proof.
  destruct (classification_in_integers Checked 9
    (map (NatSample.result_at "1.2.3.4") [40000; 40002; 40004; 40044]) default_config
    (NatSample.result_at "1.2.3.4" 40000)
    (map (NatSample.result_at "1.2.3.4") [40002; 40004; 40044])) as (info & Hi & Ht & Hp).
  1-3: reflexivity.
  1: vm_compute; discriminate.
  1: repeat constructor; vm_compute; discriminate.
  1-3: vm_compute; split; [discriminate|reflexivity].
  assert (nat_type info = NATType_SymmetricRandom) as Hr by (rewrite Ht; vm_compute; reflexivity).
  exists info. split; [exact Hi|]. split; [exact Hr|]. apply Hp. exact Hr.
Defined.
