(* ===== verification/Proxy.v ===== *)
(** * The volunteer MASQUE proxy and the client's proxy records

    [voip-client/src/proxy.rs]: the relay sessions of [MasqueProxy] with the anti-abuse
    checks on their datagrams, the per-session [SessionTracker], the order in which
    [TunnelRecoveryHandler] tries proxies, and the client's [ProxyCache].  The token check of
    a connecting peer is in [ProxyToken]; accepting connections and certificates are in
    [ProxyServer].  Connections are values of an arbitrary type. *)

From S2P Require Import Prelude Types ProxyToken.

Local Open Scope Z_scope.
Local Open Scope rust_scope.
Local Ltac Zify.zify_post_hook ::= Z.div_mod_to_equations.

(** ** Records and errors *)

Record ProxyRecord := {
  pr_node_id : string;
  pr_proxy_url : string;
  pr_capacity : Z;
  pr_region : string;
  pr_latency_hint_ms : Z;
  pr_timestamp : Z;
  pr_ttl_seconds : Z;
  pr_cert_fingerprint : string;
  pr_signature : list Z
}.

Inductive CertError :=
| AcmeChallengeFailed (s : string)
| NotProvisioned
| SelfSignedGenerationFailed (s : string)
| InvalidDomain (s : string)
| TlsConfigError (s : string)
| CertIoError (s : string)
| ServerConfigError (s : string)
| RcgenError (s : string).

Inductive ProxyError :=
| CapacityExceeded (max active : Z)
| DurationExceeded (limit_secs actual_secs : Z)
| DatagramRateExceeded (max current : Z)
| DatagramSizeExceeded (max got : Z)
| BandwidthExceeded (max_bps current_bps : Z)
| PortBlocked (port : Z)
| TokenValidationFailed (s : string)
| SessionNotFound (call_id : string)
| ProxyIoError (s : string)
| ProxyQuicError (s : string)
| ProxyCertError (e : CertError)
| ProxyBadToken (e : ProxyTokenError).

Record ProxyLimits := {
  max_sessions : Z;
  max_duration_secs : Z;
  max_datagram_rate : Z;
  max_datagram_size : Z;
  max_bandwidth_bps : Z;
  blocked_target_ports : list Z
}.

Definition ProxyLimits_default : ProxyLimits := {|
  max_sessions := MAX_SESSIONS;
  max_duration_secs := MAX_SESSION_DURATION_SECS;
  max_datagram_rate := MAX_DATAGRAMS_PER_SEC;
  max_datagram_size := MAX_DATAGRAM_SIZE;
  max_bandwidth_bps := MAX_BANDWIDTH_BPS;
  blocked_target_ports := [25; 194; 465; 587; 993; 995; 3389]
|}.

(** ** Session tracker *)

Record SessionTracker := {
  trk_call_id : string;
  start_time : Z;
  datagram_count : Z;
  bytes_sent : Z;
  bytes_recv : Z;
  last_datagram_time : Z
}.

Definition tracker_new (now : Z) (call_id : string) : SessionTracker := {|
  trk_call_id := call_id; start_time := now; datagram_count := 0; bytes_sent := 0;
  bytes_recv := 0; last_datagram_time := now
|}.

Section Tracker.
Context (m : overflow_mode).

Definition record_send (now size : Z) (t : SessionTracker) : option SessionTracker :=
  let?o count := arith m 64 (datagram_count t + 1) in
  let?o sent := arith m 64 (bytes_sent t + size) in
  Some {| trk_call_id := trk_call_id t; start_time := start_time t; datagram_count := count;
          bytes_sent := sent; bytes_recv := bytes_recv t; last_datagram_time := now |}.

Definition record_recv (size : Z) (t : SessionTracker) : option SessionTracker :=
  let?o received := arith m 64 (bytes_recv t + size) in
  Some {| trk_call_id := trk_call_id t; start_time := start_time t;
          datagram_count := datagram_count t; bytes_sent := bytes_sent t;
          bytes_recv := received; last_datagram_time := last_datagram_time t |}.

Definition datagram_rate (now : Z) (t : SessionTracker) : Z :=
  cast 32 (datagram_count t / Z.max (elapsed_secs now (start_time t)) 1).

Definition send_bandwidth_bps (now : Z) (t : SessionTracker) : option Z :=
  let?o bits := arith m 64 (bytes_sent t * 8) in
  Some (bits / Z.max (elapsed_secs now (start_time t)) 1).

Definition duration_secs (now : Z) (t : SessionTracker) : Z := elapsed_secs now (start_time t).

Definition is_duration_exceeded (now limit : Z) (t : SessionTracker) : bool :=
  limit <? duration_secs now t.

Definition is_rate_exceeded (now limit : Z) (t : SessionTracker) : bool :=
  limit <? datagram_rate now t.

Definition is_bandwidth_exceeded (now limit : Z) (t : SessionTracker) : option bool :=
  let?o bps := send_bandwidth_bps now t in Some (limit <? bps).
End Tracker.

(** ** The proxy *)

Section Proxy.
Context {Conn : Type}.

Record RelaySession := {
  rs_call_id : string;
  peer_a : Conn;
  peer_b : option Conn;
  created_at : Z;
  tracker : SessionTracker
}.

Record MasqueProxy := {
  sessions : gmap string RelaySession;
  limits : ProxyLimits
}.

Definition active_session_count (p : MasqueProxy) : Z := cast 32 (Z.of_nat (size (sessions p))).

Definition has_capacity (p : MasqueProxy) : bool :=
  active_session_count p <? max_sessions (limits p).

(** [retain] keeps the sessions younger than the limit; the count of the others is returned. *)
Definition cleanup_expired_sessions (now : Z) (p : MasqueProxy) : MasqueProxy * Z :=
  let kept := filter (fun kv : string * RelaySession =>
                elapsed now (created_at kv.2) < max_duration_secs (limits p) * NS_PER_SEC)
                (sessions p) in
  ({| sessions := kept; limits := limits p |},
   Z.of_nat (size (sessions p)) - Z.of_nat (size kept)).

(** The rate that [check_datagram] compares with the limit: zero after a second without
    datagrams, else the average over the whole session. *)
Definition recent_count (now : Z) (s : RelaySession) : Z :=
  if now - NS_PER_SEC <? last_datagram_time (tracker s)
  then cast 32 (datagram_count (tracker s) /
                Z.max (elapsed_secs now (start_time (tracker s))) 1)
  else 0.

Definition check_datagram (now : Z) (call_id : string) (datagram_size : Z) (p : MasqueProxy)
    : result ProxyError unit :=
  if max_datagram_size (limits p) <? datagram_size
  then Err (DatagramSizeExceeded (max_datagram_size (limits p)) datagram_size)
  else
    let? session := ok_or (sessions p !! call_id) (SessionNotFound call_id) in
    let secs := elapsed_secs now (created_at session) in
    if max_duration_secs (limits p) <? secs
    then Err (DurationExceeded (max_duration_secs (limits p)) secs)
    else
      let count := recent_count now session in
      if max_datagram_rate (limits p) <? count
      then Err (DatagramRateExceeded (max_datagram_rate (limits p)) count)
      else Ok tt.

Definition is_port_allowed (p : MasqueProxy) (port : Z) : bool :=
  negb (bool_decide (port ∈ blocked_target_ports (limits p))).
End Proxy.

Arguments RelaySession : clear implicits.
Arguments MasqueProxy : clear implicits.

(** ** Recovery order *)

Record TunnelRecoveryHandler := {
  cached_proxies : list ProxyRecord;
  last_proxy_url : option string;
  max_recovery_attempts : Z;
  recovery_timeout : Z
}.

Definition recovery_new (attempts timeout : Z) : TunnelRecoveryHandler := {|
  cached_proxies := []; last_proxy_url := None; max_recovery_attempts := attempts;
  recovery_timeout := timeout
|}.

Definition recovery_default_settings : TunnelRecoveryHandler := recovery_new 3 (600 * NS_PER_MS).

Definition update_proxies (l : list ProxyRecord) (h : TunnelRecoveryHandler)
    : TunnelRecoveryHandler := {|
  cached_proxies := l; last_proxy_url := last_proxy_url h;
  max_recovery_attempts := max_recovery_attempts h; recovery_timeout := recovery_timeout h
|}.

Definition set_last_proxy (url : string) (h : TunnelRecoveryHandler)
    : TunnelRecoveryHandler := {|
  cached_proxies := cached_proxies h; last_proxy_url := Some url;
  max_recovery_attempts := max_recovery_attempts h; recovery_timeout := recovery_timeout h
|}.

(** [iter().find(|p| p.proxy_url == url)]. *)
Definition find_url (url : string) (l : list ProxyRecord) : option ProxyRecord :=
  List.find (fun p => bool_decide (pr_proxy_url p = url)) l.

Definition recovery_proxy_order (h : TunnelRecoveryHandler) : list ProxyRecord :=
  let first := match last_proxy_url h with
               | Some url => option_list (find_url url (cached_proxies h))
               | None => []
               end in
  let others := filter (fun p => last_proxy_url h <> Some (pr_proxy_url p)) (cached_proxies h) in
  first ++ sort_by_key pr_latency_hint_ms others.

(** ** Proxy cache *)

Record CachedProxy := {
  cp_record : ProxyRecord;
  cp_cached_at : Z
}.

Record ProxyCache := {
  pc_proxies : list CachedProxy;
  pc_last_used : option string;
  pc_created_at : Z;
  pc_ttl : Z
}.

Definition cache_with_ttl (now ttl : Z) : ProxyCache := {|
  pc_proxies := []; pc_last_used := None; pc_created_at := now; pc_ttl := ttl
|}.

Definition cache_new (now : Z) : ProxyCache := cache_with_ttl now (3600 * NS_PER_SEC).

Definition cache_update (now : Z) (l : list ProxyRecord) (c : ProxyCache) : ProxyCache := {|
  pc_proxies := map (fun r => {| cp_record := r; cp_cached_at := now |}) l;
  pc_last_used := pc_last_used c; pc_created_at := now; pc_ttl := pc_ttl c
|}.

Definition cache_is_valid (now : Z) (c : ProxyCache) : bool :=
  (elapsed now (pc_created_at c) <? pc_ttl c) && negb (zlen (pc_proxies c) =? 0).

Definition cache_get_best (now : Z) (c : ProxyCache) : option ProxyRecord :=
  if negb (cache_is_valid now c) then None
  else
    match match pc_last_used c with
          | Some url => List.find (fun p => bool_decide (pr_proxy_url (cp_record p) = url))
                          (pc_proxies c)
          | None => None
          end with
    | Some cached => Some (cp_record cached)
    | None => option_map cp_record
                (min_by_key (fun p => pr_latency_hint_ms (cp_record p)) (pc_proxies c))
    end.

Definition cache_clear (now : Z) (c : ProxyCache) : ProxyCache := {|
  pc_proxies := []; pc_last_used := None; pc_created_at := now; pc_ttl := pc_ttl c
|}.

Definition cache_set_last_used (url : string) (c : ProxyCache) : ProxyCache := {|
  pc_proxies := pc_proxies c; pc_last_used := Some url; pc_created_at := pc_created_at c;
  pc_ttl := pc_ttl c
|}.

Definition cache_get_all (now : Z) (c : ProxyCache) : list ProxyRecord :=
  if cache_is_valid now c then map cp_record (pc_proxies c) else [].

(** ** Relaying

    What the documentation of [check_datagram] asks of the relay: every datagram is checked
    first and recorded in the tracker when it passes.  A rejected datagram changes nothing. *)

Section Relay.
Context {Conn : Type} (m : overflow_mode).

Definition with_tracker (t : SessionTracker) (s : RelaySession Conn) : RelaySession Conn := {|
  rs_call_id := rs_call_id s; peer_a := peer_a s; peer_b := peer_b s;
  created_at := created_at s; tracker := t
|}.

(** A datagram is a time and a size. *)
Definition relay (lim : ProxyLimits) (call_id : string) (s : RelaySession Conn) (d : Z * Z)
    : option (RelaySession Conn) :=
  match check_datagram d.1 call_id d.2 {| sessions := {[call_id := s]}; limits := lim |} with
  | Ok _ => option_map (fun t => with_tracker t s) (record_send m d.1 d.2 (tracker s))
  | Err _ => Some s
  end.

Fixpoint relay_all (lim : ProxyLimits) (call_id : string) (s : RelaySession Conn)
    (ds : list (Z * Z)) : option (RelaySession Conn) :=
  match ds with
  | [] => Some s
  | d :: ds' => let?o s' := relay lim call_id s d in relay_all lim call_id s' ds'
  end.
End Relay.

(** ** Facts *)

Section RelayFacts.
Context {Conn : Type} (m : overflow_mode) (lim : ProxyLimits) (call_id : string).

Definition age (now : Z) (s : RelaySession Conn) : Z :=
  Z.max (elapsed_secs now (start_time (tracker s))) 1.

Lemma relay_cases (s s' : RelaySession Conn) d :
  relay m lim call_id s d = Some s' ->
  s' = s \/
  (recent_count d.1 s <= max_datagram_rate lim /\
   exists t, record_send m d.1 d.2 (tracker s) = Some t /\ s' = with_tracker t s).
Proof.
  unfold relay, check_datagram. cbn [sessions limits]. rewrite lookup_singleton_eq.
  cbn [ok_or result_bind]. repeat case_goal; try (intros; simplify_eq; by left).
  intros H. right. bool_to_prop. split; [done|].
  destruct (record_send _ _ _ _) as [t|]; simplify_eq/=. eauto.
Qed.

Lemma record_send_fields now size t t' :
  record_send m now size t = Some t' ->
  0 <= datagram_count t ->
  start_time t' = start_time t /\ last_datagram_time t' = now /\
  0 <= datagram_count t' <= datagram_count t + 1.
Proof.
  unfold record_send. intros H Hc. repeat case_in H; simplify_eq/=.
  do 2 (split; [done|]).
  pose proof (arith_range m 64 _ _ ltac:(lia) E) as Hr. split; [lia|].
  unfold arith in E. destruct (in_width 64 _) eqn:Ew; [by simplify_eq|].
  destruct m; simplify_eq. apply Z.mod_le; lia.
Qed.

(** The bound of the average, up to the last datagram. *)
Definition rate_ok (s : RelaySession Conn) : Prop :=
  0 <= datagram_count (tracker s) /\
  start_time (tracker s) <= last_datagram_time (tracker s) /\
  datagram_count (tracker s) <=
    (max_datagram_rate lim + 1) * age (last_datagram_time (tracker s)) s +
    Z.min 1 (elapsed_secs (last_datagram_time (tracker s)) (start_time (tracker s))).

Lemma age_mono now now' (s : RelaySession Conn) : now <= now' -> age now s <= age now' s.
Proof. unfold age, elapsed_secs, elapsed, saturating_sub, NS_PER_SEC. intros. lia. Qed.

Lemma div_below a b c : 0 < b -> a / b <= c -> a < (c + 1) * b.
Proof. intros Hb H. pose proof (Z.mul_succ_div_gt a b Hb). nia. Qed.

Lemma rate_ok_step (s s' : RelaySession Conn) d :
  0 <= max_datagram_rate lim < 2 ^ 32 - 2 ->
  rate_ok s -> last_datagram_time (tracker s) <= d.1 ->
  relay m lim call_id s d = Some s' -> rate_ok s' /\ last_datagram_time (tracker s') <= d.1.
Proof.
  intros Hl (Hc & Hs & Hb) Ht Hr.
  destruct (relay_cases _ _ _ Hr) as [->|(Hrec & t & Hsend & ->)]; [by repeat split|].
  destruct (record_send_fields _ _ _ _ Hsend Hc) as (Hst & Hlt & Hct).
  pose proof (age_mono _ _ s Ht) as Hm. unfold rate_ok, age in *. cbn [tracker with_tracker].
  rewrite Hst, Hlt. set (E := elapsed_secs d.1 _) in *. set (E0 := elapsed_secs _ _) in *.
  split; [|lia]. do 2 (split; [lia|]).
  assert (0 <= E0 /\ 0 <= E) as [HE0 HE] by
    (unfold E, E0, elapsed_secs, elapsed, saturating_sub, NS_PER_SEC; lia).
  unfold recent_count in Hrec. fold E in Hrec. set (c := datagram_count (tracker s)) in *.
  destruct (_ <? _) eqn:Hi in Hrec; bool_to_prop.
  - assert (c / Z.max E 1 <= max_datagram_rate lim + 2) by (apply Z.div_le_upper_bound; nia).
    assert (0 <= c / Z.max E 1) by (apply Z.div_pos; lia).
    rewrite cast_small in Hrec by lia.
    apply div_below in Hrec; nia.
  - assert (E0 + 1 <= E) by
      (unfold E, E0, elapsed_secs, elapsed, saturating_sub, NS_PER_SEC in *; lia).
    destruct (Z.eq_dec E0 0); nia.
Qed.

Lemma rate_ok_run (s s' : RelaySession Conn) ds :
  0 <= max_datagram_rate lim < 2 ^ 32 - 2 ->
  rate_ok s -> Sorted Z.le (last_datagram_time (tracker s) :: map fst ds) ->
  relay_all m lim call_id s ds = Some s' -> rate_ok s'.
Proof.
  intros Hl. revert s. induction ds as [|d ds IH]; intros s Hs Ht; simpl; [by intros [= ->]|].
  destruct (relay _ _ _ _ _) as [s1|] eqn:E; [|done]. intros Hr.
  inversion Ht as [|? ? Hss Hd]; simplify_eq. inversion Hd; simplify_eq.
  destruct (rate_ok_step s s1 d) as (Hok & Hlast); [done..|].
  apply (IH s1); [done| |done].
  inversion Hss as [|? ? Hss' Hd']; simplify_eq. constructor; [done|].
  inversion Hd'; constructor; simpl in *. lia.
Qed.
End RelayFacts.

(** On a session whose datagrams are all checked before they are recorded, the number of
    relayed datagrams never exceeds the configured rate (plus one) times the age of the
    session in seconds, plus one: the check bounds the average over the session's life. *)
Lemma relay_average_bounded {Conn} m lim call_id now0 (s : RelaySession Conn) ds s' :
  0 <= max_datagram_rate lim < 2 ^ 32 - 2 ->
  tracker s = tracker_new now0 call_id ->
  Sorted Z.le (now0 :: map fst ds) ->
  relay_all m lim call_id s ds = Some s' ->
  datagram_count (tracker s') <=
    (max_datagram_rate lim + 1) * age (last_datagram_time (tracker s')) s' + 1.
Proof.
  intros Hl Ht Hd Hr.
  enough (rate_ok lim s') as (_ & _ & Hb) by lia.
  apply (rate_ok_run m lim call_id s s' ds); [done| | |done]; unfold rate_ok, age; rewrite Ht;
    [|done].
  cbn [tracker_new datagram_count start_time last_datagram_time].
  unfold elapsed_secs, elapsed, saturating_sub. rewrite Z.sub_diag. change (Z.max 0 0 / _) with 0.
  lia.
Qed.

Section BurstFacts.
Context {Conn : Type} (m : overflow_mode) (lim : ProxyLimits) (call_id : string).

Lemma relay_accepts (s : RelaySession Conn) now sz :
  0 <= max_datagram_rate lim < 2 ^ 32 ->
  0 <= sz <= max_datagram_size lim ->
  elapsed_secs now (created_at s) <= max_duration_secs lim ->
  0 <= datagram_count (tracker s) < 2 ^ 64 - 1 ->
  0 <= bytes_sent (tracker s) -> bytes_sent (tracker s) + sz < 2 ^ 64 ->
  datagram_count (tracker s) < (max_datagram_rate lim + 1) * age now s ->
  relay m lim call_id s (now, sz) =
    Some (with_tracker {| trk_call_id := trk_call_id (tracker s);
      start_time := start_time (tracker s); datagram_count := datagram_count (tracker s) + 1;
      bytes_sent := bytes_sent (tracker s) + sz; bytes_recv := bytes_recv (tracker s);
      last_datagram_time := now |} s).
Proof.
  intros Hr Hsz Hd Hc Hb Hb' Hlt. unfold relay, check_datagram. cbn [sessions limits fst snd].
  rewrite lookup_singleton_eq. cbn [ok_or result_bind].
  rewrite (proj2 (Z.ltb_ge _ _)), (proj2 (Z.ltb_ge _ (elapsed_secs _ _))) by lia.
  assert (recent_count now s <= max_datagram_rate lim) as Hrc.
  { unfold recent_count. case_goal; [|lia]. fold (age now s) in *.
    assert (0 < age now s) by (unfold age; lia).
    assert (datagram_count (tracker s) / age now s <= max_datagram_rate lim)
      by (apply Z.lt_succ_r, Z.div_lt_upper_bound; lia).
    assert (0 <= datagram_count (tracker s) / age now s) by (apply Z.div_pos; lia).
    rewrite cast_small; lia. }
  rewrite (proj2 (Z.ltb_ge _ (recent_count _ _))) by lia.
  unfold record_send. by rewrite !arith_in_range by lia.
Qed.
End BurstFacts.

(** The rate check does not bound the datagrams of one second: on a session of age [e]
    seconds every burst that keeps the total count within [(rate + 1) * e] passes, however
    short the time it is sent in. *)
Lemma relay_burst_passes {Conn} m lim call_id (s : RelaySession Conn) now sz n :
  0 <= max_datagram_rate lim < 2 ^ 32 ->
  0 <= sz <= max_datagram_size lim ->
  elapsed_secs now (created_at s) <= max_duration_secs lim ->
  0 <= datagram_count (tracker s) -> 0 <= bytes_sent (tracker s) ->
  datagram_count (tracker s) + Z.of_nat n < 2 ^ 64 ->
  bytes_sent (tracker s) + Z.of_nat n * sz < 2 ^ 64 ->
  datagram_count (tracker s) + Z.of_nat n <= (max_datagram_rate lim + 1) * age now s ->
  exists s', relay_all m lim call_id s (replicate n (now, sz)) = Some s' /\
    datagram_count (tracker s') = datagram_count (tracker s) + Z.of_nat n.
Proof.
  intros Hr Hsz. revert s. induction n as [|n IH]; intros s Hd Hc Hb Hc' Hb' Hlt; simpl.
  { exists s. split; [done|lia]. }
  rewrite relay_accepts by nia.
  match goal with |- context [relay_all _ _ _ ?s1 _] => destruct (IH s1) as (s' & -> & Hs') end;
    cbn [with_tracker tracker created_at datagram_count bytes_sent start_time] in *;
    try (unfold age in *; cbn [with_tracker tracker start_time]; nia).
  exists s'. split; [done|lia].
Qed.

(** ** Order of proxies *)

Lemma find_url_spec url l r :
  find_url url l = Some r -> r ∈ l /\ pr_proxy_url r = url.
Proof.
  intros H. apply find_some in H as [Hin H]. bool_to_prop.
  split; [by apply list_elem_of_In|done].
Qed.

Lemma find_url_perm url l r :
  NoDup (map pr_proxy_url l) -> find_url url l = Some r ->
  r :: filter (fun p => Some url <> Some (pr_proxy_url p)) l ≡ₚ l.
Proof.
  unfold find_url. induction l as [|p l IH]; simpl; [done|].
  rewrite NoDup_cons. intros [Hp Hn]. destruct (bool_decide _) eqn:E; bool_to_prop.
  - intros [= <-]. subst url. rewrite filter_cons_False by tauto.
    rewrite filter_all; [done|]. apply Forall_forall. intros q Hq [= He]. apply Hp. rewrite He.
    by apply list_elem_of_fmap_2.
  - intros H. rewrite filter_cons_True by congruence. rewrite Permutation_swap.
    by rewrite (IH Hn H).
Qed.

Lemma find_url_None url l :
  find_url url l = None -> filter (fun p => Some url <> Some (pr_proxy_url p)) l = l.
Proof.
  intros H. apply filter_all, Forall_forall. intros p Hp [= He].
  pose proof (find_none _ _ H p) as Hf. cbn beta in Hf.
  rewrite bool_decide_eq_true_2 in Hf by congruence.
  discriminate Hf. by apply list_elem_of_In.
Qed.

Lemma recovery_order_perm h :
  NoDup (map pr_proxy_url (cached_proxies h)) -> recovery_proxy_order h ≡ₚ cached_proxies h.
Proof.
  intros Hn. unfold recovery_proxy_order. destruct h as [l [url|] ? ?]; cbn [cached_proxies last_proxy_url] in *.
  - rewrite sort_by_key_perm. destruct (find_url url l) as [r|] eqn:E; cbn [option_list app].
    + by apply find_url_perm.
    + by rewrite find_url_None.
  - rewrite sort_by_key_perm, filter_all; [done|]. by apply Forall_forall.
Qed.

(** C33: The recovery order tries the last successful proxy first when it is still cached and
    the others after it by ascending latency hint, equal hints in the cached order, and when
    the cached URLs are distinct every cached proxy is tried exactly once. *)
Theorem recovery_order_correct h :
  NoDup (map pr_proxy_url (cached_proxies h)) ->
  exists first others,
    recovery_proxy_order h = first ++ others /\
    recovery_proxy_order h ≡ₚ cached_proxies h /\
    StronglySorted (key_le pr_latency_hint_ms) others /\
    (forall k, filter (fun p => pr_latency_hint_ms p = k) others =
       filter (fun p => pr_latency_hint_ms p = k)
         (filter (fun p => last_proxy_url h <> Some (pr_proxy_url p)) (cached_proxies h))) /\
    match last_proxy_url h with
    | Some url =>
        (exists p, p ∈ cached_proxies h /\ pr_proxy_url p = url /\ first = [p]) \/
        ((url ∉ map pr_proxy_url (cached_proxies h)) /\ first = [])
    | None => first = []
    end.
Proof.
  intros Hn. do 2 eexists. split; [reflexivity|]. split; [by apply recovery_order_perm|].
  split; [apply sort_by_key_sorted|]. split; [intros k; apply sort_by_key_stable|].
  destruct (last_proxy_url h) as [url|]; [|done].
  destruct (find_url url (cached_proxies h)) as [r|] eqn:E.
  - left. apply find_url_spec in E as [Hin Hu]. by exists r.
  - right. split; [|done]. intros Hin. apply list_elem_of_fmap in Hin as (p & -> & Hp).
    pose proof (find_none _ _ E p) as Hf. cbn beta in Hf.
    rewrite bool_decide_eq_true_2 in Hf by done. discriminate Hf. by apply list_elem_of_In.
Qed.

(** *** The cache agrees with the recovery order *)

Lemma find_cached url l :
  option_map cp_record (List.find (fun p => bool_decide (pr_proxy_url (cp_record p) = url)) l) =
  find_url url (map cp_record l).
Proof.
  unfold find_url. induction l as [|p l IH]; simpl; [done|]. by destruct (bool_decide _).
Qed.

Lemma min_cached l :
  option_map cp_record (min_by_key (fun p => pr_latency_hint_ms (cp_record p)) l) =
  min_by_key pr_latency_hint_ms (map cp_record l).
Proof.
  induction l as [|p l IH]; simpl; [done|]. rewrite <- IH.
  destruct (min_by_key _ l); simpl; [|done]. by destruct (_ <=? _).
Qed.

(** The proxy that a valid cache offers is the one the recovery order tries first, on the
    same records and last URL; an expired or empty cache offers none. *)
Lemma cache_best_is_first_recovery now c h :
  cached_proxies h = map cp_record (pc_proxies c) -> last_proxy_url h = pc_last_used c ->
  cache_get_best now c =
    if elapsed now (pc_created_at c) <? pc_ttl c then head (recovery_proxy_order h) else None.
Proof.
  intros Hp Hl. unfold cache_get_best, cache_is_valid, recovery_proxy_order.
  rewrite Hp, Hl. destruct (elapsed _ _ <? _); [|done]. cbn [andb].
  destruct (zlen (pc_proxies c) =? 0) eqn:E; cbn [negb].
  { destruct (pc_proxies c); [|rewrite zlen_cons in E; pose proof (zlen_nonneg l); bool_to_prop;
      lia]. by destruct (pc_last_used c). }
  destruct (pc_last_used c) as [url|].
  - rewrite <- find_cached.
    destruct (List.find _ _) as [r|] eqn:Ef; [done|].
    change (option_list (option_map cp_record None)) with (@nil ProxyRecord). cbn [app].
    rewrite find_url_None by (by rewrite <- find_cached, Ef).
    by rewrite head_sort_by_key, min_cached.
  - cbn [app]. rewrite filter_all by (by apply Forall_forall).
    by rewrite head_sort_by_key, min_cached.
Qed.

(** ** Concrete runs *)

Module ProxySample.
Definition session : RelaySession unit := {|
  rs_call_id := "c"; peer_a := tt; peer_b := None; created_at := 0;
  tracker := tracker_new 0 "c"
|}.

Definition record (url : string) (latency : Z) : ProxyRecord := {|
  pr_node_id := "n"; pr_proxy_url := url; pr_capacity := 10; pr_region := "eu";
  pr_latency_hint_ms := latency; pr_timestamp := 0; pr_ttl_seconds := 60;
  pr_cert_fingerprint := "f"; pr_signature := []
|}.

Definition handler : TunnelRecoveryHandler :=
  set_last_proxy "b" (update_proxies [record "a" 30; record "b" 50; record "c" 10]
    recovery_default_settings).

Definition cache : ProxyCache :=
  cache_set_last_used "b" (cache_update 0 [record "a" 30; record "b" 50; record "c" 10]
    (cache_new 0)).
End ProxySample.

Lemma relay_average_bounded_witness :
  exists s', relay_all Checked ProxyLimits_default "c" ProxySample.session
    [(0, 100); (NS_PER_SEC, 100)] = Some s' /\
  datagram_count (tracker s') <= (200 + 1) * age (last_datagram_time (tracker s')) s' + 1.
Proof.
  eexists. split; [vm_compute; reflexivity|].
  apply (relay_average_bounded Checked ProxyLimits_default "c" 0 ProxySample.session
    [(0, 100); (NS_PER_SEC, 100)]).
  - vm_compute. split; congruence.
  - reflexivity.
  - repeat constructor; vm_compute; congruence.
  - vm_compute; reflexivity.
Defined.

Lemma relay_burst_passes_witness :
  exists s', relay_all Checked ProxyLimits_default "c" ProxySample.session
    (replicate (Z.to_nat 2010) (10 * NS_PER_SEC, 100)) = Some s' /\
  datagram_count (tracker s') = 2010.
Proof.
  destruct (relay_burst_passes Checked ProxyLimits_default "c" ProxySample.session
    (10 * NS_PER_SEC) 100 (Z.to_nat 2010)) as (s' & Hr & Hc);
    [vm_compute; split; congruence|vm_compute; split; congruence|vm_compute; congruence..|].
  exists s'. split; [exact Hr|]. rewrite Hc. reflexivity.
Defined.

Lemma recovery_order_correct_witness :
  map pr_proxy_url (recovery_proxy_order ProxySample.handler) = ["b"; "c"; "a"]%string /\
  recovery_proxy_order ProxySample.handler ≡ₚ cached_proxies ProxySample.handler.
Proof.
  split; [reflexivity|].
  destruct (recovery_order_correct ProxySample.handler) as (f & o & _ & Hp & _).
  - eapply (bool_decide_unpack (NoDup (map pr_proxy_url (cached_proxies ProxySample.handler)))).
    vm_compute. exact I.
  - exact Hp.
Defined.

Lemma cache_best_is_first_recovery_witness :
  cache_get_best (10 * NS_PER_SEC) ProxySample.cache = Some (ProxySample.record "b" 50).
Proof.
  rewrite (cache_best_is_first_recovery (10 * NS_PER_SEC) ProxySample.cache
    ProxySample.handler); reflexivity.
Defined.
