(* ===== verification/Audio.v ===== *)
(** * The Opus codec wrapper

    [voip-client/src/audio.rs]: encoder, decoder and their pairing over the Opus library,
    which is the class [Opus]; samples and packets are lists, and an output buffer is given by
    its length.  A setting is a call that may fail and changes the encoder. *)

From S2P Require Import Prelude Config.

Local Open Scope Z_scope.
Local Open Scope rust_scope.

(** ** The Opus library *)

Inductive Channels := Mono | Stereo.
Inductive Application := App_Voip | App_Audio | App_LowDelay.
Inductive Bitrate := Bits (bps : Z) | Bitrate_Max | Bitrate_Auto.

Definition channel_count (c : Channels) : Z := match c with Mono => 1 | Stereo => 2 end.

Class Opus := {
  enc_state : Type;
  dec_state : Type;
  opus_encoder_new : Z -> Channels -> Application -> result string enc_state;
  opus_decoder_new : Z -> Channels -> result string dec_state;
  opus_set_bitrate : Bitrate -> enc_state -> result string unit * enc_state;
  opus_set_inband_fec : bool -> enc_state -> result string unit * enc_state;
  opus_set_dtx : bool -> enc_state -> result string unit * enc_state;
  opus_set_complexity : Z -> enc_state -> result string unit * enc_state;
  (* samples and the room for the packet; gives the packet *)
  opus_encode : enc_state -> list Z -> Z -> result string (list Z) * enc_state;
  (* packet, room for samples and FEC flag; gives the samples written, interleaved *)
  opus_decode : dec_state -> list Z -> Z -> bool -> result string (list Z) * dec_state
}.

Inductive AudioError :=
| EncoderError (what : string)
| DecoderError (what : string)
| InvalidFrameSize (got : Z)
| BufferTooSmall (need have : Z).

(** ** Configuration *)

Record OpusConfig := {
  sample_rate : Z;
  channels : Z;
  application : Application;
  bitrate : Bitrate;
  bitrate_min : Z;
  frame_duration_ms : Z;
  fec : bool;
  dtx : bool;
  complexity : Z;
  frame_size : Z
}.

Definition OpusConfig_default : OpusConfig := {|
  sample_rate := 48000; channels := 1; application := App_Voip; bitrate := Bits 64000;
  bitrate_min := 6000; frame_duration_ms := 20; fec := true; dtx := true; complexity := 10;
  frame_size := 960
|}.

(** No field of the configuration concerns the codec. *)
Definition from_voip_config (_ : VoIPConfig) : OpusConfig := OpusConfig_default.

Definition max_packet_size : Z := 160.

Definition opus_channels (c : OpusConfig) : Channels := if channels c =? 1 then Mono else Stereo.

Section Audio.
Context `{O : Opus}.

(** ** Encoder *)

Record OpusEncoder := { enc_inner : enc_state; enc_config : OpusConfig }.

Definition with_enc (s : enc_state) (e : OpusEncoder) : OpusEncoder :=
  {| enc_inner := s; enc_config := enc_config e |}.

(** A setting with its label in the error. *)
Definition setting (label : string) (f : enc_state -> result string unit * enc_state)
    (e : OpusEncoder) : result AudioError OpusEncoder :=
  let (r, s) := f (enc_inner e) in
  let? _ := map_err (fun m => EncoderError (label +:+ ": " +:+ m)) r in Ok (with_enc s e).

(** The step for the minimum sets the bitrate a second time. *)
Definition apply_config (e : OpusEncoder) : result AudioError OpusEncoder :=
  let c := enc_config e in
  let? e := setting "set bitrate" (opus_set_bitrate (bitrate c)) e in
  let? e := setting "set min bitrate" (opus_set_bitrate (bitrate c)) e in
  let? e := if fec c then setting "set FEC" (opus_set_inband_fec true) e else Ok e in
  let? e := if dtx c then setting "set DTX" (opus_set_dtx true) e else Ok e in
  setting "set complexity" (opus_set_complexity (complexity c)) e.

Definition encoder_new (c : OpusConfig) : result AudioError OpusEncoder :=
  let? s := map_err (fun m => EncoderError ("create encoder: " +:+ m))
              (opus_encoder_new (sample_rate c) (opus_channels c) (application c)) in
  apply_config {| enc_inner := s; enc_config := c |}.

Definition expected_samples (c : OpusConfig) : Z := frame_size c * channels c.

(** The packet that [encode] writes into a buffer of [room] bytes. *)
Definition opus_encoder_encode (pcm : list Z) (room : Z) (e : OpusEncoder)
    : result AudioError (list Z) * OpusEncoder :=
  let n := expected_samples (enc_config e) in
  if zlen pcm <? n then (Err (InvalidFrameSize (zlen pcm)), e)
  else if room <? max_packet_size then (Err (BufferTooSmall max_packet_size room), e)
  else
    let (r, s) := opus_encode (enc_inner e) (take (Z.to_nat n) pcm) room in
    (map_err (fun m => EncoderError ("encode: " +:+ m)) r, with_enc s e).

Definition encode_vec (pcm : list Z) (e : OpusEncoder) : result AudioError (list Z) * OpusEncoder :=
  let n := expected_samples (enc_config e) in
  if zlen pcm <? n then (Err (InvalidFrameSize (zlen pcm)), e)
  else
    let (r, s) := opus_encode (enc_inner e) (take (Z.to_nat n) pcm) max_packet_size in
    (map_err (fun m => EncoderError ("encode_vec: " +:+ m)) r, with_enc s e).

(** Dividing by zero panics. *)
Definition packets_per_second (e : OpusEncoder) : option Z :=
  let ms := frame_duration_ms (enc_config e) in
  if ms =? 0 then None else Some (1000 / ms).

Definition set_bitrate (b : Bitrate) (e : OpusEncoder) : result AudioError unit * OpusEncoder :=
  let (r, s) := opus_set_bitrate b (enc_inner e) in
  (map_err (fun m => EncoderError ("set bitrate: " +:+ m)) r, with_enc s e).

(** ** Decoder *)

Record OpusDecoder := { dec_inner : dec_state; dec_config : OpusConfig }.

Definition with_dec (s : dec_state) (d : OpusDecoder) : OpusDecoder :=
  {| dec_inner := s; dec_config := dec_config d |}.

Definition decoder_new (c : OpusConfig) : result AudioError OpusDecoder :=
  let? s := map_err (fun m => DecoderError ("create decoder: " +:+ m))
              (opus_decoder_new (sample_rate c) (opus_channels c)) in
  Ok {| dec_inner := s; dec_config := c |}.

(** The buffer after the call, and the number the library returns: samples per channel. *)
Definition into_buffer (c : OpusConfig) (room : Z) (samples : list Z) : Z * list Z :=
  (zlen samples / channel_count (opus_channels c),
   samples ++ replicate (Z.to_nat (room - zlen samples)) 0).

Definition run_decoder (label : string) (data : list Z) (room : Z) (use_fec : bool) (d : OpusDecoder)
    : result AudioError (Z * list Z) * OpusDecoder :=
  let c := dec_config d in
  if room <? expected_samples c then (Err (BufferTooSmall (expected_samples c) room), d)
  else
    let (r, s) := opus_decode (dec_inner d) data room use_fec in
    (let? samples := map_err (fun m => DecoderError (label +:+ ": " +:+ m)) r in
     Ok (into_buffer c room samples), with_dec s d).

Definition decoder_decode (data : list Z) (room : Z) (use_fec : bool)
    : OpusDecoder -> result AudioError (Z * list Z) * OpusDecoder :=
  run_decoder (if use_fec then "decode FEC" else "decode") data room use_fec.

Definition decoder_plc (room : Z) : OpusDecoder -> result AudioError (Z * list Z) * OpusDecoder :=
  run_decoder "PLC" [] room false.

(** [output.truncate(samples)]. *)
Definition truncated (r : result AudioError (Z * list Z)) : result AudioError (list Z) :=
  let? (samples, output) := r in Ok (take (Z.to_nat samples) output).

Definition decode_vec (data : list Z) (use_fec : bool) (d : OpusDecoder)
    : result AudioError (list Z) * OpusDecoder :=
  let (r, d) := decoder_decode data (expected_samples (dec_config d)) use_fec d in (truncated r, d).

Definition plc_vec (d : OpusDecoder) : result AudioError (list Z) * OpusDecoder :=
  let (r, d) := decoder_plc (expected_samples (dec_config d)) d in (truncated r, d).

(** ** Both directions *)

Record OpusCodec := { codec_encoder : OpusEncoder; codec_decoder : OpusDecoder }.

Definition codec_new (c : OpusConfig) : result AudioError OpusCodec :=
  let? e := encoder_new c in
  let? d := decoder_new c in
  Ok {| codec_encoder := e; codec_decoder := d |}.

Definition on_encoder {A} (f : OpusEncoder -> A * OpusEncoder) (c : OpusCodec) : A * OpusCodec :=
  let (r, e) := f (codec_encoder c) in (r, {| codec_encoder := e; codec_decoder := codec_decoder c |}).

Definition on_decoder {A} (f : OpusDecoder -> A * OpusDecoder) (c : OpusCodec) : A * OpusCodec :=
  let (r, d) := f (codec_decoder c) in (r, {| codec_encoder := codec_encoder c; codec_decoder := d |}).

Definition codec_encode (pcm : list Z) (room : Z) : OpusCodec -> _ := on_encoder (opus_encoder_encode pcm room).
Definition codec_encode_vec (pcm : list Z) : OpusCodec -> _ := on_encoder (encode_vec pcm).
Definition codec_decode (data : list Z) (room : Z) (use_fec : bool) : OpusCodec -> _ :=
  on_decoder (decoder_decode data room use_fec).
Definition codec_decode_vec (data : list Z) (use_fec : bool) : OpusCodec -> _ :=
  on_decoder (decode_vec data use_fec).
Definition codec_plc (room : Z) : OpusCodec -> _ := on_decoder (decoder_plc room).
Definition codec_plc_vec : OpusCodec -> _ := on_decoder plc_vec.

(** ** Facts *)

Lemma mono_channels c : channels c = 1 -> channel_count (opus_channels c) = 1.
Proof. unfold opus_channels. by intros ->. Qed.

(** With one channel [decode_vec] gives the samples of the library. *)
Lemma decode_vec_mono data use_fec d : channels (dec_config d) = 1 ->
  decode_vec data use_fec d =
    (let (r, s) := opus_decode (dec_inner d) data (expected_samples (dec_config d)) use_fec in
     (map_err (fun m => DecoderError ((if use_fec then "decode FEC" else "decode") +:+ ": " +:+ m)) r,
      with_dec s d)).
Proof.
  intros Hm. unfold decode_vec, decoder_decode, run_decoder. rewrite Z.ltb_irrefl.
  destruct (opus_decode _ _ _ _) as [[l|m] s]; [|done]. cbn. do 2 f_equal.
  unfold into_buffer. rewrite mono_channels, Z.div_1_r by done.
  unfold zlen. rewrite Nat2Z.id. by rewrite take_app_length.
Qed.

(** With two, half of them: the count that [truncate] takes is per channel. *)
Lemma decode_vec_stereo data use_fec d l s : channels (dec_config d) = 2 ->
  opus_decode (dec_inner d) data (expected_samples (dec_config d)) use_fec = (Ok l, s) ->
  (decode_vec data use_fec d).1 = Ok (take (Z.to_nat (zlen l / 2)) l).
Proof.
  intros Hs Hd. unfold decode_vec, decoder_decode, run_decoder. rewrite Z.ltb_irrefl, Hd. cbn.
  f_equal. unfold into_buffer, opus_channels. rewrite Hs. cbn [Z.eqb Pos.eqb channel_count].
  apply take_app_le. unfold zlen. pose proof (Z.div_le_upper_bound (Z.of_nat (length l)) 2
    (Z.of_nat (length l))). lia.
Qed.

(** A new encoder has had the bitrate set and never the minimum. *)
Lemma encoder_settings c e : encoder_new c = Ok e ->
  enc_config e = c /\
  exists s s1 s2 s3 s4 s5,
    opus_encoder_new (sample_rate c) (opus_channels c) (application c) = Ok s /\
    opus_set_bitrate (bitrate c) s = (Ok tt, s1) /\ opus_set_bitrate (bitrate c) s1 = (Ok tt, s2) /\
    (if fec c then opus_set_inband_fec true s2 = (Ok tt, s3) else s3 = s2) /\
    (if dtx c then opus_set_dtx true s3 = (Ok tt, s4) else s4 = s3) /\
    opus_set_complexity (complexity c) s4 = (Ok tt, s5) /\ enc_inner e = s5.
Proof.
  unfold encoder_new, apply_config. destruct (opus_encoder_new _ _ _) as [s|]; [|done].
  cbn [map_err result_bind]. unfold setting. cbn [enc_inner enc_config].
  destruct (opus_set_bitrate (bitrate c) s) as [[[]|] s1] eqn:E1; [|done]. cbn.
  destruct (opus_set_bitrate (bitrate c) s1) as [[[]|] s2] eqn:E2; [|done]. cbn.
  intros H. destruct (fec c).
  - destruct (opus_set_inband_fec true s2) as [[[]|] s3] eqn:E3; [|done]. cbn in H. destruct (dtx c).
    + destruct (opus_set_dtx true s3) as [[[]|] s4] eqn:E4; [|done]. cbn in H.
      destruct (opus_set_complexity _ s4) as [[[]|] s5] eqn:E5; [|done]. injection H as <-.
      split; [done|]. by exists s, s1, s2, s3, s4, s5.
    + cbn in H. destruct (opus_set_complexity _ s3) as [[[]|] s5] eqn:E5; [|done]. injection H as <-.
      split; [done|]. by exists s, s1, s2, s3, s3, s5.
  - cbn in H. destruct (dtx c).
    + destruct (opus_set_dtx true s2) as [[[]|] s4] eqn:E4; [|done]. cbn in H.
      destruct (opus_set_complexity _ s4) as [[[]|] s5] eqn:E5; [|done]. injection H as <-.
      split; [done|]. by exists s, s1, s2, s2, s4, s5.
    + cbn in H. destruct (opus_set_complexity _ s2) as [[[]|] s5] eqn:E5; [|done]. injection H as <-.
      split; [done|]. by exists s, s1, s2, s2, s2, s5.
Qed.
End Audio.
