(* ===== verification/Pipeline.v ===== *)
(** * Audio pipeline and jitter buffer

    [voip-client/src/pipeline.rs] over the codec of [Audio]: frames are encoded into numbered
    MoQ datagrams, received datagrams are kept in a jitter buffer and drained for playback. *)

From S2P Require Import Prelude Config RustStr Moq Audio.

Local Open Scope Z_scope.
Local Open Scope rust_scope.

Inductive PipelineError :=
| Pipeline_EncoderError (e : AudioError)
| Pipeline_DecoderError (e : AudioError)
| Pipeline_InvalidFrameSize (expected got : Z)
| Pipeline_MoqError (e : MoqError)
| Pipeline_InvalidState (s : string).

(** [From<AudioError>]. *)
Definition pipeline_error (e : AudioError) : PipelineError :=
  match e with
  | EncoderError _ => Pipeline_EncoderError e
  | DecoderError _ => Pipeline_DecoderError e
  | InvalidFrameSize n => Pipeline_InvalidFrameSize 960 n
  | BufferTooSmall need have =>
      Pipeline_InvalidState ("Buffer too small: need " +:+ string_of_bytes (decimal need) +:+
                             ", have " +:+ string_of_bytes (decimal have))
  end.

Definition audio_priority : Z := PRIORITY_AUDIO.

Section Audio.
Context `{O : Opus}.

(** ** The pipeline *)

Record AudioPipeline := {
  encoder : OpusEncoder;
  decoder : OpusDecoder;
  local_track_alias : Z;
  remote_track_alias : Z;
  next_sequence : Z;
  next_timestamp : Z;
  jitter_buffer : list MoqDatagram;
  jitter_target_ms : Z;
  last_playback_ts : option Z
}.

Definition pipeline_new (config : VoIPConfig) (local_alias remote_alias : Z)
    : result PipelineError AudioPipeline :=
  let opus_config := from_voip_config config in
  let? enc := map_err Pipeline_EncoderError (encoder_new opus_config) in
  let? dec := map_err Pipeline_DecoderError (decoder_new opus_config) in
  Ok {|
    encoder := enc; decoder := dec;
    local_track_alias := local_alias; remote_track_alias := remote_alias;
    next_sequence := 0; next_timestamp := 0; jitter_buffer := []; jitter_target_ms := 20;
    last_playback_ts := None
  |}.

Definition with_encoder (enc : OpusEncoder) (seq ts : Z) (p : AudioPipeline) : AudioPipeline := {|
  encoder := enc; decoder := decoder p;
  local_track_alias := local_track_alias p; remote_track_alias := remote_track_alias p;
  next_sequence := seq; next_timestamp := ts; jitter_buffer := jitter_buffer p;
  jitter_target_ms := jitter_target_ms p; last_playback_ts := last_playback_ts p
|}.

Definition with_decoder (dec : OpusDecoder) (p : AudioPipeline) : AudioPipeline := {|
  encoder := encoder p; decoder := dec;
  local_track_alias := local_track_alias p; remote_track_alias := remote_track_alias p;
  next_sequence := next_sequence p; next_timestamp := next_timestamp p;
  jitter_buffer := jitter_buffer p; jitter_target_ms := jitter_target_ms p;
  last_playback_ts := last_playback_ts p
|}.

Definition with_buffer (buf : list MoqDatagram) (last : option Z) (p : AudioPipeline)
    : AudioPipeline := {|
  encoder := encoder p; decoder := decoder p;
  local_track_alias := local_track_alias p; remote_track_alias := remote_track_alias p;
  next_sequence := next_sequence p; next_timestamp := next_timestamp p;
  jitter_buffer := buf; jitter_target_ms := jitter_target_ms p; last_playback_ts := last
|}.

(** [fetch_add] on the atomics wraps around. *)
Definition encode_frame (pcm : list Z) (p : AudioPipeline)
    : result PipelineError MoqDatagram * AudioPipeline :=
  let frame_size := frame_size (enc_config (encoder p)) in
  if zlen pcm <? frame_size then (Err (Pipeline_InvalidFrameSize frame_size (zlen pcm)), p)
  else
    match encode_vec (take (Z.to_nat frame_size) pcm) (encoder p) with
    | (Err e, enc) =>
        (Err (Pipeline_EncoderError e), with_encoder enc (next_sequence p) (next_timestamp p) p)
    | (Ok opus_data, enc) =>
        (Ok (datagram_new (local_track_alias p) (next_sequence p) (next_timestamp p) opus_data),
         with_encoder enc (cast 64 (next_sequence p + 1)) (cast 64 (next_timestamp p + frame_size))
           p)
    end.

(** A datagram of another track is only logged. *)
Definition decode_with (fec : bool) (d : MoqDatagram) (p : AudioPipeline)
    : result PipelineError (list Z) * AudioPipeline :=
  let (r, dec) := decode_vec (payload d) fec (decoder p) in
  (map_err Pipeline_DecoderError r, with_decoder dec p).

Definition decode_frame : MoqDatagram -> AudioPipeline -> _ := decode_with false.
Definition decode_with_fec : MoqDatagram -> AudioPipeline -> _ := decode_with true.

Definition plc (p : AudioPipeline) : result PipelineError (list Z) * AudioPipeline :=
  let (r, dec) := plc_vec (decoder p) in
  (map_err Pipeline_DecoderError r, with_decoder dec p).

(** [position(|d| d.sequence > datagram.sequence)] and [VecDeque::insert]. *)
Fixpoint insert_in_order (d : MoqDatagram) (buf : list MoqDatagram) : list MoqDatagram :=
  match buf with
  | [] => [d]
  | x :: buf' => if sequence d <? sequence x then d :: buf else x :: insert_in_order d buf'
  end.

Definition buffer_incoming (d : MoqDatagram) (p : AudioPipeline) : AudioPipeline :=
  if existsb (fun x => sequence x =? sequence d) (jitter_buffer p) then p
  else with_buffer (insert_in_order d (jitter_buffer p)) (last_playback_ts p) p.

Definition jitter_target_samples (p : AudioPipeline) : Z := 48000 * jitter_target_ms p / 1000.

Definition should_drain (last : option Z) (now target : Z) (buf : list MoqDatagram)
    (front : MoqDatagram) : bool :=
  match last with
  | Some last_ts =>
      (target <=? saturating_sub last_ts (timestamp front)) ||
      (target * 2 <=? saturating_sub now (timestamp front))
  | None => 2 <=? zlen buf
  end.

(** The loop of [drain_buffer]: the drained datagrams and what stays. *)
Fixpoint drain_loop (last : option Z) (now target : Z) (buf : list MoqDatagram)
    : list MoqDatagram * list MoqDatagram :=
  match buf with
  | [] => ([], [])
  | front :: rest =>
      if should_drain last now target buf front
      then let (ready, kept) := drain_loop last now target rest in (front :: ready, kept)
      else ([], buf)
  end.

Definition drain_buffer (p : AudioPipeline) : list MoqDatagram * AudioPipeline :=
  let (ready, kept) :=
    drain_loop (last_playback_ts p) (next_timestamp p) (jitter_target_samples p)
      (jitter_buffer p) in
  (ready,
   with_buffer kept
     (match list.last ready with Some d => Some (timestamp d) | None => last_playback_ts p end) p).

(** ** Runs of a pipeline

    The calls that change a pipeline, in any order; what a run drains is collected. *)

Inductive Call :=
| Encode (pcm : list Z)
| Receive (d : MoqDatagram)
| Drain
| Decode (fec : bool) (d : MoqDatagram)
| Conceal.

Definition call (c : Call) (p : AudioPipeline) : list MoqDatagram * AudioPipeline :=
  match c with
  | Encode pcm => ([], snd (encode_frame pcm p))
  | Receive d => ([], buffer_incoming d p)
  | Drain => drain_buffer p
  | Decode fec d => ([], snd (decode_with fec d p))
  | Conceal => ([], snd (plc p))
  end.

Fixpoint calls (cs : list Call) (p : AudioPipeline) : list MoqDatagram * AudioPipeline :=
  match cs with
  | [] => ([], p)
  | c :: cs' =>
      let (out, p1) := call c p in
      let (out', p2) := calls cs' p1 in (out ++ out', p2)
  end.

(** The frames that a run of [encode_frame] sends. *)
Fixpoint encode_frames (frames : list (list Z)) (p : AudioPipeline)
    : option (list MoqDatagram * AudioPipeline) :=
  match frames with
  | [] => Some ([], p)
  | pcm :: frames' =>
      match encode_frame pcm p with
      | (Ok d, p1) => let?o (ds, p2) := encode_frames frames' p1 in Some (d :: ds, p2)
      | (Err _, _) => None
      end
  end.
End Audio.

#[export] Instance MoqDatagram_eq_dec : EqDecision MoqDatagram.
Proof. solve_decision. Defined.

(** ** The buffer is sorted and loses nothing *)

Definition seq_lt (x y : MoqDatagram) : Prop := sequence x < sequence y.

Abbreviation in_order := (StronglySorted seq_lt).

Section BufferFacts.
Context `{O : Opus}.
Implicit Types (p : AudioPipeline) (d : MoqDatagram).

Lemma insert_in_order_perm d buf : insert_in_order d buf ≡ₚ d :: buf.
Proof.
  induction buf as [|x buf IH]; simpl; [done|].
  destruct (_ <? _); [done|]. rewrite IH. apply Permutation_swap.
Qed.

Lemma insert_in_order_sorted d buf :
  in_order buf -> Forall (fun x => sequence x <> sequence d) buf -> in_order (insert_in_order d buf).
Proof.
  induction 1 as [|x buf Hs IH Hx]; simpl; intros Hf; [repeat constructor|].
  inversion Hf as [|? ? Hne Hf']; subst. destruct (_ <? _) eqn:E; bool_to_prop.
  - constructor; [by constructor|]. constructor; [done|].
    eapply Forall_impl; [exact Hx|]. unfold seq_lt. intros; lia.
  - constructor; [by apply IH|]. rewrite insert_in_order_perm. constructor; [|done].
    unfold seq_lt. lia.
Qed.

(** Whether the buffer already holds the sequence number. *)
Definition is_duplicate d p : bool :=
  existsb (fun x => sequence x =? sequence d) (jitter_buffer p).

Lemma is_duplicate_false d p :
  is_duplicate d p = false -> Forall (fun x => sequence x <> sequence d) (jitter_buffer p).
Proof.
  intros H. apply Forall_forall. intros x Hx He. apply not_true_iff_false in H. apply H.
  apply existsb_exists. exists x. split; [by apply list_elem_of_In|]. lia.
Qed.

Lemma buffer_incoming_perm d p :
  jitter_buffer (buffer_incoming d p) ≡ₚ
    (if is_duplicate d p then [] else [d]) ++ jitter_buffer p.
Proof.
  unfold buffer_incoming. fold (is_duplicate d p). destruct (is_duplicate d p); [done|].
  apply insert_in_order_perm.
Qed.

Lemma buffer_incoming_sorted d p :
  in_order (jitter_buffer p) -> in_order (jitter_buffer (buffer_incoming d p)).
Proof.
  intros H. unfold buffer_incoming. fold (is_duplicate d p).
  destruct (is_duplicate d p) eqn:E; [done|].
  apply insert_in_order_sorted; [done|]. by apply is_duplicate_false.
Qed.

Lemma drain_loop_app last now target buf ready kept :
  drain_loop last now target buf = (ready, kept) -> buf = ready ++ kept.
Proof.
  revert ready kept. induction buf as [|d buf IH]; intros ready kept; simpl.
  { by intros [= <- <-]. }
  destruct (should_drain _ _ _ _ _); [|by intros [= <- <-]].
  destruct (drain_loop _ _ _ buf) as [r k]. intros [= <- <-]. by rewrite (IH r k).
Qed.

Lemma drain_buffer_app p ready p' :
  drain_buffer p = (ready, p') -> jitter_buffer p = ready ++ jitter_buffer p'.
Proof.
  unfold drain_buffer. destruct (drain_loop _ _ _ _) as [r k] eqn:E.
  intros [= <- <-]. by apply drain_loop_app in E.
Qed.

Lemma encode_frame_buffer pcm p : jitter_buffer (snd (encode_frame pcm p)) = jitter_buffer p.
Proof. unfold encode_frame. repeat case_goal; done. Qed.

Lemma decode_with_buffer fec d p : jitter_buffer (snd (decode_with fec d p)) = jitter_buffer p.
Proof. unfold decode_with. by case_goal. Qed.

Lemma plc_buffer p : jitter_buffer (snd (plc p)) = jitter_buffer p.
Proof. unfold plc. by case_goal. Qed.

(** The datagrams that a run takes into the buffer. *)
Definition taken (c : Call) p : list MoqDatagram :=
  match c with Receive d => if is_duplicate d p then [] else [d] | _ => [] end.

Fixpoint all_taken (cs : list Call) p : list MoqDatagram :=
  match cs with
  | [] => []
  | c :: cs' => taken c p ++ all_taken cs' (snd (call c p))
  end.

Lemma call_correct c p out p' :
  in_order (jitter_buffer p) -> call c p = (out, p') ->
  in_order (jitter_buffer p') /\ in_order out /\
  out ++ jitter_buffer p' ≡ₚ taken c p ++ jitter_buffer p.
Proof.
  intros Hs. destruct c; simpl; intros Hc.
  1,4,5: injection Hc as <- <-;
    rewrite ?encode_frame_buffer, ?decode_with_buffer, ?plc_buffer; by repeat constructor.
  - injection Hc as <- <-. split; [by apply buffer_incoming_sorted|]. split; [constructor|].
    apply buffer_incoming_perm.
  - apply drain_buffer_app in Hc. rewrite Hc in Hs |- *. by apply StronglySorted_app in Hs as (_ & ? & ?).
Qed.
End BufferFacts.

(** C32: over every sequence of calls the jitter buffer stays strictly ordered by sequence
    number, and the datagrams drained so far together with the buffered ones are exactly the
    datagrams taken in: each is played at most once and stays buffered until then.  A single
    drain returns its datagrams in sequence order. *)
Theorem jitter_buffer_exact `{O : Opus} cs (p p' : AudioPipeline) out :
  in_order (jitter_buffer p) -> calls cs p = (out, p') ->
  in_order (jitter_buffer p') /\
  out ++ jitter_buffer p' ≡ₚ all_taken cs p ++ jitter_buffer p /\
  in_order (fst (drain_buffer p')).
Proof.
  intros Hs. revert p Hs out. induction cs as [|c cs IH]; intros p Hs out; simpl.
  - intros [= <- <-]. split; [done|]. split; [done|].
    destruct (drain_buffer p) as [r q] eqn:E.
    by destruct (call_correct Drain p r q Hs E) as (_ & ? & _).
  - destruct (call c p) as [o1 p1] eqn:E1. destruct (calls cs p1) as [o2 p2] eqn:E2.
    intros [= <- <-]. apply call_correct in E1 as (Hs1 & _ & Hp1); [|done].
    destruct (IH p1 Hs1 o2 E2) as (Hs2 & Hp2 & Hd). split; [done|]. split; [|done]. simpl.
    rewrite <- (assoc_L _ o1 o2), Hp2, (assoc_L _ o1), (Permutation_app_comm o1).
    rewrite <- !(assoc_L _), Hp1, !(assoc_L _). f_equiv. apply Permutation_app_comm.
Qed.

(** ** From the sender's frames to the receiver's buffer *)

Section TransportFacts.
Context `{O : Opus}.
Implicit Types (p : AudioPipeline) (d : MoqDatagram).

Lemma encode_frame_ok pcm p d p' :
  encode_frame pcm p = (Ok d, p') ->
  sequence d = next_sequence p /\ timestamp d = next_timestamp p /\
  next_sequence p' = cast 64 (next_sequence p + 1) /\
  next_timestamp p' = cast 64 (next_timestamp p + frame_size (enc_config (encoder p))) /\
  enc_config (encoder p') = enc_config (encoder p).
Proof. unfold encode_frame, encode_vec. repeat case_goal; intros H; by simplify_eq/=. Qed.

Lemma encode_frames_sequences frames p ds p' :
  encode_frames frames p = Some (ds, p') ->
  0 <= next_sequence p -> next_sequence p + zlen frames < 2 ^ 64 ->
  map sequence ds = seqZ (next_sequence p) (zlen frames).
Proof.
  revert p ds. induction frames as [|pcm frames IH]; intros p ds; simpl; [by intros [= <- <-]|].
  destruct (encode_frame pcm p) as [[d|e] p1] eqn:E1; [|done].
  destruct (encode_frames frames p1) as [[ds' p2]|] eqn:E2; [|done].
  intros [= <- <-] H0 Hl. rewrite zlen_cons in *. pose proof (zlen_nonneg frames).
  apply encode_frame_ok in E1 as (Hd & _ & Hs & _). rewrite cast_small in Hs by lia.
  simpl. rewrite (IH p1 ds' E2) by lia.
  rewrite Hs, Hd, (seqZ_cons _ (1 + _)) by lia. f_equal. f_equal; lia.
Qed.

Lemma in_order_sequences ds : Sorted Z.lt (map sequence ds) -> in_order ds.
Proof.
  intros H. apply Sorted_StronglySorted.
  { intros x y z. unfold seq_lt. lia. }
  induction ds as [|d ds IH]; [constructor|]. inversion H as [|? ? Hs Hd]; subst.
  constructor; [by apply IH|]. destruct ds; constructor. by inversion Hd.
Qed.

Lemma seqZ_sorted a n : Sorted Z.lt (seqZ a (Z.of_nat n)).
Proof.
  revert a. induction n as [|n IH]; intros a; [constructor|].
  rewrite seqZ_cons by lia. replace (Z.pred _) with (Z.of_nat n) by lia.
  constructor; [apply IH|]. destruct n; [constructor|].
  rewrite seqZ_cons by lia. constructor. lia.
Qed.

Lemma in_order_NoDup ds : in_order ds -> NoDup ds.
Proof.
  induction 1 as [|d ds Hs IH Hd]; constructor; [|done]. intros Hin.
  eapply Forall_forall in Hd; [|exact Hin]. unfold seq_lt in Hd. lia.
Qed.

Lemma in_order_sequence_inj ds d1 d2 :
  in_order ds -> d1 ∈ ds -> d2 ∈ ds -> sequence d1 = sequence d2 -> d1 = d2.
Proof.
  induction 1 as [|d ds Hs IH Hd]; [set_solver|]. rewrite Forall_forall in Hd.
  unfold seq_lt in Hd. rewrite !elem_of_cons. intros [->|H1] [->|H2] He; auto.
  - specialize (Hd _ H2). lia.
  - specialize (Hd _ H1). lia.
Qed.

Lemma in_order_filter (P : MoqDatagram -> Prop) `{forall d, Decision (P d)} ds :
  in_order ds -> in_order (filter P ds).
Proof.
  induction 1 as [|d ds Hs IH Hd]; [constructor|]. rewrite filter_cons.
  case_decide; [|done]. constructor; [done|].
  apply Forall_forall. intros x Hx. apply list_elem_of_filter in Hx as [_ Hx].
  by eapply Forall_forall in Hd.
Qed.

Definition receive_all (ds : list MoqDatagram) p : AudioPipeline :=
  fold_left (fun q d => buffer_incoming d q) ds p.

Lemma receive_all_elems ds arrivals p :
  in_order ds -> (forall d, d ∈ arrivals -> d ∈ ds) -> (forall d, d ∈ jitter_buffer p -> d ∈ ds) ->
  forall d, d ∈ jitter_buffer (receive_all arrivals p) <-> d ∈ arrivals \/ d ∈ jitter_buffer p.
Proof.
  intros Hs. revert p. induction arrivals as [|a arrivals IH]; intros p Ha Hp d; simpl.
  { set_solver. }
  assert (forall x, x ∈ jitter_buffer (buffer_incoming a p) <-> x = a \/ x ∈ jitter_buffer p)
    as Hb.
  { intros x. rewrite buffer_incoming_perm. destruct (is_duplicate a p) eqn:E; [|set_solver].
    simpl. split; [by right|]. intros [->|?]; [|done].
    apply existsb_exists in E as (y & Hy & He). bool_to_prop.
    apply list_elem_of_In in Hy.
    by rewrite (in_order_sequence_inj ds a y Hs) by (set_solver || done). }
  rewrite IH; [rewrite Hb; set_solver|set_solver|].
  intros x. rewrite Hb. set_solver.
Qed.

Lemma receive_all_sorted ds p :
  in_order (jitter_buffer p) -> in_order (jitter_buffer (receive_all ds p)).
Proof.
  revert p. induction ds as [|d ds IH]; intros p Hs; [done|].
  apply IH. by apply buffer_incoming_sorted.
Qed.
End TransportFacts.

(** The frames that a sender encodes arrive at a receiver with an empty buffer over a
    network that may reorder, repeat and drop datagrams: the receiver's buffer is the
    sender's stream in its order, with only the dropped datagrams missing. *)
Lemma jitter_buffer_restores_order `{O : Opus} frames sender sender' ds receiver arrivals :
  0 <= next_sequence sender -> next_sequence sender + zlen frames < 2 ^ 64 ->
  encode_frames frames sender = Some (ds, sender') ->
  (forall d, d ∈ arrivals -> d ∈ ds) ->
  jitter_buffer receiver = [] ->
  jitter_buffer (receive_all arrivals receiver) = filter (fun d => d ∈ arrivals) ds.
Proof.
  intros H0 Hl He Ha Hr. assert (in_order ds) as Hs.
  { apply in_order_sequences. rewrite (encode_frames_sequences _ _ _ _ He H0 Hl).
    apply seqZ_sorted. }
  assert (in_order (jitter_buffer (receive_all arrivals receiver))) as Hb.
  { apply receive_all_sorted. rewrite Hr. constructor. }
  apply (StronglySorted_unique_strong seq_lt); [|done|by apply in_order_filter|].
  { intros x y _ _. unfold seq_lt. lia. }
  apply NoDup_Permutation; [by apply in_order_NoDup|by apply in_order_NoDup, in_order_filter|].
  intros d. rewrite (receive_all_elems ds), Hr, list_elem_of_filter;
    [set_solver|done|done|rewrite Hr; set_solver].
Qed.

(** ** Playback depends on the local microphone *)

Section StallFacts.
Context `{O : Opus}.

(** A call of a peer that only listens: nothing is encoded, and what arrives is not older
    than [last]. *)
Definition listens (last : Z) (c : Call) : Prop :=
  match c with
  | Encode _ => False
  | Receive d => last <= timestamp d
  | _ => True
  end.

Record stalled (last : Z) (p : AudioPipeline) : Prop := {
  st_last : last_playback_ts p = Some last;
  st_clock : next_timestamp p < last + 1920;
  st_target : jitter_target_ms p = 20;
  st_buffer : Forall (fun d => last <= timestamp d) (jitter_buffer p)
}.

Lemma stalled_drain last p :
  stalled last p -> drain_buffer p = ([], with_buffer (jitter_buffer p) (last_playback_ts p) p).
Proof.
  intros [Hl Hc Ht Hb]. unfold drain_buffer, jitter_target_samples. rewrite Ht, Hl.
  change (48000 * 20 / 1000) with 960.
  destruct (jitter_buffer p) as [|d buf]; [done|]. cbn [drain_loop].
  inversion Hb; subst.
  assert (should_drain (Some last) (next_timestamp p) 960 (d :: buf) d = false) as ->; [|done].
  unfold should_drain, saturating_sub. apply orb_false_iff. rewrite !Z.leb_gt. lia.
Qed.

Lemma stalled_call last c p :
  stalled last p -> listens last c -> fst (call c p) = [] /\ stalled last (snd (call c p)).
Proof.
  intros Hst Hc. pose proof Hst as [Hl Hk Ht Hb]. destruct c as [pcm|d| |fec d|]; simpl in *.
  - done.
  - split; [done|]. unfold buffer_incoming. destruct (existsb _ _); [done|].
    split; simpl; try done. rewrite insert_in_order_perm. by constructor.
  - rewrite (stalled_drain last) by done. by split.
  - split; [done|]. unfold decode_with. case_goal. by split.
  - split; [done|]. unfold plc. case_goal. by split.
Qed.
End StallFacts.

(** Once something has been played, playback waits for the local encoder's clock: a peer
    that sends no audio and whose clock is not 1920 samples past the last played timestamp
    never drains another datagram, however many in-order datagrams arrive and however often
    the buffer is drained. *)
Lemma listener_hears_nothing `{O : Opus} last cs (p p' : AudioPipeline) out :
  last_playback_ts p = Some last -> jitter_target_ms p = 20 ->
  next_timestamp p < last + 1920 ->
  Forall (fun d => last <= timestamp d) (jitter_buffer p) ->
  Forall (listens last) cs -> calls cs p = (out, p') -> out = [].
Proof.
  intros Hl Ht Hc Hb. assert (stalled last p) as Hst by done. clear Hl Ht Hc Hb.
  revert p Hst out. induction cs as [|c cs IH]; intros p Hst out Hf; simpl; [by intros [= <- _]|].
  inversion Hf as [|? ? Hc Hcs]; subst. destruct (stalled_call _ _ _ Hst Hc) as [Ho Hs'].
  destruct (call c p) as [o1 p1]. destruct (calls cs p1) as [o2 p2] eqn:E2. simpl in *.
  intros [= <- ->]. by rewrite Ho, (IH p1 Hs' o2 Hcs E2).
Qed.

(** ** A concrete codec and concrete runs *)

Module PipelineSample.
(** One byte per frame. *)
Definition opus : Opus := {|
  enc_state := unit; dec_state := unit;
  opus_encoder_new _ _ _ := Ok tt; opus_decoder_new _ _ := Ok tt;
  opus_set_bitrate _ st := (Ok tt, st); opus_set_inband_fec _ st := (Ok tt, st);
  opus_set_dtx _ st := (Ok tt, st); opus_set_complexity _ st := (Ok tt, st);
  opus_encode st pcm _ := (Ok (map (fun x => x mod 256) (take 1 pcm)), st);
  opus_decode st data room _ := (Ok (replicate (Z.to_nat room) (zlen data)), st)
|}.

Definition silence : list Z := replicate (Z.to_nat 960) 0.

(** [pipeline_new default_config 1 2]. *)
Definition fresh : AudioPipeline (O := opus) := {|
  encoder := @Build_OpusEncoder opus tt OpusConfig_default;
  decoder := @Build_OpusDecoder opus tt OpusConfig_default;
  local_track_alias := 1; remote_track_alias := 2; next_sequence := 0; next_timestamp := 0;
  jitter_buffer := []; jitter_target_ms := 20; last_playback_ts := None
|}.

Definition frame (n : Z) : MoqDatagram := datagram_new 1 n (960 * n) [0].

(** Two frames received and one played. *)
Definition listening : AudioPipeline (O := opus) :=
  snd (calls (O := opus) [Receive (frame 0); Receive (frame 1); Drain] fresh).
End PipelineSample.

Lemma sample_pipeline_new :
  pipeline_new (O := PipelineSample.opus) default_config 1 2 = Ok PipelineSample.fresh.
Proof. reflexivity. Qed.

Lemma jitter_buffer_exact_witness :
  fst (calls (O := PipelineSample.opus)
    [Receive (PipelineSample.frame 1); Receive (PipelineSample.frame 0); Drain]
    PipelineSample.fresh) = [PipelineSample.frame 0] /\
  in_order (jitter_buffer (O := PipelineSample.opus) (snd (calls (O := PipelineSample.opus)
    [Receive (PipelineSample.frame 1); Receive (PipelineSample.frame 0); Drain]
    PipelineSample.fresh))).
Proof.
  split; [vm_compute; reflexivity|].
  apply (jitter_buffer_exact (O := PipelineSample.opus)
    [Receive (PipelineSample.frame 1); Receive (PipelineSample.frame 0); Drain]
    PipelineSample.fresh _ [PipelineSample.frame 0]).
  - constructor.
  - vm_compute. reflexivity.
Defined.

Lemma jitter_buffer_restores_order_witness :
  jitter_buffer (O := PipelineSample.opus) (receive_all (O := PipelineSample.opus)
    [PipelineSample.frame 2; PipelineSample.frame 0; PipelineSample.frame 2]
    PipelineSample.fresh) = [PipelineSample.frame 0; PipelineSample.frame 2].
Proof.
  destruct (encode_frames (O := PipelineSample.opus)
    [PipelineSample.silence; PipelineSample.silence; PipelineSample.silence]
    PipelineSample.fresh) as [[ds s']|] eqn:E; [|vm_compute in E; discriminate E].
  pose proof E as E'. vm_compute in E'. injection E' as Hds _.
  rewrite (jitter_buffer_restores_order (O := PipelineSample.opus)
    [PipelineSample.silence; PipelineSample.silence; PipelineSample.silence]
    PipelineSample.fresh s' ds PipelineSample.fresh
    [PipelineSample.frame 2; PipelineSample.frame 0; PipelineSample.frame 2]
    ltac:(vm_compute; congruence) ltac:(vm_compute; reflexivity) E).
  - rewrite <- Hds. vm_compute. reflexivity.
  - rewrite <- Hds. intros d. rewrite !elem_of_cons. vm_compute. tauto.
  - reflexivity.
Defined.

Lemma listener_hears_nothing_witness :
  fst (calls (O := PipelineSample.opus) [Receive (PipelineSample.frame 2); Drain; Drain]
    PipelineSample.listening) = [].
Proof.
  destruct (calls (O := PipelineSample.opus) [Receive (PipelineSample.frame 2); Drain; Drain]
    PipelineSample.listening) as [out p'] eqn:E.
  apply (listener_hears_nothing (O := PipelineSample.opus) 0
    [Receive (PipelineSample.frame 2); Drain; Drain] PipelineSample.listening p').
  - reflexivity.
  - reflexivity.
  - vm_compute. reflexivity.
  - apply Forall_forall. intros d Hd. vm_compute in Hd. apply list_elem_of_singleton in Hd.
    subst d. vm_compute. congruence.
  - repeat constructor. vm_compute. congruence.
  - exact E.
Defined.
