(* ===== verification/Media.v ===== *)
(** * Media from one peer to the other

    The path of a voice frame through the components of [voip-client]: the pipeline of the
    sender numbers and encodes it ([Pipeline], [Audio]), its session writes the datagram
    ([Moq]), the network carries the bytes, the session of the receiver decodes and counts them,
    and its jitter buffer puts them in order. *)

From S2P Require Import Prelude Types Config Moq Audio Pipeline.

Local Open Scope Z_scope.
Local Open Scope rust_scope.

Section Media.
Context `{O : Opus}.

Record Endpoint := { ep_session : MoqSession; ep_pipeline : AudioPipeline }.

(** A frame that is spoken: encoded, then sent by the session.  [None] when a step fails. *)
Definition speak (pcm : list Z) (e : Endpoint) : option (list Z * Endpoint) :=
  match encode_frame pcm (ep_pipeline e) with
  | (Ok d, p) =>
      match session_send_datagram true d (ep_session e) with
      | Ok bytes => Some (bytes, {| ep_session := ep_session e; ep_pipeline := p |})
      | Err _ => None
      end
  | (Err _, _) => None
  end.

Fixpoint speak_all (frames : list (list Z)) (e : Endpoint) : option (list (list Z) * Endpoint) :=
  match frames with
  | [] => Some ([], e)
  | pcm :: frames' =>
      let?o (bytes, e) := speak pcm e in
      let?o (rest, e) := speak_all frames' e in
      Some (bytes :: rest, e)
  end.

(** Bytes that arrive: decoded and counted by the session, then buffered.  What does not
    decode is dropped. *)
Definition hear (e : Endpoint) (bytes : list Z) : Endpoint :=
  match session_recv_datagram (Some bytes) (ep_session e) with
  | Ok d => {| ep_session := session_record_received_datagram d (ep_session e);
               ep_pipeline := buffer_incoming d (ep_pipeline e) |}
  | Err _ => e
  end.

Definition hear_all (arrivals : list (list Z)) (e : Endpoint) : Endpoint := fold_left hear arrivals e.

(** The count of a track in the reports of a session. *)
Definition received_in (alias : Z) (qs : list QualityReport) : Z :=
  match find (fun q => qr_track_alias q =? alias) qs with Some q => qr_received q | None => 0 end.

Definition received_of (alias : Z) (e : Endpoint) : Z :=
  match session_quality_report alias (ep_session e) with Some q => qr_received q | None => 0 end.

(** Counters that do not reach the 62 bits of the wire format during a stream. *)
Record in_range (n : Z) (p : AudioPipeline) : Prop := {
  ir_alias : 0 <= local_track_alias p < 2 ^ 32;
  ir_frame : 0 < frame_size (enc_config (encoder p));
  ir_seq : 0 <= next_sequence p /\ next_sequence p + n <= 2 ^ 62;
  ir_ts : 0 <= next_timestamp p /\
          next_timestamp p + n * frame_size (enc_config (encoder p)) <= 2 ^ 62
}.

(** ** Facts *)

Lemma encode_frame_range pcm p d p' n :
  0 <= n -> in_range (1 + n) p -> encode_frame pcm p = (Ok d, p') ->
  datagram_wf d /\ track_alias d = local_track_alias p /\
  local_track_alias p' = local_track_alias p /\ in_range n p'.
Proof.
  intros Hn [Ha Hf Hs Ht] He. pose proof (encode_frame_ok _ _ _ _ He) as (Hd & Hdt & Hs' & Ht' & Hc).
  assert (datagram_type d = DATAGRAM_TYPE_MEDIA /\ track_alias d = local_track_alias p /\
          local_track_alias p' = local_track_alias p) as (Hty & Hal & Hal').
  { unfold encode_frame, encode_vec in He. repeat case_in He; by simplify_eq/=. }
  rewrite cast_small in Hs' by lia. rewrite cast_small in Ht' by nia.
  split_and!; [|done|done|]; split; rewrite ?Hal, ?Hal', ?Hc, ?Hs', ?Ht', ?Hd, ?Hdt; split_and?;
    (done || nia).
Qed.

(** What is spoken is the encoding of the pipeline's datagrams, all of them well formed. *)
Lemma speak_all_encodes frames e wire e' :
  in_range (zlen frames) (ep_pipeline e) -> speak_all frames e = Some (wire, e') ->
  exists ds, encode_frames frames (ep_pipeline e) = Some (ds, ep_pipeline e') /\
    wire = map datagram_encode ds /\
    Forall (fun d => datagram_wf d /\ track_alias d = local_track_alias (ep_pipeline e)) ds.
Proof.
  revert e wire. induction frames as [|pcm frames IH]; intros e wire Hr; cbn [speak_all].
  { intros [= <- <-]. by exists []. }
  rewrite zlen_cons in Hr. unfold speak. cbn [encode_frames].
  destruct (encode_frame pcm (ep_pipeline e)) as [[d|err] p] eqn:He; [|done].
  apply (encode_frame_range _ _ _ _ (zlen frames)) in He as (Hwf & Hal & Hal' & Hr');
    [|apply zlen_nonneg|done].
  unfold session_send_datagram. destruct (negb _); [done|]. cbn [option_bind].
  set (e1 := {| ep_session := ep_session e; ep_pipeline := p |}). intros H.
  destruct (speak_all frames e1) as [[rest e2]|] eqn:E; [|done]. injection H as <- <-.
  destruct (IH e1 rest Hr' E) as (ds & Hds & -> & Hall). exists (d :: ds). cbn in Hds, Hall.
  rewrite Hds. split; [done|]. split; [done|]. constructor; [done|]. by rewrite <- Hal'.
Qed.

Lemma hear_encoded e d :
  ms_state (ep_session e) = Session_Active -> datagram_wf d ->
  hear e (datagram_encode d) =
    {| ep_session := session_record_received_datagram d (ep_session e);
       ep_pipeline := buffer_incoming d (ep_pipeline e) |}.
Proof.
  intros Ha Hwf. unfold hear, session_recv_datagram. rewrite Ha.
  rewrite bool_decide_eq_true_2 by done. cbn [negb ok_or result_bind].
  by rewrite (datagram_roundtrip d Hwf).
Qed.

Lemma hear_all_encoded ds e :
  ms_state (ep_session e) = Session_Active -> Forall datagram_wf ds ->
  let e' := hear_all (map datagram_encode ds) e in
  ms_state (ep_session e') = Session_Active /\
  ep_pipeline e' = receive_all ds (ep_pipeline e) /\
  quality_reports (ep_session e') = fold_left (fun q d => record_in d q) ds (quality_reports (ep_session e)).
Proof.
  intros Ha Hwf. revert e Ha. induction Hwf as [|d ds Hd Hwf IH]; intros e Ha; [done|].
  unfold hear_all. cbn [map fold_left]. rewrite hear_encoded by done.
  by apply (IH {| ep_session := session_record_received_datagram d (ep_session e);
                  ep_pipeline := buffer_incoming d (ep_pipeline e) |}).
Qed.

(** The datagrams behind bytes of a stream. *)
Lemma arrivals_decode (ds : list MoqDatagram) arrivals :
  (forall b, b ∈ arrivals -> b ∈ map datagram_encode ds) ->
  exists heard, arrivals = map datagram_encode heard /\ (forall d, d ∈ heard -> d ∈ ds).
Proof.
  induction arrivals as [|b arrivals IH]; intros Hin; [exists []; set_solver|].
  destruct IH as (heard & -> & Hh); [set_solver|].
  assert (b ∈ map datagram_encode ds) as Hb by set_solver.
  apply list_elem_of_fmap in Hb as (d & -> & Hd). exists (d :: heard). set_solver.
Qed.

(** The count of a track goes up by one for each datagram of it. *)
Lemma record_in_count alias d qs : track_alias d = alias ->
  received_in alias (record_in d qs) = received_in alias qs + 1.
Proof.
  intros <-. unfold received_in. induction qs as [|q qs IH]; cbn; [by rewrite Z.eqb_refl|].
  destruct (qr_track_alias q =? track_alias d) eqn:E; cbn; rewrite E; [done|exact IH].
Qed.
Lemma fold_record_count alias ds qs : Forall (fun d => track_alias d = alias) ds ->
  received_in alias (fold_left (fun q d => record_in d q) ds qs) = received_in alias qs + zlen ds.
Proof.
  intros H. revert qs. induction H as [|d ds Hd H IH]; intros qs; cbn [fold_left].
  { change (zlen []) with 0. lia. }
  rewrite IH, record_in_count by done. rewrite zlen_cons. lia.
Qed.

End Media.

(** C5: what one peer says is what the other hears.  Of the frames a sender speaks on an active
    session, as long as its counters fit the wire format, the buffer of a receiver that held
    nothing has exactly those whose datagrams arrive, in the order in which they were spoken,
    over a network that may reorder, repeat and drop them; and its session has counted every
    arrival of the track. *)
Theorem audio_reaches_receiver `{O : Opus} frames s s' wire r arrivals :
  in_range (zlen frames) (ep_pipeline s) -> speak_all frames s = Some (wire, s') ->
  ms_state (ep_session r) = Session_Active -> jitter_buffer (ep_pipeline r) = [] ->
  (forall b, b ∈ arrivals -> b ∈ wire) ->
  exists ds,
    encode_frames frames (ep_pipeline s) = Some (ds, ep_pipeline s') /\
    wire = map datagram_encode ds /\
    jitter_buffer (ep_pipeline (hear_all arrivals r)) =
      filter (fun d => datagram_encode d ∈ arrivals) ds /\
    received_of (local_track_alias (ep_pipeline s)) (hear_all arrivals r) =
      received_of (local_track_alias (ep_pipeline s)) r + zlen arrivals.
Proof.
  intros Hr Hs Ha Hb Harr. destruct (speak_all_encodes _ _ _ _ Hr Hs) as (ds & Hds & -> & Hall).
  exists ds. split; [done|]. split; [done|].
  destruct (arrivals_decode ds arrivals Harr) as (heard & -> & Hh).
  rewrite Forall_forall in Hall. destruct (hear_all_encoded heard r Ha) as (_ & -> & Hq).
  { apply Forall_forall. intros d Hd. by apply Hall, Hh. }
  split.
  - rewrite (jitter_buffer_restores_order frames (ep_pipeline s) (ep_pipeline s') ds); try done;
      [|destruct Hr as [_ _ [] _]; lia..].
    apply filter_ext_in. intros d Hd. rewrite list_elem_of_fmap. split; [by exists d|].
    intros (d' & He & Hd'). assert (Ok d = Ok (E := MoqError) d') as [= ->]; [|done].
    rewrite <- (datagram_roundtrip d), <- (datagram_roundtrip d') by (apply Hall; auto).
    by rewrite He.
  - change (received_of ?a ?e) with (received_in a (quality_reports (ep_session e))).
    rewrite Hq, fold_record_count.
    + unfold zlen. by rewrite length_map.
    + apply Forall_forall. intros d Hd. by apply Hall, Hh.
Qed.

Module MediaSample.
Definition session : MoqSession := set_ms_state Session_Active session_new.

Definition endpoint : Endpoint (O := PipelineSample.opus) :=
  @Build_Endpoint PipelineSample.opus session PipelineSample.fresh.

Definition frames : list (list Z) := [PipelineSample.silence; PipelineSample.silence; PipelineSample.silence].

Definition bytes (n : Z) : list Z := datagram_encode (PipelineSample.frame n).
End MediaSample.

Lemma audio_reaches_receiver_witness :
  jitter_buffer (ep_pipeline (hear_all (O := PipelineSample.opus)
    [MediaSample.bytes 2; MediaSample.bytes 0; MediaSample.bytes 2] MediaSample.endpoint)) =
  [PipelineSample.frame 0; PipelineSample.frame 2].
Proof.
  destruct (speak_all (O := PipelineSample.opus) MediaSample.frames MediaSample.endpoint)
    as [[wire s']|] eqn:E; [|vm_compute in E; discriminate E].
  pose proof E as E'. vm_compute in E'. injection E' as Hw _.
  destruct (audio_reaches_receiver (O := PipelineSample.opus) MediaSample.frames
    MediaSample.endpoint s' wire MediaSample.endpoint
    [MediaSample.bytes 2; MediaSample.bytes 0; MediaSample.bytes 2]) as (ds & Hds & _ & Hj & _).
  - split; vm_compute; split_and?; congruence.
  - exact E.
  - reflexivity.
  - reflexivity.
  - rewrite <- Hw. intros b. rewrite !elem_of_cons. vm_compute. tauto.
  - rewrite Hj. vm_compute in Hds. injection Hds as <- _. vm_compute. reflexivity.
Defined.
