(* ===== verification/Codec.v ===== *)
(** * A concrete message codec

    The source encodes its messages with [prost] and [serde_json], which are interfaces of
    this development ([Prost]).  This file builds one implementation that satisfies their law,
    compositionally from the types of the fields, so that theorems that assume the law can be
    applied to concrete messages. *)

From S2P Require Import Prelude Wire.

Local Open Scope Z_scope.
Local Open Scope rust_scope.

(** [de] reads back what [ser] wrote and leaves the rest. *)
Class Ser (M : Type) := {
  ser : M -> list Z;
  de : list Z -> option (M * list Z)
}.

Class SerLaws (M : Type) {S : Ser M} := {
  de_ser (m : M) (rest : list Z) : de (ser m ++ rest) = Some (m, rest)
}.

#[export] Instance Z_ser : Ser Z := {|
  ser z := [z];
  de l := match l with z :: rest => Some (z, rest) | [] => None end
|}.

Fixpoint de_many {M} (step : list Z -> option (M * list Z)) (n : nat) (l : list Z)
    : option (list M * list Z) :=
  match n with
  | O => Some ([], l)
  | S n' => let?o (m, l1) := step l in let?o (ms, l2) := de_many step n' l1 in Some (m :: ms, l2)
  end.

#[export] Instance list_ser {M} `{Ser M} : Ser (list M) := {|
  ser ms := Z.of_nat (length ms) :: concat (map ser ms);
  de l := match l with n :: rest => de_many de (Z.to_nat n) rest | [] => None end
|}.

#[export] Instance option_ser {M} `{Ser M} : Ser (option M) := {|
  ser o := match o with None => [0] | Some m => 1 :: ser m end;
  de l := match l with
          | 0 :: rest => Some (None, rest)
          | 1 :: rest => let?o (m, rest') := de rest in Some (Some m, rest')
          | _ => None
          end
|}.

#[export] Instance prod_ser {A B} `{Ser A} `{Ser B} : Ser (A * B) := {|
  ser p := ser p.1 ++ ser p.2;
  de l := let?o (a, l1) := de l in let?o (b, l2) := de l1 in Some ((a, b), l2)
|}.

(** A type that is a view of another one. *)
Definition view_ser {A B} `{Ser B} (f : A -> B) (g : B -> A) : Ser A := {|
  ser a := ser (f a);
  de l := let?o (b, rest) := de l in Some (g b, rest)
|}.

#[export] Instance string_ser : Ser string := view_ser as_bytes string_of_bytes.

Definition codec (M : Type) `{Ser M} : Prost M := {|
  encode_to_vec := ser;
  prost_decode l := match de l with Some (m, []) => Some m | _ => None end
|}.

(** ** Facts *)

#[export] Instance Z_ser_laws : SerLaws Z.
Proof. by split. Qed.

Lemma de_many_ser {M} `{SerLaws M} (ms : list M) rest :
  de_many de (length ms) (concat (map ser ms) ++ rest) = Some (ms, rest).
Proof.
  induction ms as [|m ms IH]; [done|]. cbn [length map concat de_many].
  by rewrite <- app_assoc, de_ser, IH.
Qed.

#[export] Instance list_ser_laws {M} `{SerLaws M} : SerLaws (list M).
Proof. split. intros ms rest. cbn [ser de list_ser app]. rewrite Nat2Z.id. apply de_many_ser. Qed.

#[export] Instance option_ser_laws {M} `{SerLaws M} : SerLaws (option M).
Proof. split. intros [m|] rest; cbn [ser de option_ser app]; [|done]. by rewrite de_ser. Qed.

#[export] Instance prod_ser_laws {A B} `{SerLaws A} `{SerLaws B} : SerLaws (A * B).
Proof.
  split. intros [a b] rest. cbn [ser de prod_ser fst snd]. by rewrite <- app_assoc, !de_ser.
Qed.

Lemma view_ser_laws {A B} `{SerLaws B} (f : A -> B) (g : B -> A) :
  (forall a, g (f a) = a) -> SerLaws A (S := view_ser f g).
Proof. intros Hgf. split. intros a rest. cbn [ser de view_ser]. by rewrite de_ser, Hgf. Qed.

#[export] Instance string_ser_laws : SerLaws string.
Proof. apply view_ser_laws, string_of_as_bytes. Qed.

Lemma codec_laws (M : Type) `{SerLaws M} : ProstLaws M (P := codec M).
Proof.
  split. intros m. cbn [encode_to_vec prost_decode codec].
  by rewrite <- (app_nil_r (ser m)), de_ser.
Qed.
