(* ===== verification/DhtRecord.v ===== *)
(** * Signed DHT records

    [voip-dht/src/record.rs]: the keys of the distributed hash table, the peer, username and
    proxy records, their protobuf forms, and how they are signed and verified.  SHA-256 is
    the class [Sha256], protobuf and JSON are [Prost], signatures [SigScheme].  [ProxyRecord]
    has the fields of its protobuf message, and one type stands for both. *)

From S2P Require Import Prelude Types Config Crypto Wire Codec RustStr Proxy.

Local Open Scope Z_scope.
Local Open Scope rust_scope.


Inductive DhtError :=
| DhtNotStarted
| BootstrapFailed (reasons : list string)
| NoPeersConnected
| LookupTimeout (key : string) (elapsed_ms : Z)
| LookupFailed (key reason : string)
| NotFound (key : string)
| StoreFailed (key reason : string)
| RecordExpired (key : string) (expired_at : Z)
| InvalidSignature (key : string)
| UsernameNotFound (username : string)
| SignalingFallbackRequired
| Serialization (what : string)
| SwarmError (what : string)
| TransportError (what : string)
| BootstrapFailedSingle (what : string)
| InvalidRecord (what : string)
| NotConnected
| PutFailed (reason : string)
| InvalidSignatureLegacy (record_type : string)
| DhtExpired (published_at ttl_secs : Z)
| DhtCore (e : VoipError)
| Http (what : string).

(** ** Keys *)

Class Sha256 := sha256 : list Z -> list Z.

Section Keys.
Context `{H : Sha256}.

Definition peer_record_key (peer_id : string) : list Z := sha256 (as_bytes ("voip:" +:+ peer_id)).
Definition username_record_key (username : string) : list Z :=
  sha256 (as_bytes ("voip-name:" +:+ username)).
Definition proxy_record_key (node_id : string) : list Z :=
  sha256 (as_bytes ("masque-proxy:" +:+ node_id)).
End Keys.

(** ** Enumerations of the records *)

Inductive DhtNatType :=
| DhtNat_None | DhtNat_Cone | DhtNat_SymmetricSequential | DhtNat_SymmetricPseudo
| DhtNat_SymmetricRandom.

Inductive DhtConfidence := DhtConf_Sequential | DhtConf_PseudoSequential | DhtConf_Random.
Inductive DhtMediaType := DhtMedia_Audio | DhtMedia_Video | DhtMedia_Screen.
Inductive DhtPeerStatus := DhtPeer_Online | DhtPeer_Offline | DhtPeer_InCall.

#[export] Instance DhtNatType_from : Convert ProtoNATType DhtNatType := fun t =>
  match t with
  | NAT_NONE => DhtNat_None | NAT_CONE => DhtNat_Cone
  | NAT_SYMMETRIC_SEQUENTIAL => DhtNat_SymmetricSequential
  | NAT_SYMMETRIC_PSEUDO => DhtNat_SymmetricPseudo
  | NAT_SYMMETRIC_RANDOM => DhtNat_SymmetricRandom
  end.

#[export] Instance DhtNatType_into : Convert DhtNatType ProtoNATType := fun t =>
  match t with
  | DhtNat_None => NAT_NONE | DhtNat_Cone => NAT_CONE
  | DhtNat_SymmetricSequential => NAT_SYMMETRIC_SEQUENTIAL
  | DhtNat_SymmetricPseudo => NAT_SYMMETRIC_PSEUDO
  | DhtNat_SymmetricRandom => NAT_SYMMETRIC_RANDOM
  end.

#[export] Instance DhtConfidence_from : Convert ProtoPredictionConfidence DhtConfidence := fun c =>
  match c with
  | SEQUENTIAL => DhtConf_Sequential | PSEUDO_SEQUENTIAL => DhtConf_PseudoSequential
  | RANDOM => DhtConf_Random
  end.

#[export] Instance DhtConfidence_into : Convert DhtConfidence ProtoPredictionConfidence := fun c =>
  match c with
  | DhtConf_Sequential => SEQUENTIAL | DhtConf_PseudoSequential => PSEUDO_SEQUENTIAL
  | DhtConf_Random => RANDOM
  end.

#[export] Instance DhtMediaType_from : Convert ProtoMediaType DhtMediaType := fun t =>
  match t with
  | MEDIA_AUDIO => DhtMedia_Audio | MEDIA_VIDEO => DhtMedia_Video | MEDIA_SCREEN => DhtMedia_Screen
  end.

#[export] Instance DhtMediaType_into : Convert DhtMediaType ProtoMediaType := fun t =>
  match t with
  | DhtMedia_Audio => MEDIA_AUDIO | DhtMedia_Video => MEDIA_VIDEO | DhtMedia_Screen => MEDIA_SCREEN
  end.

#[export] Instance DhtPeerStatus_from : Convert ProtoPeerStatus DhtPeerStatus := fun s =>
  match s with
  | PEER_ONLINE => DhtPeer_Online | PEER_OFFLINE => DhtPeer_Offline | PEER_IN_CALL => DhtPeer_InCall
  end.

#[export] Instance DhtPeerStatus_into : Convert DhtPeerStatus ProtoPeerStatus := fun s =>
  match s with
  | DhtPeer_Online => PEER_ONLINE | DhtPeer_Offline => PEER_OFFLINE | DhtPeer_InCall => PEER_IN_CALL
  end.

(** [Enum::try_from(value).map(From::from).unwrap_or(default)]. *)
Definition enum_or {E N : Type} `{ProtoEnum E} `{Convert E N} (default : N) (value : Z) : N :=
  match try_from_i32 value with Some e => into e | None => default end.

(** ** Records *)

Record DhtPortPrediction := {
  dpp_external_ip : string;
  dpp_predicted_port_start : Z;
  dpp_predicted_port_end : Z;
  dpp_confidence : DhtConfidence;
  dpp_base_port : Z;
  dpp_delta_pattern : Z;
  dpp_probed_at : Z
}.

Record DhtNatInfo := {
  dni_nat_type : DhtNatType;
  dni_prediction : option DhtPortPrediction
}.

Record DhtTrack := {
  dt_track_namespace : string;
  dt_codec : string;
  dt_priority : Z;
  dt_media_type : DhtMediaType;
  dt_bitrate_max : Z;
  dt_bitrate_min : Z;
  dt_frame_duration_ms : Z
}.

Record PeerRecord := {
  peer_id : string;
  display_name : string;
  ipv6_addresses : list string;
  ipv4_reflexive : list string;
  nat_info : option DhtNatInfo;
  tracks : list DhtTrack;
  status : DhtPeerStatus;
  rec_timestamp : Z;
  ttl_seconds : Z;
  signature : list Z
}.

Record ProtoPeerRecord := {
  ppr_peer_id : string;
  ppr_display_name : string;
  ppr_ipv6_addresses : list string;
  ppr_ipv4_reflexive : list string;
  ppr_nat_info : option ProtoNATInfo;
  ppr_tracks : list ProtoTrackAnnouncement;
  ppr_status : Z;
  ppr_timestamp : Z;
  ppr_ttl_seconds : Z;
  ppr_signature : list Z
}.

Record UsernameRecord := {
  ur_username : string;
  ur_peer_id : string;
  ur_signature : list Z
}.

Definition prediction_to_proto (p : DhtPortPrediction) : ProtoPortPrediction := {|
  ppp_external_ip := dpp_external_ip p;
  ppp_predicted_port_start := dpp_predicted_port_start p;
  ppp_predicted_port_end := dpp_predicted_port_end p;
  ppp_confidence := as_i32 (into (dpp_confidence p) : ProtoPredictionConfidence);
  ppp_base_port := dpp_base_port p;
  ppp_delta_pattern := dpp_delta_pattern p;
  ppp_probed_at := dpp_probed_at p;
  ppp_probe_method := as_i32 QUIC_PATH_PROBING
|}.

Definition prediction_from_proto (p : ProtoPortPrediction) : DhtPortPrediction := {|
  dpp_external_ip := ppp_external_ip p;
  dpp_predicted_port_start := ppp_predicted_port_start p;
  dpp_predicted_port_end := ppp_predicted_port_end p;
  dpp_confidence := enum_or (E := ProtoPredictionConfidence) DhtConf_Random (ppp_confidence p);
  dpp_base_port := ppp_base_port p;
  dpp_delta_pattern := ppp_delta_pattern p;
  dpp_probed_at := ppp_probed_at p
|}.

Definition nat_to_proto (n : DhtNatInfo) : ProtoNATInfo := {|
  pni_nat_type := as_i32 (into (dni_nat_type n) : ProtoNATType);
  pni_prediction := option_map prediction_to_proto (dni_prediction n)
|}.

Definition nat_from_proto (n : ProtoNATInfo) : DhtNatInfo := {|
  dni_nat_type := enum_or (E := ProtoNATType) DhtNat_None (pni_nat_type n);
  dni_prediction := option_map prediction_from_proto (pni_prediction n)
|}.

Definition track_to_proto (t : DhtTrack) : ProtoTrackAnnouncement := {|
  pta_track_namespace := dt_track_namespace t; pta_codec := dt_codec t;
  pta_priority := dt_priority t;
  pta_media_type := as_i32 (into (dt_media_type t) : ProtoMediaType);
  pta_bitrate_max := dt_bitrate_max t; pta_bitrate_min := dt_bitrate_min t;
  pta_frame_duration_ms := dt_frame_duration_ms t
|}.

Definition track_from_proto (t : ProtoTrackAnnouncement) : DhtTrack := {|
  dt_track_namespace := pta_track_namespace t; dt_codec := pta_codec t;
  dt_priority := pta_priority t;
  dt_media_type := enum_or (E := ProtoMediaType) DhtMedia_Audio (pta_media_type t);
  dt_bitrate_max := pta_bitrate_max t; dt_bitrate_min := pta_bitrate_min t;
  dt_frame_duration_ms := pta_frame_duration_ms t
|}.

Definition new_unsigned (now : Z) (peer_id display_name : string) (v6 v4 : list string)
    (nat : option DhtNatInfo) (tracks : list DhtTrack) (status : DhtPeerStatus) (ttl : Z)
    : PeerRecord := {|
  peer_id := peer_id; display_name := display_name; ipv6_addresses := v6;
  ipv4_reflexive := v4; nat_info := nat; tracks := tracks; status := status;
  rec_timestamp := now; ttl_seconds := ttl; signature := []
|}.

Definition to_proto_with_empty_sig (r : PeerRecord) : ProtoPeerRecord := {|
  ppr_peer_id := peer_id r; ppr_display_name := display_name r;
  ppr_ipv6_addresses := ipv6_addresses r; ppr_ipv4_reflexive := ipv4_reflexive r;
  ppr_nat_info := option_map nat_to_proto (nat_info r);
  ppr_tracks := map track_to_proto (tracks r);
  ppr_status := as_i32 (into (status r) : ProtoPeerStatus);
  ppr_timestamp := rec_timestamp r; ppr_ttl_seconds := ttl_seconds r; ppr_signature := []
|}.

Definition proto_with_sig (s : list Z) (p : ProtoPeerRecord) : ProtoPeerRecord := {|
  ppr_peer_id := ppr_peer_id p; ppr_display_name := ppr_display_name p;
  ppr_ipv6_addresses := ppr_ipv6_addresses p; ppr_ipv4_reflexive := ppr_ipv4_reflexive p;
  ppr_nat_info := ppr_nat_info p; ppr_tracks := ppr_tracks p; ppr_status := ppr_status p;
  ppr_timestamp := ppr_timestamp p; ppr_ttl_seconds := ppr_ttl_seconds p; ppr_signature := s
|}.

Definition to_proto (r : PeerRecord) : ProtoPeerRecord :=
  proto_with_sig (signature r) (to_proto_with_empty_sig r).

Definition from_proto (p : ProtoPeerRecord) : PeerRecord := {|
  peer_id := ppr_peer_id p; display_name := ppr_display_name p;
  ipv6_addresses := ppr_ipv6_addresses p; ipv4_reflexive := ppr_ipv4_reflexive p;
  nat_info := option_map nat_from_proto (ppr_nat_info p);
  tracks := map track_from_proto (ppr_tracks p);
  status := enum_or (E := ProtoPeerStatus) DhtPeer_Offline (ppr_status p);
  rec_timestamp := ppr_timestamp p; ttl_seconds := ppr_ttl_seconds p;
  signature := ppr_signature p
|}.

Definition username_new (username peer_id : string) : UsernameRecord :=
  {| ur_username := username; ur_peer_id := peer_id; ur_signature := [] |}.

Definition proxy_new_unsigned (now : Z) (node_id proxy_url : string) (capacity : Z)
    (region : string) (latency ttl : Z) (fingerprint : string) : ProxyRecord := {|
  pr_node_id := node_id; pr_proxy_url := proxy_url; pr_capacity := capacity;
  pr_region := region; pr_latency_hint_ms := latency; pr_timestamp := now;
  pr_ttl_seconds := ttl; pr_cert_fingerprint := fingerprint; pr_signature := []
|}.

(** [now > timestamp + ttl_seconds as u64]; the sum may overflow. *)
Definition expired (m : overflow_mode) (now timestamp ttl : Z) : option bool :=
  let?o expires := arith m 64 (timestamp + ttl) in Some (expires <? now).

Definition is_expired (m : overflow_mode) (now : Z) (r : PeerRecord) : option bool :=
  expired m now (rec_timestamp r) (ttl_seconds r).

Definition proxy_is_expired (m : overflow_mode) (now : Z) (r : ProxyRecord) : option bool :=
  expired m now (pr_timestamp r) (pr_ttl_seconds r).

(** ** Signing

    The three records and the two protobuf messages are signed alike: the signature covers
    [signing_input], which does not depend on the signature field. *)

Class Signed (R : Type) := {
  signing_input : R -> list Z;
  get_sig : R -> list Z;
  set_sig : list Z -> R -> R;
  err_key : R -> string;
  record_type : string
}.

Class SignedLaws (R : Type) {D : Signed R} := {
  input_set_sig s (r : R) : signing_input (set_sig s r) = signing_input r;
  get_set_sig s (r : R) : get_sig (set_sig s r) = s
}.

Section Signing.
Context `{S : SigScheme} {R : Type} `{D : Signed R}.

Definition record_sign (sk : SigningKey) (r : R) : R :=
  set_sig (sig_to_bytes (sign sk (signing_input r))) r.

(** The standalone functions, which return whether the signature matches.
    [Signature::try_from] wants 64 bytes; the text of its error is left out of the
    [record_type] of [InvalidSignatureLegacy]. *)
Definition verify_standalone (key : string) (vk : VerifyingKey) (r : R) : result DhtError bool :=
  if zlen (get_sig r) =? 0 then Err (InvalidSignature key)
  else if negb (zlen (get_sig r) =? 64) then Err (InvalidSignatureLegacy (record_type (R := R)))
  else Ok (verify_sig vk (signing_input r) (sig_from_bytes (get_sig r))).

Definition record_verify (vk : VerifyingKey) (r : R) : result DhtError unit :=
  let? good := verify_standalone (err_key r) vk r in
  if good then Ok tt else Err (InvalidSignature (err_key r)).
End Signing.

Definition with_signature (s : list Z) (r : PeerRecord) : PeerRecord := {|
  peer_id := peer_id r; display_name := display_name r; ipv6_addresses := ipv6_addresses r;
  ipv4_reflexive := ipv4_reflexive r; nat_info := nat_info r; tracks := tracks r;
  status := status r; rec_timestamp := rec_timestamp r; ttl_seconds := ttl_seconds r;
  signature := s
|}.

Definition proxy_with_signature (s : list Z) (r : ProxyRecord) : ProxyRecord := {|
  pr_node_id := pr_node_id r; pr_proxy_url := pr_proxy_url r; pr_capacity := pr_capacity r;
  pr_region := pr_region r; pr_latency_hint_ms := pr_latency_hint_ms r;
  pr_timestamp := pr_timestamp r; pr_ttl_seconds := pr_ttl_seconds r;
  pr_cert_fingerprint := pr_cert_fingerprint r; pr_signature := s
|}.

Definition username_signing_input (username peer_id : string) : list Z :=
  as_bytes (username +:+ ":" +:+ peer_id).

Section Instances.
Context `{P : Prost ProtoPeerRecord} `{PX : Prost ProxyRecord} `{J : Prost UsernameRecord}.

#[export] Instance PeerRecord_signed : Signed PeerRecord := {|
  signing_input r := encode_to_vec (to_proto_with_empty_sig r);
  get_sig := signature; set_sig := with_signature; err_key := peer_id;
  record_type := "PeerRecord"
|}.

#[export] Instance ProtoPeerRecord_signed : Signed ProtoPeerRecord := {|
  signing_input p := encode_to_vec (proto_with_sig [] p);
  get_sig := ppr_signature; set_sig := proto_with_sig; err_key := ppr_peer_id;
  record_type := "PeerRecord"
|}.

#[export] Instance ProxyRecord_signed : Signed ProxyRecord := {|
  signing_input r := encode_to_vec (proxy_with_signature [] r);
  get_sig := pr_signature; set_sig := proxy_with_signature; err_key _ := "ProxyRecord";
  record_type := "ProxyRecord"
|}.

#[export] Instance UsernameRecord_signed : Signed UsernameRecord := {|
  signing_input r := username_signing_input (ur_username r) (ur_peer_id r);
  get_sig := ur_signature;
  set_sig s r := {| ur_username := ur_username r; ur_peer_id := ur_peer_id r; ur_signature := s |};
  err_key _ := "UsernameRecord"; record_type := "UsernameRecord"
|}.

(** ** Encoding *)

Definition record_encode (r : PeerRecord) : list Z := encode_to_vec (to_proto r).

Definition record_decode (data : list Z) : result DhtError PeerRecord :=
  let? p := ok_or (prost_decode data) (Serialization "PeerRecord") in Ok (from_proto p).

Definition username_encode (r : UsernameRecord) : list Z := encode_to_vec r.

Definition username_decode (data : list Z) : result DhtError UsernameRecord :=
  ok_or (prost_decode data) (Serialization "UsernameRecord").

Definition proxy_encode (r : ProxyRecord) : list Z := encode_to_vec r.

Definition proxy_decode (data : list Z) : result DhtError ProxyRecord :=
  ok_or (prost_decode data) (Serialization "ProxyRecord").

(** [sign_peer_record], [sign_proxy_record] and their verifiers. *)
Definition sign_peer_record `{S : SigScheme} (p : ProtoPeerRecord) (sk : SigningKey)
    : ProtoPeerRecord := record_sign sk p.

Definition verify_peer_record `{S : SigScheme} (p : ProtoPeerRecord) (vk : VerifyingKey)
    : result DhtError bool := verify_standalone (ppr_peer_id p) vk p.

Definition sign_proxy_record `{S : SigScheme} (p : ProxyRecord) (sk : SigningKey)
    : ProxyRecord := record_sign sk p.

Definition verify_proxy_record `{S : SigScheme} (p : ProxyRecord) (vk : VerifyingKey)
    : result DhtError bool := verify_standalone (pr_node_id p) vk p.

Definition sign_username_record `{S : SigScheme} (r : UsernameRecord) (sk : SigningKey)
    : UsernameRecord := record_sign sk r.

Definition verify_username_record `{S : SigScheme} (r : UsernameRecord) (vk : VerifyingKey)
    : result DhtError bool := verify_standalone "UsernameRecord" vk r.
End Instances.

(** ** Facts *)

#[export] Instance DhtNatType_iso : ConvertIso ProtoNATType DhtNatType.
Proof. by split; intros []. Qed.
#[export] Instance DhtConfidence_iso : ConvertIso ProtoPredictionConfidence DhtConfidence.
Proof. by split; intros []. Qed.
#[export] Instance DhtMediaType_iso : ConvertIso ProtoMediaType DhtMediaType.
Proof. by split; intros []. Qed.
#[export] Instance DhtPeerStatus_iso : ConvertIso ProtoPeerStatus DhtPeerStatus.
Proof. by split; intros []. Qed.

Lemma enum_or_as {E N : Type} `{ProtoEnum E} `{Convert E N} `{Convert N E}
    {I : ConvertIso E N} (d n : N) : enum_or (E := E) d (as_i32 (into n : E)) = n.
Proof. unfold enum_or. rewrite try_from_as. apply into_into. Qed.

Lemma as_enum_or {E N : Type} `{ProtoEnum E} `{Convert E N} `{Convert N E}
    {I : ConvertIso E N} (d : N) (z : Z) (e : E) :
  try_from_i32 z = Some e -> as_i32 (into (enum_or (E := E) d z) : E) = z.
Proof.
  intros He. unfold enum_or. rewrite He, into_into'. by apply as_try_from.
Qed.

Lemma prediction_from_to p : prediction_from_proto (prediction_to_proto p) = p.
Proof.
  destruct p. unfold prediction_from_proto, prediction_to_proto; cbn -[enum_or as_i32 into].
  by rewrite enum_or_as.
Qed.

Lemma nat_from_to n : nat_from_proto (nat_to_proto n) = n.
Proof.
  destruct n as [t p]. unfold nat_from_proto, nat_to_proto; cbn -[enum_or as_i32 into].
  rewrite enum_or_as. f_equal. destruct p; cbn -[prediction_from_proto]; [|done].
  by rewrite prediction_from_to.
Qed.

Lemma track_from_to t : track_from_proto (track_to_proto t) = t.
Proof.
  destruct t. unfold track_from_proto, track_to_proto; cbn -[enum_or as_i32 into].
  by rewrite enum_or_as.
Qed.

Lemma from_to_proto r : from_proto (to_proto r) = r.
Proof.
  destruct r as [? ? ? ? n ts ? ? ? ?].
  unfold from_proto, to_proto, proto_with_sig, to_proto_with_empty_sig;
    cbn -[enum_or as_i32 into].
  rewrite enum_or_as, map_map. f_equal.
  - destruct n; cbn -[nat_from_proto]; [|done]. by rewrite nat_from_to.
  - rewrite <- (map_id ts) at 2. apply map_ext, track_from_to.
Qed.

Lemma to_proto_empty r : to_proto_with_empty_sig r = to_proto (with_signature [] r).
Proof. done. Qed.

Lemma proto_with_sig_to_proto s r :
  proto_with_sig s (to_proto r) = to_proto (with_signature s r).
Proof. done. Qed.

Section SigningFacts.
Context `{P : Prost ProtoPeerRecord} `{PX : Prost ProxyRecord}.

#[export] Instance PeerRecord_signed_laws : SignedLaws PeerRecord.
Proof. by split. Qed.
#[export] Instance ProtoPeerRecord_signed_laws : SignedLaws ProtoPeerRecord.
Proof. by split. Qed.
#[export] Instance ProxyRecord_signed_laws : SignedLaws ProxyRecord.
Proof. by split. Qed.
#[export] Instance UsernameRecord_signed_laws : SignedLaws UsernameRecord.
Proof. by split. Qed.
End SigningFacts.

(** What every kind of record shares: a signed record verifies under the signer's key. *)
Lemma record_sign_verify `{S : SigScheme} {L : SigLaws S} {R} `{D : Signed R} {DL : SignedLaws R}
    sk (r : R) : record_verify (verifying_key sk) (record_sign sk r) = Ok tt.
Proof.
  unfold record_verify, verify_standalone, record_sign.
  rewrite !get_set_sig, !input_set_sig.
  assert (zlen (sig_to_bytes (sign sk (signing_input r))) = 64) as ->
    by (unfold zlen; rewrite sig_bytes_length; done).
  cbn [negb Z.eqb Pos.eqb result_bind]. by rewrite sig_from_to_bytes, verify_sign.
Qed.

(** The protobuf messages that the struct can represent: known enumeration values, and the
    only probe method. *)
Definition prediction_canonical (p : ProtoPortPrediction) : Prop :=
  is_Some (try_from_i32 (E := ProtoPredictionConfidence) (ppp_confidence p)) /\
  ppp_probe_method p = 0.

Definition nat_canonical (n : ProtoNATInfo) : Prop :=
  is_Some (try_from_i32 (E := ProtoNATType) (pni_nat_type n)) /\
  forall p, pni_prediction n = Some p -> prediction_canonical p.

Definition canonical (p : ProtoPeerRecord) : Prop :=
  (forall n, ppr_nat_info p = Some n -> nat_canonical n) /\
  Forall (fun t => is_Some (try_from_i32 (E := ProtoMediaType) (pta_media_type t)))
    (ppr_tracks p) /\
  is_Some (try_from_i32 (E := ProtoPeerStatus) (ppr_status p)).

Lemma prediction_to_from p :
  prediction_canonical p -> prediction_to_proto (prediction_from_proto p) = p.
Proof.
  intros [[e He] Hm]. destruct p. unfold prediction_to_proto, prediction_from_proto in *.
  cbn -[enum_or as_i32 into try_from_i32] in *. rewrite (as_enum_or _ _ e He). by subst.
Qed.

Lemma nat_to_from n : nat_canonical n -> nat_to_proto (nat_from_proto n) = n.
Proof.
  intros [[e He] Hp]. destruct n as [t p]. unfold nat_to_proto, nat_from_proto in *.
  cbn -[enum_or as_i32 into try_from_i32] in *. rewrite (as_enum_or _ _ e He). f_equal.
  destruct p; cbn -[prediction_to_proto]; [|done]. by rewrite prediction_to_from by auto.
Qed.

Lemma tracks_to_from ts :
  Forall (fun t => is_Some (try_from_i32 (E := ProtoMediaType) (pta_media_type t))) ts ->
  map track_to_proto (map track_from_proto ts) = ts.
Proof.
  induction 1 as [|t ts [e He] _ IH]; cbn [map]; [done|]. rewrite IH. f_equal.
  destruct t. unfold track_to_proto, track_from_proto.
  cbn -[enum_or as_i32 into try_from_i32] in *. by rewrite (as_enum_or _ _ e He).
Qed.

Lemma to_from_proto p : canonical p -> to_proto (from_proto p) = p.
Proof.
  intros (Hn & Ht & [e He]). destruct p as [? ? ? ? n ts ? ? ? ?].
  unfold to_proto, from_proto, proto_with_sig, to_proto_with_empty_sig.
  cbn -[enum_or as_i32 into try_from_i32] in *.
  rewrite (as_enum_or _ _ e He), tracks_to_from by done. f_equal.
  destruct n; cbn -[nat_to_proto]; [|done]. by rewrite nat_to_from by auto.
Qed.

(** C20: a peer record that its owner signed survives the trip through the hash table: it
    decodes to the same record and verifies under the owner's key. *)
Theorem signed_record_roundtrip `{S : SigScheme} {L : SigLaws S} `{P : Prost ProtoPeerRecord}
    {PL : ProstLaws ProtoPeerRecord} sk (r : PeerRecord) :
  record_decode (record_encode (record_sign sk r)) = Ok (record_sign sk r) /\
  record_verify (verifying_key sk) (record_sign sk r) = Ok tt.
Proof.
  split; [|apply record_sign_verify].
  unfold record_decode, record_encode. rewrite prost_roundtrip. cbn [ok_or result_bind].
  by rewrite from_to_proto.
Qed.

(** C14: the signature of a peer record covers every field but itself: records with the same
    signed bytes differ in nothing else. *)
Theorem signing_input_covers_record `{P : Prost ProtoPeerRecord}
    {PL : ProstLaws ProtoPeerRecord} (r1 r2 : PeerRecord) :
  signing_input r1 = signing_input r2 -> with_signature [] r1 = with_signature [] r2.
Proof.
  cbn [signing_input PeerRecord_signed]. rewrite !to_proto_empty. intros H.
  apply (f_equal prost_decode) in H. rewrite !prost_roundtrip in H.
  apply (inj Some), (f_equal from_proto) in H. by rewrite !from_to_proto in H.
Qed.

(** Signing and checking a record through its struct or through its protobuf message is
    the same: the signed message is the message of the signed struct, and on messages that
    the struct can represent both checks give the same verdict. *)
Lemma proto_and_struct_signatures_agree `{S : SigScheme} `{P : Prost ProtoPeerRecord} :
  (forall sk r, sign_peer_record (to_proto r) sk = to_proto (record_sign sk r)) /\
  (forall vk p, canonical p ->
     verify_peer_record p vk = Ok true <-> record_verify vk (from_proto p) = Ok tt).
Proof.
  split; [done|]. intros vk p Hc.
  unfold record_verify, verify_peer_record, verify_standalone.
  assert (signing_input (from_proto p) = signing_input p) as ->.
  { cbn [signing_input PeerRecord_signed ProtoPeerRecord_signed].
    rewrite to_proto_empty. rewrite <- (to_from_proto p Hc) at 2. done. }
  change (get_sig (from_proto p)) with (get_sig p).
  do 2 (case_goal; [done|]). cbn [result_bind].
  destruct (verify_sig _ _ _); split; congruence.
Qed.

(** On peer ids without a colon (they are hexadecimal) the signed bytes of a username
    record determine the name and the id; otherwise they do not: a signature for the name
    [a] and the id [b:c] is one for the name [a:b] and the id [c]. *)
Lemma username_signature_scope `{S : SigScheme} :
  (forall u1 p1 u2 p2, 58 ∉ as_bytes p1 -> 58 ∉ as_bytes p2 ->
     username_signing_input u1 p1 = username_signing_input u2 p2 -> u1 = u2 /\ p1 = p2) /\
  (forall sk vk a b c,
     let r := record_sign sk (username_new a (b +:+ ":" +:+ c)) in
     record_verify vk {| ur_username := a +:+ ":" +:+ b; ur_peer_id := c;
                         ur_signature := ur_signature r |} = record_verify vk r).
Proof.
  split.
  - intros u1 p1 u2 p2 H1 H2 H. unfold username_signing_input in H.
    rewrite !as_bytes_app in H. apply (f_equal (@reverse Z)) in H.
    change (as_bytes ":") with [58] in H. rewrite !reverse_app, <- !(assoc_L _) in H.
    change (reverse [58]) with [58] in H. cbn [app] in H.
    apply app_cons_inj_fresh in H as [Hp Hu]; try (by rewrite elem_of_reverse).
    apply (inj reverse) in Hp, Hu. split; by apply as_bytes_inj.
  - intros sk vk a b c r. unfold record_verify, verify_standalone.
    assert (signing_input {| ur_username := a +:+ ":" +:+ b; ur_peer_id := c;
              ur_signature := ur_signature r |} = signing_input r) as ->; [|done].
    cbn [signing_input UsernameRecord_signed r record_sign set_sig username_new ur_username
      ur_peer_id]. unfold username_signing_input. by rewrite !as_bytes_app, <- !(assoc_L _).
Qed.

(** ** Concrete codecs of the messages *)

Module RecordCodec.
#[export] Instance prediction_ser : Ser ProtoPortPrediction := view_ser
  (fun p => (ppp_external_ip p, ppp_predicted_port_start p, ppp_predicted_port_end p,
     ppp_confidence p, ppp_base_port p, ppp_delta_pattern p, ppp_probed_at p,
     ppp_probe_method p))
  (fun '(a, b, c, d, e, f, g, h) => Build_ProtoPortPrediction a b c d e f g h).

#[export] Instance track_ser : Ser ProtoTrackAnnouncement := view_ser
  (fun p => (pta_track_namespace p, pta_codec p, pta_priority p, pta_media_type p,
     pta_bitrate_max p, pta_bitrate_min p, pta_frame_duration_ms p))
  (fun '(a, b, c, d, e, f, g) => Build_ProtoTrackAnnouncement a b c d e f g).

#[export] Instance nat_ser : Ser ProtoNATInfo := view_ser
  (fun p => (pni_nat_type p, pni_prediction p)) (fun '(a, b) => Build_ProtoNATInfo a b).

#[export] Instance peer_ser : Ser ProtoPeerRecord := view_ser
  (fun p => (ppr_peer_id p, ppr_display_name p, ppr_ipv6_addresses p, ppr_ipv4_reflexive p,
     ppr_nat_info p, ppr_tracks p, ppr_status p, ppr_timestamp p, ppr_ttl_seconds p,
     ppr_signature p))
  (fun '(a, b, c, d, e, f, g, h, i, j) => Build_ProtoPeerRecord a b c d e f g h i j).

#[export] Instance username_ser : Ser UsernameRecord := view_ser
  (fun p => (ur_username p, ur_peer_id p, ur_signature p))
  (fun '(a, b, c) => Build_UsernameRecord a b c).

#[export] Instance prediction_ser_laws : SerLaws ProtoPortPrediction.
Proof. apply view_ser_laws. by intros []. Qed.
#[export] Instance track_ser_laws : SerLaws ProtoTrackAnnouncement.
Proof. apply view_ser_laws. by intros []. Qed.
#[export] Instance nat_ser_laws : SerLaws ProtoNATInfo.
Proof. apply view_ser_laws. by intros []. Qed.
#[export] Instance peer_ser_laws : SerLaws ProtoPeerRecord.
Proof. apply view_ser_laws. by intros []. Qed.
#[export] Instance username_ser_laws : SerLaws UsernameRecord.
Proof. apply view_ser_laws. by intros []. Qed.

Definition peer_codec : Prost ProtoPeerRecord := codec ProtoPeerRecord.
Definition peer_codec_laws : ProstLaws ProtoPeerRecord (P := peer_codec) :=
  codec_laws ProtoPeerRecord.
Definition username_codec : Prost UsernameRecord := codec UsernameRecord.
Definition username_codec_laws : ProstLaws UsernameRecord (P := username_codec) :=
  codec_laws UsernameRecord.
End RecordCodec.

Module DhtSample.
Definition record : PeerRecord :=
  new_unsigned 1000 "aa" "alice" [] ["1.2.3.4:5000"]
    (Some {| dni_nat_type := DhtNat_Cone; dni_prediction := None |}) [] DhtPeer_Online 3600.
End DhtSample.

Lemma signed_record_roundtrip_witness :
  record_verify (S := ToySig.scheme)
    (D := PeerRecord_signed (P := RecordCodec.peer_codec)) "k"%char
    (record_sign (S := ToySig.scheme) (D := PeerRecord_signed (P := RecordCodec.peer_codec))
       "k"%char DhtSample.record) = Ok tt.
Proof.
  exact (proj2 (signed_record_roundtrip (S := ToySig.scheme) (L := ToySig.laws)
    (P := RecordCodec.peer_codec) (PL := RecordCodec.peer_codec_laws) "k"%char
    DhtSample.record)).
Defined.

Lemma signing_input_covers_record_witness :
  with_signature [] (with_signature [7] DhtSample.record) = with_signature [] DhtSample.record.
Proof.
  apply (signing_input_covers_record (P := RecordCodec.peer_codec)
    (PL := RecordCodec.peer_codec_laws)).
  reflexivity.
Defined.
