(* ===== verification/Discovery.v ===== *)
(** * Two-tier discovery

    [voip-dht/src/discovery.rs] with the record operations of [voip-dht/src/node.rs]: looking
    up peers, usernames and proxies in the hash table or on the signaling server, with the
    configured order and timeouts, publishing and refreshing records.  The Kademlia network
    is the class [DhtNet], of which nothing is assumed: what a lookup returns may be missing,
    late or a stranger's.  HTTP is a function of the URL; both report how long they took in
    milliseconds.  A lookup also returns which service it asked, in order. *)

From S2P Require Import Prelude Types Crypto Base64 Wire RustStr Jwt Proxy DhtRecord.

Local Open Scope Z_scope.
Local Open Scope rust_scope.

(** ** The outside *)

Class DhtNet := {
  net : Type;
  net_put : list Z -> list Z -> net -> result DhtError unit * net;
  net_get : list Z -> net -> Z * result DhtError (list Z)
}.

Record HttpResponse := { http_code : Z; http_body : list Z }.

Record PeerResponse := {
  resp_peer_id : string;
  resp_display_name : string;
  resp_ipv6_addresses : list string;
  resp_ipv4_reflexive : list string;
  resp_nat_type : string;
  resp_status : string
}.

Record ProxyEntry := {
  pe_node_id : string;
  pe_proxy_url : string;
  pe_capacity : Z;
  pe_region : string;
  pe_latency_hint_ms : Z
}.

(** The JSON bodies, read by [serde_json] with its messages, and the text of a status code. *)
Class SignalingJson := {
  parse_peer : list Z -> result string PeerResponse;
  parse_lookup : list Z -> result string string;
  parse_proxies : list Z -> result string (list ProxyEntry);
  parse_bootstrap : list Z -> result string (list string);
  show_status : Z -> string
}.

Inductive Contact :=
| Asked_dht (key : list Z)
| Asked_signaling (url : string).

(** ** The signaling client *)

(** [str::to_lowercase]; only ASCII letters can match the ASCII names compared with. *)
Definition lower_byte (b : Z) : Z := if (65 <=? b) && (b <=? 90) then b + 32 else b.
Definition to_lowercase (s : string) : string := string_of_bytes (map lower_byte (as_bytes s)).

Definition status_of (s : string) : DhtPeerStatus :=
  let s := to_lowercase s in
  if bool_decide (s = "online") then DhtPeer_Online
  else if bool_decide (s = "in_call") then DhtPeer_InCall
  else DhtPeer_Offline.

Definition nat_info_of (s : string) : option DhtNatInfo :=
  let s := to_lowercase s in
  let info t := Some {| dni_nat_type := t; dni_prediction := None |} in
  if bool_decide (s = "cone") then info DhtNat_Cone
  else if bool_decide (s ∈ ["symmetric_sequential"; "symmetricsequential"]%string)
  then info DhtNat_SymmetricSequential
  else if bool_decide (s ∈ ["symmetric_pseudo"; "symmetricpseudo"]%string)
  then info DhtNat_SymmetricPseudo
  else if bool_decide (s ∈ ["symmetric_random"; "symmetricrandom"]%string)
  then info DhtNat_SymmetricRandom
  else None.

Definition is_success (code : Z) : bool := (200 <=? code) && (code <? 300).

Section Signaling.
Context `{J : SignalingJson} (http : string -> Z * result string HttpResponse)
  (server_url : string).

(** Send, check the status and parse; [on404] is the error of a missing entry, if any. *)
Definition fetch {A : Type} (url what body : string) (on404 : option DhtError)
    (parse : list Z -> result string A) : Z * result DhtError A :=
  let (t, sent) := http url in
  (t,
   let? response := map_err (fun e => Http ("Failed to connect to signaling server: " +:+ e)) sent in
   match (if http_code response =? 404 then on404 else None) with
   | Some e => Err e
   | None =>
       if negb (is_success (http_code response))
       then Err (Http ("Signaling server returned " +:+ show_status (http_code response) +:+
                       " for " +:+ what))
       else map_err (fun e => Serialization ("Failed to parse signaling server " +:+ body +:+
                                             " response: " +:+ e)) (parse (http_body response))
   end).

Definition peer_url (peer_id : string) : string := server_url +:+ "/v1/peers/" +:+ peer_id.
Definition username_url (username : string) : string :=
  server_url +:+ "/v1/peers/lookup" +:+ "?username=" +:+ username.
Definition proxies_url : string := server_url +:+ "/v1/proxies".
Definition bootstrap_url : string := server_url +:+ "/v1/dht/bootstrap".

Definition lookup_peer (now : Z) (peer_id : string) : Z * result DhtError PeerRecord :=
  let (t, r) := fetch (peer_url peer_id) "peer lookup" "peer"
                  (Some (NotFound ("signaling:peer:" +:+ peer_id))) parse_peer in
  (t,
   let? p := r in
   Ok (new_unsigned now (resp_peer_id p) (resp_display_name p) (resp_ipv6_addresses p)
         (resp_ipv4_reflexive p) (nat_info_of (resp_nat_type p)) [] (status_of (resp_status p))
         3600)).

Definition lookup_username (username : string) : Z * result DhtError string :=
  fetch (username_url username) "username lookup" "lookup" (Some (UsernameNotFound username)) parse_lookup.

Definition get_proxies (now : Z) : Z * result DhtError (list ProxyRecord) :=
  let (t, r) := fetch proxies_url "proxy lookup" "proxies" None parse_proxies in
  (t,
   let? l := r in
   Ok (map (fun e => proxy_new_unsigned now (pe_node_id e) (pe_proxy_url e) (pe_capacity e)
              (pe_region e) (pe_latency_hint_ms e) 3600 "") l)).

Definition get_bootstrap_nodes : Z * result DhtError (list string) :=
  fetch bootstrap_url "bootstrap node lookup" "bootstrap" None parse_bootstrap.
End Signaling.

(** [tokio::time::timeout]. *)
Definition within {A : Type} (limit : Z) (key : string) (r : Z * result DhtError A)
    : result DhtError A :=
  if fst r <=? limit then snd r else Err (LookupTimeout key limit).

(** ** Discovery *)

Record DiscoveryService := {
  server_url : string;
  privacy_first : bool;
  dht_timeout_ms : Z
}.

Definition set_mode (privacy : bool) (d : DiscoveryService) : DiscoveryService :=
  {| server_url := server_url d; privacy_first := privacy; dht_timeout_ms := dht_timeout_ms d |}.

Section Discovery.
Context `{H : Sha256} `{P : Prost ProtoPeerRecord} `{PX : Prost ProxyRecord}
  `{PU : Prost UsernameRecord} `{J : SignalingJson} `{N : DhtNet}
  (http : string -> Z * result string HttpResponse) (m : overflow_mode) (now : Z)
  (d : DiscoveryService).

(** A lookup with the services it asked; the result is [None] on an overflow panic. *)
Definition Lookup (A : Type) : Type := list Contact * option (result DhtError A).

Definition bind_ok {A B : Type} (x : Lookup A) (k : A -> Lookup B) : Lookup B :=
  match x with
  | (c, Some (Ok a)) => let (c', r) := k a in (c ++ c', r)
  | (c, Some (Err e)) => (c, Some (Err e))
  | (c, None) => (c, None)
  end.

(** Try [x], and [y] when it returns an error. *)
Definition or_else {A : Type} (x y : Lookup A) : Lookup A :=
  match x with
  | (c, Some (Err _)) => let (c', r) := y in (c ++ c', r)
  | _ => x
  end.

Definition discover_peer_dht (n : net) (pid : string) : Lookup PeerRecord :=
  ([Asked_dht (peer_record_key pid)],
   match within (dht_timeout_ms d) pid (net_get (peer_record_key pid) n) with
   | Err e => Some (Err e)
   | Ok data =>
       match record_decode data with
       | Err e => Some (Err e)
       | Ok record =>
           let?o is_exp := is_expired m now record in
           if is_exp
           then let?o expired_at := arith m 64 (rec_timestamp record + ttl_seconds record) in
                Some (Err (RecordExpired pid expired_at))
           else Some (Ok record)
       end
   end).

Definition discover_peer_signaling (pid : string) : Lookup PeerRecord :=
  ([Asked_signaling (peer_url (server_url d) pid)],
   Some (within 50 pid (lookup_peer http (server_url d) now pid))).

Definition discover_peer (n : net) (pid : string) : Lookup PeerRecord :=
  if privacy_first d
  then or_else (discover_peer_dht n pid) (discover_peer_signaling pid)
  else or_else (discover_peer_signaling pid) (discover_peer_dht n pid).

Definition resolve_username_dht (n : net) (username : string) : Lookup PeerRecord :=
  bind_ok ([Asked_dht (username_record_key username)],
           Some (let? data := within (dht_timeout_ms d) ("voip-name:" +:+ username)
                                (net_get (username_record_key username) n) in
                 username_decode data))
    (fun record => discover_peer_dht n (ur_peer_id record)).

Definition resolve_username_signaling (username : string) : Lookup PeerRecord :=
  bind_ok ([Asked_signaling (username_url (server_url d) username)],
           Some (within 50 ("signaling:username:" +:+ username)
                   (lookup_username http (server_url d) username)))
    (fun pid => discover_peer_signaling pid).

Definition discover_peer_by_username (n : net) (username : string) : Lookup PeerRecord :=
  if privacy_first d
  then or_else (resolve_username_dht n username) (resolve_username_signaling username)
  else or_else (resolve_username_signaling username) (resolve_username_dht n username).

(** The loop over the node ids: records that are missing, unreadable or expired are skipped. *)
Fixpoint collect_proxies (n : net) (node_ids : list string) : option (list ProxyRecord) :=
  match node_ids with
  | [] => Some []
  | node_id :: rest =>
      match snd (net_get (proxy_record_key node_id) n) with
      | Ok data =>
          match proxy_decode data with
          | Ok record =>
              let?o is_exp := proxy_is_expired m now record in
              let?o others := collect_proxies n rest in
              Some (if is_exp then others else record :: others)
          | Err _ => collect_proxies n rest
          end
      | Err _ => collect_proxies n rest
      end
  end.

Definition discover_proxy_dht (n : net) (node_ids : list string) : Lookup (list ProxyRecord) :=
  (map (fun id => Asked_dht (proxy_record_key id)) node_ids,
   let?o proxies := collect_proxies n node_ids in
   Some (Ok (sort_by_key pr_latency_hint_ms proxies))).

Definition discover_proxy_signaling : Lookup (list ProxyRecord) :=
  ([Asked_signaling (proxies_url (server_url d))], Some (snd (get_proxies http (server_url d) now))).

(** An empty list counts as a failure of the first source. *)
Definition or_else_nonempty {A : Type} (x y : Lookup (list A)) : Lookup (list A) :=
  match x with
  | (c, None) => (c, None)
  | (c, Some (Ok (_ :: _))) => x
  | (c, Some _) => let (c', r) := y in (c ++ c', r)
  end.

Definition discover_proxy (n : net) (node_ids : list string) : Lookup (list ProxyRecord) :=
  if privacy_first d
  then or_else_nonempty (discover_proxy_dht n node_ids) discover_proxy_signaling
  else or_else_nonempty discover_proxy_signaling (discover_proxy_dht n node_ids).

(** The filters of [select_proxy]; [None] on an overflow panic. *)
Fixpoint usable_proxies (region : option string) (candidates : list ProxyRecord)
    : option (list ProxyRecord) :=
  match candidates with
  | [] => Some []
  | p :: rest =>
      let?o is_exp := proxy_is_expired m now p in
      let?o others := usable_proxies region rest in
      Some (if negb is_exp && (0 <? pr_capacity p) &&
               (match region with None => true | Some _ => false end ||
                bool_decide (pr_region p = ""))
            then p :: others else others)
  end.

Definition select_proxy (candidates : list ProxyRecord) (region : option string)
    : option (option ProxyRecord) :=
  let?o usable := usable_proxies region candidates in
  Some (min_by_key pr_latency_hint_ms usable).

(** ** Publishing *)

Context `{SS : SigScheme}.

Definition publish_peer_record (record : PeerRecord) (sk : SigningKey) (n : net)
    : result DhtError unit * net :=
  match net_put (peer_record_key (peer_id record)) (record_encode record) n with
  | (Err e, n1) => (Err e, n1)
  | (Ok _, n1) =>
      if bool_decide (display_name record = "") then (Ok tt, n1)
      else
        let username_record := record_sign sk (username_new (display_name record) (peer_id record)) in
        net_put (username_record_key (display_name record)) (username_encode username_record) n1
  end.

Definition publish_proxy_record (record : ProxyRecord) (n : net) : result DhtError unit * net :=
  net_put (proxy_record_key (pr_node_id record)) (proxy_encode record) n.

(** One tick of the refresh task: the records it was started with are stored again, failures
    are only logged. *)
Definition refresh_tick (records : list (list Z * list Z)) (n : net) : net :=
  fold_left (fun n kv => snd (net_put kv.1 kv.2 n)) records n.

Fixpoint refresh (ticks : nat) (records : list (list Z * list Z)) (n : net) : net :=
  match ticks with
  | O => n
  | S ticks' => refresh ticks' records (refresh_tick records n)
  end.
End Discovery.

(** ** Facts *)

Section DiscoveryFacts.
Context `{H : Sha256} `{P : Prost ProtoPeerRecord} {PL : ProstLaws ProtoPeerRecord}
  `{PU : Prost UsernameRecord} {PUL : ProstLaws UsernameRecord} `{J : SignalingJson}
  `{N : DhtNet} (http : string -> Z * result string HttpResponse) (m : overflow_mode) (now : Z)
  (d : DiscoveryService).

Lemma record_decode_encode r : record_decode (record_encode r) = Ok r.
Proof.
  unfold record_decode, record_encode. rewrite prost_roundtrip. cbn [ok_or result_bind].
  by rewrite from_to_proto.
Qed.

Lemma within_ok {A} limit key (r : Z * result DhtError A) :
  fst r <= limit -> within limit key r = snd r.
Proof. intros Hr. unfold within. by rewrite (proj2 (Z.leb_le _ _) Hr). Qed.

(** What the hash table lookup makes of a stored record. *)
Lemma discover_peer_dht_found n pid r :
  fst (net_get (peer_record_key pid) n) <= dht_timeout_ms d ->
  snd (net_get (peer_record_key pid) n) = Ok (record_encode r) ->
  0 <= rec_timestamp r -> 0 <= ttl_seconds r -> rec_timestamp r + ttl_seconds r < 2 ^ 64 ->
  discover_peer_dht m now d n pid =
    ([Asked_dht (peer_record_key pid)],
     Some (if rec_timestamp r + ttl_seconds r <? now
           then Err (RecordExpired pid (rec_timestamp r + ttl_seconds r)) else Ok r)).
Proof.
  intros Ht Hg H1 H2 H3. unfold discover_peer_dht. rewrite within_ok, Hg by done.
  rewrite record_decode_encode. unfold is_expired, expired.
  rewrite arith_in_range by lia. by destruct (_ <? now).
Qed.

(** Whether a lookup asked the signaling server. *)
Definition asked_signaling {A} (l : Lookup A) : bool :=
  existsb (fun c => match c with Asked_signaling _ => true | _ => false end) (fst l).

Definition found {A} (l : Lookup A) : option A :=
  match snd l with Some (Ok a) => Some a | _ => None end.

Lemma or_else_found {A} (x y : Lookup A) a :
  found (or_else x y) = Some a ->
  found x = Some a \/ ((exists e, snd x = Some (Err e)) /\ found y = Some a).
Proof.
  unfold found, or_else. destruct x as [c [[b|e]|]], y as [c' r]; cbn [fst snd]; eauto.
Qed.

Lemma or_else_first {A} (x y : Lookup A) a : found x = Some a -> or_else x y = x.
Proof. unfold found, or_else. by destruct x as [c [[b|e]|]]. Qed.

Lemma dht_not_signaling n pid : asked_signaling (discover_peer_dht m now d n pid) = false.
Proof. done. Qed.

Lemma username_dht_not_signaling n u :
  asked_signaling (resolve_username_dht m now d n u) = false.
Proof.
  unfold resolve_username_dht, bind_ok. destruct (result_bind _ _) as [r|e]; [|done].
  unfold discover_peer_dht. cbn beta iota zeta. done.
Qed.
End DiscoveryFacts.

(** A lookup of a peer or of a username succeeds exactly with what the preferred service
    returns, or, when that one fails, the other; and in privacy-first mode the signaling
    server learns of the lookup only when the hash table has no answer. *)
Lemma discovery_order `{H : Sha256} `{P : Prost ProtoPeerRecord} `{PU : Prost UsernameRecord}
    `{J : SignalingJson} `{N : DhtNet} http m now d n :
  privacy_first d = true ->
  (forall pid r,
     found (discover_peer http m now d n pid) = Some r ->
     found (discover_peer_dht m now d n pid) = Some r /\
       asked_signaling (discover_peer http m now d n pid) = false \/
     found (discover_peer_dht m now d n pid) = None /\
       found (discover_peer_signaling http now d pid) = Some r) /\
  (forall u r,
     found (discover_peer_by_username http m now d n u) = Some r ->
     found (resolve_username_dht m now d n u) = Some r /\
       asked_signaling (discover_peer_by_username http m now d n u) = false \/
     found (resolve_username_dht m now d n u) = None /\
       found (resolve_username_signaling http now d u) = Some r).
Proof.
  intros Hp. unfold discover_peer, discover_peer_by_username. rewrite Hp.
  split; intros key r Hf; destruct (or_else_found _ _ _ Hf) as [Hx|[[e He] Hy]].
  1,3: left; split; [done|]; rewrite (or_else_first _ _ r Hx);
    first [apply dht_not_signaling|apply username_dht_not_signaling].
  all: right; split; [|done]; unfold found; by rewrite He.
Qed.

(** A network returns [v] for the key [k], in time. *)
Definition returns `{N : DhtNet} (d : DiscoveryService) (n : net) (k v : list Z) : Prop :=
  fst (net_get k n) <= dht_timeout_ms d /\ snd (net_get k n) = Ok v.

(** The username of a published record leads to it. *)
Lemma resolve_username_found `{H : Sha256} `{P : Prost ProtoPeerRecord} `{PU : Prost UsernameRecord}
    {PUL : ProstLaws UsernameRecord} `{N : DhtNet} m now d n name u :
  returns d n (username_record_key name) (username_encode u) ->
  resolve_username_dht m now d n name =
    (let (c, r) := discover_peer_dht m now d n (ur_peer_id u) in
     (Asked_dht (username_record_key name) :: c, r)).
Proof.
  intros [Ht Hg]. unfold resolve_username_dht. rewrite within_ok, Hg by done. cbn [result_bind].
  unfold username_decode, username_encode. rewrite prost_roundtrip. by cbn [ok_or bind_ok].
Qed.

(** C25: a record that was published is discovered wherever the network still returns it.
    Publishing a record with a display name succeeds by two stores: some bytes under the key of
    the peer id, and some under the key of the name.  At any later time, on any network state
    and with any service that gets those bytes back from it within its timeout: until the record
    expires, a lookup by peer id and one by name both return it; in privacy-first mode without
    asking the signaling server, otherwise when the signaling server has no answer.  After that
    the hash table lookup fails with the instant of expiry. *)
Theorem publish_then_discover `{H : Sha256} `{P : Prost ProtoPeerRecord}
    {PL : ProstLaws ProtoPeerRecord} `{PU : Prost UsernameRecord} {PUL : ProstLaws UsernameRecord}
    `{J : SignalingJson} `{N : DhtNet} `{SS : SigScheme} r sk n n' :
  let expiry := rec_timestamp r + ttl_seconds r in
  let kp := peer_record_key (peer_id r) in
  let kn := username_record_key (display_name r) in
  display_name r <> "" ->
  0 <= rec_timestamp r -> 0 <= ttl_seconds r -> expiry < 2 ^ 64 ->
  publish_peer_record r sk n = (Ok tt, n') ->
  exists v u n1, net_put kp v n = (Ok tt, n1) /\ net_put kn u n1 = (Ok tt, n') /\
  forall http m now d later, returns d later kp v -> returns d later kn u ->
    let by_id := discover_peer http m now d later (peer_id r) in
    let by_name := discover_peer_by_username http m now d later (display_name r) in
    (now <= expiry -> privacy_first d = true ->
       by_id = ([Asked_dht kp], Some (Ok r)) /\ by_name = ([Asked_dht kn; Asked_dht kp], Some (Ok r))) /\
    (now <= expiry -> privacy_first d = false ->
       ((exists e, snd (discover_peer_signaling http now d (peer_id r)) = Some (Err e)) ->
          found by_id = Some r) /\
       ((exists e, snd (resolve_username_signaling http now d (display_name r)) = Some (Err e)) ->
          found by_name = Some r)) /\
    (expiry < now ->
       snd (discover_peer_dht m now d later (peer_id r)) = Some (Err (RecordExpired (peer_id r) expiry)) /\
       snd (resolve_username_dht m now d later (display_name r)) =
         Some (Err (RecordExpired (peer_id r) expiry))).
Proof.
  intros expiry kp kn Hn Hts Httl Hmax Hpub. unfold publish_peer_record in Hpub.
  destruct (net_put _ _ n) as [[[]|e] n1] eqn:E1; [|done].
  rewrite bool_decide_eq_false_2 in Hpub by done.
  do 2 eexists. exists n1. split; [exact E1|]. split; [exact Hpub|].
  intros http m now d later [Ht Hp] Hu. cbv zeta.
  pose proof (discover_peer_dht_found (H := H) m now d later (peer_id r) r Ht Hp Hts Httl Hmax) as Hd.
  pose proof (resolve_username_found (H := H) m now d later _ _ Hu) as Hr.
  cbn [record_sign username_new ur_peer_id set_sig UsernameRecord_signed] in Hr. rewrite Hd in Hr.
  fold expiry in Hd, Hr. unfold discover_peer, discover_peer_by_username. split_and!.
  - intros Hnow Hpr. rewrite (proj2 (Z.ltb_ge _ _)) in Hd, Hr by done. by rewrite Hpr, Hd, Hr.
  - intros Hnow Hpr. rewrite (proj2 (Z.ltb_ge _ _)) in Hd, Hr by done. rewrite Hpr, Hd, Hr.
    split; intros [e He]; unfold or_else, found.
    + destruct (discover_peer_signaling _ _ _ _) as [c o]. cbn [snd] in He. by rewrite He.
    + destruct (resolve_username_signaling _ _ _ _) as [c o]. cbn [snd] in He. by rewrite He.
  - intros Hnow. rewrite (proj2 (Z.ltb_lt _ _)) in Hd, Hr by done. by rewrite Hd, Hr.
Qed.

(** A record found in the hash table is returned whatever its signature and whatever the
    peer id in it: discovery does not verify what strangers store under a peer's key. *)
Lemma discovery_accepts_forged_record `{H : Sha256} `{P : Prost ProtoPeerRecord}
    {PL : ProstLaws ProtoPeerRecord} `{J : SignalingJson} `{N : DhtNet} http m now d n pid r s :
  privacy_first d = true ->
  fst (net_get (peer_record_key pid) n) <= dht_timeout_ms d ->
  snd (net_get (peer_record_key pid) n) = Ok (record_encode (with_signature s r)) ->
  0 <= rec_timestamp r -> 0 <= ttl_seconds r -> rec_timestamp r + ttl_seconds r < 2 ^ 64 ->
  now <= rec_timestamp r + ttl_seconds r ->
  found (discover_peer http m now d n pid) = Some (with_signature s r).
Proof.
  intros Hp Ht Hg H1 H2 H3 H4. unfold discover_peer. rewrite Hp.
  rewrite (or_else_first _ _ (with_signature s r)).
  all: rewrite (discover_peer_dht_found m now d n pid (with_signature s r)) by done; cbn;
    by rewrite (proj2 (Z.ltb_ge _ _)) by lia.
Qed.

(** ** Refreshing *)

(** All that the refresh task ever stores are the records it was given. *)
Lemma refresh_stores `{N : DhtNet} ticks records n :
  refresh ticks records n =
    fold_left (fun n kv => snd (net_put kv.1 kv.2 n)) (concat (replicate ticks records)) n.
Proof.
  revert n. induction ticks as [|t IH]; intros n; [done|]. cbn [refresh replicate concat].
  by rewrite fold_left_app, IH.
Qed.

(** Refreshing stores the bytes it was given again, with their old timestamp: after the
    record's lifetime a lookup that gets them finds the record expired, however often it was
    refreshed. *)
Lemma refresh_does_not_renew `{H : Sha256} `{P : Prost ProtoPeerRecord}
    {PL : ProstLaws ProtoPeerRecord} `{N : DhtNet} m now d r ticks n :
  let kv := (peer_record_key (peer_id r), record_encode r) in
  let n' := refresh ticks [kv] n in
  n' = fold_left (fun n kv => snd (net_put kv.1 kv.2 n)) (replicate ticks kv) n /\
  (returns d n' kv.1 kv.2 ->
   0 <= rec_timestamp r -> 0 <= ttl_seconds r -> rec_timestamp r + ttl_seconds r < 2 ^ 64 ->
   rec_timestamp r + ttl_seconds r < now ->
   snd (discover_peer_dht m now d n' (peer_id r)) =
     Some (Err (RecordExpired (peer_id r) (rec_timestamp r + ttl_seconds r)))).
Proof.
  cbv zeta. split.
  - rewrite refresh_stores. f_equal. induction ticks as [|t IH]; [done|]. cbn. by rewrite IH.
  - intros [Ht Hg] H1 H2 H3 H4. rewrite (discover_peer_dht_found m now d _ (peer_id r) r) by done.
    cbn [snd]. by rewrite (proj2 (Z.ltb_lt _ _) H4).
Qed.

(** ** The signaling client against the server's authentication *)

Fixpoint take_while {A : Type} (f : A -> bool) (l : list A) : list A :=
  match l with [] => [] | a :: l' => if f a then a :: take_while f l' else [] end.

(** The path of a request target: what comes before the query and the fragment.  A path of
    letters, digits, slashes and dashes reaches the server as it is written. *)
Definition uri_path (target : string) : string :=
  string_of_bytes (take_while (fun b => negb ((b =? 63) || (b =? 35))) (as_bytes target)).

Definition plain_byte (b : Z) : bool :=
  (48 <=? b) && (b <=? 57) || (65 <=? b) && (b <=? 90) || (97 <=? b) && (b <=? 122) ||
  (b =? 47) || (b =? 45).

(** [http] reaches a server with key [sk] at the address [url]: a [GET] without credentials that
    the authentication middleware refuses gets the status of that refusal.  What the server
    answers on its public routes is left open. *)
Definition serves `{SS : SigScheme} `{JC : JsonClaims} (http : string -> Z * result string HttpResponse)
    (url : string) (now : Z) (sk : SigningKey) : Prop :=
  forall target e, forallb plain_byte (as_bytes (uri_path target)) = true ->
    auth_middleware now sk (uri_path target) GET None = Err e ->
    exists body, snd (http (url +:+ target)) = Ok {| http_code := http_status e; http_body := body |}.

(** The paths that the client asks for. *)
Definition asked_paths (pid : string) : list string :=
  ["/v1/peers/" +:+ pid; "/v1/peers/lookup"; "/v1/proxies"; "/v1/dht/bootstrap"].

Lemma asked_paths_private pid path : path ∈ asked_paths pid -> is_public_path path GET = false.
Proof.
  unfold asked_paths. rewrite !elem_of_cons, elem_of_nil.
  intros [->|[->|[->|[->|[]]]]]; [apply peers_path_private|reflexivity..].
Qed.

Lemma take_while_app {A} (f : A -> bool) l r : forallb f l = true ->
  take_while f (l ++ r) = l ++ take_while f r.
Proof.
  induction l as [|a l IH]; cbn; [done|]. intros [Ha Hl]%andb_prop. by rewrite Ha, IH.
Qed.

(** A plain path is the path of its target, also with a query. *)
Lemma uri_path_plain path query : forallb plain_byte (as_bytes path) = true ->
  query = "" \/ (exists q, query = "?" +:+ q) -> uri_path (path +:+ query) = path.
Proof.
  intros Hp Hq. unfold uri_path. rewrite as_bytes_app, take_while_app.
  - assert (take_while (fun b => negb ((b =? 63) || (b =? 35))) (as_bytes query) = []) as ->.
    { destruct Hq as [->|[q ->]]; reflexivity. }
    by rewrite app_nil_r, string_of_as_bytes.
  - rewrite forallb_forall in *. intros b Hb. apply Hp in Hb. unfold plain_byte in Hb.
    apply negb_true_iff, orb_false_iff. split; apply Z.eqb_neq; by intros ->.
Qed.

Lemma private_path_401 `{SS : SigScheme} `{JC : JsonClaims} http url now sk path query :
  serves http url now sk -> forallb plain_byte (as_bytes path) = true ->
  query = "" \/ (exists q, query = "?" +:+ q) -> is_public_path path GET = false ->
  exists body, snd (http (url +:+ path +:+ query)) = Ok {| http_code := 401; http_body := body |}.
Proof.
  intros Hs Hb Hq Hp. apply (Hs (path +:+ query) (Sig_Unauthorized "missing Authorization header"));
    rewrite uri_path_plain by done; [done|].
  unfold auth_middleware. by rewrite Hp.
Qed.

Lemma fetch_401 `{J : SignalingJson} {A} http url what label on404 (parse : list Z -> result string A) body :
  snd (http url) = Ok {| http_code := 401; http_body := body |} ->
  snd (fetch http url what label on404 parse) =
    Err (Http ("Signaling server returned " +:+ show_status 401 +:+ " for " +:+ what)).
Proof. unfold fetch. destruct (http url) as [t r]. cbn [snd]. by intros ->. Qed.

(** C38: the signaling fallback is refused for want of credentials.  The discovery client sends
    none, and the four endpoints it asks (a peer by its alphanumeric identifier, a username, the
    proxies, the bootstrap nodes) are not among the public ones: on the project's own server,
    whatever that answers on its public routes, all four requests fail with status 401, and a
    peer is found only through the hash table.  The same four requests with a token that
    verifies would pass. *)
Theorem signaling_fallback_unauthorized `{SS : SigScheme} `{JC : JsonClaims} `{H : Sha256}
    `{P : Prost ProtoPeerRecord} `{J : SignalingJson} `{N : DhtNet}
    http m now d sk n pid username :
  let refused what := Http ("Signaling server returned " +:+ show_status 401 +:+ " for " +:+ what) in
  serves http (server_url d) now sk -> forallb plain_byte (as_bytes pid) = true ->
  snd (lookup_peer http (server_url d) now pid) = Err (refused "peer lookup") /\
  snd (lookup_username http (server_url d) username) = Err (refused "username lookup") /\
  snd (get_proxies http (server_url d) now) = Err (refused "proxy lookup") /\
  snd (get_bootstrap_nodes http (server_url d)) = Err (refused "bootstrap node lookup") /\
  found (discover_peer http m now d n pid) = found (discover_peer_dht m now d n pid) /\
  (forall path token c, path ∈ asked_paths pid -> verify_jwt now (verifying_key sk) token = Ok c ->
     auth_middleware now sk path GET (Some (Some ("Bearer " +:+ token))) = Ok (claim_sub c)).
Proof.
  intros refused Hs Hpid.
  assert (forall path query, forallb plain_byte (as_bytes path) = true ->
    query = "" \/ (exists q, query = "?" +:+ q) -> path ∈ asked_paths pid ->
    exists body, snd (http (server_url d +:+ path +:+ query)) =
      Ok {| http_code := 401; http_body := body |}) as H401.
  { intros path query Hb Hq Hin. apply (private_path_401 _ _ now sk); try done.
    by eapply asked_paths_private. }
  assert (forall s, s +:+ "" = s) as Hnil.
  { intros x. apply as_bytes_inj. by rewrite as_bytes_app, app_nil_r. }
  assert (snd (lookup_peer http (server_url d) now pid) = Err (refused "peer lookup"%string)) as Hl.
  { destruct (H401 ("/v1/peers/" +:+ pid) "") as [body Hb]; [|by left|by left|].
    { rewrite as_bytes_app, forallb_app, Hpid. reflexivity. }
    rewrite Hnil in Hb. apply (fetch_401 _ _ "peer lookup" "peer"
      (Some (NotFound ("signaling:peer:" +:+ pid))) parse_peer) in Hb.
    unfold lookup_peer, peer_url. destruct (fetch _ _ _ _ _ _) as [t r]. cbn [snd] in *. by rewrite Hb. }
  split_and!; [done|..].
  - destruct (H401 "/v1/peers/lookup" ("?username=" +:+ username)) as [body Hb];
      [done|right; by eexists|set_solver|]. unfold lookup_username. by eapply fetch_401.
  - destruct (H401 "/v1/proxies" "") as [body Hb]; [done|by left|set_solver|]. rewrite Hnil in Hb.
    apply (fetch_401 _ _ "proxy lookup" "proxies" None parse_proxies) in Hb.
    unfold get_proxies, proxies_url. destruct (fetch _ _ _ _ _ _) as [t r]. cbn [snd] in *. by rewrite Hb.
  - destruct (H401 "/v1/dht/bootstrap" "") as [body Hb]; [done|by left|set_solver|]. rewrite Hnil in Hb.
    unfold get_bootstrap_nodes. by eapply fetch_401.
  - assert (exists c e, discover_peer_signaling http now d pid = (c, Some (Err e)))
      as (c & e & Hsig).
    { unfold discover_peer_signaling, within. destruct (lookup_peer _ _ _ _) as [t r]. cbn [fst snd] in *.
      rewrite Hl. destruct (t <=? 50); eauto. }
    unfold discover_peer, or_else. rewrite Hsig.
    destruct (privacy_first d), (discover_peer_dht m now d n pid) as [c' [[r|e']|]]; done.
  - intros path token c Hin Hv. unfold auth_middleware. rewrite (asked_paths_private pid) by done.
    cbn [ok_or result_bind]. rewrite as_bytes_app, strip_prefix_app. cbn [ok_or result_bind].
    by rewrite string_of_as_bytes, Hv.
Qed.

(** ** Choosing a proxy *)

Definition live (m : overflow_mode) (now : Z) (p : ProxyRecord) : bool :=
  match proxy_is_expired m now p with Some false => 0 <? pr_capacity p | _ => false end.

Lemma usable_proxies_spec m now region l u :
  usable_proxies m now region l = Some u ->
  forall p, p ∈ u <-> p ∈ l /\ live m now p = true /\ (region = None \/ pr_region p = "").
Proof.
  revert u. induction l as [|q l IH]; intros u; cbn [usable_proxies].
  { intros [= <-] p. set_solver. }
  destruct (proxy_is_expired m now q) as [e|] eqn:E; [|done].
  destruct (usable_proxies m now region l) as [o|]; [|done]. intros [= <-] p.
  specialize (IH o eq_refl p).
  assert (negb e && (0 <? pr_capacity q) = live m now q) as ->
    by (unfold live; rewrite E; by destruct e).
  destruct (live m now q && _) eqn:Eq; rewrite !elem_of_cons, IH.
  - apply andb_true_iff in Eq as [Hl Hr]. split; [|tauto]. intros [->|?]; [|tauto].
    split; [by left|]. split; [done|]. destruct region; [right|by left]. simpl in Hr.
    by apply bool_decide_eq_true in Hr.
  - split; [tauto|]. intros ([->|?] & Hl & Hr); [|tauto]. rewrite Hl in Eq. simpl in Eq.
    destruct region; simpl in Eq; [|done]. apply bool_decide_eq_false in Eq.
    destruct Hr; [done|contradiction].
Qed.

(** The selected proxy has the lowest latency hint of the candidates that are alive, have
    capacity and pass the region filter.  That filter ignores the region asked for: with any
    region it keeps only the proxies that state none, so a proxy of that very region is
    never selected. *)
Lemma select_proxy_correct m now candidates region best :
  select_proxy m now candidates region = Some best ->
  match best with
  | Some p =>
      p ∈ candidates /\ live m now p = true /\ (region = None \/ pr_region p = "") /\
      (forall q, q ∈ candidates -> live m now q = true -> (region = None \/ pr_region q = "") ->
         pr_latency_hint_ms p <= pr_latency_hint_ms q)
  | None => forall q, q ∈ candidates -> live m now q = true -> region <> None /\ pr_region q <> ""
  end.
Proof.
  unfold select_proxy. destruct (usable_proxies m now region candidates) as [u|] eqn:E; [|done].
  intros [= Hb]. pose proof (usable_proxies_spec _ _ _ _ _ E) as Hu. destruct best as [p|].
  - pose proof (min_by_key_In _ _ _ Hb) as Hin. apply min_by_key_min in Hb.
    rewrite Forall_forall in Hb. apply Hu in Hin as (? & ? & ?).
    repeat split; [done..|]. intros q Hq Hl Hr. apply Hb, Hu. done.
  - apply min_by_key_None in Hb. subst u. intros q Hq Hl.
    split; intros Hr; specialize (Hu q); set_solver.
Qed.

(** ** Concrete runs *)

Module DiscoverySample.
(** A network in one place, with the keys themselves as their hashes. *)
Definition network : DhtNet := {|
  net := gmap (list Z) (list Z);
  net_put k v n := (Ok tt, <[k := v]> n);
  net_get k n := (5, match n !! k with Some v => Ok v | None => Err (NotFound "") end)
|}.

Definition hash : Sha256 := fun l => l.

Definition json : SignalingJson := {|
  parse_peer _ := Err ""; parse_lookup _ := Err ""; parse_proxies _ := Err "";
  parse_bootstrap _ := Err ""; show_status code := string_of_bytes (decimal code)
|}.

(** A server that refuses everything. *)
Definition refuse (url : string) : Z * result string HttpResponse :=
  (10, Ok {| http_code := 401; http_body := [] |}).

(** One at [https://s] that answers on its public routes and refuses the others. *)
Definition own_server (url : string) : Z * result string HttpResponse :=
  match strip_prefix (as_bytes "https://s") (as_bytes url) with
  | Some target =>
      if is_public_path (uri_path (string_of_bytes target)) GET
      then (10, Ok {| http_code := 200; http_body := [123; 125] |})
      else (10, Ok {| http_code := 401; http_body := [] |})
  | None => (10, Err "unreachable")
  end.

Definition service : DiscoveryService :=
  {| server_url := "https://s"; privacy_first := true; dht_timeout_ms := 2000 |}.

Definition record : PeerRecord := DhtSample.record.

Definition published : gmap (list Z) (list Z) :=
  snd (publish_peer_record (H := hash) (P := RecordCodec.peer_codec)
    (PU := RecordCodec.username_codec) (N := network) (SS := ToySig.scheme) record "k"%char ∅).

(** A forged record under the same key. *)
Definition poisoned : gmap (list Z) (list Z) :=
  {[ peer_record_key (H := hash) "aa" :=
       record_encode (P := RecordCodec.peer_codec) (with_signature [] record) ]}.
End DiscoverySample.

Lemma discovery_order_witness :
  found (A := PeerRecord) (discover_peer (H := DiscoverySample.hash)
      (P := RecordCodec.peer_codec) (J := DiscoverySample.json) (N := DiscoverySample.network)
      DiscoverySample.refuse Checked 2000 DiscoverySample.service DiscoverySample.poisoned "aa")
    = Some DiscoverySample.record /\
  (found (A := PeerRecord) (discover_peer_dht (H := DiscoverySample.hash)
      (P := RecordCodec.peer_codec) (N := DiscoverySample.network) Checked 2000
      DiscoverySample.service DiscoverySample.poisoned "aa") = Some DiscoverySample.record /\
   asked_signaling (A := PeerRecord) (discover_peer (H := DiscoverySample.hash)
      (P := RecordCodec.peer_codec) (J := DiscoverySample.json) (N := DiscoverySample.network)
      DiscoverySample.refuse Checked 2000 DiscoverySample.service DiscoverySample.poisoned "aa")
      = false \/
   found (A := PeerRecord) (discover_peer_dht (H := DiscoverySample.hash)
      (P := RecordCodec.peer_codec) (N := DiscoverySample.network) Checked 2000
      DiscoverySample.service DiscoverySample.poisoned "aa") = None /\
   found (A := PeerRecord) (discover_peer_signaling (J := DiscoverySample.json)
      DiscoverySample.refuse 2000 DiscoverySample.service "aa") = Some DiscoverySample.record).
Proof.
  assert (found (A := PeerRecord) (discover_peer (H := DiscoverySample.hash)
      (P := RecordCodec.peer_codec) (J := DiscoverySample.json) (N := DiscoverySample.network)
      DiscoverySample.refuse Checked 2000 DiscoverySample.service DiscoverySample.poisoned "aa")
    = Some DiscoverySample.record) as Hf by (vm_compute; reflexivity).
  split; [exact Hf|].
  exact (proj1 (discovery_order (H := DiscoverySample.hash) (P := RecordCodec.peer_codec)
    (PU := RecordCodec.username_codec) (J := DiscoverySample.json)
    (N := DiscoverySample.network) DiscoverySample.refuse Checked 2000 DiscoverySample.service
    DiscoverySample.poisoned eq_refl) "aa"%string _ Hf).
Defined.

(** A record published on this network, found by name with a later clock. *)
Lemma publish_then_discover_witness :
  discover_peer_by_username (H := DiscoverySample.hash)
    (P := RecordCodec.peer_codec) (PU := RecordCodec.username_codec)
    (J := DiscoverySample.json) (N := DiscoverySample.network) DiscoverySample.refuse Checked 2000
    DiscoverySample.service DiscoverySample.published "alice" =
  ([Asked_dht (username_record_key (H := DiscoverySample.hash) "alice");
    Asked_dht (peer_record_key (H := DiscoverySample.hash) "aa")], Some (Ok DiscoverySample.record)).
Proof.
  destruct (publish_then_discover (H := DiscoverySample.hash)
    (P := RecordCodec.peer_codec) (PL := RecordCodec.peer_codec_laws)
    (PU := RecordCodec.username_codec) (PUL := RecordCodec.username_codec_laws)
    (J := DiscoverySample.json) (N := DiscoverySample.network) (SS := ToySig.scheme)
    DiscoverySample.record "k"%char (∅ : gmap (list Z) (list Z)) DiscoverySample.published)
    as (v & u & n1 & Hv & Hu & Hlater).
  - discriminate.
  - vm_compute. congruence.
  - vm_compute. congruence.
  - vm_compute. reflexivity.
  - vm_compute. reflexivity.
  - apply (f_equal snd) in Hv, Hu. cbn [snd net_put DiscoverySample.network] in Hv, Hu.
    refine (proj2 (proj1 (Hlater DiscoverySample.refuse Checked 2000 DiscoverySample.service
      DiscoverySample.published _ _) _ _)).
    + rewrite <- Hu, <- Hv. split; [vm_compute; congruence|]. cbn [net_get DiscoverySample.network snd].
      rewrite lookup_insert_ne, lookup_insert_eq; [reflexivity|vm_compute; discriminate].
    + rewrite <- Hu. split; [vm_compute; congruence|]. cbn [net_get DiscoverySample.network snd].
      rewrite lookup_insert_eq. reflexivity.
    + vm_compute. congruence.
    + reflexivity.
Defined.

Lemma discovery_accepts_forged_record_witness :
  found (A := PeerRecord) (discover_peer (H := DiscoverySample.hash)
    (P := RecordCodec.peer_codec) (J := DiscoverySample.json) (N := DiscoverySample.network)
    DiscoverySample.refuse Checked 2000 DiscoverySample.service DiscoverySample.poisoned "aa") =
    Some (with_signature [] DiscoverySample.record) /\
  is_ok (record_verify (S := ToySig.scheme)
    (D := PeerRecord_signed (P := RecordCodec.peer_codec)) "k"%char
    (with_signature [] DiscoverySample.record)) = false.
Proof.
  split; [|reflexivity].
  apply (discovery_accepts_forged_record (H := DiscoverySample.hash)
    (P := RecordCodec.peer_codec) (PL := RecordCodec.peer_codec_laws)
    (J := DiscoverySample.json) (N := DiscoverySample.network) DiscoverySample.refuse Checked
    2000 DiscoverySample.service DiscoverySample.poisoned "aa" DiscoverySample.record []).
  - reflexivity.
  - vm_compute. congruence.
  - vm_compute. reflexivity.
  - vm_compute. congruence.
  - vm_compute. congruence.
  - vm_compute. reflexivity.
  - vm_compute. congruence.
Defined.

Lemma refresh_does_not_renew_witness :
  snd (discover_peer_dht (H := DiscoverySample.hash) (P := RecordCodec.peer_codec)
    (N := DiscoverySample.network) Checked 5000 DiscoverySample.service
    (refresh (N := DiscoverySample.network) 3
       [(peer_record_key (H := DiscoverySample.hash) "aa",
         record_encode (P := RecordCodec.peer_codec) DiscoverySample.record)]
       DiscoverySample.poisoned) "aa") = Some (Err (RecordExpired "aa" 4600)).
Proof.
  apply (refresh_does_not_renew (H := DiscoverySample.hash) (P := RecordCodec.peer_codec)
    (PL := RecordCodec.peer_codec_laws) (N := DiscoverySample.network) Checked 5000
    DiscoverySample.service DiscoverySample.record 3 DiscoverySample.poisoned).
  - split; [vm_compute; congruence|vm_compute; reflexivity].
  - vm_compute. congruence.
  - vm_compute. congruence.
  - vm_compute. reflexivity.
  - vm_compute. reflexivity.
Defined.

(** Against a server that answers on [/v1/myip]. *)
Lemma signaling_fallback_unauthorized_witness :
  snd (DiscoverySample.own_server "https://s/v1/myip") =
    Ok {| http_code := 200; http_body := [123; 125] |} /\
  snd (lookup_peer (J := DiscoverySample.json) DiscoverySample.own_server "https://s" 2000 "aa") =
    Err (Http "Signaling server returned 401 for peer lookup").
Proof.
  split; [vm_compute; reflexivity|].
  refine (proj1 (signaling_fallback_unauthorized (SS := ToySig.scheme) (JC := ToyJson.json)
    (H := DiscoverySample.hash) (P := RecordCodec.peer_codec) (J := DiscoverySample.json)
    (N := DiscoverySample.network) DiscoverySample.own_server Checked 2000 DiscoverySample.service
    "k"%char (∅ : gmap (list Z) (list Z)) "aa" "alice" _ eq_refl)).
  intros target e _ He. exists []. unfold DiscoverySample.own_server. cbn [server_url DiscoverySample.service].
  rewrite as_bytes_app, strip_prefix_app, string_of_as_bytes. unfold auth_middleware in He.
  destruct (is_public_path (uri_path target) GET); [discriminate He|]. injection He as <-. reflexivity.
Defined.

Lemma select_proxy_correct_witness :
  select_proxy Checked 30 [ProxySample.record "a" 30] (Some "eu") = Some None /\
  (Some "eu"%string <> None /\ pr_region (ProxySample.record "a" 30) <> "").
Proof.
  assert (select_proxy Checked 30 [ProxySample.record "a" 30] (Some "eu") = Some None) as Hs
    by (vm_compute; reflexivity).
  split; [exact Hs|].
  exact (select_proxy_correct Checked 30 [ProxySample.record "a" 30] (Some "eu") None Hs
    (ProxySample.record "a" 30) ltac:(apply list_elem_of_singleton; reflexivity) eq_refl).
Defined.
