(* ===== verification/Node.v ===== *)
(** * The hash table node

    [voip-dht/src/node.rs]: the event loop that owns the libp2p swarm, the tables of pending
    queries it answers from, and the requests of the public interface.  The Kademlia behaviour
    is the class [Kademlia].  A oneshot channel is a number; its receiver gets one answer, or
    notices that the sender was dropped. *)

From S2P Require Import Prelude Types Config Crypto Wire DhtRecord Discovery.

Local Open Scope Z_scope.
Local Open Scope rust_scope.

(** ** The Kademlia behaviour *)

(** A multiaddress is a list of protocols. *)
Inductive Protocol := P2p (peer_id : string) | OtherProtocol (text : string).

Definition Multiaddr : Type := list Protocol.

Inductive GetRecordOk := FoundRecord (value : list Z) | FinishedWithNoAdditionalRecord.

Inductive QueryResult :=
| PutRecordResult (r : result string unit)
| GetRecordResult (r : result string GetRecordOk)
| BootstrapResult (r : result string unit)
| OtherResult.

Inductive SwarmEvent := OutboundQueryProgressed (id : Z) (r : QueryResult) | OtherEvent.

Class Kademlia := {
  kad : Type;
  (** An error is given in its [Debug] and its [Display] form. *)
  kad_put : list Z -> list Z -> kad -> result (string * string) Z * kad;
  kad_get : list Z -> kad -> Z * kad;
  kad_bootstrap : kad -> result string Z * kad;
  kad_add_address : string -> Multiaddr -> kad -> kad;
  (** [Debug] of a query id. *)
  kad_show : Z -> string;
  (** The query ids given out so far. *)
  kad_used : kad -> gset Z;
  (** What polling the swarm may do to it. *)
  kad_poll : kad -> kad -> Prop
}.

(** A query id is not given out twice. *)
Class KademliaIds (K : Kademlia) := {
  put_fresh k v s id s' : kad_put k v s = (Ok id, s') ->
    id ∉ kad_used s /\ kad_used s' = {[id]} ∪ kad_used s;
  put_err_used k v s e s' : kad_put k v s = (Err e, s') -> kad_used s' = kad_used s;
  get_fresh k s id s' : kad_get k s = (id, s') ->
    id ∉ kad_used s /\ kad_used s' = {[id]} ∪ kad_used s;
  bootstrap_fresh s id s' : kad_bootstrap s = (Ok id, s') ->
    id ∉ kad_used s /\ kad_used s' = {[id]} ∪ kad_used s;
  bootstrap_err_used s e s' : kad_bootstrap s = (Err e, s') -> kad_used s' = kad_used s;
  add_address_used p a s : kad_used (kad_add_address p a s) = kad_used s;
  poll_used s s' : kad_poll s s' -> kad_used s ⊆ kad_used s'
}.

(** ** The event loop *)

Inductive DhtCommand :=
| PutRecord (key value : list Z) (respond_to : Z)
| GetRecord (key : list Z) (respond_to : Z)
| Bootstrap (respond_to : Z)
| AddBootstrapNode (peer_id : string) (addr : Multiaddr)
| Shutdown.

(** What a receiver sees; [Dropped] is a sender that went away. *)
Inductive Answer :=
| UnitAnswer (r : result DhtError unit)
| ValueAnswer (r : result DhtError (list Z))
| Dropped.

Section Node.
Context {K : Kademlia}.

Record EventLoop := {
  swarm : kad;
  pending_put : gmap Z Z;
  pending_get : gmap Z Z;
  pending_bootstrap : gmap Z Z
}.

Definition loop_start (s : kad) : EventLoop :=
  {| swarm := s; pending_put := ∅; pending_get := ∅; pending_bootstrap := ∅ |}.

Definition set_swarm (s : kad) (l : EventLoop) : EventLoop := {|
  swarm := s; pending_put := pending_put l; pending_get := pending_get l;
  pending_bootstrap := pending_bootstrap l |}.

Definition set_put (p : gmap Z Z) (l : EventLoop) : EventLoop := {|
  swarm := swarm l; pending_put := p; pending_get := pending_get l;
  pending_bootstrap := pending_bootstrap l |}.

Definition set_get (p : gmap Z Z) (l : EventLoop) : EventLoop := {|
  swarm := swarm l; pending_put := pending_put l; pending_get := p;
  pending_bootstrap := pending_bootstrap l |}.

Definition set_bootstrap (p : gmap Z Z) (l : EventLoop) : EventLoop := {|
  swarm := swarm l; pending_put := pending_put l; pending_get := pending_get l;
  pending_bootstrap := p |}.

(** Insertion into a table of senders drops the sender it replaces. *)
Definition replaced (p : gmap Z Z) (id : Z) : list (Z * Answer) :=
  match p !! id with Some ch => [(ch, Dropped)] | None => [] end.

(** One command: the new loop and the answers sent; [None] ends the loop. *)
Definition handle_command (cmd : DhtCommand) (l : EventLoop)
    : option EventLoop * list (Z * Answer) :=
  match cmd with
  | PutRecord key value ch =>
      match kad_put key value (swarm l) with
      | (Ok id, s) =>
          (Some (set_put (<[id := ch]> (pending_put l)) (set_swarm s l)), replaced (pending_put l) id)
      | (Err (debug, display), s) =>
          (Some (set_swarm s l), [(ch, UnitAnswer (Err (StoreFailed debug display)))])
      end
  | GetRecord key ch =>
      let (id, s) := kad_get key (swarm l) in
      (Some (set_get (<[id := ch]> (pending_get l)) (set_swarm s l)), replaced (pending_get l) id)
  | Bootstrap ch =>
      match kad_bootstrap (swarm l) with
      | (Ok id, s) =>
          (Some (set_bootstrap (<[id := ch]> (pending_bootstrap l)) (set_swarm s l)),
           replaced (pending_bootstrap l) id)
      | (Err e, s) => (Some (set_swarm s l), [(ch, UnitAnswer (Err (BootstrapFailed [e])))])
      end
  | AddBootstrapNode peer_id addr => (Some (set_swarm (kad_add_address peer_id addr (swarm l)) l), [])
  | Shutdown => (None, [])
  end.

Definition handle_swarm_event (e : SwarmEvent) (l : EventLoop) : EventLoop * list (Z * Answer) :=
  match e with
  | OutboundQueryProgressed id (PutRecordResult r) =>
      match pending_put l !! id with
      | Some ch =>
          (set_put (delete id (pending_put l)) l,
           [(ch, UnitAnswer (map_err (StoreFailed (kad_show id)) r))])
      | None => (l, [])
      end
  | OutboundQueryProgressed id (GetRecordResult r) =>
      match pending_get l !! id with
      | Some ch =>
          (set_get (delete id (pending_get l)) l,
           [(ch, ValueAnswer
               match r with
               | Ok (FoundRecord value) => Ok value
               | Ok FinishedWithNoAdditionalRecord => Err (NotFound (kad_show id))
               | Err e => Err (LookupFailed (kad_show id) e)
               end)])
      | None => (l, [])
      end
  | OutboundQueryProgressed id (BootstrapResult r) =>
      match pending_bootstrap l !! id with
      | Some ch =>
          (set_bootstrap (delete id (pending_bootstrap l)) l,
           [(ch, UnitAnswer (map_err (fun e => BootstrapFailed [e]) r))])
      | None => (l, [])
      end
  | OutboundQueryProgressed _ OtherResult | OtherEvent => (l, [])
  end.

(** The senders the loop still holds; they are dropped when it ends. *)
Definition senders (l : EventLoop) : list Z :=
  (map_to_list (pending_put l)).*2 ++ (map_to_list (pending_get l)).*2 ++
  (map_to_list (pending_bootstrap l)).*2.

Definition respond_to (cmd : DhtCommand) : list Z :=
  match cmd with
  | PutRecord _ _ ch | GetRecord _ ch | Bootstrap ch => [ch]
  | AddBootstrapNode _ _ | Shutdown => []
  end.
End Node.

(** ** The node as a transition system

    Requests reach the loop through a bounded queue, in order; the loop takes a command or a
    swarm event in each iteration.  [issued] lists the requests made, numbered by their
    channels. *)

Inductive Request := ReqPut (key value : list Z) | ReqGet (key : list Z) | ReqBootstrap.

Definition command_of (r : Request) (ch : Z) : DhtCommand :=
  match r with
  | ReqPut key value => PutRecord key value ch
  | ReqGet key => GetRecord key ch
  | ReqBootstrap => Bootstrap ch
  end.

Definition CHANNEL_CAPACITY : Z := 64.

Section System.
Context {K : Kademlia}.

Record NodeState := {
  node_loop : option EventLoop;
  node_queue : list DhtCommand;
  node_issued : list Request;
  node_answers : list (Z * Answer)
}.

Definition node_init (st : NodeState) : Prop :=
  exists s, st = {| node_loop := Some (loop_start s); node_queue := []; node_issued := [];
                    node_answers := [] |}.

Definition dropped (chs : list Z) : list (Z * Answer) := map (fun ch => (ch, Dropped)) chs.

(** The loop ends: its tables and the queue go away. *)
Definition loop_ends (l : EventLoop) (queue : list DhtCommand) (st : NodeState) : NodeState := {|
  node_loop := None; node_queue := []; node_issued := node_issued st;
  node_answers := node_answers st ++ dropped (concat (map respond_to queue) ++ senders l) |}.

Inductive node_step (st : NodeState) : NodeState -> Prop :=
| step_send r l : node_loop st = Some l -> zlen (node_queue st) < CHANNEL_CAPACITY ->
    node_step st {| node_loop := Some l;
      node_queue := node_queue st ++ [command_of r (zlen (node_issued st))];
      node_issued := node_issued st ++ [r]; node_answers := node_answers st |}
| step_send_closed r : node_loop st = None ->
    node_step st {| node_loop := None; node_queue := node_queue st;
      node_issued := node_issued st ++ [r];
      node_answers := node_answers st ++ dropped [zlen (node_issued st)] |}
| step_control cmd l : node_loop st = Some l -> zlen (node_queue st) < CHANNEL_CAPACITY ->
    respond_to cmd = [] ->
    node_step st {| node_loop := Some l; node_queue := node_queue st ++ [cmd];
      node_issued := node_issued st; node_answers := node_answers st |}
| step_command l cmd q l' sent : node_loop st = Some l -> node_queue st = cmd :: q ->
    handle_command cmd l = (Some l', sent) ->
    node_step st {| node_loop := Some l'; node_queue := q; node_issued := node_issued st;
      node_answers := node_answers st ++ sent |}
| step_shutdown l cmd q sent : node_loop st = Some l -> node_queue st = cmd :: q ->
    handle_command cmd l = (None, sent) ->
    node_step st (loop_ends l q st)
| step_handles_dropped l : node_loop st = Some l -> node_queue st = [] ->
    node_step st (loop_ends l [] st)
| step_event l s e l' sent : node_loop st = Some l -> kad_poll (swarm l) s ->
    handle_swarm_event e (set_swarm s l) = (l', sent) ->
    node_step st {| node_loop := Some l'; node_queue := node_queue st;
      node_issued := node_issued st; node_answers := node_answers st ++ sent |}.

(** What [put_record], [bootstrap] and [get_record] return for an answer. *)
Definition unit_result (a : Answer) : result DhtError unit :=
  match a with UnitAnswer r => r | _ => Err NotConnected end.
Definition value_result (a : Answer) : result DhtError (list Z) :=
  match a with ValueAnswer r => r | _ => Err NotConnected end.

(** ** Facts *)

Definition held (st : NodeState) : list Z :=
  match node_loop st with Some l => senders l | None => [] end.

Definition queued (st : NodeState) : list Z := concat (map respond_to (node_queue st)).

Definition answered (st : NodeState) : list Z := (node_answers st).*1.

(** An answer of the type the request waits for. *)
Definition answers_request (r : Request) (a : Answer) : bool :=
  match r, a with
  | _, Dropped | ReqGet _, ValueAnswer _ => true
  | (ReqPut _ _ | ReqBootstrap), UnitAnswer _ => true
  | _, _ => false
  end.

Definition issued_as (st : list Request) (P : Request -> Prop) (ch : Z) : Prop :=
  exists r, st !! Z.to_nat ch = Some r /\ P r.

(** Which requests each table and the queue hold. *)
Record loop_ok (issued : list Request) (l : EventLoop) : Prop := {
  ok_put_ids : dom (pending_put l) ⊆ kad_used (swarm l);
  ok_get_ids : dom (pending_get l) ⊆ kad_used (swarm l);
  ok_bootstrap_ids : dom (pending_bootstrap l) ⊆ kad_used (swarm l);
  ok_put : map_Forall (fun _ => issued_as issued (fun r => exists k v, r = ReqPut k v)) (pending_put l);
  ok_get : map_Forall (fun _ => issued_as issued (fun r => exists k, r = ReqGet k)) (pending_get l);
  ok_bootstrap : map_Forall (fun _ => issued_as issued (eq ReqBootstrap)) (pending_bootstrap l)
}.

Definition queue_ok (issued : list Request) (cmd : DhtCommand) : Prop :=
  Forall (issued_as issued (fun r => exists ch, cmd = command_of r ch)) (respond_to cmd).

Definition answer_ok (issued : list Request) (a : Z * Answer) : Prop :=
  issued_as issued (fun r => answers_request r a.2 = true) a.1.

Record node_ok (st : NodeState) : Prop := {
  ok_once : answered st ++ queued st ++ held st ≡ₚ seqZ 0 (zlen (node_issued st));
  ok_loop : forall l, node_loop st = Some l -> loop_ok (node_issued st) l;
  ok_queue : Forall (queue_ok (node_issued st)) (node_queue st);
  ok_answers : Forall (answer_ok (node_issued st)) (node_answers st);
  ok_closed : node_loop st = None -> node_queue st = []
}.

Lemma issued_as_app issued more P ch : issued_as issued P ch -> issued_as (issued ++ more) P ch.
Proof. intros (r & Hr & HP). exists r. split; [by apply lookup_app_l_Some|done]. Qed.

Lemma loop_ok_app issued more l : loop_ok issued l -> loop_ok (issued ++ more) l.
Proof.
  intros []. split; try done; intros id ch Hid; apply issued_as_app;
    [eapply ok_put0|eapply ok_get0|eapply ok_bootstrap0]; exact Hid.
Qed.

Lemma queue_ok_app issued more cmd : queue_ok issued cmd -> queue_ok (issued ++ more) cmd.
Proof. intros H. eapply Forall_impl; [exact H|]. intros ch. apply issued_as_app. Qed.

Lemma answer_ok_app issued more a : answer_ok issued a -> answer_ok (issued ++ more) a.
Proof. apply issued_as_app. Qed.

(** Taking an entry out of a table of senders, and putting one in. *)
Lemma values_insert (p : gmap Z Z) id ch :
  p !! id = None -> (map_to_list (<[id := ch]> p)).*2 ≡ₚ ch :: (map_to_list p).*2.
Proof. intros H. by rewrite map_to_list_insert. Qed.

Lemma values_delete (p : gmap Z Z) id ch :
  p !! id = Some ch -> ch :: (map_to_list (delete id p)).*2 ≡ₚ (map_to_list p).*2.
Proof. intros H. by rewrite <- (map_to_list_delete p id ch H). Qed.

Lemma fresh_lookup (p : gmap Z Z) (used : gset Z) id : dom p ⊆ used -> id ∉ used -> p !! id = None.
Proof. intros H Hid. apply not_elem_of_dom. set_solver. Qed.

Lemma ids_insert (p : gmap Z Z) (used used' : gset Z) id ch :
  dom p ⊆ used -> used' = {[id]} ∪ used -> dom (<[id := ch]> p) ⊆ used'.
Proof. intros Hp ->. rewrite dom_insert_L. set_solver. Qed.

Lemma ids_grow (p : gmap Z Z) (used used' : gset Z) id :
  dom p ⊆ used -> used' = {[id]} ∪ used -> dom p ⊆ used'.
Proof. intros Hp ->. set_solver. Qed.

Lemma ids_delete (p : gmap Z Z) (used : gset Z) id : dom p ⊆ used -> dom (delete id p) ⊆ used.
Proof. intros Hp. rewrite dom_delete_L. set_solver. Qed.

Lemma fresh_replaced (p : gmap Z Z) id : p !! id = None -> replaced p id = [].
Proof. unfold replaced. by intros ->. Qed.

Context {KI : KademliaIds K}.

Lemma loop_ok_used issued l s :
  loop_ok issued l -> kad_used (swarm l) ⊆ kad_used s -> loop_ok issued (set_swarm s l).
Proof. intros [] Hs. split; cbn; try done; by etransitivity. Qed.

Lemma handle_command_ok issued cmd l l' sent :
  loop_ok issued l -> queue_ok issued cmd -> handle_command cmd l = (Some l', sent) ->
  loop_ok issued l' /\ Forall (answer_ok issued) sent /\
  sent.*1 ++ senders l' ≡ₚ respond_to cmd ++ senders l.
Proof.
  intros Hl Hq. pose proof Hl as [Hpi Hgi Hbi Hp Hg Hb].
  destruct cmd as [key value ch|key ch|ch|p a|]; cbn [handle_command respond_to]; [..|done].
  - apply Forall_singleton in Hq as (r & Hr & ch' & Hcmd). destruct r as [k v| |]; try done. injection Hcmd as <- <- <-.
    destruct (kad_put key value (swarm l)) as [[id|[d e]] s] eqn:E; intros [= <- <-].
    + apply put_fresh in E as [Hf Hu]. pose proof (fresh_lookup _ _ _ Hpi Hf) as Hn.
      rewrite fresh_replaced by done. split_and!; [|done|].
      * split; cbn; eauto using ids_insert, ids_grow.
        apply map_Forall_insert_2; [|done]. eexists; eauto.
      * unfold senders. cbn. by rewrite values_insert.
    + apply put_err_used in E. split_and!; [apply loop_ok_used; [done|by rewrite E]| |done].
      apply Forall_singleton. by eexists.
  - apply Forall_singleton in Hq as (r & Hr & ch' & Hcmd). destruct r as [|k|]; try done. injection Hcmd as <- <-.
    destruct (kad_get key (swarm l)) as [id s] eqn:E; intros [= <- <-].
    apply get_fresh in E as [Hf Hu]. pose proof (fresh_lookup _ _ _ Hgi Hf) as Hn.
    rewrite fresh_replaced by done. split_and!; [|done|].
    + split; cbn; eauto using ids_insert, ids_grow.
      apply map_Forall_insert_2; [|done]. eexists; eauto.
    + unfold senders. cbn. rewrite values_insert by done. cbn. by rewrite <- Permutation_middle.
  - apply Forall_singleton in Hq as (r & Hr & ch' & Hcmd). destruct r; try done. injection Hcmd as <-.
    destruct (kad_bootstrap (swarm l)) as [[id|e] s] eqn:E; intros [= <- <-].
    + apply bootstrap_fresh in E as [Hf Hu]. pose proof (fresh_lookup _ _ _ Hbi Hf) as Hn.
      rewrite fresh_replaced by done. split_and!; [|done|].
      * split; cbn; eauto using ids_insert, ids_grow.
        apply map_Forall_insert_2; [|done]. eexists; eauto.
      * unfold senders. cbn. rewrite values_insert by done. by rewrite <- !Permutation_middle.
    + apply bootstrap_err_used in E. split_and!; [apply loop_ok_used; [done|by rewrite E]| |done].
      apply Forall_singleton. by eexists.
  - intros [= <- <-]. split_and!; [|done|done]. apply loop_ok_used; [done|].
    by rewrite add_address_used.
Qed.

Lemma handle_event_ok issued e l l' sent :
  loop_ok issued l -> handle_swarm_event e l = (l', sent) ->
  loop_ok issued l' /\ Forall (answer_ok issued) sent /\ sent.*1 ++ senders l' ≡ₚ senders l.
Proof.
  intros Hl. pose proof Hl as [Hpi Hgi Hbi Hp Hg Hb].
  destruct e as [id [r|r|r|]|]; cbn [handle_swarm_event]; [| | |by intros [= <- <-]..].
  - destruct (pending_put l !! id) as [ch|] eqn:E; intros [= <- <-]; [|done]. split_and!.
    + split; cbn; try done; [by apply ids_delete|by apply map_Forall_delete].
    + destruct (Hp id ch E) as (q & Hq & k & v & ->). apply Forall_singleton. by eexists.
    + unfold senders. cbn. rewrite <- (values_delete (pending_put l) id ch) by done. done.
  - destruct (pending_get l !! id) as [ch|] eqn:E; intros [= <- <-]; [|done]. split_and!.
    + split; cbn; try done; [by apply ids_delete|by apply map_Forall_delete].
    + destruct (Hg id ch E) as (q & Hq & k & ->). apply Forall_singleton. by eexists.
    + unfold senders. cbn. rewrite <- (values_delete (pending_get l) id ch) by done.
      cbn. by rewrite <- Permutation_middle.
  - destruct (pending_bootstrap l !! id) as [ch|] eqn:E; intros [= <- <-]; [|done]. split_and!.
    + split; cbn; try done; [by apply ids_delete|by apply map_Forall_delete].
    + destruct (Hb id ch E) as (q & Hq & <-). apply Forall_singleton. by eexists.
    + unfold senders. cbn. rewrite <- (values_delete (pending_bootstrap l) id ch) by done.
      by rewrite <- !Permutation_middle.
Qed.

Lemma seqZ_snoc {A} (l : list A) x : seqZ 0 (zlen (l ++ [x])) = seqZ 0 (zlen l) ++ [zlen l].
Proof.
  rewrite zlen_app. change (zlen [x]) with 1. pose proof (zlen_nonneg l).
  rewrite seqZ_app by lia. done.
Qed.

Lemma issued_last issued r P : P r -> issued_as (issued ++ [r]) P (zlen issued).
Proof.
  intros HP. exists r. split; [|done]. unfold zlen. rewrite Nat2Z.id.
  by rewrite lookup_app_r, Nat.sub_diag by lia.
Qed.

Lemma command_respond r ch : respond_to (command_of r ch) = [ch].
Proof. by destruct r. Qed.

Lemma dropped_ok issued P chs : Forall (issued_as issued P) chs -> Forall (answer_ok issued) (dropped chs).
Proof.
  intros H. apply Forall_map. eapply Forall_impl; [exact H|]. intros ch (r & Hr & _).
  exists r. split; [done|]. by destruct r.
Qed.

Lemma fst_dropped chs : (dropped chs).*1 = chs.
Proof. unfold dropped. rewrite <- list_fmap_compose. apply list_fmap_id. Qed.

Lemma in_seqZ_issued issued ch : ch ∈ seqZ 0 (zlen issued) -> issued_as issued (fun _ => True) ch.
Proof.
  intros Hin. apply elem_of_seqZ in Hin. unfold zlen in Hin.
  destruct (lookup_lt_is_Some_2 issued (Z.to_nat ch)) as [r Hr]; [lia|]. by exists r.
Qed.

Lemma node_ok_ends st l q :
  node_ok st -> node_loop st = Some l -> concat (map respond_to q) = queued st ->
  node_ok (loop_ends l q st).
Proof.
  intros [Ho Hl Hq Ha Hc] El Eq. unfold loop_ends. rewrite Eq. unfold held in Ho. rewrite El in Ho.
  split; cbn [node_issued node_loop node_queue node_answers]; try done.
  - unfold answered, queued, held. cbn. by rewrite fmap_app, fst_dropped, app_nil_r.
  - apply Forall_app. split; [done|]. apply (dropped_ok _ (fun _ => True)).
    apply Forall_forall. intros ch Hin. apply in_seqZ_issued. rewrite <- Ho.
    apply elem_of_app. by right.
Qed.

Lemma node_ok_send st r l :
  node_ok st -> node_loop st = Some l ->
  node_ok {| node_loop := Some l;
    node_queue := node_queue st ++ [command_of r (zlen (node_issued st))];
    node_issued := node_issued st ++ [r]; node_answers := node_answers st |}.
Proof.
  intros [Ho Hl Hq Ha Hc] El. split; cbn [node_issued node_loop node_queue node_answers]; try done.
  - rewrite seqZ_snoc, <- Ho. unfold answered, queued, held. cbn [node_answers node_queue node_loop].
    rewrite El, map_app, concat_app. cbn [map concat]. rewrite command_respond, app_nil_r.
    rewrite <- !app_assoc. do 2 f_equiv. apply Permutation_app_comm.
  - intros l' [= <-]. by apply loop_ok_app, Hl.
  - apply Forall_app. split; [eapply Forall_impl; [exact Hq|]; intros; by apply queue_ok_app|].
    apply Forall_singleton. unfold queue_ok. rewrite command_respond. apply Forall_singleton.
    apply issued_last. by eexists.
  - eapply Forall_impl; [exact Ha|]. intros. by apply answer_ok_app.
Qed.

Lemma node_ok_send_closed st r :
  node_ok st -> node_loop st = None ->
  node_ok {| node_loop := None; node_queue := node_queue st; node_issued := node_issued st ++ [r];
    node_answers := node_answers st ++ dropped [zlen (node_issued st)] |}.
Proof.
  intros [Ho Hl Hq Ha Hc] El. split; cbn [node_issued node_loop node_queue node_answers]; try done.
  - rewrite seqZ_snoc, <- Ho. unfold answered, queued, held. cbn [node_answers node_queue node_loop].
    rewrite El, Hc, fmap_app, fst_dropped by done. cbn. by rewrite !app_nil_r.
  - eapply Forall_impl; [exact Hq|]. intros. by apply queue_ok_app.
  - apply Forall_app. split; [eapply Forall_impl; [exact Ha|]; intros; by apply answer_ok_app|].
    apply Forall_singleton. apply issued_last. by destruct r.
  - by intros _; apply Hc.
Qed.

(** A step of the loop that answers [sent], for the rest [q] of the queue. *)
Lemma node_ok_loop st l l' q sent :
  node_ok st -> node_loop st = Some l ->
  loop_ok (node_issued st) l' -> Forall (queue_ok (node_issued st)) q ->
  Forall (answer_ok (node_issued st)) sent ->
  sent.*1 ++ concat (map respond_to q) ++ senders l' ≡ₚ queued st ++ senders l ->
  node_ok {| node_loop := Some l'; node_queue := q; node_issued := node_issued st;
    node_answers := node_answers st ++ sent |}.
Proof.
  intros [Ho Hl Hq Ha Hc] El Hl' Hq' Hs Hp.
  split; cbn [node_issued node_loop node_queue node_answers]; try done.
  - rewrite <- Ho. unfold answered at 1, queued at 1, held. cbn [node_answers node_queue node_loop].
    rewrite El, fmap_app, <- app_assoc, Hp. done.
  - by intros l2 [= <-].
  - by apply Forall_app.
Qed.

Lemma node_step_ok st st' : node_ok st -> node_step st st' -> node_ok st'.
Proof.
  intros Hok Hstep. pose proof Hok as [_ Hl Hq _ _].
  destruct Hstep as [r l El _|r El|cmd l El _ Hcmd|l cmd q l' sent El Eq Hh|l cmd q sent El Eq Hh|l El Eq|
    l s e l' sent El Hpoll Hh].
  - by apply node_ok_send.
  - by apply node_ok_send_closed.
  - rewrite <- (app_nil_r (node_answers st)). apply (node_ok_loop st l); try done; [by apply Hl|..].
    + apply Forall_app. split; [done|]. apply Forall_singleton. unfold queue_ok. by rewrite Hcmd.
    + unfold queued. rewrite map_app, concat_app. cbn. by rewrite Hcmd, !app_nil_r.
  - rewrite Eq in Hq. apply Forall_cons in Hq as [Hcmd Hq].
    destruct (handle_command_ok _ _ _ _ _ (Hl _ El) Hcmd Hh) as (Hl' & Hs & Hperm).
    apply (node_ok_loop st l); try done. unfold queued. rewrite Eq. cbn [map concat].
    rewrite (Permutation_app_comm (concat _)), app_assoc, Hperm, <- !app_assoc. f_equiv.
    apply Permutation_app_comm.
  - apply node_ok_ends; [done|done|]. unfold queued. rewrite Eq.
    destruct cmd; cbn in Hh; repeat case_match; done.
  - apply node_ok_ends; [done|done|]. unfold queued. by rewrite Eq.
  - destruct (handle_event_ok (node_issued st) e (set_swarm s l) l' sent) as (Hl' & Hs & Hperm);
      [apply loop_ok_used; [by apply Hl|by apply poll_used]|done|].
    apply (node_ok_loop st l); try done. unfold queued.
    rewrite (Permutation_app_comm (concat _)), app_assoc, Hperm. apply Permutation_app_comm.
Qed.

Lemma node_ok_reachable st : reachable node_init node_step st -> node_ok st.
Proof.
  apply reachable_invariant; [|apply node_step_ok].
  intros s' [s ->]. split; cbn; try done. intros l [= <-]. split; cbn; try done;
    rewrite ?dom_empty_L; set_solver.
Qed.
End System.

(** ** Starting a node *)

(** [addr.iter().find_map]: the first peer id in an address. *)
Fixpoint extract_peer_id (addr : Multiaddr) : option string :=
  match addr with
  | [] => None
  | P2p peer_id :: _ => Some peer_id
  | OtherProtocol _ :: rest => extract_peer_id rest
  end.

(** The network around the node: when the first progress of a query arrives, with what result of
    the query's kind, and the swarm then. *)
Class KademliaNet (K : Kademlia) := {
  kad_resolve : Z -> kad -> Z * QueryResult * kad
}.

Section Requests.
Context `{KN : KademliaNet}.

Definition first_query (l : EventLoop) : option Z :=
  head ((map_to_list (pending_put l)).*1 ++ (map_to_list (pending_get l)).*1 ++
        (map_to_list (pending_bootstrap l)).*1).

(** One request to a node that has nothing else to do, until it is answered: the time it
    takes, the answer, and the swarm then. *)
Definition node_request (cmd : DhtCommand) (s : kad) : Z * Answer * kad :=
  match handle_command cmd (loop_start s) with
  | (Some l, (_, a) :: _) => (0, a, swarm l)
  | (Some l, []) =>
      match first_query l with
      | None => (0, Dropped, swarm l)
      | Some id =>
          let '(t, r, s') := kad_resolve id (swarm l) in
          match handle_swarm_event (OutboundQueryProgressed id r) (set_swarm s' l) with
          | (l', (_, a) :: _) => (t, a, swarm l')
          | (l', []) => (t, Dropped, swarm l')
          end
      end
  | (None, _) => (0, Dropped, s)
  end.

Definition put_record (key value : list Z) (s : kad) : result DhtError unit * kad :=
  let '(_, a, s') := node_request (PutRecord key value 0) s in (unit_result a, s').

Definition get_record (key : list Z) (s : kad) : Z * result DhtError (list Z) :=
  let '(t, a, _) := node_request (GetRecord key 0) s in (t, value_result a).

Definition bootstrap (s : kad) : result DhtError unit * kad :=
  let '(_, a, s') := node_request (Bootstrap 0) s in (unit_result a, s').

(** [DhtNode::new]: the addresses with a peer id are added, then the node bootstraps. *)
Definition node_new (bootstrap_nodes : list Multiaddr) (s : kad) : result DhtError kad :=
  let s := fold_left (fun s addr =>
             match extract_peer_id addr with
             | Some peer_id => let '(_, _, s') := node_request (AddBootstrapNode peer_id addr) s in s'
             | None => s
             end) bootstrap_nodes s in
  let (r, s) := bootstrap s in
  let? _ := r in Ok s.

Definition from_config (parse : string -> option Multiaddr) (config : VoIPConfig) (s : kad)
    : result DhtError kad :=
  node_new (omap parse (dht_bootstrap_nodes config)) s.

(** The node as the network that discovery uses. *)
#[export] Instance node_net : DhtNet := {|
  net := kad;
  net_put := put_record;
  net_get := get_record
|}.
End Requests.

Section NetFacts.
Context `{KN : KademliaNet}.

Lemma first_query_put id ch s :
  first_query {| swarm := s; pending_put := <[id := ch]> ∅; pending_get := ∅;
                 pending_bootstrap := ∅ |} = Some id.
Proof.
  unfold first_query. cbn [pending_put pending_get pending_bootstrap].
  by rewrite insert_empty, map_to_list_singleton, !map_to_list_empty.
Qed.

Lemma first_query_get id ch s :
  first_query {| swarm := s; pending_put := ∅; pending_get := <[id := ch]> ∅;
                 pending_bootstrap := ∅ |} = Some id.
Proof.
  unfold first_query. cbn [pending_put pending_get pending_bootstrap].
  by rewrite insert_empty, map_to_list_singleton, !map_to_list_empty.
Qed.

(** A store returns the refusal of Kademlia, or what is reported on its query. *)
Lemma put_record_spec key value s :
  match kad_put key value s with
  | (Err (debug, display), s1) => put_record key value s = (Err (StoreFailed debug display), s1)
  | (Ok id, s1) => forall t r s2, kad_resolve id s1 = (t, PutRecordResult r, s2) ->
      put_record key value s = (map_err (StoreFailed (kad_show id)) r, s2)
  end.
Proof.
  unfold put_record, node_request. cbn [handle_command loop_start swarm].
  destruct (kad_put key value s) as [[id|[e e']] s1] eqn:E; [|done].
  intros t r s2 Er. rewrite fresh_replaced by apply lookup_empty. unfold set_put, set_swarm.
  cbn [pending_put pending_get pending_bootstrap swarm]. rewrite first_query_put, Er.
  cbn [handle_swarm_event pending_put]. by rewrite lookup_insert_eq.
Qed.

(** A lookup returns the first value reported on its query, and an error when there is none. *)
Lemma get_record_spec key s id s1 t r s2 :
  kad_get key s = (id, s1) -> kad_resolve id s1 = (t, GetRecordResult r, s2) ->
  get_record key s =
    (t, match r with
        | Ok (FoundRecord v) => Ok v
        | Ok FinishedWithNoAdditionalRecord => Err (NotFound (kad_show id))
        | Err e => Err (LookupFailed (kad_show id) e)
        end).
Proof.
  intros E Er. unfold get_record, node_request. cbn [handle_command loop_start swarm]. rewrite E.
  rewrite fresh_replaced by apply lookup_empty. unfold set_get, set_swarm.
  cbn [pending_put pending_get pending_bootstrap swarm]. rewrite first_query_get, Er.
  cbn [handle_swarm_event pending_get]. by rewrite lookup_insert_eq.
Qed.
End NetFacts.

(** The default configuration has no bootstrap nodes, so it starts a node only on a swarm that
    can bootstrap without any address. *)
Lemma default_node_needs_peers {K : Kademlia} {KN : KademliaNet K} parse s e s' :
  kad_bootstrap s = (Err e, s') -> from_config parse default_config s = Err (BootstrapFailed [e]).
Proof.
  intros Hb. unfold from_config, node_new, bootstrap, node_request. cbn.
  by rewrite Hb.
Qed.

(** ** Properties *)

(** C17: every request is answered once.  In every reachable state of the node each request
    made so far is in one place: it has its one answer, of the type it waits for, or it is in
    the queue, or its sender is in the loop's tables.  Once the loop has ended, by a shutdown or
    because all handles are gone, every request has been answered. *)
Theorem node_answers_once {K : Kademlia} {KI : KademliaIds K} st :
  reachable node_init node_step st ->
  NoDup (answered st ++ queued st ++ held st) /\
  (forall ch r, node_issued st !! ch = Some r ->
     (exists a, (Z.of_nat ch, a) ∈ node_answers st /\ answers_request r a = true) \/
     Z.of_nat ch ∈ queued st \/ Z.of_nat ch ∈ held st) /\
  (node_loop st = None -> answered st ≡ₚ seqZ 0 (zlen (node_issued st))).
Proof.
  intros Hr. destruct (node_ok_reachable st Hr) as [Ho Hl Hq Ha Hc]. split_and!.
  - rewrite Ho. apply NoDup_seqZ.
  - intros ch r Hch. assert (Z.of_nat ch ∈ answered st ++ queued st ++ held st) as Hin.
    { rewrite Ho. apply elem_of_seqZ. apply lookup_lt_Some in Hch. unfold zlen. lia. }
    apply elem_of_app in Hin as [Hin|Hin]; [|by right; apply elem_of_app].
    left. apply list_elem_of_fmap in Hin as ([c a] & Hc' & Hin). cbn in Hc'. subst c.
    exists a. split; [done|]. rewrite Forall_forall in Ha.
    destruct (Ha _ Hin) as (r' & Hr' & Hk). cbn in Hr', Hk. rewrite Nat2Z.id in Hr'. by simplify_eq.
  - intros Hn. unfold queued, held in Ho. rewrite Hn, Hc in Ho by done. cbn in Ho.
    by rewrite app_nil_r in Ho.
Qed.

(** A network in one place, for the witnesses: queries are numbered, and each is answered from
    the common store. *)
Module NodeSample.
Inductive Query := QPut (key value : list Z) | QGet (key : list Z) | QBootstrap.

Record Net := {
  next_id : nat;
  queries : gmap Z Query;
  store : gmap (list Z) (list Z);
  known : list string
}.

Definition start_query (q : Query) (s : Net) : Z * Net :=
  (Z.of_nat (next_id s),
   {| next_id := S (next_id s); queries := <[Z.of_nat (next_id s) := q]> (queries s);
      store := store s; known := known s |}).

Definition used (s : Net) : gset Z := list_to_set (seqZ 0 (Z.of_nat (next_id s))).

Definition kademlia : Kademlia := {|
  kad := Net;
  kad_put k v s := let (id, s') := start_query (QPut k v) s in (Ok id, s');
  kad_get k s := start_query (QGet k) s;
  kad_bootstrap s :=
    match known s with
    | [] => (Err "No known peers."%string, s)
    | _ => let (id, s') := start_query QBootstrap s in (Ok id, s')
    end;
  kad_add_address p _ s :=
    {| next_id := next_id s; queries := queries s; store := store s; known := p :: known s |};
  kad_show id := "QueryId";
  kad_used := used;
  kad_poll s s' := s' = s
|}.

Definition resolve (id : Z) (s : Net) : Z * QueryResult * Net :=
  match queries s !! id with
  | Some (QPut k v) =>
      (5, PutRecordResult (Ok tt),
       {| next_id := next_id s; queries := queries s; store := <[k := v]> (store s);
          known := known s |})
  | Some (QGet k) =>
      (5, GetRecordResult (Ok match store s !! k with
                              | Some v => FoundRecord v
                              | None => FinishedWithNoAdditionalRecord
                              end), s)
  | Some QBootstrap => (5, BootstrapResult (Ok tt), s)
  | None => (5, OtherResult, s)
  end.

#[export] Instance network : KademliaNet kademlia := Build_KademliaNet kademlia resolve.

Lemma used_fresh q s id s' : start_query q s = (id, s') -> id ∉ used s /\ used s' = {[id]} ∪ used s.
Proof.
  intros [= <- <-]. unfold used. cbn [next_id]. split.
  - rewrite elem_of_list_to_set, elem_of_seqZ. lia.
  - rewrite seqZ_S, list_to_set_app_L. cbn. set_solver.
Qed.

#[export] Instance ids : KademliaIds kademlia.
Proof.
  split; cbn [kad_put kad_get kad_bootstrap kad_add_address kad_used kad_poll kademlia].
  - intros k v s id s'. cbn. intros [= <- <-]. by eapply (used_fresh (QPut k v)).
  - by intros k v s e s'.
  - intros k s id s'. apply used_fresh.
  - intros s id s'. destruct (known s); [done|]. cbn. intros [= <- <-]. by eapply (used_fresh QBootstrap).
  - intros s e s'. by destruct (known s); intros [= _ <-].
  - done.
  - by intros s s' ->.
Qed.

Definition empty : Net := {| next_id := 0; queries := ∅; store := ∅; known := [] |}.
End NodeSample.

(** A record that is stored through the node and looked up. *)
Lemma stored_record_found :
  snd (get_record (K := NodeSample.kademlia) (KN := NodeSample.network) [1]
    (snd (put_record (K := NodeSample.kademlia) (KN := NodeSample.network) [1] [7] NodeSample.empty)))
  = Ok [7].
Proof. vm_compute. reflexivity. Qed.

Lemma node_answers_once_witness :
  exists st, reachable (node_init (K := NodeSample.kademlia)) node_step st /\
    node_answers st = [(0, Dropped)] /\ answered st ≡ₚ seqZ 0 1.
Proof.
  assert (reachable (node_init (K := NodeSample.kademlia)) node_step
    {| node_loop := Some (loop_start (K := NodeSample.kademlia) NodeSample.empty);
       node_queue := []; node_issued := []; node_answers := [] |}) as H0.
  { apply reachable_init. exists NodeSample.empty. reflexivity. }
  pose proof (reachable_step _ _ _ _ H0 ltac:(refine (step_send _ (ReqGet [1]) _ _ _); reflexivity)) as Ha.
  pose proof (reachable_step _ _ _ _ Ha ltac:(refine (step_control _ Shutdown _ _ _ _); reflexivity)) as H1.
  pose proof (reachable_step _ _ _ _ H1 ltac:(refine (step_command _ _ _ _ _ _ _ _ _); reflexivity)) as H2.
  pose proof (reachable_step _ _ _ _ H2 ltac:(refine (step_shutdown _ _ _ _ _ _ _ _); reflexivity)) as H3.
  eexists; split; [exact H3|]. split; [reflexivity|].
  exact (proj2 (proj2 (node_answers_once (KI := NodeSample.ids) _ H3)) eq_refl).
Defined.
