(* ===== verification/NodeLiveness.v ===== *)
(** * Every request to the node is answered in the end

    Runs of the event loop of [voip-dht/src/node.rs] that do not stop: the states of [Node] over
    time.  A run is fair when the loop's [select!] does not pass over the command queue forever,
    and when the swarm reports a result for every query, which it does at the latest after the
    query timeout that [build_swarm] sets. *)

From S2P Require Import Prelude Types Config Crypto DhtRecord Discovery Node.

Local Open Scope Z_scope.
Local Open Scope rust_scope.

Section Liveness.
Context {K : Kademlia}.

Inductive Kind := KPut | KGet | KBootstrap.

Definition table (k : Kind) (l : EventLoop) : gmap Z Z :=
  match k with KPut => pending_put l | KGet => pending_get l | KBootstrap => pending_bootstrap l end.

Definition result_of (k : Kind) (r : QueryResult) : bool :=
  match k, r with
  | KPut, PutRecordResult _ | KGet, GetRecordResult _ | KBootstrap, BootstrapResult _ => true
  | _, _ => false
  end.

(** The request [ch] waits for a result of the query [id]. *)
Definition pending_as (k : Kind) (id ch : Z) (st : NodeState) : Prop :=
  exists l, node_loop st = Some l /\ table k l !! id = Some ch.

(** The request [ch] is at place [i] of the queue of a running loop. *)
Definition waits_at (i : nat) (ch : Z) (st : NodeState) : Prop :=
  is_Some (node_loop st) /\ exists cmd, node_queue st !! i = Some cmd /\ ch ∈ respond_to cmd.

(** The loop takes the next command. *)
Definition takes_command (st st' : NodeState) : Prop :=
  exists l cmd q, node_loop st = Some l /\ node_queue st = cmd :: q /\
    match handle_command cmd l with
    | (Some l', sent) =>
        st' = {| node_loop := Some l'; node_queue := q; node_issued := node_issued st;
                 node_answers := node_answers st ++ sent |}
    | (None, _) => st' = loop_ends l q st
    end.

(** The swarm reports a result of the query. *)
Definition reports (k : Kind) (id : Z) (st st' : NodeState) : Prop :=
  exists l s r l' sent, node_loop st = Some l /\ kad_poll (swarm l) s /\ result_of k r = true /\
    handle_swarm_event (OutboundQueryProgressed id r) (set_swarm s l) = (l', sent) /\
    st' = {| node_loop := Some l'; node_queue := node_queue st; node_issued := node_issued st;
             node_answers := node_answers st ++ sent |}.

(** The states of a node over time; nothing happens in a step that repeats a state. *)
Record execution (e : nat -> NodeState) : Prop := {
  ex_init : node_init (e O);
  ex_step n : e (S n) = e n \/ node_step (e n) (e (S n))
}.

Record fair (e : nat -> NodeState) : Prop := {
  fair_select n : node_queue (e n) <> [] ->
    exists m, (n <= m)%nat /\ (takes_command (e m) (e (S m)) \/ node_loop (e m) = None);
  fair_swarm n k id ch : pending_as k id ch (e n) ->
    exists m, (n <= m)%nat /\ (reports k id (e m) (e (S m)) \/ node_loop (e m) = None)
}.

(** ** Facts *)

(** What holds until something else does, and is acted upon at some point, leads to it. *)
Lemma leads_to (e : nat -> NodeState) (P Q : NodeState -> Prop) :
  (forall n, P (e n) -> P (e (S n)) \/ Q (e (S n))) ->
  (forall n, P (e n) -> exists m, (n <= m)%nat /\ (P (e m) -> Q (e (S m)))) ->
  forall n, P (e n) -> exists m, (n <= m)%nat /\ Q (e m).
Proof.
  intros Hkeep Hact n HP. destruct (Hact n HP) as (m & Hm & HQ).
  remember (m - n)%nat as d eqn:Hd. revert n HP Hm Hd.
  induction d as [|d IH]; intros n HP Hm Hd.
  - replace n with m in * by lia. exists (S m). split; [lia|auto].
  - destruct (Hkeep n HP) as [HP'|HQ']; [|exists (S n); split; [lia|done]].
    destruct (IH (S n) HP') as (m' & Hm' & HQ'); [lia..|]. exists m'. split; [lia|done].
Qed.

Lemma answered_app st l q i sent ch :
  ch ∈ answered st \/ ch ∈ sent.*1 ->
  ch ∈ answered {| node_loop := l; node_queue := q; node_issued := i;
                   node_answers := node_answers st ++ sent |}.
Proof. unfold answered. cbn. rewrite fmap_app. set_solver. Qed.

Lemma table_senders k l id ch : table k l !! id = Some ch -> ch ∈ senders l.
Proof.
  intros H. apply elem_of_map_to_list in H.
  assert (ch ∈ (map_to_list (table k l)).*2) by (apply list_elem_of_fmap; by eexists (_, _)).
  unfold senders. destruct k; cbn in *; set_solver.
Qed.

Lemma ends_answers l q st ch :
  ch ∈ concat (map respond_to q) ++ senders l -> ch ∈ answered (loop_ends l q st).
Proof. intros H. unfold loop_ends. apply answered_app. right. by rewrite fst_dropped. Qed.

Lemma queue_concat q i cmd ch : q !! i = Some cmd -> ch ∈ respond_to cmd -> ch ∈ concat (map respond_to q).
Proof.
  intros Hi Hch. apply list_elem_of_In, in_concat. exists (respond_to cmd).
  split; apply list_elem_of_In; [|done]. apply list_elem_of_fmap. exists cmd.
  split; [done|]. by eapply list_elem_of_lookup_2.
Qed.

Context {KI : KademliaIds K}.

(** Handling a command keeps the waiting queries, and its own request waits or is answered. *)
Lemma command_keeps issued cmd l l' sent k id ch :
  loop_ok issued l -> handle_command cmd l = (Some l', sent) ->
  table k l !! id = Some ch -> table k l' !! id = Some ch.
Proof.
  intros [Hp Hg Hb _ _ _] Hh Ht.
  assert (Hid : id ∈ kad_used (swarm l)).
  { apply elem_of_dom_2 in Ht. destruct k; cbn in Ht; set_solver. }
  assert (forall (t : gmap Z Z) id' c, id' ∉ kad_used (swarm l) -> t !! id = Some ch ->
    <[id' := c]> t !! id = Some ch) as Hins.
  { intros t id' c Hn Hl. rewrite lookup_insert_ne; [done|]. congruence. }
  destruct cmd as [key value c|key c|c|p a|]; cbn in Hh.
  - destruct (kad_put key value (swarm l)) as [[id'|[d x]] s] eqn:E; injection Hh as <- _;
      [|by destruct k]. apply put_fresh in E as [Hf _]. destruct k; cbn in *; auto.
  - destruct (kad_get key (swarm l)) as [id' s] eqn:E; injection Hh as <- _.
    apply get_fresh in E as [Hf _]. destruct k; cbn in *; auto.
  - destruct (kad_bootstrap (swarm l)) as [[id'|x] s] eqn:E; injection Hh as <- _;
      [|by destruct k]. apply bootstrap_fresh in E as [Hf _]. destruct k; cbn in *; auto.
  - injection Hh as <- _. by destruct k.
  - done.
Qed.

Lemma command_places cmd l l' sent ch :
  handle_command cmd l = (Some l', sent) -> ch ∈ respond_to cmd ->
  (exists k id, table k l' !! id = Some ch) \/ ch ∈ sent.*1.
Proof.
  intros Hh Hch. destruct cmd as [key value c|key c|c|p a|]; cbn in Hh, Hch; try set_solver;
    apply list_elem_of_singleton in Hch as <-.
  - destruct (kad_put key value (swarm l)) as [[id'|[d x]] s]; injection Hh as <- <-;
      [left; exists KPut, id'; apply lookup_insert_eq|right; set_solver].
  - destruct (kad_get key (swarm l)) as [id' s]; injection Hh as <- <-.
    left. exists KGet, id'. apply lookup_insert_eq.
  - destruct (kad_bootstrap (swarm l)) as [[id'|x] s]; injection Hh as <- <-;
      [left; exists KBootstrap, id'; apply lookup_insert_eq|right; set_solver].
Qed.

(** An event answers a waiting request or leaves it waiting; a result of its query answers it. *)
Lemma event_keeps ev l l' sent k id ch :
  handle_swarm_event ev l = (l', sent) -> table k l !! id = Some ch ->
  table k l' !! id = Some ch \/ ch ∈ sent.*1.
Proof.
  intros Hh Ht.
  assert (forall (t : gmap Z Z) id' c, t !! id' = Some c -> t !! id = Some ch ->
    delete id' t !! id = Some ch \/ ch ∈ [c]) as Hdel.
  { intros t id' c Hc Hl. destruct (decide (id' = id)) as [->|Hn]; [right|left].
    - simplify_eq. set_solver.
    - by rewrite lookup_delete_ne. }
  destruct ev as [id' [r|r|r|]|]; cbn in Hh; [| | |injection Hh as <- <-; by left..].
  - destruct (pending_put l !! id') as [c|] eqn:E; injection Hh as <- <-; [|by left].
    destruct k; cbn; eauto.
  - destruct (pending_get l !! id') as [c|] eqn:E; injection Hh as <- <-; [|by left].
    destruct k; cbn; eauto.
  - destruct (pending_bootstrap l !! id') as [c|] eqn:E; injection Hh as <- <-; [|by left].
    destruct k; cbn; eauto.
Qed.

Lemma reports_answers k id ch st st' :
  pending_as k id ch st -> reports k id st st' -> ch ∈ answered st'.
Proof.
  intros (l & El & Ht) (l1 & s & r & l' & sent & El1 & _ & Hr & Hh & ->). simplify_eq.
  apply answered_app. right.
  destruct k, r; try done; cbn in Hh, Ht; rewrite Ht in Hh; injection Hh as _ <-; set_solver.
Qed.

Lemma step_pending k id ch st st' :
  node_ok st -> node_step st st' -> pending_as k id ch st ->
  pending_as k id ch st' \/ ch ∈ answered st'.
Proof.
  intros Hok Hs (l & El & Ht).
  destruct Hs as [r l1 El1 _|r El1|cmd l1 El1 _ _|l1 cmd q l' sent El1 _ Hh|l1 cmd q sent El1 _ _|
    l1 El1 _|l1 s ev l' sent El1 _ Hh]; simplify_eq.
  - left. by eexists.
  - left. by eexists.
  - left. exists l'. split; [done|]. eapply command_keeps; [by apply (ok_loop _ Hok)|done|done].
  - right. apply ends_answers. apply elem_of_app. right. by eapply table_senders.
  - right. apply ends_answers. apply elem_of_app. right. by eapply table_senders.
  - destruct (event_keeps _ _ _ _ k id ch Hh) as [H|H]; [by destruct k|left; by exists l'|].
    right. apply answered_app. by right.
Qed.

(** A queued request stays, moves up, waits for its query or is answered. *)
Definition moved (i : nat) (ch : Z) (st : NodeState) : Prop :=
  (exists j, (j < i)%nat /\ waits_at j ch st) \/ (exists k id, pending_as k id ch st) \/ ch ∈ answered st.

Lemma takes_moves i ch st st' : waits_at i ch st -> takes_command st st' -> moved i ch st'.
Proof.
  intros (_ & cmd & Hi & Hch) (l & c & q & El & Eq & Hh). rewrite Eq in Hi.
  destruct (handle_command c l) as [[l'|] sent] eqn:Eh; subst st'.
  - destruct i as [|i]; cbn in Hi.
    + injection Hi as ->. right. destruct (command_places _ _ _ _ _ Eh Hch) as [(k & id & Ht)|Hs].
      * left. exists k, id. by exists l'.
      * right. apply answered_app. by right.
    + left. exists i. split; [lia|]. split; [by eexists|]. by exists cmd.
  - right. right. apply ends_answers. apply elem_of_app.
    destruct i as [|i]; cbn in Hi; [|left; by eapply queue_concat].
    injection Hi as ->. destruct cmd; cbn in Eh, Hch; repeat case_match; set_solver.
Qed.

Lemma step_waits i ch st st' : node_step st st' -> waits_at i ch st ->
  waits_at i ch st' \/ moved i ch st'.
Proof.
  intros Hs Hw. pose proof Hw as ([l0 El0] & cmd & Hi & Hch).
  destruct Hs as [r l El _|r El|c l El _ _|l c q l' sent El Eq Hh|l c q sent El Eq Hh|l El Eq|
    l s ev l' sent El _ Hh]; simplify_eq.
  - left. split; [by eexists|]. exists cmd. split; [by apply lookup_app_l_Some|done].
  - left. split; [by eexists|]. exists cmd. split; [by apply lookup_app_l_Some|done].
  - right. eapply takes_moves; [exact Hw|]. eexists _, c, q. by rewrite Hh.
  - right. eapply takes_moves; [exact Hw|]. eexists _, c, q. by rewrite Hh.
  - by rewrite Eq in Hi.
  - left. split; [by eexists|]. by exists cmd.
Qed.

Lemma execution_ok e n : execution e -> node_ok (e n).
Proof.
  intros [Hi Hs]. apply node_ok_reachable. induction n as [|n IH]; [by apply reachable_init|].
  destruct (Hs n) as [->|H]; [done|]. by eapply reachable_step.
Qed.

Lemma held_pending st ch : ch ∈ held st -> exists k id, pending_as k id ch st.
Proof.
  unfold held. destruct (node_loop st) as [l|] eqn:El; [|set_solver]. unfold senders.
  rewrite !elem_of_app, !list_elem_of_fmap.
  intros [([id c] & -> & H)|[([id c] & -> & H)|([id c] & -> & H)]]; apply elem_of_map_to_list in H;
    [exists KPut|exists KGet|exists KBootstrap]; exists id; by exists l.
Qed.

Lemma queued_waits st ch : node_ok st -> ch ∈ queued st -> exists i, waits_at i ch st.
Proof.
  intros Hok Hq. unfold queued in Hq. apply list_elem_of_In, in_concat in Hq as (x & Hx & Hch).
  apply list_elem_of_In, list_elem_of_fmap in Hx as (cmd & -> & Hcmd).
  apply list_elem_of_In in Hch. apply list_elem_of_lookup in Hcmd as [i Hi]. exists i. split; [|by exists cmd].
  destruct (node_loop st) eqn:El; [by eexists|]. by rewrite (ok_closed _ Hok El) in Hi.
Qed.
Context (e : nat -> NodeState) (He : execution e) (Hf : fair e).

Lemma pending_answered k id ch n :
  pending_as k id ch (e n) -> exists m, (n <= m)%nat /\ ch ∈ answered (e m).
Proof.
  apply (leads_to e (pending_as k id ch) (fun st => ch ∈ answered st)).
  - intros n0 Hp. destruct (ex_step _ He n0) as [->|Hs]; [by left|].
    eapply step_pending; [by apply execution_ok|done|done].
  - intros n0 Hp. destruct (fair_swarm _ Hf n0 k id ch Hp) as (m & Hm & [Hr|Hn]); exists m;
      (split; [done|]); intros Hp'; [by eapply reports_answers|].
    destruct Hp' as (l & El & _). congruence.
Qed.

Lemma waits_moves i ch n : waits_at i ch (e n) -> exists m, (n <= m)%nat /\ moved i ch (e m).
Proof.
  apply (leads_to e (waits_at i ch) (moved i ch)).
  - intros n0 Hw. destruct (ex_step _ He n0) as [->|Hs]; [by left|]. by apply (step_waits i ch (e n0)).
  - intros n0 Hw. destruct (fair_select _ Hf n0) as (m & Hm & [Ht|Hn]).
    { destruct Hw as (_ & cmd & Hi & _). by intros E; rewrite E in Hi. }
    + exists m. split; [done|]. intros Hw'. by eapply takes_moves.
    + exists m. split; [done|]. intros [[l El] _]. congruence.
Qed.

Lemma waiting_answered i ch n : waits_at i ch (e n) -> exists m, (n <= m)%nat /\ ch ∈ answered (e m).
Proof.
  revert n. induction i as [i IH] using lt_wf_ind. intros n Hw.
  destruct (waits_moves i ch n Hw) as (m & Hm & [(j & Hj & Hw')|[(k & id & Hp)|Ha]]); [| |by exists m].
  - destruct (IH j Hj m Hw') as (m' & Hm' & Ha). exists m'. split; [lia|done].
  - destruct (pending_answered k id ch m Hp) as (m' & Hm' & Ha). exists m'. split; [lia|done].
Qed.
End Liveness.

(** C16: no caller waits forever.  In every run of the node in which the loop's [select!] does not
    starve the command queue and the swarm reports on every query, each request that is made is
    answered at some later point, however many other requests, control commands, events and
    shutdowns come in between. *)
Theorem node_eventually_answers {K : Kademlia} {KI : KademliaIds K} e n ch r :
  execution e -> fair e -> node_issued (e n) !! ch = Some r ->
  exists m, (n <= m)%nat /\ Z.of_nat ch ∈ answered (e m).
Proof.
  intros He Hf Hch. pose proof (execution_ok e n He) as Hok.
  assert (Z.of_nat ch ∈ answered (e n) ++ queued (e n) ++ held (e n)) as Hin.
  { rewrite (ok_once _ Hok). apply elem_of_seqZ. apply lookup_lt_Some in Hch. unfold zlen. lia. }
  rewrite !elem_of_app in Hin. destruct Hin as [Ha|[Hq|Hh]].
  - by exists n.
  - destruct (queued_waits _ _ Hok Hq) as [i Hw]. by eapply waiting_answered.
  - destruct (held_pending _ _ Hh) as (k & id & Hp). by eapply pending_answered.
Qed.

(** ** A run *)

Module LivenessSample.
Import NodeSample.

Definition query : EventLoop (K := kademlia) := fst (match handle_command (K := kademlia) (GetRecord [1] 0)
  (loop_start (K := kademlia) empty) with (Some l, s) => (l, s) | (None, s) => (loop_start (K := kademlia) empty, s) end).

Definition idle (l : EventLoop (K := kademlia)) (q : list DhtCommand) (a : list (Z * Answer)) : NodeState (K := kademlia) :=
  {| node_loop := Some l; node_queue := q; node_issued := [ReqGet [1]]; node_answers := a |}.

(** A lookup is sent, taken, and ends without a record; then nothing happens. *)
Definition run (n : nat) : NodeState (K := kademlia) :=
  match n with
  | 0%nat => {| node_loop := Some (loop_start (K := kademlia) empty); node_queue := [];
                node_issued := []; node_answers := [] |}
  | 1%nat => idle (loop_start (K := kademlia) empty) [GetRecord [1] 0] []
  | 2%nat => idle query [] []
  | _ => let (l, sent) := handle_swarm_event (K := kademlia)
           (OutboundQueryProgressed 0 (GetRecordResult (Ok FinishedWithNoAdditionalRecord))) query in
         idle l [] sent
  end.

Lemma run_execution : execution run.
Proof.
  split; [exists empty; reflexivity|]. intros [|[|[|n]]]; [right..|by left].
  - refine (step_send _ (ReqGet [1]) _ _ _); reflexivity.
  - refine (step_command _ _ _ _ _ _ _ _ _); reflexivity.
  - refine (step_event (K := kademlia) _ _ _
      (OutboundQueryProgressed 0 (GetRecordResult (Ok FinishedWithNoAdditionalRecord))) _ _ _ _ _);
      reflexivity.
Qed.

Lemma run_fair : fair run.
Proof.
  split.
  - intros [|[|[|n]]] H; try done. exists 1%nat. split; [lia|]. left. eexists _, _, _.
    split_and!; reflexivity.
  - intros n k id ch (l & El & Ht).
    destruct n as [|[|[|n]]]; injection El as <-; destruct k; try done; cbn in Ht.
    destruct (decide (id = 0)) as [->|Hn];
      [|by rewrite lookup_insert_ne in Ht by done].
    exists 2%nat. split; [lia|]. left.
    eexists _, _, (GetRecordResult (Ok FinishedWithNoAdditionalRecord)), _, _. split_and!; reflexivity.
Qed.
End LivenessSample.

Lemma node_eventually_answers_witness :
  exists m, (1 <= m)%nat /\ 0 ∈ answered (LivenessSample.run m).
Proof.
  exact (node_eventually_answers (KI := NodeSample.ids) LivenessSample.run 1 0 (ReqGet [1])
    LivenessSample.run_execution LivenessSample.run_fair eq_refl).
Defined.
