(* ===== verification/NodeHistory.v ===== *)
(** * What the answers of the node mean

    The requests of [voip-dht/src/node.rs] against what the node asked of Kademlia and what
    Kademlia reported.  An execution of the system of [Node] is run by an executable step
    function and recorded: which query was started for which request, which request Kademlia
    refused, and the reports on queries in their order.  Nothing is assumed of the reports:
    lookups fail, time out or find whatever strangers have stored. *)

From S2P Require Import Prelude Types Config Crypto Wire DhtRecord Discovery Node.

Local Open Scope Z_scope.
Local Open Scope rust_scope.

Section History.
Context {K : Kademlia}.

(** ** Executions *)

(** What happens next: a handle sends a request or a control command, the loop takes a command
    or an event of the swarm, or all handles are gone. *)
Inductive Action :=
| DoSend (r : Request)
| DoControl (cmd : DhtCommand)
| DoCommand
| DoEvent (s : kad) (e : SwarmEvent)
| DoHandlesDropped.

Definition has_room (st : NodeState) : bool := zlen (node_queue st) <? CHANNEL_CAPACITY.

Definition node_act (a : Action) (st : NodeState) : option NodeState :=
  match a, node_loop st with
  | DoSend r, Some l =>
      if has_room st
      then Some {| node_loop := Some l;
                   node_queue := node_queue st ++ [command_of r (zlen (node_issued st))];
                   node_issued := node_issued st ++ [r]; node_answers := node_answers st |}
      else None
  | DoSend r, None =>
      Some {| node_loop := None; node_queue := node_queue st; node_issued := node_issued st ++ [r];
              node_answers := node_answers st ++ dropped [zlen (node_issued st)] |}
  | DoControl cmd, Some l =>
      match respond_to cmd with
      | [] =>
          if has_room st
          then Some {| node_loop := Some l; node_queue := node_queue st ++ [cmd];
                       node_issued := node_issued st; node_answers := node_answers st |}
          else None
      | _ => None
      end
  | DoCommand, Some l =>
      match node_queue st with
      | [] => None
      | cmd :: q =>
          match handle_command cmd l with
          | (Some l', sent) =>
              Some {| node_loop := Some l'; node_queue := q; node_issued := node_issued st;
                      node_answers := node_answers st ++ sent |}
          | (None, _) => Some (loop_ends l q st)
          end
      end
  | DoEvent s e, Some l =>
      let (l', sent) := handle_swarm_event e (set_swarm s l) in
      Some {| node_loop := Some l'; node_queue := node_queue st; node_issued := node_issued st;
              node_answers := node_answers st ++ sent |}
  | DoHandlesDropped, Some l =>
      match node_queue st with [] => Some (loop_ends l [] st) | _ => None end
  | _, None => None
  end.

(** The swarm after an event is one that polling may give. *)
Definition allowed (a : Action) (st : NodeState) : Prop :=
  match a, node_loop st with DoEvent s _, Some l => kad_poll (swarm l) s | _, _ => True end.

(** *** The record of an execution *)

Inductive Observation :=
| Started (ch : Z) (r : Request) (id : Z)
| Refused (ch : Z) (r : Request) (e : DhtError)
| Reported (id : Z) (q : QueryResult).

Definition observed_command (cmd : DhtCommand) (s : kad) : list Observation :=
  match cmd with
  | PutRecord key value ch =>
      match fst (kad_put key value s) with
      | Ok id => [Started ch (ReqPut key value) id]
      | Err (debug, display) => [Refused ch (ReqPut key value) (StoreFailed debug display)]
      end
  | GetRecord key ch => [Started ch (ReqGet key) (fst (kad_get key s))]
  | Bootstrap ch =>
      match fst (kad_bootstrap s) with
      | Ok id => [Started ch ReqBootstrap id]
      | Err e => [Refused ch ReqBootstrap (BootstrapFailed [e])]
      end
  | AddBootstrapNode _ _ | Shutdown => []
  end.

Definition observed (a : Action) (st : NodeState) : list Observation :=
  match a, node_loop st, node_queue st with
  | DoCommand, Some l, cmd :: _ => observed_command cmd (swarm l)
  | DoEvent _ (OutboundQueryProgressed id q), Some _, _ => [Reported id q]
  | _, _, _ => []
  end.

Inductive node_exec : list Observation -> NodeState -> Prop :=
| exec_init st : node_init st -> node_exec [] st
| exec_act h st a st' : node_exec h st -> allowed a st -> node_act a st = Some st' ->
    node_exec (h ++ observed a st) st'.

(** *** What the record promises to a request *)

(** The answer that a report on its query is for a request, if the report is of its kind. *)
Definition answer_of (r : Request) (id : Z) (q : QueryResult) : option Answer :=
  match r, q with
  | ReqPut _ _, PutRecordResult x => Some (UnitAnswer (map_err (StoreFailed (kad_show id)) x))
  | ReqGet _, GetRecordResult (Ok (FoundRecord value)) => Some (ValueAnswer (Ok value))
  | ReqGet _, GetRecordResult (Ok FinishedWithNoAdditionalRecord) =>
      Some (ValueAnswer (Err (NotFound (kad_show id))))
  | ReqGet _, GetRecordResult (Err e) => Some (ValueAnswer (Err (LookupFailed (kad_show id) e)))
  | ReqBootstrap, BootstrapResult x => Some (UnitAnswer (map_err (fun e => BootstrapFailed [e]) x))
  | _, _ => None
  end.

Inductive Fate := Unasked | Asked (r : Request) (id : Z) | Got (a : Answer).

Definition fate_step (ch : Z) (f : Fate) (o : Observation) : Fate :=
  match f, o with
  | Unasked, Started ch' r id => if ch' =? ch then Asked r id else Unasked
  | Unasked, Refused ch' _ e => if ch' =? ch then Got (UnitAnswer (Err e)) else Unasked
  | Asked r id, Reported id' q =>
      if id' =? id then match answer_of r id q with Some a => Got a | None => f end else f
  | _, _ => f
  end.

Definition fate (h : list Observation) (ch : Z) : Fate := fold_left (fate_step ch) h Unasked.

(** ** Facts *)

Lemma node_step_act st st' :
  node_step st st' <-> exists a, allowed a st /\ node_act a st = Some st'.
Proof.
  unfold allowed. split.
  - destruct 1 as [r l El Hq|r El|cmd l El Hq Hc|l cmd q l' sent El Eq Hh|l cmd q sent El Eq Hh|l El Eq|
      l s e l' sent El Hp Hh].
    + exists (DoSend r). cbn. rewrite El. unfold has_room. by rewrite (proj2 (Z.ltb_lt _ _) Hq).
    + exists (DoSend r). cbn. by rewrite El.
    + exists (DoControl cmd). cbn. rewrite El, Hc. unfold has_room. by rewrite (proj2 (Z.ltb_lt _ _) Hq).
    + exists DoCommand. cbn. by rewrite El, Eq, Hh.
    + exists DoCommand. cbn. by rewrite El, Eq, Hh.
    + exists DoHandlesDropped. cbn. by rewrite El, Eq.
    + exists (DoEvent s e). cbn. by rewrite El, Hh.
  - intros (a & Ha & H). unfold node_act, has_room in H.
    destruct a as [r|cmd| |s e|], (node_loop st) as [l|] eqn:El; try done.
    + destruct (Z.ltb_spec (zlen (node_queue st)) CHANNEL_CAPACITY); [|done].
      injection H as <-. by apply step_send.
    + injection H as <-. by apply step_send_closed.
    + destruct (respond_to cmd) eqn:Ec; [|done].
      destruct (Z.ltb_spec (zlen (node_queue st)) CHANNEL_CAPACITY); [|done].
      injection H as <-. by apply step_control.
    + destruct (node_queue st) as [|cmd q] eqn:Eq; [done|].
      destruct (handle_command cmd l) as [[l'|] sent] eqn:Eh; injection H as <-;
        [by eapply step_command|by eapply step_shutdown].
    + destruct (handle_swarm_event e (set_swarm s l)) as [l' sent] eqn:Eh. injection H as <-.
      by eapply step_event.
    + destruct (node_queue st) eqn:Eq; [|done]. injection H as <-. by eapply step_handles_dropped.
Qed.

Lemma exec_reachable h st : node_exec h st -> reachable node_init node_step st.
Proof.
  induction 1 as [st Hi|h st a st' _ IH Ha Hact]; [by apply reachable_init|].
  eapply reachable_step; [exact IH|]. apply node_step_act. by exists a.
Qed.

Lemma reachable_exec st : reachable node_init node_step st -> exists h, node_exec h st.
Proof.
  induction 1 as [st Hi|st st' _ [h IH] Hs]; [by exists []; apply exec_init|].
  apply node_step_act in Hs as (a & Ha & Hact). eexists. by eapply exec_act.
Qed.
(** *** Tables by kind of request *)

Inductive Kind := KPut | KGet | KBootstrap.

#[local] Instance kind_eq : EqDecision Kind.
Proof. solve_decision. Defined.

Definition kind (r : Request) : Kind :=
  match r with ReqPut _ _ => KPut | ReqGet _ => KGet | ReqBootstrap => KBootstrap end.

Definition pending (k : Kind) (l : EventLoop) : gmap Z Z :=
  match k with KPut => pending_put l | KGet => pending_get l | KBootstrap => pending_bootstrap l end.

Lemma senders_pending l ch : ch ∈ senders l <-> exists k id, pending k l !! id = Some ch.
Proof.
  assert (forall p : gmap Z Z, ch ∈ (map_to_list p).*2 <-> exists id, p !! id = Some ch) as Hp.
  { intros p. rewrite list_elem_of_fmap. split.
    - intros ([id x] & -> & Hin). exists id. by apply elem_of_map_to_list.
    - intros [id Hid]. exists (id, ch). by rewrite elem_of_map_to_list. }
  unfold senders. rewrite !elem_of_app, !Hp. split.
  - intros [[id H]|[[id H]|[id H]]]; [exists KPut|exists KGet|exists KBootstrap]; by exists id.
  - intros ([] & id & H); [left|right; left|right; right]; by exists id.
Qed.

(** An event answers the entry of its query, or nothing. *)
Lemma event_cases e l l' sent : handle_swarm_event e l = (l', sent) ->
  (l' = l /\ sent = [] /\ forall id q r a, e = OutboundQueryProgressed id q ->
     answer_of r id q = Some a -> pending (kind r) l !! id = None) \/
  exists id q ch a k, e = OutboundQueryProgressed id q /\ pending k l !! id = Some ch /\
    (forall r, answer_of r id q = if decide (kind r = k) then Some a else None) /\ sent = [(ch, a)] /\
    forall k', pending k' l' = if decide (k' = k) then delete id (pending k l) else pending k' l.
Proof.
  destruct e as [id [x|x|x|]|]; cbn [handle_swarm_event].
  4,5: intros [= <- <-]; left; split_and!; try done; by intros ? ? [] ? [= <- <-].
  - destruct (pending_put l !! id) as [ch|] eqn:E; intros [= <- <-]; [right|left].
    + do 2 eexists. exists ch. eexists. exists KPut. split_and!; try done; by intros [].
    + split_and!; try done. by intros ? ? [] ? [= <- <-].
  - destruct (pending_get l !! id) as [ch|] eqn:E; intros [= <- <-]; [right|left].
    + do 2 eexists. exists ch. eexists. exists KGet. split_and!; try done; [|by intros []].
      by intros []; destruct x as [[]|].
    + split_and!; try done. by intros ? ? [] ? [= <- <-].
  - destruct (pending_bootstrap l !! id) as [ch|] eqn:E; intros [= <- <-]; [right|left].
    + do 2 eexists. exists ch. eexists. exists KBootstrap. split_and!; try done; by intros [].
    + split_and!; try done. by intros ? ? [] ? [= <- <-].
Qed.

(** *** The record and the state agree *)

Definition own (issued : list Request) (o : Observation) : Prop :=
  match o with
  | Started ch r _ | Refused ch r _ => issued_as issued (eq r) ch
  | Reported _ _ => True
  end.

Record hist_ok (h : list Observation) (st : NodeState) : Prop := {
  h_queued ch : ch ∈ queued st -> fate h ch = Unasked;
  h_held l k id ch : node_loop st = Some l -> pending k l !! id = Some ch ->
    exists r, kind r = k /\ fate h ch = Asked r id;
  h_answers ch a : (ch, a) ∈ node_answers st ->
    fate h ch = Got a \/ (a = Dropped /\ node_loop st = None /\ forall b, fate h ch <> Got b);
  h_new ch : ch ∉ seqZ 0 (zlen (node_issued st)) -> fate h ch = Unasked;
  h_own : Forall (own (node_issued st)) h
}.

Lemma fate_snoc h o ch : fate (h ++ [o]) ch = fate_step ch (fate h ch) o.
Proof. unfold fate. by rewrite fold_left_app. Qed.

(** An open query was started for its request. *)
Lemma fate_asked h ch r id : fate h ch = Asked r id -> Started ch r id ∈ h.
Proof.
  induction h as [|o h IH] using rev_ind; [done|]. rewrite fate_snoc, elem_of_app. intros Hf.
  destruct (fate h ch) as [|r' id'|a] eqn:E, o as [c x i|c x e|i q]; cbn in Hf; try done;
    try (left; apply IH; congruence).
  - destruct (Z.eqb_spec c ch) as [->|]; [|done]. right. injection Hf as -> ->.
    by apply list_elem_of_singleton.
  - by destruct (c =? ch).
  - destruct (i =? id'); [destruct (answer_of r' id' q); [done|]|]; left; apply IH; congruence.
Qed.

Lemma own_app issued more h : Forall (own issued) h -> Forall (own (issued ++ more)) h.
Proof.
  intros H. eapply Forall_impl; [exact H|]. intros [] Ho; cbn in *; try done; by apply issued_as_app.
Qed.

(** A request whose query is open is in the table of its kind. *)
Lemma asked_pending h st l ch r id :
  node_ok st -> hist_ok h st -> node_loop st = Some l -> fate h ch = Asked r id ->
  pending (kind r) l !! id = Some ch.
Proof.
  intros [Ho _ _ _ _] [Hq Hh Ha Hn _] El Hf.
  destruct (decide (ch ∈ seqZ 0 (zlen (node_issued st)))) as [Hin|Hin]; [|by rewrite Hn in Hf].
  rewrite <- Ho, !elem_of_app in Hin. destruct Hin as [Hin|[Hin|Hin]].
  - apply list_elem_of_fmap in Hin as ([c a] & -> & Hin). cbn in Hf.
    destruct (Ha _ _ Hin) as [Hg|(_ & Hl & _)]; congruence.
  - rewrite Hq in Hf; done.
  - unfold held in Hin. rewrite El in Hin. apply senders_pending in Hin as (k & id' & Hp).
    destruct (Hh _ _ _ _ El Hp) as (r' & <- & Hr'). rewrite Hr' in Hf. by injection Hf as -> ->.
Qed.

Lemma hist_ends h st l q :
  hist_ok h st -> node_loop st = Some l -> concat (map respond_to q) = queued st ->
  hist_ok h (loop_ends l q st).
Proof.
  intros [Hq Hh Ha Hn Ho] El Eq.
  split; cbn [loop_ends node_loop node_queue node_issued node_answers];
    [intros ch Hin; by apply elem_of_nil in Hin|done| |done|done].
  intros ch a Hin. apply elem_of_app in Hin as [Hin|Hin].
  - destruct (Ha _ _ Hin) as [Hg|(_ & Hl & _)]; [by left|congruence].
  - right. unfold dropped in Hin. apply list_elem_of_fmap in Hin as (c & [= -> ->] & Hin).
    split_and!; [done..|]. intros b. rewrite Eq in Hin. apply elem_of_app in Hin as [Hin|Hin].
    + by rewrite Hq.
    + apply senders_pending in Hin as (k & id & Hp). destruct (Hh _ _ _ _ El Hp) as (r & _ & ->). done.
Qed.

(** A new request, before and after the loop has ended. *)
Lemma hist_send h st r l :
  hist_ok h st -> node_loop st = Some l ->
  hist_ok h {| node_loop := Some l; node_queue := node_queue st ++ [command_of r (zlen (node_issued st))];
               node_issued := node_issued st ++ [r]; node_answers := node_answers st |}.
Proof.
  intros [Hq Hh Ha Hn Ho] El. rewrite El in Hh, Ha.
  split; cbn [node_loop node_queue node_issued node_answers].
  - intros ch. unfold queued. cbn. rewrite map_app, concat_app. cbn. rewrite command_respond.
    rewrite elem_of_app. intros [Hin|Hin]; [by apply Hq|]. apply Hn.
    apply list_elem_of_singleton in Hin as ->. rewrite elem_of_seqZ. lia.
  - intros l' k id ch [= <-]. by apply Hh.
  - done.
  - intros ch Hch. apply Hn. rewrite seqZ_snoc in Hch. set_solver.
  - by apply own_app.
Qed.

Lemma hist_send_closed h st r :
  hist_ok h st -> node_loop st = None ->
  hist_ok h {| node_loop := None; node_queue := node_queue st; node_issued := node_issued st ++ [r];
               node_answers := node_answers st ++ dropped [zlen (node_issued st)] |}.
Proof.
  intros [Hq Hh Ha Hn Ho] El. rewrite El in Ha.
  split; cbn [node_loop node_queue node_issued node_answers]; try done.
  - intros ch a Hin. apply elem_of_app in Hin as [Hin|Hin]; [by apply Ha|].
    apply list_elem_of_singleton in Hin as [= -> ->]. right. split_and!; [done..|]. intros b.
    rewrite Hn; [done|]. rewrite elem_of_seqZ. lia.
  - intros ch Hch. apply Hn. rewrite seqZ_snoc in Hch. set_solver.
  - by apply own_app.
Qed.

(** The request at the head of the queue is nowhere else, and nothing has been asked for it. *)
Lemma head_request h st l r ch q :
  node_ok st -> hist_ok h st -> node_loop st = Some l -> node_queue st = command_of r ch :: q ->
  fate h ch = Unasked /\ ch ∉ concat (map respond_to q) /\ (forall k id, pending k l !! id <> Some ch) /\
  (forall a, (ch, a) ∉ node_answers st) /\ ch ∈ seqZ 0 (zlen (node_issued st)).
Proof.
  intros [Hperm _ _ _ _] [Hq _ _ _ _] El Eq.
  assert (ch ∈ queued st) as Hin by (unfold queued; rewrite Eq; cbn; rewrite command_respond; by left).
  assert (NoDup (answered st ++ queued st ++ held st)) as Hnd by (rewrite Hperm; apply NoDup_seqZ).
  apply NoDup_app in Hnd as (_ & Hd & Hnd). unfold queued, held in Hnd. rewrite Eq, El in Hnd.
  cbn in Hnd. rewrite command_respond in Hnd. cbn in Hnd. apply NoDup_cons in Hnd as [Hc _].
  rewrite elem_of_app in Hc. split_and!.
  - by apply Hq.
  - tauto.
  - intros k id Hp. apply Hc. right. apply senders_pending. by do 2 eexists.
  - intros a Ha. apply (Hd ch); [apply list_elem_of_fmap; by exists (ch, a)|].
    apply elem_of_app. by left.
  - rewrite <- Hperm, !elem_of_app. auto.
Qed.

(** Taking the command at the head, which asks Kademlia: the fate of that request changes, and
    the tables and answers change by it alone. *)
Lemma hist_command h st l l' q r ch o sent :
  node_ok st -> hist_ok h st -> node_loop st = Some l -> node_queue st = command_of r ch :: q ->
  own (node_issued st) o ->
  (forall c f, c <> ch -> fate_step c f o = f) ->
  (forall k id c, pending k l' !! id = Some c -> pending k l !! id = Some c \/
     (c = ch /\ k = kind r /\ fate_step ch Unasked o = Asked r id)) ->
  (forall c a, (c, a) ∈ sent -> c = ch /\ fate_step ch Unasked o = Got a) ->
  hist_ok (h ++ [o])
    {| node_loop := Some l'; node_queue := q; node_issued := node_issued st;
       node_answers := node_answers st ++ sent |}.
Proof.
  intros Hok Hist El Eq Hr Hother Hp Hs.
  destruct (head_request _ _ _ _ _ _ Hok Hist El Eq) as (Hf & Hc & Ht & Han & Hin).
  destruct Hist as [Hq Hh Ha Hn Ho]. unfold queued in Hq. rewrite Eq in Hq. cbn in Hq.
  assert (forall c, c <> ch -> fate (h ++ [o]) c = fate h c) as Hsame
    by (intros c Hne; rewrite fate_snoc; by apply Hother).
  assert (fate (h ++ [o]) ch = fate_step ch Unasked o) as Hnew by (by rewrite fate_snoc, Hf).
  split; cbn [node_loop node_queue node_issued node_answers].
  - intros c Hin'. rewrite Hsame by (intros ->; by apply Hc). apply Hq, elem_of_app. by right.
  - intros l2 k id c [= <-] Hl. destruct (Hp _ _ _ Hl) as [Hold|(-> & -> & Hst)].
    + rewrite Hsame by (intros ->; by apply Ht in Hold). by eapply Hh.
    + exists r. by rewrite Hnew.
  - intros c a. rewrite elem_of_app. intros [Hold|Hold].
    + rewrite Hsame by (intros ->; by apply Han in Hold). left.
      destruct (Ha _ _ Hold) as [|(_ & Hl & _)]; [done|congruence].
    + apply Hs in Hold as [-> Hg]. left. by rewrite Hnew.
  - intros c Hc'. rewrite Hsame by congruence. by apply Hn.
  - apply Forall_app. split; [done|]. by apply Forall_singleton.
Qed.

Lemma not_this_request ch c f r :
  c <> ch -> (forall id, fate_step c f (Started ch r id) = f) /\
  (forall e, fate_step c f (Refused ch r e) = f).
Proof. intros Hne. by destruct f; cbn; rewrite ?(proj2 (Z.eqb_neq ch c)) by congruence. Qed.

Lemma hist_started h st l l' q r ch id :
  node_ok st -> hist_ok h st -> node_loop st = Some l -> node_queue st = command_of r ch :: q ->
  issued_as (node_issued st) (eq r) ch ->
  (forall k, pending k l' = if decide (k = kind r) then <[id := ch]> (pending k l) else pending k l) ->
  hist_ok (h ++ [Started ch r id])
    {| node_loop := Some l'; node_queue := q; node_issued := node_issued st;
       node_answers := node_answers st ++ [] |}.
Proof.
  intros Hok Hist El Eq Hr Hp. eapply (hist_command _ _ l); try done.
  - intros c f Hne. by apply not_this_request.
  - intros k id' c. rewrite Hp. case_decide as Hk; [|by left].
    intros [[-> ->]|[_ Hl]]%lookup_insert_Some; [right|by left]. cbn. by rewrite Z.eqb_refl.
  - intros c a Hin. by apply elem_of_nil in Hin.
Qed.

Lemma hist_refused h st l l' q r ch e :
  node_ok st -> hist_ok h st -> node_loop st = Some l -> node_queue st = command_of r ch :: q ->
  issued_as (node_issued st) (eq r) ch -> (forall k, pending k l' = pending k l) ->
  hist_ok (h ++ [Refused ch r e])
    {| node_loop := Some l'; node_queue := q; node_issued := node_issued st;
       node_answers := node_answers st ++ [(ch, UnitAnswer (Err e))] |}.
Proof.
  intros Hok Hist El Eq Hr Hp. eapply (hist_command _ _ l); try done.
  - intros c f Hne. by apply not_this_request.
  - intros k id c. rewrite Hp. by left.
  - intros c a Hin. apply list_elem_of_singleton in Hin as [= -> ->]. cbn. by rewrite Z.eqb_refl.
Qed.

Context {KI : KademliaIds K}.

(** One command of the queue. *)
Lemma hist_taken h st l cmd q l' sent :
  node_ok st -> hist_ok h st -> node_loop st = Some l -> node_queue st = cmd :: q ->
  handle_command cmd l = (Some l', sent) ->
  hist_ok (h ++ observed_command cmd (swarm l))
    {| node_loop := Some l'; node_queue := q; node_issued := node_issued st;
       node_answers := node_answers st ++ sent |}.
Proof.
  intros Hok Hist El Eq. pose proof Hok as [_ Hloop Hqok _ _].
  destruct (Hloop _ El) as [Hpi Hgi Hbi _ _ _].
  rewrite Eq in Hqok. apply Forall_cons in Hqok as [Hcmd _]. unfold queue_ok in Hcmd.
  destruct cmd as [key value ch|key ch|ch|p a|]; cbn [handle_command observed_command]; [..|done].
  - apply Forall_singleton in Hcmd as (r & Hr & ch' & Hc). destruct r as [k v| |]; try done.
    injection Hc as <- <- <-.
    assert (issued_as (node_issued st) (eq (ReqPut key value)) ch) as Hi by (by eexists).
    destruct (kad_put key value (swarm l)) as [[id|[d e]] s] eqn:E; intros [= <- <-].
    + apply put_fresh in E as [Hf _]. rewrite fresh_replaced by (by eapply fresh_lookup).
      eapply (hist_started _ _ l _ _ (ReqPut key value)); try done; by intros [].
    + eapply (hist_refused _ _ l _ _ (ReqPut key value)); try done; by intros [].
  - apply Forall_singleton in Hcmd as (r & Hr & ch' & Hc). destruct r as [|k|]; try done.
    injection Hc as <- <-.
    assert (issued_as (node_issued st) (eq (ReqGet key)) ch) as Hi by (by eexists).
    destruct (kad_get key (swarm l)) as [id s] eqn:E; intros [= <- <-].
    apply get_fresh in E as [Hf _]. rewrite fresh_replaced by (by eapply fresh_lookup).
    eapply (hist_started _ _ l _ _ (ReqGet key)); try done; by intros [].
  - apply Forall_singleton in Hcmd as (r & Hr & ch' & Hc). destruct r; try done. injection Hc as <-.
    assert (issued_as (node_issued st) (eq ReqBootstrap) ch) as Hi by (by eexists).
    destruct (kad_bootstrap (swarm l)) as [[id|e] s] eqn:E; intros [= <- <-].
    + apply bootstrap_fresh in E as [Hf _]. rewrite fresh_replaced by (by eapply fresh_lookup).
      eapply (hist_started _ _ l _ _ ReqBootstrap); try done; by intros [].
    + eapply (hist_refused _ _ l _ _ ReqBootstrap); try done; by intros [].
  - intros [= <- <-]. rewrite !app_nil_r. destruct Hist as [Hq Hh Ha Hn Ho]. rewrite El in Ha.
    unfold queued in Hq. rewrite Eq in Hq. split; try done.
    + intros l2 k id ch [= <-] Hp. apply (Hh l k id ch El). by destruct k.
    + intros c b Hin. destruct (Ha _ _ Hin) as [|(_ & Hl & _)]; [by left|done].
Qed.

Definition event_observed (e : SwarmEvent) : list Observation :=
  match e with OutboundQueryProgressed id q => [Reported id q] | OtherEvent => [] end.

(** An event that answers nobody changes no fate. *)
Lemma event_unanswered h st l e :
  node_ok st -> hist_ok h st -> node_loop st = Some l ->
  (forall id q r a, e = OutboundQueryProgressed id q -> answer_of r id q = Some a ->
     pending (kind r) l !! id = None) ->
  forall c, fate (h ++ event_observed e) c = fate h c.
Proof.
  intros Hok Hist El Hno c. destruct e as [id q|]; cbn [event_observed]; [|by rewrite app_nil_r].
  rewrite fate_snoc. destruct (fate h c) as [|r id'|] eqn:Ec; try done. cbn.
  destruct (Z.eqb_spec id id') as [<-|]; [|done]. destruct (answer_of r id q) as [a|] eqn:Ea; [|done].
  specialize (Hno _ _ _ _ eq_refl Ea). by rewrite (asked_pending h st l c r id Hok Hist El Ec) in Hno.
Qed.

(** One that answers changes the fate of the request it answers. *)
Lemma event_answered h st l id q k ch a :
  node_ok st -> hist_ok h st -> node_loop st = Some l -> pending k l !! id = Some ch ->
  (forall r, answer_of r id q = if decide (kind r = k) then Some a else None) ->
  fate (h ++ [Reported id q]) ch = Got a /\
  forall c, c <> ch -> fate (h ++ [Reported id q]) c = fate h c.
Proof.
  intros Hok Hist El Hp Hans. split.
  - destruct (h_held _ _ Hist _ _ _ _ El Hp) as (r & <- & Hf). rewrite fate_snoc, Hf. cbn.
    by rewrite Z.eqb_refl, Hans, decide_True.
  - intros c Hne. rewrite fate_snoc. destruct (fate h c) as [|r' id'|] eqn:Ec; try done. cbn.
    destruct (Z.eqb_spec id id') as [<-|]; [|done]. rewrite Hans. case_decide as Hk; [|done].
    pose proof (asked_pending h st l c r' id Hok Hist El Ec) as Hc. rewrite Hk in Hc. congruence.
Qed.

Lemma hist_event h st l s e l' sent :
  node_ok st -> hist_ok h st -> node_loop st = Some l ->
  handle_swarm_event e (set_swarm s l) = (l', sent) ->
  hist_ok (h ++ event_observed e)
    {| node_loop := Some l'; node_queue := node_queue st; node_issued := node_issued st;
       node_answers := node_answers st ++ sent |}.
Proof.
  intros Hok Hist El He. pose proof Hist as [Hq Hh Ha Hn Ho].
  assert (forall k, pending k (set_swarm s l) = pending k l) as Hsw by (by intros []).
  assert (forall c b, (c, b) ∈ node_answers st -> fate h c = Got b) as Hgot.
  { intros c b Hin. destruct (Ha _ _ Hin) as [|(_ & Hl & _)]; [done|congruence]. }
  assert (Forall (own (node_issued st)) (h ++ event_observed e)) as Hown.
  { apply Forall_app. split; [done|]. destruct e; repeat constructor. }
  apply event_cases in He as [(-> & -> & Hno)|(id & q & ch & a & k & -> & Hp & Hans & -> & Hl')].
  - assert (forall c, fate (h ++ event_observed e) c = fate h c) as Hsame.
    { apply (event_unanswered h st l e Hok Hist El). intros ? ? ? ? Hx Hy. rewrite <- Hsw. by eapply Hno. }
    split; cbn [node_loop node_queue node_issued node_answers]; [..|done].
    + intros c Hin. rewrite Hsame. by apply Hq.
    + intros l2 k id c [= <-]. rewrite Hsw, Hsame. by apply Hh.
    + rewrite app_nil_r. intros c b Hin. rewrite Hsame. left. by apply Hgot.
    + intros c Hc. rewrite Hsame. by apply Hn.
  - rewrite Hsw in Hp. destruct (event_answered h st l id q k ch a Hok Hist El Hp Hans) as [Hnew Hsame].
    destruct (Hh _ _ _ _ El Hp) as (r & <- & Hf). cbn [event_observed] in *.
    split; cbn [node_loop node_queue node_issued node_answers]; [..|done].
    + intros c Hin. rewrite Hsame; [by apply Hq|]. intros ->. by rewrite Hq in Hf.
    + intros l2 k' id' c [= <-]. rewrite Hl', Hsw. intros Hl.
      assert (pending k' l !! id' = Some c /\ (id' <> id \/ k' <> kind r)) as [Hl0 Hne].
      { case_decide; [subst; apply lookup_delete_Some in Hl as [? ?]; auto|rewrite Hsw in Hl; auto]. }
      rewrite Hsame; [by eapply Hh|]. intros ->.
      destruct (Hh _ _ _ _ El Hl0) as (r2 & <- & Hf2). rewrite Hf2 in Hf. injection Hf as -> ->.
      by destruct Hne.
    + intros c b. rewrite elem_of_app. intros [Hin|Hin]; left.
      * rewrite Hsame; [by apply Hgot|]. intros ->. apply Hgot in Hin. congruence.
      * by apply list_elem_of_singleton in Hin as [= -> ->].
    + intros c Hc. rewrite Hsame; [by apply Hn|]. intros ->. by rewrite Hn in Hf.
Qed.

Lemma hist_act h st a st' :
  node_ok st -> hist_ok h st -> node_act a st = Some st' -> hist_ok (h ++ observed a st) st'.
Proof.
  intros Hok Hist. unfold node_act, observed.
  destruct a as [r|cmd| |s e|], (node_loop st) as [l|] eqn:El; try done.
  - destruct (has_room st); [|done]. intros [= <-]. rewrite app_nil_r. by apply hist_send.
  - intros [= <-]. rewrite app_nil_r. by apply hist_send_closed.
  - destruct (respond_to cmd) eqn:Ec; [|done]. destruct (has_room st); [|done]. intros [= <-].
    rewrite app_nil_r. destruct Hist as [Hq Hh Ha Hn Ho]. rewrite El in Hh, Ha. split; try done.
    intros ch. unfold queued. cbn. rewrite map_app, concat_app. cbn. rewrite Ec, !app_nil_r. by apply Hq.
  - destruct (node_queue st) as [|cmd q] eqn:Eq; [done|].
    destruct (handle_command cmd l) as [[l'|] sent] eqn:Eh; intros [= <-].
    + by apply (hist_taken h st l).
    + assert (observed_command cmd (swarm l) = [] /\ respond_to cmd = []) as [-> Hr].
      { destruct cmd; cbn in Eh; repeat case_match; done. }
      rewrite app_nil_r. apply hist_ends; try done. unfold queued. rewrite Eq. cbn. by rewrite Hr.
  - destruct (handle_swarm_event e (set_swarm s l)) as [l' sent] eqn:Eh. intros [= <-].
    replace (match e with OutboundQueryProgressed id q => [Reported id q] | OtherEvent => [] end)
      with (event_observed e) by done.
    by apply (hist_event h st l s).
  - destruct (node_queue st) eqn:Eq; [|done]. intros [= <-]. rewrite app_nil_r.
    apply hist_ends; try done. unfold queued. by rewrite Eq.
Qed.

Lemma exec_hist_ok h st : node_exec h st -> hist_ok h st.
Proof.
  induction 1 as [st [s ->]|h st a st' Hx IH Ha Hact].
  - split; cbn; try done.
    + intros l k id ch [= <-]. by destruct k; cbn; rewrite lookup_empty.
    + intros ch a Hin. by apply elem_of_nil in Hin.
  - apply hist_act; [|done|done]. by eapply node_ok_reachable, exec_reachable.
Qed.
End History.

(** ** Properties *)

(** C15: every request gets the answer of its own query.  In every execution of the node, with
    any number of requests under way and whatever Kademlia does with them, a query is started
    (or refused) for a request with that request's own key and value; when Kademlia refuses it
    the caller gets that refusal; otherwise the caller gets the first report on that very query
    which is of its kind, with a found value as it was reported and a failed, empty or timed
    out lookup as an error, and nothing while there is none.  A request without such a report
    is still queued or pending, or was dropped because the loop ended. *)
Theorem node_answers_own_query {K : Kademlia} {KI : KademliaIds K} h st ch r :
  node_exec h st -> node_issued st !! ch = Some r ->
  (forall r' id, Started (Z.of_nat ch) r' id ∈ h -> r' = r) /\
  (forall r' e, Refused (Z.of_nat ch) r' e ∈ h -> r' = r) /\
  match fate h (Z.of_nat ch) with
  | Got a => forall b, (Z.of_nat ch, b) ∈ node_answers st <-> b = a
  | Asked r' id => r' = r /\
      (Z.of_nat ch ∈ held st \/ node_loop st = None /\ (Z.of_nat ch, Dropped) ∈ node_answers st)
  | Unasked =>
      Z.of_nat ch ∈ queued st \/ node_loop st = None /\ (Z.of_nat ch, Dropped) ∈ node_answers st
  end.
Proof.
  intros Hx Hr. pose proof (node_ok_reachable st (exec_reachable _ _ Hx)) as [Hperm _ _ _ _].
  pose proof (exec_hist_ok h st Hx) as [Hq Hh Ha Hn Ho]. rewrite Forall_forall in Ho.
  assert (forall r', issued_as (node_issued st) (eq r') (Z.of_nat ch) -> r' = r) as Hown.
  { intros r' (x & Hx' & <-). rewrite Nat2Z.id in Hx'. congruence. }
  split; [intros r' id Hin; by apply Hown, (Ho _ Hin)|].
  split; [intros r' e Hin; by apply Hown, (Ho _ Hin)|].
  assert (Z.of_nat ch ∈ answered st ++ queued st ++ held st) as Hin.
  { rewrite Hperm. apply elem_of_seqZ. apply lookup_lt_Some in Hr. unfold zlen. lia. }
  assert ((exists a, (Z.of_nat ch, a) ∈ node_answers st) \/ Z.of_nat ch ∈ queued st \/
          exists l k id, node_loop st = Some l /\ pending k l !! id = Some (Z.of_nat ch)) as Hwhere.
  { rewrite !elem_of_app in Hin. destruct Hin as [Hin|[Hin|Hin]]; [left|by right; left|right; right].
    - apply list_elem_of_fmap in Hin as ([c a] & Hc & Hin). cbn in Hc. subst c. by exists a.
    - unfold held in Hin. destruct (node_loop st) as [l|]; [|by apply elem_of_nil in Hin].
      apply senders_pending in Hin as (k & id & Hp). by exists l, k, id. }
  destruct (fate h (Z.of_nat ch)) as [|r' id|a] eqn:Ef.
  - destruct Hwhere as [[a Hin']|[Hin'|(l & k & id & El & Hp)]]; [|by left|].
    + destruct (Ha _ _ Hin') as [Hg|(-> & Hl & _)]; [congruence|by right].
    + destruct (Hh _ _ _ _ El Hp) as (x & _ & Hf). congruence.
  - split.
    + apply Hown. apply (fate_asked h) in Ef. by apply (Ho _ Ef).
    + destruct Hwhere as [[a Hin']|[Hin'|(l & k & id' & El & Hp)]].
      * destruct (Ha _ _ Hin') as [Hg|(-> & Hl & _)]; [congruence|by right].
      * apply Hq in Hin'. congruence.
      * left. unfold held. rewrite El. apply senders_pending. by do 2 eexists.
  - assert (forall b, (Z.of_nat ch, b) ∈ node_answers st -> b = a) as Honly.
    { intros b Hb. destruct (Ha _ _ Hb) as [Hg|(_ & _ & Hno)]; [congruence|by destruct (Hno a)]. }
    intros b. split; [apply Honly|]. intros ->.
    destruct Hwhere as [[b Hb]|[Hin'|(l & k & id' & El & Hp)]].
    + by rewrite <- (Honly b Hb).
    + apply Hq in Hin'. congruence.
    + destruct (Hh _ _ _ _ El Hp) as (x & _ & Hf). congruence.
Qed.

(** A store and a lookup of the same key under way together on the network of [NodeSample]; the
    lookup is reported as timed out. *)
Lemma node_answers_own_query_witness :
  exists h st, node_exec (K := NodeSample.kademlia) h st /\
    h = [Started 0 (ReqPut [1] [7]) 0; Started 1 (ReqGet [1]) 1;
         Reported 1 (GetRecordResult (Err "Timeout"))] /\
    held st = [0] /\
    forall b, (1, b) ∈ node_answers st <-> b = ValueAnswer (Err (LookupFailed "QueryId" "Timeout")).
Proof.
  pose proof (exec_init (K := NodeSample.kademlia)
    {| node_loop := Some (loop_start (K := NodeSample.kademlia) NodeSample.empty); node_queue := [];
       node_issued := []; node_answers := [] |} ltac:(by exists NodeSample.empty)) as H0.
  pose proof (exec_act _ _ (DoSend (ReqPut [1] [7])) _ H0 I eq_refl) as H1.
  pose proof (exec_act _ _ (DoSend (ReqGet [1])) _ H1 I eq_refl) as H2.
  pose proof (exec_act _ _ DoCommand _ H2 I eq_refl) as H3.
  pose proof (exec_act _ _ DoCommand _ H3 I eq_refl) as H4.
  pose proof (exec_act _ _ (DoEvent _ (OutboundQueryProgressed 1 (GetRecordResult (Err "Timeout"))))
    _ H4 eq_refl eq_refl) as H5.
  do 2 eexists. split; [exact H5|]. split; [reflexivity|]. split; [reflexivity|].
  exact (proj2 (proj2 (node_answers_own_query (KI := NodeSample.ids) _ _ 1%nat (ReqGet [1]) H5 eq_refl))).
Defined.
