(* ===== verification/Probe.v ===== *)
(** * Port prediction probing

    [voip-client/src/probe.rs]: the QUIC attempts to a predicted port range, raced against
    each other.  The network is a function from a socket address to an [Attempt]: the
    milliseconds a handshake takes and its result, with connections as numbers. *)

From S2P Require Import Prelude Types Config RustStr RustNet NatProbe.

Local Open Scope Z_scope.
Local Open Scope rust_scope.

(** ** Races *)

Definition Attempt : Type := Z * result string Z.

(** [tokio::time::timeout]: when the attempt ends, and its connection if it has one. *)
Definition with_timeout (limit : Z) (a : Attempt) : Z * option Z :=
  if fst a <=? limit
  then (fst a, match snd a with Ok c => Some c | Err _ => None end)
  else (limit, None).

(** [JoinSet::join_next] returns the tasks in the order in which they end; the loops over it
    stop at the first success. *)
Fixpoint first_success {A : Type} (l : list (Z * option A)) : option (Z * A) :=
  match l with
  | [] => None
  | (t, Some a) :: _ => Some (t, a)
  | (_, None) :: l' => first_success l'
  end.

Definition race {A : Type} (l : list (Z * option A)) : option (Z * A) :=
  first_success (sort_by_key fst l).

(** ** The prober *)

Inductive ProbeError :=
| AllPortsExhausted
| ProbeTimeout (ms : Z)
| PredictionNotAvailable.

Section Prober.
Context (m : overflow_mode) (config : VoIPConfig) (quic : SocketAddr -> Attempt).

(** [port_start + max_probes as u16 - 1] in [u16]. *)
Definition effective_end (port_start port_end : Z) : option Z :=
  let?o sum := arith m 16 (port_start + cast 16 (prediction_max_probes config)) in
  let?o last := arith m 16 (sum - 1) in
  Some (Z.min port_end last).

(** The unused range size is computed too, in [u32]. *)
Definition range_size (port_start port_end : Z) : option Z :=
  let?o diff := arith m 32 (port_end - port_start) in arith m 32 (diff + 1).

Definition probed_ports (port_start port_end : Z) : option (list Z) :=
  let?o _ := range_size port_start port_end in
  let?o last := effective_end port_start port_end in
  Some (seqZ port_start (last - port_start + 1)).

Definition port_addr (target_ip : string) (port : Z) : option SocketAddr :=
  parse_socket_addr (target_ip +:+ ":" +:+ string_of_bytes (decimal port)).

(** The spawned attempts; ports whose address does not parse are skipped. *)
Definition port_attempts (target_ip : string) (timeout_ms : Z) (ports : list Z)
    : list (Z * option Z) :=
  omap (fun port => option_map (fun a => with_timeout timeout_ms (quic a)) (port_addr target_ip port))
    ports.

Definition probe_range (target_ip : string) (port_start port_end timeout_ms : Z)
    : option (result ProbeError Z) :=
  let?o ports := probed_ports port_start port_end in
  let attempts := port_attempts target_ip timeout_ms ports in
  let overall := quic_prediction_timeout_ms config in
  Some (match race attempts with
        | Some (t, conn) => if t <=? overall then Ok conn else Err (ProbeTimeout overall)
        | None => if forallb (fun a => fst a <=? overall) attempts then Err AllPortsExhausted
                  else Err (ProbeTimeout overall)
        end).

Definition probe_single_port (target_ip : string) (port timeout_ms : Z) : result ProbeError Z :=
  let? addr := ok_or (port_addr target_ip port) PredictionNotAvailable in
  match with_timeout timeout_ms (quic addr) with
  | (_, Some conn) => Ok conn
  | (_, None) => Err (ProbeTimeout timeout_ms)
  end.

Definition predicted_range (p : PortPredictionData) : Z * Z :=
  (cast 16 (predicted_port_start p), cast 16 (predicted_port_end p)).

Definition margin_for_confidence (c : PredictionConfidence) : Z :=
  match c with
  | Confidence_Sequential => cast 16 (prediction_margin_sequential config)
  | Confidence_PseudoSequential => cast 16 (prediction_margin_pseudo config)
  | Confidence_Random => 0
  end.

(** [OneSidedPredictionStrategy::execute]. *)
Definition one_sided_execute (p : PortPredictionData) (target_ip : string)
    : option (result ProbeError Z) :=
  let (start, stop) := predicted_range p in
  probe_range target_ip start stop (quic_prediction_timeout_ms config).
End Prober.

(** ** Facts *)

Lemma first_success_In {A} (l : list (Z * option A)) t a :
  first_success l = Some (t, a) -> (t, Some a) ∈ l.
Proof.
  induction l as [|[t' [b|]] l IH]; simpl; [done| |].
  - intros [= <- <-]. by left.
  - intros H. right. by apply IH.
Qed.

Lemma first_success_None {A} (l : list (Z * option A)) :
  first_success l = None <-> Forall (fun x => snd x = None) l.
Proof.
  induction l as [|[t [b|]] l IH]; simpl; [done| |].
  - split; [done|]. inversion 1; by simplify_eq/=.
  - rewrite IH. split; [by constructor|]. by inversion 1.
Qed.

Lemma first_success_min {A} (l : list (Z * option A)) t a :
  StronglySorted (key_le fst) l -> first_success l = Some (t, a) ->
  forall t' a', (t', Some a') ∈ l -> t <= t'.
Proof.
  induction 1 as [|[t0 [b|]] l Hs IH Hl]; simpl; [done| |].
  - intros [= <- <-] t' a' [[= <- <-]|Hin]%elem_of_cons; [lia|].
    rewrite Forall_forall in Hl. apply (Hl _ Hin).
  - intros Hf t' a' [[=]|Hin]%elem_of_cons. by eapply IH.
Qed.

Lemma race_In {A} (l : list (Z * option A)) t a : race l = Some (t, a) -> (t, Some a) ∈ l.
Proof. intros H. apply first_success_In in H. by rewrite sort_by_key_perm in H. Qed.

Lemma race_None {A} (l : list (Z * option A)) :
  race l = None <-> Forall (fun x => snd x = None) l.
Proof. unfold race. rewrite first_success_None. by rewrite sort_by_key_perm. Qed.

Lemma race_min {A} (l : list (Z * option A)) t a :
  race l = Some (t, a) -> forall t' a', (t', Some a') ∈ l -> t <= t'.
Proof.
  intros H t' a' Hin.
  eapply first_success_min; [apply sort_by_key_sorted|exact H|].
  by rewrite sort_by_key_perm.
Qed.

(** A race in which only one value can win. *)
Lemma race_unique {A} (l : list (Z * option A)) t a :
  (t, Some a) ∈ l -> (forall t' a', (t', Some a') ∈ l -> t' = t /\ a' = a) ->
  race l = Some (t, a).
Proof.
  intros Hin Hu. destruct (race l) as [[t' a']|] eqn:E.
  - apply race_In in E. by destruct (Hu _ _ E) as [-> ->].
  - apply race_None in E. rewrite Forall_forall in E. by specialize (E _ Hin).
Qed.

Lemma probed_ports_ok m config start stop :
  0 <= start <= stop -> stop < 2 ^ 16 ->
  1 <= prediction_max_probes config -> start + prediction_max_probes config < 2 ^ 16 ->
  probed_ports m config start stop =
    Some (seqZ start (Z.min (stop - start + 1) (prediction_max_probes config))).
Proof.
  intros H1 H2 H3 H4. unfold probed_ports, range_size, effective_end.
  rewrite (arith_in_range m 32 (stop - start)), (arith_in_range m 32) by lia.
  rewrite cast_small by lia. rewrite !arith_in_range by lia.
  do 2 f_equal. lia.
Qed.

(** Near the last port the probed range is lost: the sum overflows, which panics with
    overflow checks and otherwise leaves no port to probe. *)
Lemma probed_ports_overflow config start stop :
  0 <= start <= stop -> stop < 2 ^ 16 ->
  1 < prediction_max_probes config < 2 ^ 15 -> 2 ^ 16 < start + prediction_max_probes config ->
  probed_ports Checked config start stop = None /\
  probed_ports Wrapping config start stop = Some [].
Proof.
  intros H1 H2 H3 H4. unfold probed_ports, range_size, effective_end.
  rewrite !(arith_in_range _ 32 (stop - start)), !(arith_in_range _ 32) by lia.
  rewrite cast_small by lia.
  assert (in_width 16 (start + prediction_max_probes config) = false) as Hw.
  { apply not_true_iff_false. rewrite in_width_spec. lia. }
  assert (arith Checked 16 (start + prediction_max_probes config) = None) as ->
    by (unfold arith; by rewrite Hw).
  assert (arith Wrapping 16 (start + prediction_max_probes config) =
    Some (start + prediction_max_probes config - 2 ^ 16)) as ->.
  { unfold arith. rewrite Hw. f_equal. symmetry. apply (Zmod_unique _ _ 1); lia. }
  split; [done|]. rewrite arith_in_range by lia. f_equal. apply seqZ_nil. lia.
Qed.

(** ** From the NAT's ports to the connection *)

Lemma ipv4_text_no_colon a b c d :
  0 <= a -> 0 <= b -> 0 <= c -> 0 <= d -> is_ipv6 (ipv4_text a b c d) = false.
Proof.
  intros. apply not_true_iff_false. unfold is_ipv6. rewrite existsb_exists.
  intros (x & Hx & He). apply Z.eqb_eq in He. subst x. apply list_elem_of_In in Hx.
  assert (forall n, 0 <= n -> bytes_ok (decimal n)) as Hok.
  { intros n Hn. eapply Forall_impl; [by apply decimal_digits|]. unfold byte_ok. simpl. lia. }
  unfold ipv4_text in Hx. rewrite as_bytes_of_bytes in Hx by
    (repeat (apply Forall_app_2 || apply Forall_cons_2); try (by apply Hok);
     unfold byte_ok, DOT_CHAR; lia).
  assert (forall n, 0 <= n -> COLON_CHAR ∉ decimal n) as Hf
    by (intros n Hn; apply decimal_fresh; [done|unfold COLON_CHAR; lia]).
  repeat (apply elem_of_app in Hx as [Hx|Hx]; [by eapply Hf, Hx|];
    apply elem_of_cons in Hx as [Hx|Hx]; [discriminate Hx|]).
  by eapply Hf, Hx.
Qed.

(** Only the address with port [next] answers. *)
Definition answers_only (quic : SocketAddr -> Attempt) (octets : list Z) (next t conn : Z) : Prop :=
  quic (V4 octets next) = (t, Ok conn) /\
  forall port, port <> next -> exists t' e, quic (V4 octets port) = (t', Err e).

Lemma probe_range_reaches m config quic a b c d start stop next t conn timeout :
  0 <= a < 256 -> 0 <= b < 256 -> 0 <= c < 256 -> 0 <= d < 256 ->
  0 <= start <= next -> next <= stop < 2 ^ 16 ->
  stop - start + 1 <= prediction_max_probes config ->
  start + prediction_max_probes config < 2 ^ 16 ->
  t <= timeout -> t <= quic_prediction_timeout_ms config ->
  answers_only quic [a; b; c; d] next t conn ->
  probe_range m config quic (ipv4_text a b c d) start stop timeout = Some (Ok conn).
Proof.
  intros Ha Hb Hc Hd Hs Hn Hr Hm Ht Ho [Hq Hother]. unfold probe_range.
  rewrite probed_ports_ok by lia. rewrite Z.min_l by lia.
  assert (forall port, 0 <= port < 2 ^ 16 ->
    port_addr (ipv4_text a b c d) port = Some (V4 [a; b; c; d] port)) as Haddr
    by (intros; by apply parse_ipv4_port).
  rewrite (race_unique _ t conn).
  - by rewrite (proj2 (Z.leb_le _ _) Ho).
  - apply list_elem_of_omap. exists next. split; [apply elem_of_seqZ; lia|].
    rewrite Haddr by lia. cbn [option_map]. rewrite Hq. unfold with_timeout. cbn [fst snd].
    by rewrite (proj2 (Z.leb_le _ _) Ht).
  - intros t' a' Hin. apply list_elem_of_omap in Hin as (port & Hport & He).
    apply elem_of_seqZ in Hport. rewrite Haddr in He by lia. cbn [option_map] in He.
    destruct (decide (port = next)) as [->|Hne].
    + rewrite Hq in He. unfold with_timeout in He. cbn [fst snd] in He.
      rewrite (proj2 (Z.leb_le _ _) Ht) in He. by simplify_eq.
    + destruct (Hother port Hne) as (t0 & e & Hf). rewrite Hf in He.
      unfold with_timeout in He. cbn [fst snd] in He. destruct (_ <=? _); by simplify_eq.
Qed.

(** Prediction works end to end: when a peer's NAT hands out ports in constant steps, the
    probe results classify it as sequential, and probing the predicted range reaches the peer
    on the port its NAT uses next, provided that port answers within the timeout.  The side that
    predicts and the side that probes each have their own configuration. *)
Lemma predicted_port_reached m now results config remote quic r0 rest a b c d p step n t conn :
  results = r0 :: rest ->
  0 <= a < 256 -> 0 <= b < 256 -> 0 <= c < 256 -> 0 <= d < 256 ->
  Forall (fun r => probe_external_ip r = ipv4_text a b c d) results ->
  external_ports results = progression p step (S (S n)) -> step <> 0 ->
  0 <= prediction_margin_sequential config ->
  2 * prediction_margin_sequential config + 1 <= prediction_max_probes remote ->
  let next := p + step * (Z.of_nat (S n) + 1) in
  1024 <= next -> next + prediction_max_probes remote < 2 ^ 16 ->
  t <= quic_prediction_timeout_ms remote ->
  answers_only quic [a; b; c; d] next t conn ->
  exists pr, classify_nat m now results config =
      Some {| nat_type := NATType_SymmetricSequential; prediction := Some pr |} /\
    one_sided_execute m remote quic pr (external_ip pr) = Some (Ok conn).
Proof.
  intros Hres Ha Hb Hc Hd Hip Hports Hstep Hm Hmax next Hlo Hhi Ht Hans.
  rewrite Forall_forall in Hip.
  destruct (next_port_predicted m now results config r0 rest p step n Hres) as
    (pr & l & Hc' & Hl & Hext & Hstart & Hstop & Hw); [| | |lia|lia|]; try done.
  { rewrite Hip by (rewrite Hres; by left). apply ipv4_text_no_colon; lia. }
  exists pr. split; [done|]. fold next in Hstart, Hstop.
  unfold one_sided_execute, predicted_range. rewrite !cast_small by lia.
  rewrite Hext, Hip by (by apply last_Some_elem_of).
  eapply probe_range_reaches; try done; lia.
Qed.

Module ProbeSample.
Definition quic (a : SocketAddr) : Attempt :=
  if decide (addr_port a = 40006) then (120, Ok 7) else (3000, Err "closed").
End ProbeSample.

Lemma predicted_port_reached_witness :
  exists pr, classify_nat Checked 0
      (map (NatSample.result_at (ipv4_text 1 2 3 4)) [40000; 40002; 40004]) default_config =
      Some {| nat_type := NATType_SymmetricSequential; prediction := Some pr |} /\
    one_sided_execute Checked default_config ProbeSample.quic pr (external_ip pr) = Some (Ok 7).
Proof.
  apply (predicted_port_reached Checked 0
    (map (NatSample.result_at (ipv4_text 1 2 3 4)) [40000; 40002; 40004]) default_config
    default_config ProbeSample.quic (NatSample.result_at (ipv4_text 1 2 3 4) 40000)
    (map (NatSample.result_at (ipv4_text 1 2 3 4)) [40002; 40004]) 1 2 3 4 40000 2 1 120 7).
  - reflexivity.
  - lia.
  - lia.
  - lia.
  - lia.
  - repeat constructor.
  - reflexivity.
  - discriminate.
  - vm_compute. congruence.
  - vm_compute. congruence.
  - vm_compute. congruence.
  - vm_compute. reflexivity.
  - vm_compute. congruence.
  - split; [reflexivity|]. intros port Hp. exists 3000, "closed"%string.
    unfold ProbeSample.quic. cbn [addr_port]. destruct (decide (port = 40006)); [|reflexivity].
    contradiction.
Defined.
