(* ===== verification/Connection.v ===== *)
(** * Connection establishment

    [voip-client/src/connection.rs]: the chain of [ConnectionManager::establish_connection]
    from IPv6 over simultaneous open and port prediction to the MASQUE relays, with Happy
    Eyeballs and the race of simultaneous open.  The network's behaviour in each step is an
    argument ([Net]); connections are numbers, as in the tunnels of [Masque]. *)

From S2P Require Import Prelude Types Config Crypto RustStr RustNet NatProbe Probe Masque Proxy.
From S2P Require Import DhtRecord.

Local Open Scope Z_scope.
Local Open Scope rust_scope.

Record VoipConnection := {
  quic_connection : Z;
  vc_method : ConnectionMethod;
  masque_tunnel : option MasqueTunnel
}.

Definition new_direct (conn : Z) (method : ConnectionMethod) : VoipConnection :=
  {| quic_connection := conn; vc_method := method; masque_tunnel := None |}.

Definition new_masque (method : ConnectionMethod) (tunnel : MasqueTunnel) : VoipConnection :=
  {| quic_connection := quic_conn tunnel; vc_method := method; masque_tunnel := Some tunnel |}.

(** The errors of quinn are texts; those of the steps of the chain are only logged. *)
Inductive ConnectError :=
| Connect_QuicError (s : string)
| Connect_NetworkError (s : string)
| Connect_QuicTimeout (ms : Z)
| Connect_NatProbeFailed (s : string)
| AllMethodsFailed
| Connect_MasqueUnreachable.

(** What the network does in the steps of one establishment: handshakes to an address, an
    incoming connection, whether the accepting task is looked at first when both tasks of the
    race have ended, and the two relay transports per proxy. *)
Record Net := {
  net_eyeballs : SocketAddr -> Attempt;
  net_direct : SocketAddr -> Attempt;
  net_open : SocketAddr -> Attempt;
  net_accept : Attempt;
  net_accept_first : bool;
  net_open_again : SocketAddr -> Attempt;
  net_probe : SocketAddr -> Attempt;
  net_http3 : ProxyRecord -> Http3Io;
  net_http2 : ProxyRecord -> Http2Io
}.

(** ** Happy Eyeballs *)

Definition HAPPY_EYEBALLS_IPV6_HEAD_START : Z := 25.

(** The raced attempts, with the address in the result: the IPv4 ones start later. *)
Definition eyeballs_attempts (quic : SocketAddr -> Attempt) (v6 v4 : list SocketAddr)
    (timeout : Z) : list (Z * option (SocketAddr * Z)) :=
  let attempt delay a :=
    let (t, r) := with_timeout timeout (quic a) in (delay + t, option_map (fun c => (a, c)) r) in
  map (attempt 0) v6 ++ map (attempt HAPPY_EYEBALLS_IPV6_HEAD_START) v4.

Definition happy_eyeballs_connect (quic : SocketAddr -> Attempt) (v6 v4 : list SocketAddr)
    (timeout : Z) : option (SocketAddr * Z) :=
  option_map snd (race (eyeballs_attempts quic v6 v4 timeout)).

(** ** Simultaneous open *)

(** The connecting task: the addresses one after the other. *)
Fixpoint connect_task (quic : SocketAddr -> Attempt) (addrs : list SocketAddr) (timeout : Z)
    : Z * option Z :=
  match addrs with
  | [] => (0, None)
  | a :: rest =>
      match with_timeout timeout (quic a) with
      | (t, Some c) => (t, Some c)
      | (t, None) => let (t', r) := connect_task quic rest timeout in (t + t', r)
      end
  end.

(** The [select!] loop over the two tasks.  The first task to end decides when it has a
    connection.  When it failed and the other one is still running, the loop goes round and
    polls the ended task again, which panics ([None]); when both have ended the loop is left
    with the failure. *)
Definition select_loop (accept_first : bool) (accept connect : Z * option Z)
    : option (option Z) :=
  let first_then other_ended r := match r with
                                  | Some c => Some (Some c)
                                  | None => if (other_ended : bool) then Some None else None
                                  end in
  if fst accept <? fst connect then first_then false (snd accept)
  else if fst connect <? fst accept then first_then false (snd connect)
  else first_then true (if accept_first then snd accept else snd connect).

Definition try_simultaneous_open_full (n : Net) (addrs : list SocketAddr) (timeout : Z)
    : option (option Z) :=
  select_loop (net_accept_first n) (with_timeout timeout (net_accept n))
    (connect_task (net_open n) addrs timeout).

(** ** The manager *)

Definition parse_all (l : list string) : list SocketAddr := omap parse_socket_addr l.

Definition proto_nat_info_to_native (o : option ProtoNATInfo) : NATInfo :=
  match o with Some n => NATInfo_from_proto n | None => no_nat end.

(** The first address that connects. *)
Fixpoint first_connect (quic : SocketAddr -> Attempt) (timeout : Z) (addrs : list SocketAddr)
    : option Z :=
  match addrs with
  | [] => None
  | a :: rest =>
      match snd (with_timeout timeout (quic a)) with
      | Some c => Some c
      | None => first_connect quic timeout rest
      end
  end.

Section Manager.
Context (m : overflow_mode) (config : VoIPConfig) (n : Net).

Definition try_happy_eyeballs (peer : ProtoPeerRecord) : option VoipConnection :=
  let v6 := parse_all (ppr_ipv6_addresses peer) in
  let v4 := parse_all (ppr_ipv4_reflexive peer) in
  match v6, v4 with
  | [], [] => None
  | _, _ =>
      match happy_eyeballs_connect (net_eyeballs n) v6 v4 (quic_connect_timeout_ms config) with
      | Some (remote, conn) =>
          Some (new_direct conn (if is_ipv6_addr remote then Conn_Ipv6Direct else Conn_Ipv4Cone))
      | None => None
      end
  end.

Definition try_ipv6_direct (peer : ProtoPeerRecord) : option VoipConnection :=
  option_map (fun c => new_direct c Conn_Ipv6Direct)
    (first_connect (net_direct n) (quic_connect_timeout_ms config)
       (parse_all (ppr_ipv6_addresses peer))).

(** [None] when the race panics. *)
Definition try_simultaneous_open (peer : ProtoPeerRecord) : option (option VoipConnection) :=
  let addrs := parse_all (ppr_ipv4_reflexive peer) in
  match addrs with
  | [] => Some None
  | _ =>
      let?o r := try_simultaneous_open_full n addrs (quic_connect_timeout_ms config) in
      let r := match r with
               | Some c => Some c
               | None => first_connect (net_open_again n) (quic_connect_timeout_ms config) addrs
               end in
      Some (option_map (fun c => new_direct c Conn_Ipv4Cone) r)
  end.

(** Only the peer's prediction is tried; [None] on an overflow panic. *)
Definition try_port_prediction (peer : ProtoPeerRecord) (local_nat : option NATInfo)
    : option (option VoipConnection) :=
  match prediction (proto_nat_info_to_native (ppr_nat_info peer)) with
  | Some p =>
      let?o r := probe_range m config (net_probe n) (external_ip p)
                   (cast 16 (predicted_port_start p)) (cast 16 (predicted_port_end p))
                   (quic_prediction_timeout_ms config) in
      Some (match r with Ok c => Some (new_direct c Conn_Ipv4Prediction) | Err _ => None end)
  | None => Some None
  end.

Definition relay_candidates (proxies : list ProxyRecord) : list ProxyRecord :=
  take (Z.to_nat (masque_max_proxy_attempts config)) proxies.

Fixpoint first_tunnel (connect : ProxyRecord -> result MasqueError MasqueTunnel)
    (proxies : list ProxyRecord) : option MasqueTunnel :=
  match proxies with
  | [] => None
  | p :: rest => match connect p with Ok t => Some t | Err _ => first_tunnel connect rest end
  end.

Definition try_masque_http3 (proxies : list ProxyRecord) (connection_id : list Z)
    : option MasqueTunnel :=
  first_tunnel (fun p => connect_http3 (net_http3 n p) (pr_proxy_url p) (hex_encode connection_id)
                           None) (relay_candidates proxies).

Definition try_masque_http2 (proxies : list ProxyRecord) (connection_id : list Z)
    : option MasqueTunnel :=
  first_tunnel (fun p => connect_http2 (net_http2 n p) (pr_proxy_url p) (hex_encode connection_id)
                           None) (relay_candidates proxies).

(** ** The chain

    Each step is tried when its condition holds and the steps before it gave nothing;
    [None] is a panic of a step. *)

Definition opt_else (x : option (option VoipConnection)) (k : option (result ConnectError VoipConnection))
    : option (result ConnectError VoipConnection) :=
  match x with
  | None => None
  | Some (Some conn) => Some (Ok conn)
  | Some None => k
  end.

Section Chain.
Context (local_nat : option NATInfo) (udp_blocked : bool) (peer : ProtoPeerRecord)
  (connection_id : list Z) (proxies : list ProxyRecord).

Definition local_type_is (f : NATType -> bool) : bool :=
  match local_nat with Some i => f (nat_type i) | None => false end.

Definition peer_type_is (f : NATType -> bool) : bool :=
  f (nat_type (proto_nat_info_to_native (ppr_nat_info peer))).

Definition is_cone (t : NATType) : bool := match t with NATType_Cone => true | _ => false end.

Definition step_ipv6 : option VoipConnection :=
  if negb (zlen (ppr_ipv6_addresses peer) =? 0) && negb udp_blocked
  then if negb (zlen (ppr_ipv4_reflexive peer) =? 0) then try_happy_eyeballs peer
       else try_ipv6_direct peer
  else None.

Definition step_cone : option (option VoipConnection) :=
  if (local_type_is is_cone || peer_type_is is_cone) && negb udp_blocked
  then try_simultaneous_open peer else Some None.

Definition step_prediction : option (option VoipConnection) :=
  if (local_type_is NATType_is_predictable || peer_type_is NATType_is_predictable) &&
     negb udp_blocked
  then try_port_prediction peer local_nat else Some None.

Definition step_masque : option VoipConnection :=
  if masque_fallback_enabled config && negb (zlen proxies =? 0)
  then
    match (if negb udp_blocked then try_masque_http3 proxies connection_id else None) with
    | Some t => Some (new_masque Conn_Masque t)
    | None => option_map (new_masque Conn_MasqueHttp2) (try_masque_http2 proxies connection_id)
    end
  else None.

Definition establish_connection : option (result ConnectError VoipConnection) :=
  opt_else (Some step_ipv6)
    (opt_else step_cone
       (opt_else step_prediction
          (opt_else (Some step_masque) (Some (Err AllMethodsFailed))))).
End Chain.
End Manager.

(** ** Facts *)

(** Only bracketed text is an IPv6 socket address. *)
Lemma parse_v6_bracket s groups scope port :
  parse_socket_addr s = Some (V6 groups scope port) -> head (as_bytes s) = Some 91.
Proof.
  unfold parse_socket_addr. destruct (read_socket_addr_v4 _) as [[a rest]|] eqn:E4.
  - unfold read_socket_addr_v4 in E4. destruct (read_ipv4_addr _) as [[ip l]|]; [|done].
    destruct (read_port l) as [[p l']|]; [|done]. injection E4 as <- <-. by destruct l'.
  - unfold read_socket_addr_v6. destruct (as_bytes s) as [|b l]; [done|].
    cbn [read_given_char]. destruct (Z.eqb_spec b 91); [by subst|done].
Qed.

(** What one attempt contributes to the race. *)
Lemma eyeballs_attempt_In quic v6 v4 timeout t a c :
  (t, Some (a, c)) ∈ eyeballs_attempts quic v6 v4 timeout <->
  exists t0, quic a = (t0, Ok c) /\ t0 <= timeout /\
    (a ∈ v6 /\ t = t0 \/ a ∈ v4 /\ t = HAPPY_EYEBALLS_IPV6_HEAD_START + t0).
Proof.
  unfold eyeballs_attempts. cbv zeta. rewrite elem_of_app, !list_elem_of_fmap. split.
  - intros [(x & Hx & Hin)|(x & Hx & Hin)]; unfold with_timeout in Hx;
      destruct (quic x) as [t0 [c0|e]] eqn:Eq; cbn [fst snd] in Hx;
      destruct (t0 <=? timeout) eqn:Et; simplify_eq/=; bool_to_prop; eauto 6.
  - intros (t0 & Hq & Ht & [[Hin ->]|[Hin ->]]); [left|right]; exists a;
      unfold with_timeout; rewrite Hq; cbn [fst snd]; by rewrite (proj2 (Z.leb_le _ _) Ht).
Qed.

Lemma eyeballs_won quic v6 v4 timeout remote conn :
  happy_eyeballs_connect quic v6 v4 timeout = Some (remote, conn) -> remote ∈ v6 ++ v4.
Proof.
  unfold happy_eyeballs_connect. destruct (race _) as [[t [a c]]|] eqn:E; [|done].
  intros [= <- <-]. apply race_In, eyeballs_attempt_In in E as (t0 & _ & _ & Hin).
  set_solver.
Qed.

(** C27: Happy Eyeballs connects exactly when some address answers within the timeout, and an
    IPv4 address wins only over IPv6 addresses that need at least the head start longer. *)
Theorem happy_eyeballs_correct quic v6 v4 timeout :
  (forall a, a ∈ v6 -> is_ipv6_addr a = true) -> (forall a, a ∈ v4 -> is_ipv6_addr a = false) ->
  match happy_eyeballs_connect quic v6 v4 timeout with
  | Some (remote, conn) =>
      exists t, quic remote = (t, Ok conn) /\ t <= timeout /\ remote ∈ v6 ++ v4 /\
        (is_ipv6_addr remote = false ->
         forall a t' c, a ∈ v6 -> quic a = (t', Ok c) -> t' <= timeout ->
           t + HAPPY_EYEBALLS_IPV6_HEAD_START <= t')
  | None => forall a t c, a ∈ v6 ++ v4 -> quic a = (t, Ok c) -> timeout < t
  end.
Proof.
  intros H6 H4. destruct (happy_eyeballs_connect quic v6 v4 timeout) as [[remote conn]|] eqn:E.
  - pose proof (eyeballs_won _ _ _ _ _ _ E) as Hin. unfold happy_eyeballs_connect in E.
    destruct (race _) as [[t [a c]]|] eqn:Er; [|done]. injection E as -> ->.
    pose proof (race_min _ _ _ Er) as Hmin. apply race_In, eyeballs_attempt_In in Er.
    destruct Er as (t0 & Hq & Ht & Hcase). exists t0. do 3 (split; [done|]).
    intros Hv4 a' t' c' Hin' Hq' Ht'.
    assert (t <= t') as Hle by (eapply Hmin, eyeballs_attempt_In; eauto 6).
    destruct Hcase as [[Hr ->]|[Hr ->]]; [by rewrite (H6 _ Hr) in Hv4|]. lia.
  - unfold happy_eyeballs_connect in E. destruct (race _) as [[t [a c]]|] eqn:Er; [done|].
    apply race_None in Er. rewrite Forall_forall in Er. intros a t c Hin Hq.
    destruct (Z.lt_ge_cases timeout t) as [|Hle]; [done|]. exfalso.
    apply elem_of_app in Hin as [Hin|Hin].
    + assert ((t, Some (a, c)) ∈ eyeballs_attempts quic v6 v4 timeout) as Hx
        by (apply eyeballs_attempt_In; eauto 6). by specialize (Er _ Hx).
    + assert ((HAPPY_EYEBALLS_IPV6_HEAD_START + t, Some (a, c)) ∈
        eyeballs_attempts quic v6 v4 timeout) as Hx
        by (apply eyeballs_attempt_In; eauto 6). by specialize (Er _ Hx).
Qed.

(** Simultaneous open survives only a first finisher that has a connection, or a tie:
    when the accepting or the connecting task fails while the other one is still running, the
    loop polls the finished task again and panics, although the other may yet connect. *)
Lemma simultaneous_open_panics net addrs timeout :
  let accept := with_timeout timeout (net_accept net) in
  let connect := connect_task (net_open net) addrs timeout in
  try_simultaneous_open_full net addrs timeout = None <->
  (fst accept < fst connect /\ snd accept = None) \/
  (fst connect < fst accept /\ snd connect = None).
Proof.
  intros accept connect. unfold try_simultaneous_open_full, select_loop.
  fold accept connect. destruct accept as [ta ra], connect as [tc rc]. cbn [fst snd].
  destruct (ta <? tc) eqn:E1; [|destruct (tc <? ta) eqn:E2]; bool_to_prop.
  - destruct ra; split; try done; [intros [[_ [=]]|[? _]]; lia|by left].
  - destruct rc; split; try done; [intros [[? _]|[_ [=]]]; lia|by right].
  - destruct (net_accept_first net), ra, rc; split; try done; intros [[? _]|[? _]]; lia.
Qed.

(** ** The chain *)

Section ChainFacts.
Context (m : overflow_mode) (config : VoIPConfig) (n : Net) (local_nat : option NATInfo)
  (udp_blocked : bool) (peer : ProtoPeerRecord) (cid : list Z) (proxies : list ProxyRecord).

(** A connection to the peer itself, without a tunnel. *)
Definition direct (c : VoipConnection) : Prop :=
  is_relayed (vc_method c) = false /\ masque_tunnel c = None.

Lemma step_ipv6_direct c :
  step_ipv6 config n udp_blocked peer = Some c -> udp_blocked = false /\ direct c.
Proof.
  unfold step_ipv6. destruct (_ && negb udp_blocked) eqn:E; [|done].
  apply andb_true_iff in E as [_ Hu]. bool_to_prop.
  assert (forall c m, m = Conn_Ipv6Direct \/ m = Conn_Ipv4Cone -> direct (new_direct c m)) as Hd
    by (intros c' m' [-> | ->]; done).
  destruct (negb _); intros Hs; (split; [done|]).
  - unfold try_happy_eyeballs in Hs.
    destruct (parse_all (ppr_ipv6_addresses peer)), (parse_all (ppr_ipv4_reflexive peer)); try done;
      destruct (happy_eyeballs_connect _ _ _ _) as [[remote conn]|]; simplify_eq;
      apply Hd; destruct (is_ipv6_addr remote); auto.
  - unfold try_ipv6_direct in Hs. destruct (first_connect _ _ _); simplify_eq/=.
    apply Hd. by left.
Qed.

Lemma step_cone_direct c :
  step_cone config n local_nat udp_blocked peer = Some (Some c) -> udp_blocked = false /\ direct c.
Proof.
  unfold step_cone. destruct (_ && negb udp_blocked) eqn:E; [|done].
  apply andb_true_iff in E as [_ Hu]. bool_to_prop. intros Hs. split; [done|].
  unfold try_simultaneous_open in Hs. destruct (parse_all _); [done|].
  destruct (try_simultaneous_open_full _ _ _) as [[c'|]|]; simplify_eq/=; [done|].
  match type of Hs with option_map _ ?o = _ => by destruct o; simplify_eq/= end.
Qed.

Lemma step_prediction_direct c :
  step_prediction m config n local_nat udp_blocked peer = Some (Some c) ->
  udp_blocked = false /\ direct c.
Proof.
  unfold step_prediction. destruct (_ && negb udp_blocked) eqn:E; [|done].
  apply andb_true_iff in E as [_ Hu]. bool_to_prop. intros Hs. split; [done|].
  unfold try_port_prediction in Hs. destruct (prediction _); [|done].
  destruct (probe_range _ _ _ _ _ _ _) as [[c'|e]|]; by simplify_eq/=.
Qed.

Lemma step_masque_relayed c :
  step_masque config n udp_blocked cid proxies = Some c ->
  masque_fallback_enabled config = true /\ proxies <> [] /\
  is_relayed (vc_method c) = true /\ is_Some (masque_tunnel c) /\
  (udp_blocked = true -> vc_method c = Conn_MasqueHttp2).
Proof.
  unfold step_masque. destruct (masque_fallback_enabled config); [|done].
  destruct proxies as [|p ps]; [done|].
  replace (zlen (p :: ps) =? 0) with false
    by (rewrite zlen_cons; pose proof (zlen_nonneg ps); lia).
  cbn [negb andb]. intros Hs. do 2 (split; [done|]).
  destruct (if negb udp_blocked then _ else None) as [t|] eqn:E3.
  - injection Hs as <-. split; [done|]. split; [by eexists|]. intros ->. done.
  - destruct (try_masque_http2 _ _ _ _) as [t|]; simplify_eq/=. eauto.
Qed.
End ChainFacts.

(** C2: the outcome of connection establishment.  A relay is used only when every direct
    method that applies has failed, only when relaying is enabled and proxies are known, and
    exactly the relayed connections carry a tunnel; with UDP blocked only the HTTP/2 relay is
    used; and the error is reported only when every applicable method failed. *)
Theorem connection_chain m config n local_nat udp_blocked peer cid proxies r :
  establish_connection m config n local_nat udp_blocked peer cid proxies = Some r ->
  match r with
  | Ok conn =>
      (is_relayed (vc_method conn) = true ->
       step_ipv6 config n udp_blocked peer = None /\
       step_cone config n local_nat udp_blocked peer = Some None /\
       step_prediction m config n local_nat udp_blocked peer = Some None /\
       masque_fallback_enabled config = true /\ proxies <> []) /\
      (is_relayed (vc_method conn) = true <-> is_Some (masque_tunnel conn)) /\
      (udp_blocked = true -> vc_method conn = Conn_MasqueHttp2)
  | Err _ =>
      step_ipv6 config n udp_blocked peer = None /\
      step_cone config n local_nat udp_blocked peer = Some None /\
      step_prediction m config n local_nat udp_blocked peer = Some None /\
      step_masque config n udp_blocked cid proxies = None
  end.
Proof.
  unfold establish_connection.
  assert (forall c, udp_blocked = false /\ direct c ->
    (is_relayed (vc_method c) = true -> False) /\
    (is_relayed (vc_method c) = true <-> is_Some (masque_tunnel c)) /\
    (udp_blocked = true -> vc_method c = Conn_MasqueHttp2)) as Hdir.
  { intros c (-> & Hr & Ht). rewrite Hr, Ht. repeat split; try done; by intros [? [=]]. }
  destruct (step_ipv6 _ _ _ _) as [c|] eqn:E1; cbn [opt_else].
  { intros [= <-]. apply step_ipv6_direct, Hdir in E1 as (? & ? & ?). tauto. }
  destruct (step_cone _ _ _ _ _) as [[c|]|] eqn:E2; cbn [opt_else]; [|  |done].
  { intros [= <-]. apply step_cone_direct, Hdir in E2 as (? & ? & ?). tauto. }
  destruct (step_prediction _ _ _ _ _ _) as [[c|]|] eqn:E3; cbn [opt_else]; [| |done].
  { intros [= <-]. apply step_prediction_direct, Hdir in E3 as (? & ? & ?). tauto. }
  destruct (step_masque _ _ _ _ _) as [c|] eqn:E4; cbn [opt_else]; intros [= <-]; [|done].
  apply step_masque_relayed in E4 as (? & ? & Hr & Ht & ?). tauto.
Qed.

(** ** Bare IPv6 addresses *)

Lemma read_digits_suffix radix l v c v' c' rest :
  read_digits radix v c l = (v', c', rest) -> exists pre, l = pre ++ rest.
Proof.
  revert v c. induction l as [|b l IH]; intros v c; simpl; [intros [= <- <- <-]; by exists []|].
  destruct (to_digit radix b); [|intros [= <- <- <-]; by exists []].
  intros H. destruct (IH _ _ H) as [pre ->]. by exists (b :: pre).
Qed.

Lemma parse_v4_dot s octets port :
  parse_socket_addr s = Some (V4 octets port) -> DOT_CHAR ∈ as_bytes s.
Proof.
  unfold parse_socket_addr. destruct (read_socket_addr_v4 _) as [[a rest]|] eqn:E4.
  - intros _. unfold read_socket_addr_v4, read_ipv4_addr, read_octet, read_number in E4.
    destruct (read_digits 10 0 0 (as_bytes s)) as [[v c] l1] eqn:Ed.
    apply read_digits_suffix in Ed as [pre Hp].
    repeat (destruct (_ : bool) in E4; [done|]).
    destruct (v <? 2 ^ 8); [|done]. destruct l1 as [|b l2]; [done|].
    cbn [read_given_char] in E4. destruct (Z.eqb_spec b DOT_CHAR) as [->|]; [|done].
    rewrite Hp. set_solver.
  - unfold read_socket_addr_v6. repeat case_match; intros; simplify_eq.
Qed.

Definition bare_ipv6 (s : string) : Prop := head (as_bytes s) <> Some 91 /\ DOT_CHAR ∉ as_bytes s.

Lemma parse_bare_ipv6 s : bare_ipv6 s -> parse_socket_addr s = None.
Proof.
  intros [Hb Hd]. destruct (parse_socket_addr s) as [[o p|g sc p]|] eqn:E; [| |done].
  - by apply parse_v4_dot in E.
  - by apply parse_v6_bracket in E.
Qed.

Lemma parse_all_bare l : Forall bare_ipv6 l -> parse_all l = [].
Proof.
  unfold parse_all. induction 1 as [|s l Hs _ IH]; [done|].
  cbn [omap list_omap]. by rewrite (parse_bare_ipv6 s Hs).
Qed.

(** IPv6 addresses without brackets and port, the form in which peers register them, are
    not socket addresses: a peer that lists only such addresses and IPv4 addresses with ports
    is never connected over IPv6, whatever the network does. *)
Lemma bare_ipv6_never_used m config n local_nat udp_blocked peer cid proxies conn :
  Forall bare_ipv6 (ppr_ipv6_addresses peer) ->
  Forall (fun a => is_ipv6_addr a = false) (parse_all (ppr_ipv4_reflexive peer)) ->
  establish_connection m config n local_nat udp_blocked peer cid proxies = Some (Ok conn) ->
  vc_method conn <> Conn_Ipv6Direct.
Proof.
  intros H6 H4 He Hm. unfold establish_connection in He.
  assert (step_ipv6 config n udp_blocked peer = Some conn -> False) as H1.
  { unfold step_ipv6. destruct (_ && _); [|done]. destruct (negb _).
    - unfold try_happy_eyeballs. rewrite parse_all_bare by done.
      destruct (parse_all (ppr_ipv4_reflexive peer)) as [|a v4] eqn:Ev; [done|].
      destruct (happy_eyeballs_connect _ _ _ _) as [[remote c]|] eqn:Eh; [|done].
      intros [= <-]. apply eyeballs_won in Eh. rewrite Forall_forall in H4.
      cbn [app vc_method new_direct] in *. by rewrite (H4 _ Eh) in Hm.
    - unfold try_ipv6_direct. by rewrite parse_all_bare. }
  destruct (step_ipv6 _ _ _ _) as [c|]; cbn [opt_else] in He; [apply H1; congruence|].
  destruct (step_cone _ _ _ _ _) as [[c|]|] eqn:E2; cbn [opt_else] in He; [| |done].
  { injection He as <-. unfold step_cone, try_simultaneous_open in E2.
    destruct (_ && _); [|done]. destruct (parse_all _); [done|].
    destruct (try_simultaneous_open_full _ _ _) as [o|]; [|done].
    match type of E2 with Some (option_map _ ?x) = _ => destruct x end; by simplify_eq/=. }
  destruct (step_prediction _ _ _ _ _ _) as [[c|]|] eqn:E3; cbn [opt_else] in He; [| |done].
  { injection He as <-. unfold step_prediction, try_port_prediction in E3.
    destruct (_ && _); [|done]. destruct (prediction _); [|done].
    destruct (probe_range _ _ _ _ _ _ _) as [[c'|e]|]; by simplify_eq/=. }
  destruct (step_masque _ _ _ _ _) as [c|] eqn:E4; cbn [opt_else] in He; simplify_eq.
  apply step_masque_relayed in E4 as (_ & _ & Hr & _). by rewrite Hm in Hr.
Qed.

(** ** Concrete runs *)

Module ConnectionSample.
Definition peer (v6 v4 : list string) : ProtoPeerRecord := {|
  ppr_peer_id := "aa"; ppr_display_name := "alice"; ppr_ipv6_addresses := v6;
  ppr_ipv4_reflexive := v4; ppr_nat_info := Some {| pni_nat_type := 1; pni_prediction := None |};
  ppr_tracks := []; ppr_status := 0; ppr_timestamp := 0; ppr_ttl_seconds := 3600;
  ppr_signature := []
|}.

Definition answer (a : SocketAddr) : Attempt := (40, Ok (addr_port a)).
Definition silent : Attempt := (100000, Err "closed").

Definition io3 : Http3Io := {|
  h3_lookup := fun _ => Err "unreachable"; h3_config := Ok TokenProxy.quic_config;
  h3_endpoint := None; h3_connect := fun _ _ => Err "unreachable"; h3_handshake := None; h3_build := fun _ => None;
  h3_send := None; h3_finish := None; h3_answer := fun _ => AnswerStatus 200
|}.
Definition io2 : Http2Io := {|
  h2_tcp := None; h2_tls_config := Ok TokenProxy.config; h2_server_name := fun _ => None;
  h2_tls := h2_tls TokenProxy.io2; h2_build := fun _ => None; h2_handshake := None;
  h2_send := None; h2_answer := fun _ => AnswerStatus 200; h2_loopback := TokenProxy.loopback
|}.

(** Every address answers, nobody connects in, and the HTTP/2 relay works. *)
Definition network : Net := {|
  net_eyeballs := answer; net_direct := answer; net_open := answer; net_accept := silent;
  net_accept_first := true; net_open_again := answer; net_probe := answer;
  net_http3 := fun _ => io3; net_http2 := fun _ => io2
|}.
End ConnectionSample.

Lemma happy_eyeballs_correct_witness :
  happy_eyeballs_connect ConnectionSample.answer [V6 [1] 0 500] [V4 [1; 2; 3; 4] 600] 5000 =
    Some (V6 [1] 0 500, 500) /\
  exists t, ConnectionSample.answer (V6 [1] 0 500) = (t, Ok 500) /\ t <= 5000.
Proof.
  split; [vm_compute; reflexivity|].
  pose proof (happy_eyeballs_correct ConnectionSample.answer [V6 [1] 0 500]
    [V4 [1; 2; 3; 4] 600] 5000
    ltac:(intros a Ha; apply list_elem_of_singleton in Ha; rewrite Ha; reflexivity)
    ltac:(intros a Ha; apply list_elem_of_singleton in Ha; rewrite Ha; reflexivity)) as H.
  vm_compute in H. destruct H as (t & Hq & Ht & _). exists t. split; [exact Hq|exact Ht].
Defined.

Lemma connection_chain_witness :
  exists conn, establish_connection Checked default_config ConnectionSample.network None true
    (ConnectionSample.peer ["2001:db8::1"] ["1.2.3.4:5000"]) [1; 2]
    [ProxySample.record "https://p" 10] = Some (Ok conn) /\ vc_method conn = Conn_MasqueHttp2.
Proof.
  destruct (establish_connection Checked default_config ConnectionSample.network None true
    (ConnectionSample.peer ["2001:db8::1"] ["1.2.3.4:5000"]) [1; 2]
    [ProxySample.record "https://p" 10]) as [[conn|e]|] eqn:E;
    [|vm_compute in E; discriminate E|vm_compute in E; discriminate E].
  exists conn. split; [reflexivity|].
  exact (proj2 (proj2 (connection_chain Checked default_config ConnectionSample.network None
    true (ConnectionSample.peer ["2001:db8::1"] ["1.2.3.4:5000"]) [1; 2]
    [ProxySample.record "https://p" 10] (Ok conn) E)) eq_refl).
Defined.

Lemma bare_ipv6_never_used_witness :
  exists conn, establish_connection Checked default_config ConnectionSample.network None false
    (ConnectionSample.peer ["2001:db8::1"] ["1.2.3.4:5000"]) [1; 2] [] = Some (Ok conn) /\
    vc_method conn <> Conn_Ipv6Direct.
Proof.
  destruct (establish_connection Checked default_config ConnectionSample.network None false
    (ConnectionSample.peer ["2001:db8::1"] ["1.2.3.4:5000"]) [1; 2] []) as [[conn|e]|] eqn:E;
    [|vm_compute in E; discriminate E|vm_compute in E; discriminate E].
  exists conn. split; [reflexivity|].
  apply (bare_ipv6_never_used Checked default_config ConnectionSample.network None false
    (ConnectionSample.peer ["2001:db8::1"] ["1.2.3.4:5000"]) [1; 2] [] conn).
  - constructor; [|constructor]. split; [vm_compute; congruence|].
    apply (bool_decide_unpack (DOT_CHAR ∉ as_bytes "2001:db8::1")). vm_compute. exact I.
  - vm_compute. repeat constructor.
  - exact E.
Defined.
