(* ===== verification/Manager.v ===== *)
(** * The connection manager

    [voip-client/src/connection.rs]: the state of [ConnectionManager], its setters, the NAT
    probes it runs and the connections it establishes, over the chain of [Connection] and the
    prober of [NatProbe].  Each field has a lock of its own and no operation holds one while it
    waits for another that a different operation holds, so an operation is one step.  [None]
    inside an [Outcome] is a panic of the prober. *)

From S2P Require Import Prelude Types Config RustStr RustNet NatProbe Probe Masque Proxy DhtRecord.
From S2P Require Import Connection.

Local Open Scope Z_scope.
Local Open Scope rust_scope.

(** A prober is its configuration and its cache. *)
Record NATProber := { np_config : VoIPConfig; np_cache : option NATProbeCache }.

Record ConnectionManager := {
  cm_config : VoIPConfig;
  cm_prober : option NATProber;
  cm_local_nat : option NATInfo;
  cm_udp_blocked : bool
}.

(** [create_endpoint]: the TLS configuration, then the socket. *)
Definition create_endpoint (tls bind : option string) : result ConnectError unit :=
  match tls, bind with
  | Some e, _ => Err (Connect_NetworkError e)
  | None, Some e => Err (Connect_NetworkError e)
  | None, None => Ok tt
  end.

Definition with_endpoint (config : VoIPConfig) : ConnectionManager := {|
  cm_config := config; cm_prober := None; cm_local_nat := None; cm_udp_blocked := false
|}.

Definition manager_new (tls bind : option string) (config : VoIPConfig)
    : result ConnectError ConnectionManager :=
  let? _ := create_endpoint tls bind in Ok (with_endpoint config).

Definition with_nat (prober : option NATProber) (info : option NATInfo) (c : ConnectionManager)
    : ConnectionManager := {|
  cm_config := cm_config c; cm_prober := prober; cm_local_nat := info;
  cm_udp_blocked := cm_udp_blocked c
|}.

Definition set_nat_prober (m : overflow_mode) (now_ms : Z) (prober : NATProber) (c : ConnectionManager)
    : Outcome ConnectionManager :=
  outcome_bind (cached_nat_info m NoGuard now_ms (np_cache prober)) (fun info =>
  Done (with_nat (Some prober) info c)).

Definition set_local_nat_info (info : NATInfo) (c : ConnectionManager) : ConnectionManager :=
  with_nat (cm_prober c) (Some info) c.

Definition set_udp_blocked (blocked : bool) (c : ConnectionManager) : ConnectionManager := {|
  cm_config := cm_config c; cm_prober := cm_prober c; cm_local_nat := cm_local_nat c;
  cm_udp_blocked := blocked
|}.

(** [to_string] of a probe error. *)
Definition nat_probe_to_string (e : NatProbeError) : string :=
  match e with
  | NatNotConnected => "Not connected to signaling server"
  | NatProbe.ProbeTimeout ip => "Probe timeout for " +:+ ip
  | NatProbe.MigrationFailed ip reason => "Migration failed for " +:+ ip +:+ ": " +:+ reason
  | InsufficientProbes got need =>
      "Insufficient probes: got " +:+ string_of_bytes (decimal got) +:+ ", need " +:+
      string_of_bytes (decimal need)
  end.

Section Probes.
Context (m : overflow_mode) (now_ms : Z) (path : nat -> string -> result NatProbeError NATProbeResult).

(** The probe of both operations, on the cache as they leave it. *)
Definition run_probe (prober : NATProber) (cache : option NATProbeCache) (c : ConnectionManager)
    : Outcome (result ConnectError NATInfo * ConnectionManager) :=
  outcome_bind (probe m (np_config prober) now_ms path cache) (fun '(r, cache') =>
  let prober' := Some {| np_config := np_config prober; np_cache := cache' |} in
  match r with
  | Err e => Done (Err (Connect_NatProbeFailed (nat_probe_to_string e)),
                   with_nat prober' (cm_local_nat c) c)
  | Ok info => Done (Ok info, with_nat prober' (Some info) c)
  end).

Definition probe_nat (c : ConnectionManager) : Outcome (result ConnectError NATInfo * ConnectionManager) :=
  match cm_prober c with
  | Some prober => run_probe prober (np_cache prober) c
  | None => Done (Err (Connect_NatProbeFailed
                         "NAT prober not initialized (no signaling server connection)"), c)
  end.

Definition reprobe_nat (c : ConnectionManager) : Outcome (result ConnectError NATInfo * ConnectionManager) :=
  match cm_prober c with
  | Some prober => run_probe prober (invalidate_cache (np_cache prober)) c
  | None => Done (Err (Connect_NatProbeFailed "NAT prober not initialized"), c)
  end.
End Probes.

(** [establish_connection] with the manager's own knowledge. *)
Definition manager_establish (m : overflow_mode) (n : Net) (c : ConnectionManager)
    (peer : ProtoPeerRecord) (connection_id : list Z) (proxies : list ProxyRecord)
    : option (result ConnectError VoipConnection) :=
  establish_connection m (cm_config c) n (cm_local_nat c) (cm_udp_blocked c) peer connection_id proxies.

(** ** Samples *)

Module ManagerSample.
Definition config : VoIPConfig := with_server_ips ["10.0.0.1"; "10.0.0.2"; "10.0.0.3"] default_config.

Definition path (i : nat) (ip : string) : result NatProbeError NATProbeResult :=
  Ok (NatSample.result_at "1.2.3.4" 40000).

Definition manager : ConnectionManager :=
  with_nat (Some {| np_config := config; np_cache := None |}) None (with_endpoint config).

(** A peer whose NAT type is unknown, with one address. *)
Definition peer : ProtoPeerRecord := {|
  ppr_peer_id := "aa"; ppr_display_name := "alice"; ppr_ipv6_addresses := [];
  ppr_ipv4_reflexive := ["5.6.7.8:500"]; ppr_nat_info := None; ppr_tracks := []; ppr_status := 0;
  ppr_timestamp := 0; ppr_ttl_seconds := 3600; ppr_signature := []
|}.
End ManagerSample.

(** ** Facts *)

Lemma successes_all (f : nat -> string -> NATProbeResult) ips :
  successes (imap (fun i ip => Ok (f i ip)) ips) = imap f ips.
Proof.
  revert f. induction ips as [|ip ips IH]; intros f; [done|].
  cbn [imap successes]. f_equal. apply (IH (fun i => f (S i))).
Qed.

(** A NAT that shows every server the same port is a cone. *)
Lemma all_same_const p l : (forall r, r ∈ l -> probe_external_port r = p) ->
  all_same (external_ports l) = true.
Proof.
  intros H. induction l as [|a l IH]; [done|]. destruct l as [|b l]; [done|].
  change ((probe_external_port a =? probe_external_port b) && all_same (external_ports (b :: l)) = true).
  rewrite IH by set_solver. rewrite (H a), (H b) by set_solver. by rewrite Z.eqb_refl.
Qed.

(** What the probe finds behind such a NAT, and the cache it leaves. *)
Lemma probe_cone m now_ms f prober cache c ip port :
  let ips := ips_to_probe (np_config prober) (path_probe_count (np_config prober)) in
  let info := {| nat_type := NATType_Cone; prediction := None |} in
  3 <= zlen ips -> is_ipv6 ip = false ->
  (forall i s, probe_external_ip (f i s) = ip /\ probe_external_port (f i s) = port) ->
  run_probe m now_ms (fun i s => Ok (f i s)) prober cache c =
    Done (Ok info,
          with_nat (Some {| np_config := np_config prober;
                            np_cache := Some (build_cache now_ms (imap f ips) info (np_config prober)) |})
                   (Some info) c) /\
  all_same (external_ports (imap f ips)) = true.
Proof.
  intros ips info Hlen Hip Hf. unfold run_probe, probe. fold ips.
  assert (Hall : all_same (external_ports (imap f ips)) = true).
  { apply (all_same_const port). intros r Hr. apply list_elem_of_lookup in Hr as [k Hk].
    rewrite list_lookup_imap in Hk. destruct (ips !! k); [|done]. injection Hk as <-. apply Hf. }
  split; [|done]. destruct ips as [|ip0 ips'] eqn:Eips; [change (3 <= 0) in Hlen; lia|].
  cbn [outcome_bind]. rewrite successes_all. unfold zlen in *. rewrite length_imap.
  rewrite (proj2 (Z.ltb_ge _ _)) by done. unfold classify_nat. cbn [imap] in Hall |- *.
  by rewrite (proj1 (Hf _ _)), Hip, Hall.
Qed.

(** A cache of equal ports is read as a cone NAT while it is fresh. *)
Lemma cached_cone m now_ms t results info config :
  all_same (external_ports results) = true ->
  now_ms <= t < now_ms + cast 32 (nat_cache_ttl_secs config) * 1000 ->
  cached_nat_info m NoGuard t (Some (build_cache now_ms results info config)) =
    Done (Some {| nat_type := NATType_Cone; prediction := None |}).
Proof.
  intros Hall Ht. unfold cached_nat_info. cbn [acquire_read outcome_bind build_cache cache_timestamp
    cache_ttl_seconds]. unfold saturating_sub. rewrite (proj2 (Z.ltb_lt _ _)) by lia.
  unfold cached_to_nat_info. cbn [build_cache cache_probes]. by rewrite Hall.
Qed.

(** An address that connects before anything else happens decides the race. *)
Lemma race_connects n a addrs timeout t conn :
  net_open n a = (t, Ok conn) -> t <= timeout -> t < fst (with_timeout timeout (net_accept n)) ->
  try_simultaneous_open_full n (a :: addrs) timeout = Some (Some conn).
Proof.
  intros Ha Ht Hacc. unfold try_simultaneous_open_full, select_loop.
  assert (Hc : connect_task (net_open n) (a :: addrs) timeout = (t, Some conn)).
  { cbn [connect_task]. rewrite Ha. unfold with_timeout. cbn [fst snd].
    by rewrite (proj2 (Z.leb_le _ _) Ht). }
  rewrite Hc. cbn [fst snd]. rewrite (proj2 (Z.ltb_ge _ _)) by lia.
  by rewrite (proj2 (Z.ltb_lt _ _) Hacc).
Qed.

(** C3: probing makes the manager reach peers it could not place before.  Behind a NAT that
    shows every signaling address the same external port, a probe succeeds and records a cone
    NAT; the prober's cache holds exactly what the paths showed and answers with that NAT until
    its time to live is over.  The manager then opens a connection to a peer with only an IPv4
    address, whatever is known of the peer's NAT, when that address answers in time and first.
    A manager that knows neither its own NAT nor the peer's, and has no relays, fails on the
    same peer. *)
Theorem probed_manager_connects m now_ms f c prober ip port n peer cid proxies a addrs t conn :
  let config := np_config prober in
  let ips := ips_to_probe config (path_probe_count config) in
  cm_prober c = Some prober -> 3 <= zlen ips -> is_ipv6 ip = false ->
  (forall i s, probe_external_ip (f i s) = ip /\ probe_external_port (f i s) = port) ->
  cm_udp_blocked c = false -> ppr_ipv6_addresses peer = [] ->
  parse_all (ppr_ipv4_reflexive peer) = a :: addrs ->
  net_open n a = (t, Ok conn) -> t <= quic_connect_timeout_ms (cm_config c) ->
  t < fst (with_timeout (quic_connect_timeout_ms (cm_config c)) (net_accept n)) ->
  (exists info c' cache, probe_nat m now_ms (fun i s => Ok (f i s)) c = Done (Ok info, c') /\
     nat_type info = NATType_Cone /\ cm_local_nat c' = Some info /\
     cm_prober c' = Some {| np_config := config; np_cache := Some cache |} /\
     cache_probes cache = imap f ips /\
     (forall now', now_ms <= now' < now_ms + cast 32 (nat_cache_ttl_secs config) * 1000 ->
        cached_nat_info m NoGuard now' (Some cache) = Done (Some info)) /\
     manager_establish m n c' peer cid proxies = Some (Ok (new_direct conn Conn_Ipv4Cone))) /\
  (cm_local_nat c = None -> ppr_nat_info peer = None -> masque_fallback_enabled (cm_config c) = false ->
   manager_establish m n c peer cid proxies = Some (Err AllMethodsFailed)).
Proof.
  intros config ips Hp Hlen Hip Hf Hudp Hv6 Hv4 Hopen Ht Hacc. split.
  - destruct (probe_cone m now_ms f prober (np_cache prober) c ip port Hlen Hip Hf) as [Hr Hall].
    unfold probe_nat. rewrite Hp, Hr. do 3 eexists. split; [reflexivity|]. split; [done|].
    split; [done|]. split; [reflexivity|]. split; [done|].
    split; [intros now' Hn; by apply cached_cone|].
    unfold manager_establish, establish_connection, step_ipv6.
    rewrite Hv6. cbn [with_nat cm_config cm_local_nat cm_udp_blocked zlen length opt_else].
    unfold step_cone, local_type_is. cbn [nat_type is_cone orb]. rewrite Hudp. cbn [andb negb].
    unfold try_simultaneous_open. rewrite Hv4.
    by rewrite (race_connects n a addrs _ t conn Hopen Ht Hacc).
  - intros Hl Hn Hm. unfold manager_establish, establish_connection, step_ipv6.
    rewrite Hv6. cbn [zlen length opt_else]. unfold step_cone, step_prediction, step_masque,
      local_type_is, peer_type_is. by rewrite Hl, Hn, Hm.
Qed.

Lemma probed_manager_connects_witness :
  exists info c' cache, probe_nat Checked 9000 ManagerSample.path ManagerSample.manager = Done (Ok info, c') /\
    cm_prober c' = Some {| np_config := ManagerSample.config; np_cache := Some cache |} /\
    cached_nat_info Checked NoGuard 9500 (Some cache) = Done (Some info) /\
    manager_establish Checked ConnectionSample.network c' ManagerSample.peer [] [] =
      Some (Ok (new_direct 500 Conn_Ipv4Cone)).
Proof.
  destruct (probed_manager_connects Checked 9000
    (fun _ _ => NatSample.result_at "1.2.3.4" 40000) ManagerSample.manager
    {| np_config := ManagerSample.config; np_cache := None |} "1.2.3.4" 40000
    ConnectionSample.network ManagerSample.peer [] [] (V4 [5; 6; 7; 8] 500) [] 40 500)
    as [(info & c' & cache & Hp & _ & _ & Hc & _ & Hread & He) _]; try reflexivity; try done.
  exists info, c', cache. split; [exact Hp|]. split; [exact Hc|]. split; [|exact He].
  apply Hread. vm_compute. split; [discriminate|reflexivity].
Defined.
