(* ===== verification/SessionStore.v ===== *)
(** * TLS session tickets

    [voip-client/src/session_store.rs]: the store of TLS 1.3 tickets per server, with a time
    to live, a limit per server and a queue of timestamps beside the queue of tickets.
    Tickets, TLS 1.2 sessions and key-exchange groups are values of arbitrary types; the client
    configurations that carry a store are in [Resumption]. *)

From S2P Require Import Prelude.

Local Open Scope Z_scope.
Local Open Scope rust_scope.

Definition MAX_TLS13_TICKETS_PER_SERVER : Z := 4.

Section Store.
Context {Group Tls12 Ticket : Type}.

Record ServerData := {
  sd_kx_hint : option Group;
  sd_tls12 : option Tls12;
  tls13 : list Ticket;
  tls13_timestamps : list Z
}.

Definition ServerData_default : ServerData :=
  {| sd_kx_hint := None; sd_tls12 := None; tls13 := []; tls13_timestamps := [] |}.

Record SessionTicketStore := {
  servers : gmap string ServerData;
  ticket_ttl : Z
}.

Definition store_new (ttl_secs : Z) : SessionTicketStore :=
  {| servers := ∅; ticket_ttl := ttl_secs * NS_PER_SEC |}.

(** The loop of [evict_expired_tickets]: the front of both queues is dropped while the front
    timestamp has expired. *)
Fixpoint evict_loop (now ttl : Z) (tickets : list Ticket) (stamps : list Z) : list Ticket * list Z :=
  match stamps with
  | [] => (tickets, [])
  | stored_at :: stamps' =>
      if ttl <=? elapsed now stored_at then evict_loop now ttl (tail tickets) stamps'
      else (tickets, stamps)
  end.

Definition with_tickets (tickets : list Ticket) (stamps : list Z) (d : ServerData) : ServerData := {|
  sd_kx_hint := sd_kx_hint d; sd_tls12 := sd_tls12 d; tls13 := tickets; tls13_timestamps := stamps
|}.

Definition evict_expired_tickets (now ttl : Z) (d : ServerData) : ServerData :=
  let (tickets, stamps) := evict_loop now ttl (tls13 d) (tls13_timestamps d) in
  with_tickets tickets stamps d.

Definition with_servers (m : gmap string ServerData) (s : SessionTicketStore)
    : SessionTicketStore := {| servers := m; ticket_ttl := ticket_ttl s |}.

(** [entry(name).or_default()] followed by an update. *)
Definition update_entry (name : string) (f : ServerData -> ServerData) (s : SessionTicketStore)
    : SessionTicketStore :=
  with_servers (<[name := f (default ServerData_default (servers s !! name))]> (servers s)) s.

Definition ticket_count (s : SessionTicketStore) : Z :=
  map_fold (fun _ d acc => zlen (tls13 d) + acc) 0 (servers s).

Definition store_clear (s : SessionTicketStore) : SessionTicketStore := with_servers ∅ s.

Definition set_kx_hint (name : string) (g : Group) : SessionTicketStore -> SessionTicketStore :=
  update_entry name (fun d => {| sd_kx_hint := Some g; sd_tls12 := sd_tls12 d; tls13 := tls13 d;
                                 tls13_timestamps := tls13_timestamps d |}).

Definition kx_hint (name : string) (s : SessionTicketStore) : option Group :=
  let?o d := servers s !! name in sd_kx_hint d.

Definition set_tls12_session (name : string) (v : Tls12) : SessionTicketStore -> SessionTicketStore :=
  update_entry name (fun d => {| sd_kx_hint := sd_kx_hint d; sd_tls12 := Some v; tls13 := tls13 d;
                                 tls13_timestamps := tls13_timestamps d |}).

Definition tls12_session (name : string) (s : SessionTicketStore) : option Tls12 :=
  let?o d := servers s !! name in sd_tls12 d.

Definition remove_tls12_session (name : string) (s : SessionTicketStore) : SessionTicketStore :=
  match servers s !! name with
  | Some d => with_servers
      (<[name := {| sd_kx_hint := sd_kx_hint d; sd_tls12 := None; tls13 := tls13 d;
                    tls13_timestamps := tls13_timestamps d |}]> (servers s)) s
  | None => s
  end.

Definition insert_ticket (now ttl : Z) (v : Ticket) (d : ServerData) : ServerData :=
  let d := evict_expired_tickets now ttl d in
  let d := if MAX_TLS13_TICKETS_PER_SERVER <=? zlen (tls13 d)
           then with_tickets (tail (tls13 d)) (tail (tls13_timestamps d)) d else d in
  with_tickets (tls13 d ++ [v]) (tls13_timestamps d ++ [now]) d.

Definition insert_tls13_ticket (now : Z) (name : string) (v : Ticket) (s : SessionTicketStore)
    : SessionTicketStore := update_entry name (insert_ticket now (ticket_ttl s) v) s.

(** Only the ticket queue loses its last element. *)
Definition take_tls13_ticket (now : Z) (name : string) (s : SessionTicketStore)
    : option Ticket * SessionTicketStore :=
  match servers s !! name with
  | None => (None, s)
  | Some d =>
      let d := evict_expired_tickets now (ticket_ttl s) d in
      (last (tls13 d),
       with_servers (<[name := with_tickets (removelast (tls13 d)) (tls13_timestamps d) d]>
         (servers s)) s)
  end.
End Store.

Arguments ServerData : clear implicits.
Arguments SessionTicketStore : clear implicits.

(** ** Runs

    The calls of the TLS library at given times; a ticket is tagged with the time at which it
    was stored.  A run returns the tickets taken with the time of taking. *)

Section Runs.
Context {Group Tls12 Value : Type}.

Inductive StoreCall :=
| InsertTicket (name : string) (v : Value)
| TakeTicket (name : string)
| SetKxHint (name : string) (g : Group)
| SetTls12 (name : string) (v : Tls12)
| RemoveTls12 (name : string)
| ClearStore.

Abbreviation Store := (SessionTicketStore Group Tls12 (Value * Z)).

Definition store_call (now : Z) (c : StoreCall) (s : Store) : option (Value * Z) * Store :=
  match c with
  | InsertTicket name v => (None, insert_tls13_ticket now name (v, now) s)
  | TakeTicket name => take_tls13_ticket now name s
  | SetKxHint name g => (None, set_kx_hint name g s)
  | SetTls12 name v => (None, set_tls12_session name v s)
  | RemoveTls12 name => (None, remove_tls12_session name s)
  | ClearStore => (None, store_clear s)
  end.

Fixpoint store_calls (cs : list (Z * StoreCall)) (s : Store) : list (Z * (Value * Z)) * Store :=
  match cs with
  | [] => ([], s)
  | (now, c) :: cs' =>
      let (r, s1) := store_call now c s in
      let (rs, s2) := store_calls cs' s1 in
      (match r with Some t => (now, t) :: rs | None => rs end, s2)
  end.

(** ** Facts *)

(** The stamps at the front of the queue belong, at the latest, to the tickets: a ticket is
    never older than the stamp at its position. *)
Record data_ok (now : Z) (d : ServerData Group Tls12 (Value * Z)) : Prop := {
  ok_stamps : exists own extra, tls13_timestamps d = own ++ extra /\
    Forall2 (fun (tk : Value * Z) t => t <= snd tk) (tls13 d) own;
  ok_sorted : StronglySorted Z.le (tls13_timestamps d);
  ok_past : Forall (fun t => t <= now) (tls13_timestamps d);
  ok_limit : zlen (tls13 d) <= MAX_TLS13_TICKETS_PER_SERVER
}.

Lemma zlen_tail {A} (l : list A) : zlen (tail l) <= zlen l.
Proof. destruct l as [|x l]; [done|]. rewrite zlen_cons. simpl. pose proof (zlen_nonneg l). lia. Qed.

Lemma tail_ok now d :
  data_ok now d ->
  data_ok now (with_tickets (tail (tls13 d)) (tail (tls13_timestamps d)) d).
Proof.
  intros [(own & extra & Hs & Hf) Hsort Hp Hl]. split; cbn [tls13 tls13_timestamps with_tickets].
  - rewrite Hs. destruct Hf as [|tk t tks own Ht Hf]; simpl.
    + exists [], (tail extra). by split.
    + by exists own, extra.
  - destruct (tls13_timestamps d); [done|]. by inversion Hsort.
  - destruct (tls13_timestamps d); [done|]. by inversion Hp.
  - pose proof (zlen_tail (tls13 d)). lia.
Qed.

Lemma evict_ok now ttl d : data_ok now d -> data_ok now (evict_expired_tickets now ttl d).
Proof.
  unfold evict_expired_tickets. remember (tls13_timestamps d) as stamps eqn:Hs.
  revert d Hs. induction stamps as [|t stamps IH]; intros d Hs Hd; simpl.
  - by destruct d; simpl in *; subst.
  - destruct (ttl <=? elapsed now t); [|by destruct d; simpl in *; subst].
    apply tail_ok in Hd. rewrite <- Hs in Hd. simpl in Hd.
    by apply (IH (with_tickets (tail (tls13 d)) stamps d) eq_refl) in Hd.
Qed.

(** What eviction leaves is younger than the time to live. *)
Lemma evict_fresh now ttl (tickets tickets' : list (Value * Z)) stamps stamps' :
  StronglySorted Z.le stamps -> evict_loop now ttl tickets stamps = (tickets', stamps') ->
  Forall (fun t => elapsed now t < ttl) stamps'.
Proof.
  intros Hs. revert tickets. induction Hs as [|t stamps Hs IH Ht]; intros tickets; simpl.
  { intros [= <- <-]. constructor. }
  destruct (ttl <=? elapsed now t) eqn:E; [apply IH|]. intros [= <- <-]. bool_to_prop.
  constructor; [done|]. eapply Forall_impl; [exact Ht|]. simpl. unfold elapsed, saturating_sub in *.
  intros; lia.
Qed.

Lemma insert_ok now ttl v d : data_ok now d -> data_ok now (insert_ticket now ttl (v, now) d).
Proof.
  intros Hd. unfold insert_ticket. apply (evict_ok now ttl) in Hd.
  set (d1 := evict_expired_tickets now ttl d) in *.
  assert (exists d2, data_ok now d2 /\ zlen (tls13 d2) < MAX_TLS13_TICKETS_PER_SERVER /\
    (if MAX_TLS13_TICKETS_PER_SERVER <=? zlen (tls13 d1)
     then with_tickets (tail (tls13 d1)) (tail (tls13_timestamps d1)) d1 else d1) = d2)
    as (d2 & Hok & Hlen & ->).
  { destruct (_ <=? _) eqn:E; bool_to_prop; eexists; (split; [|split; [|done]]).
    - by apply tail_ok.
    - pose proof (ok_limit _ _ Hd). cbn [with_tickets tls13].
      destruct (tls13 d1); [done|]. rewrite zlen_cons in *. simpl. lia.
    - done.
    - done. }
  destruct Hok as [(own & extra & Hs & Hf) Hsort Hp Hl].
  split; cbn [tls13 tls13_timestamps with_tickets].
  - rewrite Hs in *. destruct extra as [|e extra].
    + exists (own ++ [now]), []. rewrite !app_nil_r. split; [done|].
      apply Forall2_app; [done|]. by repeat constructor.
    + exists (own ++ [e]), (extra ++ [now]). rewrite <- !app_assoc. split; [done|].
      apply Forall2_app; [done|]. repeat constructor. simpl.
      apply Forall_app in Hp as [_ Hp]. by inversion Hp.
  - apply StronglySorted_app_2; [|done|by repeat constructor].
    rewrite Forall_forall in Hp. intros x y Hx Hy. apply list_elem_of_singleton in Hy as ->.
    by apply Hp.
  - apply Forall_app. split; [done|]. by repeat constructor.
  - rewrite zlen_app. change (zlen [(v, now)]) with 1. lia.
Qed.

Lemma take_ok now d :
  data_ok now d -> data_ok now (with_tickets (removelast (tls13 d)) (tls13_timestamps d) d).
Proof.
  intros [(own & extra & Hs & Hf) Hsort Hp Hl]. split; cbn [tls13 tls13_timestamps with_tickets];
    [|done|done|].
  - destruct (tls13 d) as [|x l] eqn:Et using rev_ind; [by exists own, extra|].
    rewrite removelast_last. apply Forall2_app_inv_l in Hf as (own1 & own2 & Hf1 & _ & Ho).
    exists own1, (own2 ++ extra). split; [|done]. by rewrite Hs, Ho, app_assoc.
  - destruct (tls13 d) as [|x l] eqn:Et using rev_ind; [done|].
    rewrite removelast_last. rewrite zlen_app in Hl. pose proof (zlen_nonneg [x]). lia.
Qed.

Lemma data_ok_later now now' d : now <= now' -> data_ok now d -> data_ok now' d.
Proof.
  intros Hn [Ho Hs Hp Hl]. split; try done. eapply Forall_impl; [exact Hp|]. simpl. lia.
Qed.

Lemma default_ok now : data_ok now ServerData_default.
Proof.
  split; [by exists [], []|constructor|constructor|]. vm_compute. congruence.
Qed.

Definition store_ok (now : Z) (s : Store) : Prop := map_Forall (fun _ d => data_ok now d) (servers s).

Lemma update_entry_ok now name f (s : Store) :
  store_ok now s -> (forall d, data_ok now d -> data_ok now (f d)) ->
  store_ok now (update_entry name f s).
Proof.
  intros Hs Hf. apply map_Forall_insert_2; [|done]. apply Hf.
  destruct (servers s !! name) as [d|] eqn:E; simpl; [by apply (Hs name)|apply default_ok].
Qed.

Lemma fresh_ticket now ttl d v t :
  data_ok now d -> last (tls13 (evict_expired_tickets now ttl d)) = Some (v, t) ->
  elapsed now t < ttl.
Proof.
  intros Hd Hl. pose proof (ok_sorted _ _ Hd) as Hsort. apply (evict_ok now ttl) in Hd.
  destruct Hd as [(own & extra & Hs & Hf) _ _ _]. unfold evict_expired_tickets in *.
  destruct (evict_loop now ttl (tls13 d) (tls13_timestamps d)) as [tks ts] eqn:E.
  apply evict_fresh in E; [|done]. cbn [tls13 tls13_timestamps with_tickets] in *. subst ts.
  apply Forall_app in E as [Ho _]. apply last_Some in Hl as [tks' ->].
  apply Forall2_app_inv_l in Hf as (own1 & own2 & _ & Hf2 & ->).
  inversion Hf2 as [|? t0 ? ? Ht _]; subst. apply Forall_app in Ho as [_ Ho].
  inversion Ho; subst. simpl in Ht. unfold elapsed, saturating_sub in *. lia.
Qed.

Lemma store_call_ok now c (s : Store) r s' :
  store_ok now s -> store_call now c s = (r, s') ->
  store_ok now s' /\ ticket_ttl s' = ticket_ttl s /\
  (forall v t, r = Some (v, t) -> elapsed now t < ticket_ttl s).
Proof.
  intros Hs. destruct c as [name v|name|name g|name v|name|]; cbn [store_call].
  - intros [= <- <-]. split; [|done]. apply update_entry_ok; [done|]. intros d. apply insert_ok.
  - unfold take_tls13_ticket. destruct (servers s !! name) as [d|] eqn:E; intros [= <- <-]; [|done].
    split; [|split; [done|]].
    + apply map_Forall_insert_2; [|done]. by apply take_ok, evict_ok, (Hs name).
    + intros v t Hl. eapply fresh_ticket; [by apply (Hs name)|exact Hl].
  - intros [= <- <-]. split; [|done]. apply update_entry_ok; [done|]. by intros d [].
  - intros [= <- <-]. split; [|done]. apply update_entry_ok; [done|]. by intros d [].
  - intros [= <- <-]. unfold remove_tls12_session. destruct (servers s !! name) as [d|] eqn:E;
      [|done]. split; [|done]. apply map_Forall_insert_2; [|done].
    by destruct (Hs name d E).
  - intros [= <- <-]. split; [|done]. apply map_Forall_empty.
Qed.
End Runs.

(** C30: over every sequence of calls in the order of time, a ticket is handed out only while
    it is younger than the time to live, and no server holds more than four, although taking
    a ticket leaves its timestamp behind and shifts the two queues against each other. *)
Theorem tickets_fresh_and_bounded {Group Tls12 Value} (cs : list (Z * StoreCall)) now0
    (s s' : SessionTicketStore Group Tls12 (Value * Z)) out :
  servers s = ∅ -> Sorted Z.le (now0 :: map fst cs) -> store_calls cs s = (out, s') ->
  Forall (fun x : Z * (Value * Z) => elapsed x.1 x.2.2 < ticket_ttl s) out /\
  map_Forall (fun _ d => zlen (tls13 d) <= MAX_TLS13_TICKETS_PER_SERVER) (servers s').
Proof.
  intros He. assert (store_ok now0 s) as Hok by (unfold store_ok; rewrite He; apply map_Forall_empty).
  clear He. revert now0 s Hok out. induction cs as [|[now c] cs IH]; intros now0 s Hok out Ht; simpl.
  { intros [= <- <-]. split; [constructor|]. intros name d Hd. by apply (Hok name). }
  destruct (store_call now c s) as [r s1] eqn:E1. destruct (store_calls cs s1) as [rs s2] eqn:E2.
  intros [= <- <-]. inversion Ht as [|? ? Ht' Hh]; subst. inversion Hh; subst.
  assert (store_ok now s) as Hok' by
    (intros name d Hd; eapply data_ok_later; [|by apply (Hok name)]; done).
  apply store_call_ok in E1 as (Hs1 & Httl & Hr); [|done].
  destruct (IH now s1 Hs1 rs Ht' E2) as [Hout Hlim]. rewrite Httl in Hout. split; [|done].
  destruct r as [[v t]|]; [|done]. constructor; [by apply (Hr v t)|done].
Qed.

(** A fresh ticket can be lost: the stamp that a taken ticket left behind expires first and
    evicts it. *)
Module StoreSample.
Definition empty : SessionTicketStore unit unit (Z * Z) := store_new 3600.

Definition run : list (Z * StoreCall (Group := unit) (Tls12 := unit)) :=
  [(0, InsertTicket "a" 1); (0, TakeTicket "a"); (3599 * NS_PER_SEC, InsertTicket "a" 2);
   (3600 * NS_PER_SEC, TakeTicket "a")].
End StoreSample.

Lemma fresh_ticket_lost : fst (store_calls StoreSample.run StoreSample.empty) = [(0, (1, 0))].
Proof. vm_compute. reflexivity. Qed.

Lemma tickets_fresh_and_bounded_witness :
  Forall (fun x : Z * (Z * Z) => elapsed x.1 x.2.2 < 3600 * NS_PER_SEC)
    (fst (store_calls StoreSample.run StoreSample.empty)).
Proof.
  destruct (store_calls StoreSample.run StoreSample.empty) as [out s'] eqn:E.
  refine (proj1 (tickets_fresh_and_bounded StoreSample.run 0 StoreSample.empty s' out _ _ E)).
  - reflexivity.
  - repeat constructor; vm_compute; congruence.
Defined.
