(* ===== verification/Resumption.v ===== *)
(** * Client configurations with session resumption

    [client_config_with_resumption] and [quinn_client_config_with_resumption] of
    [voip-client/src/session_store.rs]: the TLS and QUIC client configurations that carry a ticket
    store of their own.  The range of QUIC idle timeouts is [quinn]'s and a parameter. *)

From S2P Require Import Prelude Config Tls SessionStore.

Local Open Scope Z_scope.
Local Open Scope rust_scope.

Section Resumption.
Context {Group Tls12 Ticket : Type} {T : Rustls} (idle_timeout_fits : Z -> bool).

Abbreviation Store := (SessionTicketStore Group Tls12 Ticket).

Definition store_from_config (config : VoIPConfig) : Store := store_new (session_ticket_ttl_secs config).

(** [rustls::ClientConfig] with its [resumption] field. *)
Record ResumingConfig := { rc_tls : ClientConfig; rc_store : Store }.

Definition client_config_with_resumption (config : VoIPConfig) : result string ResumingConfig :=
  Ok {| rc_tls := {| cc_accepts := no_verifier; cc_alpn := [] |};
        rc_store := store_from_config config |}.

Record ResumingQuinnConfig := {
  rq_tls : ResumingConfig;
  rq_datagram_receive_buffer : option Z;
  rq_datagram_send_buffer : Z;
  rq_idle_timeout_ms : option Z
}.

Definition quinn_client_config_with_resumption (config : VoIPConfig)
    : result string ResumingQuinnConfig :=
  let? c := client_config_with_resumption config in
  let? _ := map_err (fun e => "QuicClientConfig: " +:+ e) (rustls_quic_client (rc_tls c)) in
  let? _ := if idle_timeout_fits (quic_idle_timeout_ms config) then Ok tt
            else Err "invalid idle timeout" in
  Ok {| rq_tls := c; rq_datagram_receive_buffer := Some 65536; rq_datagram_send_buffer := 65536;
        rq_idle_timeout_ms := Some (quic_idle_timeout_ms config) |}.

(** ** Facts *)

(** A debug build of [tls.rs] accepts any certificate; here every build does. *)
Lemma resumption_accepts_any config q cert :
  quinn_client_config_with_resumption config = Ok q -> cc_accepts (rc_tls (rq_tls q)) cert = true.
Proof.
  unfold quinn_client_config_with_resumption. cbn. destruct (rustls_quic_client _); [|done]. cbn.
  case_goal; [|done]. by intros [= <-].
Qed.

(** A configuration starts with no tickets, whatever an earlier one has stored, so a connection
    made with a new configuration never resumes. *)
Lemma resumption_starts_empty config q now name :
  quinn_client_config_with_resumption config = Ok q ->
  (take_tls13_ticket now name (rc_store (rq_tls q))).1 = None /\
  ticket_ttl (rc_store (rq_tls q)) = session_ticket_ttl_secs config * NS_PER_SEC.
Proof.
  unfold quinn_client_config_with_resumption. cbn. destruct (rustls_quic_client _); [|done]. cbn.
  case_goal; [|done]. by intros [= <-].
Qed.

Lemma resumption_config_ok config :
  is_ok (quinn_client_config_with_resumption config) =
  is_ok (rustls_quic_client {| cc_accepts := no_verifier; cc_alpn := [] |}) &&
  idle_timeout_fits (quic_idle_timeout_ms config).
Proof.
  unfold quinn_client_config_with_resumption. cbn. destruct (rustls_quic_client _); [|done]. cbn.
  by case_goal.
Qed.
End Resumption.
