(* ===== verification/Client.v ===== *)
(** * The client facade

    [voip-client/src/client.rs]: the call operations that the FFI layer exposes, on one shared
    state.  No operation of the facade fills in the connection info or the statistics. *)

From S2P Require Import Prelude Types Config.

Local Open Scope Z_scope.

Inductive ClientCallState :=
| Client_Idle | Client_Ringing | Client_Incoming | Client_Connected | Client_Ended.

#[export] Instance ClientCallState_eq_dec : EqDecision ClientCallState.
Proof. solve_decision. Defined.

(** The errors of the client crate (voip-client/src/error.rs). *)
Inductive ClientError :=
| Client_NotInitialized
| Client_CallInProgress
| Client_NoActiveCall
| Client_ConnectionFailed (s : string)
| Client_CallSetupTimeout (s : string)
| Client_CallRejected (s : string)
| Client_NatTraversalFailed (s : string)
| Client_MasqueFailed (s : string)
| Client_Audio (s : string)
| Client_AllMethodsFailed
| Client_QuicTimeout (ms : Z)
| Client_PredictionFailedRandom
| Client_UdpBlocked
| Client_TcpBlocked
| Client_MasqueUnreachable
| Client_MigrationFailed (s : string)
| Client_NetworkError (s : string)
| Client_SignalingError (s : string)
| Client_PeerTimeout
| Client_NatProbeError (s : string)
| Client_ProbeError (s : string)
| Client_AudioError (s : string)
| Client_MigrationTimeout (ms : Z)
| Client_Core (e : VoipError).

Record ClientConnectionInfo := {
  info_method : ProtoConnectionMethod;
  info_rtt_ms : Z;
  info_packet_loss_pct : Z;   (* the bits of the f32 *)
  info_jitter_ms : Z
}.

Record ClientStats := {
  stats_duration_secs : Z;
  stats_bytes_sent : Z;
  stats_bytes_received : Z;
  stats_packets_sent : Z;
  stats_packets_received : Z;
  stats_packets_lost : Z
}.

Definition stats_default : ClientStats := {|
  stats_duration_secs := 0; stats_bytes_sent := 0; stats_bytes_received := 0;
  stats_packets_sent := 0; stats_packets_received := 0; stats_packets_lost := 0
|}.

Record ClientInner := {
  client_config : VoIPConfig;
  client_state : ClientCallState;
  connection_info : option ClientConnectionInfo;
  call_stats : ClientStats;
  is_muted : bool;
  current_peer_id : option string
}.

Definition client_new (config : VoIPConfig) : ClientInner := {|
  client_config := config; client_state := Client_Idle; connection_info := None;
  call_stats := stats_default; is_muted := false; current_peer_id := None
|}.

Definition with_call (st : ClientCallState) (info : option ClientConnectionInfo) (stats : ClientStats)
    (peer : option string) (c : ClientInner) : ClientInner := {|
  client_config := client_config c; client_state := st; connection_info := info;
  call_stats := stats; is_muted := is_muted c; current_peer_id := peer
|}.

Definition with_muted (muted : bool) (c : ClientInner) : ClientInner := {|
  client_config := client_config c; client_state := client_state c;
  connection_info := connection_info c; call_stats := call_stats c; is_muted := muted;
  current_peer_id := current_peer_id c
|}.

(** The client is ready at once: nothing is set up here. *)
Definition client_init (c : ClientInner) : result ClientError unit * ClientInner := (Ok tt, c).

Definition client_call (peer_id : string) (c : ClientInner) : result ClientError unit * ClientInner :=
  if decide (client_state c = Client_Idle)
  then (Ok tt, with_call Client_Ringing (connection_info c) stats_default (Some peer_id) c)
  else (Err Client_CallInProgress, c).

Definition hangup (c : ClientInner) : result ClientError unit * ClientInner :=
  if decide (client_state c = Client_Idle) then (Err Client_NoActiveCall, c)
  else (Ok tt, with_call Client_Ended None (call_stats c) None c).

Definition set_muted (muted : bool) (c : ClientInner) : result ClientError unit * ClientInner :=
  if decide (client_state c = Client_Connected) then (Ok tt, with_muted muted c)
  else (Err Client_NoActiveCall, c).

Definition mute : ClientInner -> _ := set_muted true.
Definition unmute : ClientInner -> _ := set_muted false.

Definition client_accept (c : ClientInner) : result ClientError unit * ClientInner :=
  if decide (client_state c = Client_Incoming)
  then (Ok tt, with_call Client_Connected (connection_info c) (call_stats c) (current_peer_id c) c)
  else (Err Client_NoActiveCall, c).

Definition client_reject (c : ClientInner) : result ClientError unit * ClientInner :=
  if decide (client_state c = Client_Incoming)
  then (Ok tt, with_call Client_Ended (connection_info c) (call_stats c) None c)
  else (Err Client_NoActiveCall, c).

Definition shutdown (c : ClientInner) : result ClientError unit * ClientInner :=
  (Ok tt, with_call Client_Idle None (call_stats c) None c).

(** ** Runs *)

Inductive ClientOp := OpCall (peer_id : string) | OpHangup | OpMute | OpUnmute | OpAccept
| OpReject | OpShutdown.

Definition client_op (o : ClientOp) (c : ClientInner) : result ClientError unit * ClientInner :=
  match o with
  | OpCall p => client_call p c
  | OpHangup => hangup c
  | OpMute => mute c
  | OpUnmute => unmute c
  | OpAccept => client_accept c
  | OpReject => client_reject c
  | OpShutdown => shutdown c
  end.

Definition client_step (c c' : ClientInner) : Prop := exists o, snd (client_op o c) = c'.

Abbreviation client_reachable config := (reachable (fun c => c = client_new config) client_step).

(** ** Facts *)

Definition facade_ok (c : ClientInner) : Prop :=
  is_muted c = false /\ connection_info c = None /\
  match client_state c with
  | Client_Ringing => is_Some (current_peer_id c)
  | Client_Idle | Client_Ended => current_peer_id c = None
  | _ => False
  end.

Lemma facade_ok_reachable config c : client_reachable config c -> facade_ok c.
Proof.
  revert c. apply reachable_invariant; [by intros c ->|].
  intros c c' (Hm & Hi & Hs) [o <-]. unfold facade_ok.
  destruct c as [cfg st info stats muted peer]; cbn in Hm, Hi, Hs |- *; subst.
  destruct o, st; cbn in *; try done; repeat split; try done; by eexists.
Qed.
(** The facade alone reaches three states: idle, ringing with a peer, and ended.  So
    accepting, rejecting, muting and unmuting always answer that there is no active call; and
    a new call is refused from the start of one until the client is shut down, hanging up
    included. *)
Lemma facade_states config (c : ClientInner) :
  client_reachable config c ->
  client_state c ∈ [Client_Idle; Client_Ringing; Client_Ended] /\
  (client_state c = Client_Ringing <-> is_Some (current_peer_id c)) /\
  (forall o, o ∈ [OpAccept; OpReject; OpMute; OpUnmute] ->
     client_op o c = (Err Client_NoActiveCall, c)) /\
  (forall p q o, o <> OpShutdown ->
     fst (client_op (OpCall q) (snd (client_op o (snd (client_op (OpCall p) c)))))
       = Err Client_CallInProgress).
Proof.
  intros Hr. apply facade_ok_reachable in Hr as (Hm & Hi & Hs).
  destruct c as [cfg st info stats muted peer]; cbn in Hm, Hi, Hs |- *; subst.
  split; [|split; [|split]].
  - destruct st; set_solver.
  - destruct st; split; try done; intros [? [=]]; congruence.
  - intros o Ho. destruct st; try done;
      repeat (apply elem_of_cons in Ho as [->|Ho]; [done|]); by apply elem_of_nil in Ho.
  - intros p q o Ho. destruct st, o; try done.
Qed.

Lemma facade_states_witness :
  client_op OpAccept (snd (client_op (OpCall "b") (client_new default_config))) =
    (Err Client_NoActiveCall, snd (client_op (OpCall "b") (client_new default_config))).
Proof.
  apply (facade_states default_config
    (snd (client_op (OpCall "b") (client_new default_config)))).
  - eapply reachable_step; [apply reachable_init; reflexivity|]. exists (OpCall "b"). reflexivity.
  - apply list_elem_of_In. left. reflexivity.
Defined.
