(* ===== verification/Ffi.v ===== *)
(** * The foreign function interface

    [voip-ffi/src/lib.rs]: the object that Kotlin and Swift see, over the client facade of
    [Client], with its own configuration, states and errors and the conversions to and from
    the client's.  Every method blocks until it is done, under the lock on the inner client,
    so a run is a sequence of calls.  [Display] of the errors that the conversions print is
    modelled here too. *)

From S2P Require Import Prelude Types Config RustStr Client.

Local Open Scope Z_scope.

(** ** Error messages *)

Definition dec (n : Z) : string := string_of_bytes (decimal n).

Definition core_to_string (e : VoipError) : string :=
  match e with
  | QuicConnectionFailed s => "QUIC connection failed: " +:+ s
  | QuicHandshakeTimeout => "QUIC handshake timeout"
  | MigrationFailed => "Connection migration failed"
  | NatProbeFailed s => "NAT probing failed: " +:+ s
  | NatRandomBothSides => "Both peers have random NAT — prediction impossible"
  | UdpBlocked => "UDP blocked by firewall"
  | TcpBlocked => "TCP port 443 also blocked — no MASQUE possible"
  | MasqueProxyUnreachable s => "MASQUE proxy unreachable: " +:+ s
  | MasqueTunnelFailed s => "MASQUE tunnel setup failed: " +:+ s
  | MasqueTunnelDisconnected => "MASQUE tunnel disconnected during call"
  | MasqueNoProxy => "No MASQUE proxy available"
  | ProxyTokenInvalid => "ProxyToken validation failed"
  | SignalingError s => "Signaling server error: " +:+ s
  | JwtAuthFailed s => "JWT authentication failed: " +:+ s
  | RateLimited => "Rate limited"
  | PeerNotFound s => "Peer not found: " +:+ s
  | PeerOffline s => "Peer offline: " +:+ s
  | InvalidTransition from to reason =>
      "Invalid state transition: " +:+ debug_string from +:+ " → " +:+ debug_string to +:+
      ": " +:+ reason
  | CallAlreadyExists s => "Call already exists: " +:+ s
  | DhtLookupFailed s => "DHT lookup failed: " +:+ s
  | DhtRecordVerificationFailed => "DHT record verification failed"
  | SignatureVerificationFailed => "Ed25519 signature verification failed"
  | InvalidKeyMaterial s => "Invalid key material: " +:+ s
  | Internal s => "Internal error: " +:+ s
  end.

Definition client_to_string (e : ClientError) : string :=
  match e with
  | Client_NotInitialized => "Client not initialized"
  | Client_CallInProgress => "Call already in progress"
  | Client_NoActiveCall => "No active call"
  | Client_ConnectionFailed s => "Connection failed: " +:+ s
  | Client_CallSetupTimeout s => "Call setup timeout: " +:+ s
  | Client_CallRejected s => "Call rejected: " +:+ s
  | Client_NatTraversalFailed s => "NAT traversal failed: " +:+ s
  | Client_MasqueFailed s => "MASQUE relay failed: " +:+ s
  | Client_Audio s => "Audio error: " +:+ s
  | Client_AllMethodsFailed => "All connection methods failed"
  | Client_QuicTimeout ms => "QUIC connection timeout after " +:+ dec ms +:+ "ms"
  | Client_PredictionFailedRandom => "Port prediction failed: both peers behind random NAT"
  | Client_UdpBlocked => "UDP blocked by firewall"
  | Client_TcpBlocked => "TCP port 443 also blocked — no MASQUE possible"
  | Client_MasqueUnreachable => "MASQUE proxy unreachable"
  | Client_MigrationFailed s => "Connection migration failed: " +:+ s
  | Client_NetworkError s => "Network error: " +:+ s
  | Client_SignalingError s => "Signaling error: " +:+ s
  | Client_PeerTimeout => "Timeout waiting for peer response"
  | Client_NatProbeError s => "NAT probe error: " +:+ s
  | Client_ProbeError s => "Port prediction error: " +:+ s
  | Client_AudioError s => "Audio codec error: " +:+ s
  | Client_MigrationTimeout ms => "Connection migration timeout: " +:+ dec ms +:+ "ms"
  | Client_Core e => core_to_string e
  end.

Inductive FfiError :=
| Ffi_NotInitialized
| Ffi_CallInProgress
| Ffi_NoActiveCall
| Ffi_ConnectionFailed (s : string)
| Ffi_CallSetupTimeout (s : string)
| Ffi_CallRejected (s : string)
| Ffi_NatTraversalFailed (s : string)
| Ffi_MasqueFailed (s : string)
| Ffi_Internal (s : string).

Definition ffi_to_string (e : FfiError) : string :=
  match e with
  | Ffi_NotInitialized => "Client not initialized"
  | Ffi_CallInProgress => "Call already in progress"
  | Ffi_NoActiveCall => "No active call"
  | Ffi_ConnectionFailed s => "Connection failed: " +:+ s
  | Ffi_CallSetupTimeout s => "Call setup timeout: " +:+ s
  | Ffi_CallRejected s => "Call rejected: " +:+ s
  | Ffi_NatTraversalFailed s => "NAT traversal failed: " +:+ s
  | Ffi_MasqueFailed s => "MASQUE relay failed: " +:+ s
  | Ffi_Internal s => "Internal error: " +:+ s
  end.

Definition ffi_error (e : ClientError) : FfiError :=
  match e with
  | Client_NotInitialized => Ffi_NotInitialized
  | Client_CallInProgress => Ffi_CallInProgress
  | Client_NoActiveCall => Ffi_NoActiveCall
  | Client_ConnectionFailed s => Ffi_ConnectionFailed s
  | Client_CallSetupTimeout s => Ffi_CallSetupTimeout s
  | Client_CallRejected s => Ffi_CallRejected s
  | Client_NatTraversalFailed s => Ffi_NatTraversalFailed s
  | Client_MasqueFailed s => Ffi_MasqueFailed s
  | Client_Audio s => Ffi_Internal s
  | Client_Core e => Ffi_Internal (core_to_string e)
  | Client_AllMethodsFailed => Ffi_Internal "all connection methods failed"
  | Client_QuicTimeout ms => Ffi_CallSetupTimeout ("QUIC timeout after " +:+ dec ms +:+ "ms")
  | Client_PredictionFailedRandom => Ffi_NatTraversalFailed "random NAT both sides"
  | Client_UdpBlocked => Ffi_ConnectionFailed "UDP blocked"
  | Client_TcpBlocked => Ffi_ConnectionFailed "TCP blocked"
  | Client_MasqueUnreachable => Ffi_MasqueFailed "proxy unreachable"
  | Client_MigrationFailed s => Ffi_ConnectionFailed ("migration: " +:+ s)
  | Client_NetworkError s => Ffi_ConnectionFailed s
  | Client_SignalingError s => Ffi_ConnectionFailed s
  | Client_PeerTimeout => Ffi_CallSetupTimeout "peer timeout"
  | Client_NatProbeError s => Ffi_NatTraversalFailed s
  | Client_ProbeError s => Ffi_NatTraversalFailed s
  | Client_AudioError s => Ffi_Internal s
  | Client_MigrationTimeout ms => Ffi_ConnectionFailed ("migration timeout " +:+ dec ms +:+ "ms")
  end.

(** ** Enumerations and records *)

Inductive FfiCallState := Ffi_Idle | Ffi_Ringing | Ffi_Incoming | Ffi_Connected | Ffi_Ended.

Definition ffi_call_state (s : ClientCallState) : FfiCallState :=
  match s with
  | Client_Idle => Ffi_Idle
  | Client_Ringing => Ffi_Ringing
  | Client_Incoming => Ffi_Incoming
  | Client_Connected => Ffi_Connected
  | Client_Ended => Ffi_Ended
  end.

Inductive FfiConnectionMethod :=
| FfiConn_None | FfiConn_Ipv6Direct | FfiConn_Ipv4Cone | FfiConn_Ipv4Prediction
| FfiConn_Masque | FfiConn_MasqueHttp2.

Definition ffi_connection_method (m : ProtoConnectionMethod) : FfiConnectionMethod :=
  match m with
  | CONN_NONE => FfiConn_None
  | CONN_IPV6_DIRECT => FfiConn_Ipv6Direct
  | CONN_IPV4_CONE => FfiConn_Ipv4Cone
  | CONN_IPV4_PREDICTION => FfiConn_Ipv4Prediction
  | CONN_MASQUE => FfiConn_Masque
  | CONN_MASQUE_HTTP2 => FfiConn_MasqueHttp2
  end.

Inductive FfiDiscoveryMethod := FfiDisc_Dht | FfiDisc_Signaling | FfiDisc_Cache.

Record VoipConfig := {
  f_discovery_privacy_first : bool;
  f_dht_lookup_timeout_ms : Z;
  f_dht_bootstrap_nodes : list string;
  f_signaling_server_url : string;
  f_masque_fallback_enabled : bool;
  f_push_retry_enabled : bool;
  f_quic_connect_timeout_ms : Z;
  f_call_ring_timeout_ms : Z
}.

Definition to_core_config (f : VoipConfig) : VoIPConfig := {|
  path_probe_count := path_probe_count default_config;
  path_probe_timeout_ms := path_probe_timeout_ms default_config;
  nat_cache_ttl_secs := nat_cache_ttl_secs default_config;
  path_refresh_count := path_refresh_count default_config;
  nat_delta_variance_threshold := nat_delta_variance_threshold default_config;
  prediction_margin_sequential := prediction_margin_sequential default_config;
  prediction_margin_pseudo := prediction_margin_pseudo default_config;
  prediction_max_probes := prediction_max_probes default_config;
  quic_connect_timeout_ms := f_quic_connect_timeout_ms f;
  quic_prediction_timeout_ms := quic_prediction_timeout_ms default_config;
  quic_idle_timeout_ms := quic_idle_timeout_ms default_config;
  quic_alpn := quic_alpn default_config;
  discovery_privacy_first := f_discovery_privacy_first f;
  dht_lookup_timeout_ms := f_dht_lookup_timeout_ms f;
  dht_bootstrap_nodes := f_dht_bootstrap_nodes f;
  dht_record_ttl_secs := dht_record_ttl_secs default_config;
  push_retry_enabled := f_push_retry_enabled f;
  push_retry_initial_delay_secs := push_retry_initial_delay_secs default_config;
  push_retry_max_attempts := push_retry_max_attempts default_config;
  push_retry_backoff_multiplier := push_retry_backoff_multiplier default_config;
  masque_fallback_enabled := f_masque_fallback_enabled f;
  masque_discovery_timeout_ms := masque_discovery_timeout_ms default_config;
  masque_connect_timeout_ms := masque_connect_timeout_ms default_config;
  masque_max_proxy_attempts := masque_max_proxy_attempts default_config;
  masque_proxy_enabled := masque_proxy_enabled default_config;
  masque_proxy_max_sessions := masque_proxy_max_sessions default_config;
  call_ring_timeout_ms := f_call_ring_timeout_ms f;
  call_connect_timeout_ms := call_connect_timeout_ms default_config;
  migration_path_timeout_ms := migration_path_timeout_ms default_config;
  migration_max_reprobes := migration_max_reprobes default_config;
  rate_limit_calls_per_min := rate_limit_calls_per_min default_config;
  rate_limit_registrations_per_min := rate_limit_registrations_per_min default_config;
  rate_limit_ws_messages_per_sec := rate_limit_ws_messages_per_sec default_config;
  jwt_expiry_secs := jwt_expiry_secs default_config;
  signaling_server_ips := signaling_server_ips default_config;
  session_ticket_ttl_secs := session_ticket_ttl_secs default_config;
  moq_feedback_interval_ms := moq_feedback_interval_ms default_config;
  ws_idle_timeout_secs := ws_idle_timeout_secs default_config
|}.

Definition from_core_config (c : VoIPConfig) : VoipConfig := {|
  f_discovery_privacy_first := discovery_privacy_first c;
  f_dht_lookup_timeout_ms := dht_lookup_timeout_ms c;
  f_dht_bootstrap_nodes := dht_bootstrap_nodes c;
  f_signaling_server_url := "";
  f_masque_fallback_enabled := masque_fallback_enabled c;
  f_push_retry_enabled := push_retry_enabled c;
  f_quic_connect_timeout_ms := quic_connect_timeout_ms c;
  f_call_ring_timeout_ms := call_ring_timeout_ms c
|}.

Definition default_voip_config : VoipConfig := from_core_config default_config.

Record FfiConnectionInfo := {
  fi_method : FfiConnectionMethod;
  fi_rtt_ms : Z;
  fi_packet_loss_pct : Z;
  fi_jitter_ms : Z;
  fi_discovery_method : FfiDiscoveryMethod
}.

Definition ffi_connection_info (i : ClientConnectionInfo) : FfiConnectionInfo := {|
  fi_method := ffi_connection_method (info_method i);
  fi_rtt_ms := info_rtt_ms i;
  fi_packet_loss_pct := info_packet_loss_pct i;
  fi_jitter_ms := info_jitter_ms i;
  fi_discovery_method := FfiDisc_Dht
|}.

Record FfiCallStats := {
  fs_duration_secs : Z;
  fs_bytes_sent : Z;
  fs_bytes_received : Z;
  fs_packets_sent : Z;
  fs_packets_received : Z;
  fs_packets_lost : Z
}.

Definition ffi_call_stats (s : ClientStats) : FfiCallStats := {|
  fs_duration_secs := stats_duration_secs s;
  fs_bytes_sent := stats_bytes_sent s;
  fs_bytes_received := stats_bytes_received s;
  fs_packets_sent := stats_packets_sent s;
  fs_packets_received := stats_packets_received s;
  fs_packets_lost := stats_packets_lost s
|}.

Definition ffi_stats_default : FfiCallStats := Build_FfiCallStats 0 0 0 0 0 0.

(** ** The client object *)

Record VoipClient := { vc_inner : option ClientInner; vc_config : VoipConfig }.

Definition voip_client_new (config : VoipConfig) : VoipClient :=
  {| vc_inner := None; vc_config := config |}.

Definition set_inner (c : option ClientInner) (v : VoipClient) : VoipClient :=
  {| vc_inner := c; vc_config := vc_config v |}.

(** [?] on a client error inside a method that returns an FFI error. *)
Definition lift (r : result ClientError unit) : result FfiError unit :=
  match r with Ok x => Ok x | Err e => Err (ffi_error e) end.

Definition voip_init (v : VoipClient) : result FfiError unit * VoipClient :=
  match client_init (client_new (to_core_config (vc_config v))) with
  | (Ok _, client) => (Ok tt, set_inner (Some client) v)
  | (Err e, _) => (Err (ffi_error e), v)
  end.

(** The shape of [call], [hangup], [mute] and [unmute]: the operation on the inner client. *)
Definition with_inner (op : ClientInner -> result ClientError unit * ClientInner) (v : VoipClient)
    : result FfiError unit * VoipClient :=
  match vc_inner v with
  | None => (Err Ffi_NotInitialized, v)
  | Some client => let (r, client') := op client in (lift r, set_inner (Some client') v)
  end.

Definition voip_call (peer_id : string) : VoipClient -> _ := with_inner (client_call peer_id).
Definition voip_hangup : VoipClient -> _ := with_inner hangup.
Definition voip_mute : VoipClient -> _ := with_inner mute.
Definition voip_unmute : VoipClient -> _ := with_inner unmute.

Definition voip_shutdown (v : VoipClient) : result FfiError unit * VoipClient :=
  match vc_inner v with
  | Some client => (lift (fst (shutdown client)), set_inner None v)
  | None => (Ok tt, v)
  end.

Definition get_call_state (v : VoipClient) : FfiCallState :=
  match vc_inner v with Some c => ffi_call_state (client_state c) | None => Ffi_Idle end.

Definition get_connection_info (v : VoipClient) : option FfiConnectionInfo :=
  match vc_inner v with Some c => ffi_connection_info <$> connection_info c | None => None end.

Definition get_call_stats (v : VoipClient) : FfiCallStats :=
  match vc_inner v with Some c => ffi_call_stats (call_stats c) | None => ffi_stats_default end.

Definition voip_is_muted (v : VoipClient) : bool :=
  match vc_inner v with Some c => is_muted c | None => false end.

(** ** Runs *)

Inductive FfiOp := Ffi_init | Ffi_call (peer_id : string) | Ffi_hangup | Ffi_mute | Ffi_unmute
| Ffi_shutdown.

Definition ffi_op (o : FfiOp) : VoipClient -> result FfiError unit * VoipClient :=
  match o with
  | Ffi_init => voip_init
  | Ffi_call p => voip_call p
  | Ffi_hangup => voip_hangup
  | Ffi_mute => voip_mute
  | Ffi_unmute => voip_unmute
  | Ffi_shutdown => voip_shutdown
  end.

(** The results of a sequence of calls, and the state it ends in. *)
Fixpoint run {S R} (op : FfiOp -> S -> R * S) (ops : list FfiOp) (s : S) : list R * S :=
  match ops with
  | [] => ([], s)
  | o :: ops' =>
      let (r, s1) := op o s in
      let (rs, s2) := run op ops' s1 in (r :: rs, s2)
  end.

(** ** What the interface promises

    A phone that is off, ready, calling a peer, or done with its call.  Initializing may succeed
    or fail; every other answer is determined. *)
Inductive Phase := Off | Ready | Calling (peer_id : string) | Over.

Definition phase_op (o : FfiOp) (p : Phase) : result FfiError unit * Phase :=
  match o, p with
  | Ffi_init, _ => (Ok tt, Ready)
  | Ffi_shutdown, _ => (Ok tt, Off)
  | _, Off => (Err Ffi_NotInitialized, Off)
  | Ffi_call peer, Ready => (Ok tt, Calling peer)
  | Ffi_call _, _ => (Err Ffi_CallInProgress, p)
  | Ffi_hangup, Ready => (Err Ffi_NoActiveCall, Ready)
  | Ffi_hangup, _ => (Ok tt, Over)
  | Ffi_mute, _ | Ffi_unmute, _ => (Err Ffi_NoActiveCall, p)
  end.

Inductive phase_run : list FfiOp -> Phase -> list (result FfiError unit) -> Phase -> Prop :=
| run_nil p : phase_run [] p [] p
| run_op o ops p rs p' :
    phase_run ops (snd (phase_op o p)) rs p' -> phase_run (o :: ops) p (fst (phase_op o p) :: rs) p'
| run_init_fails e ops p rs p' :
    phase_run ops p rs p' -> phase_run (Ffi_init :: ops) p (Err e :: rs) p'.

Definition phase_state (p : Phase) : FfiCallState :=
  match p with Off | Ready => Ffi_Idle | Calling _ => Ffi_Ringing | Over => Ffi_Ended end.

(** The inner client of a phase. *)
Definition phase_client (config : VoIPConfig) (p : Phase) : option ClientInner :=
  let client st peer := Some {| client_config := config; client_state := st;
    connection_info := None; call_stats := stats_default; is_muted := false;
    current_peer_id := peer |} in
  match p with
  | Off => None
  | Ready => client Client_Idle None
  | Calling peer => client Client_Ringing (Some peer)
  | Over => client Client_Ended None
  end.

Definition object_of (config : VoipConfig) (p : Phase) : VoipClient :=
  {| vc_inner := phase_client (to_core_config config) p; vc_config := config |}.

Lemma ffi_op_simulates config o p :
  ffi_op o (object_of config p) =
    (fst (phase_op o p), object_of config (snd (phase_op o p))).
Proof. by destruct o, p. Qed.

Lemma run_simulates config ops p :
  exists rs p', run ffi_op ops (object_of config p) = (rs, object_of config p') /\
    phase_run ops p rs p'.
Proof.
  revert p. induction ops as [|o ops IH]; intros p; cbn [run].
  { exists [], p. split; [done|constructor]. }
  rewrite ffi_op_simulates. destruct (IH (snd (phase_op o p))) as (rs & p' & -> & Hr).
  do 2 eexists. split; [done|]. by constructor.
Qed.

(** What the conversions keep of an error: the message of the eight shared errors is the
    client's own, and no client error turns into the message that the client is not
    initialized unless it is that error. *)
Lemma ffi_error_keeps e :
  (ffi_error e = Ffi_NotInitialized <-> e = Client_NotInitialized) /\
  match e with
  | Client_NotInitialized | Client_CallInProgress | Client_NoActiveCall
  | Client_ConnectionFailed _ | Client_CallSetupTimeout _ | Client_CallRejected _
  | Client_NatTraversalFailed _ | Client_MasqueFailed _ =>
      ffi_to_string (ffi_error e) = client_to_string e
  | Client_Core e' => ffi_to_string (ffi_error e) = "Internal error: " +:+ client_to_string e
  | _ => True
  end.
Proof. by destruct e. Qed.

(** A configuration loses only the address of the signaling server on the way to the core
    and back. *)
Lemma config_there_and_back f :
  from_core_config (to_core_config f) = {|
    f_discovery_privacy_first := f_discovery_privacy_first f;
    f_dht_lookup_timeout_ms := f_dht_lookup_timeout_ms f;
    f_dht_bootstrap_nodes := f_dht_bootstrap_nodes f;
    f_signaling_server_url := "";
    f_masque_fallback_enabled := f_masque_fallback_enabled f;
    f_push_retry_enabled := f_push_retry_enabled f;
    f_quic_connect_timeout_ms := f_quic_connect_timeout_ms f;
    f_call_ring_timeout_ms := f_call_ring_timeout_ms f |} /\
  to_core_config default_voip_config = default_config.
Proof. done. Qed.

(** C22: Every sequence of calls on the object that the mobile applications hold, in any order,
    answers as a run of the phone with four phases: off until it is initialized, ready, calling
    one peer, and done.  Before a successful initialization and after shutdown every operation
    answers that the client is not initialized; one that fails changes nothing; muting never
    succeeds; initializing again drops the call in progress; and what the queries show is that
    phase, with no connection info and no statistics.  The inner client has the seven settings
    of the configuration given at construction that the core knows (all but the address of the
    signaling server), and the default configuration of the object is the default of the core. *)
Theorem ffi_object_is_phone config ops :
  let (rs, v) := run ffi_op ops (voip_client_new config) in
  exists p, phase_run ops Off rs p /\
  get_call_state v = phase_state p /\ get_connection_info v = None /\
  get_call_stats v = ffi_stats_default /\ voip_is_muted v = false /\
  (forall c, vc_inner v = Some c ->
     let core := client_config c in
     discovery_privacy_first core = f_discovery_privacy_first config /\
     dht_lookup_timeout_ms core = f_dht_lookup_timeout_ms config /\
     dht_bootstrap_nodes core = f_dht_bootstrap_nodes config /\
     masque_fallback_enabled core = f_masque_fallback_enabled config /\
     push_retry_enabled core = f_push_retry_enabled config /\
     quic_connect_timeout_ms core = f_quic_connect_timeout_ms config /\
     call_ring_timeout_ms core = f_call_ring_timeout_ms config /\
     (config = default_voip_config -> core = default_config) /\
     forall peer, current_peer_id c = Some peer <-> p = Calling peer) /\
  (vc_inner v = None <-> p = Off).
Proof.
  change (voip_client_new config) with (object_of config Off).
  destruct (run_simulates config ops Off) as (rs & p & -> & Hr). exists p. split; [done|].
  destruct p; cbn; (split_and!; [done..| |done]); intros c Hc; simplify_eq; cbn;
    (split_and!; [done..|by intros ->|]); intros peer'; split; congruence.
Qed.
