(* ===== verification/PushRetry.v ===== *)
(** * Retry schedules

    [voip-client/src/push_retry.rs]: the handler that counts push retries and the scheduler
    around it; and [MigrationRetryHandler] of [voip-client/src/migration.rs], a second
    implementation of the same backoff.  Delays are in seconds; [None] is an overflow
    panic. *)

From S2P Require Import Prelude Types Config Lru Wire Crypto Server.

Local Open Scope Z_scope.
Local Open Scope rust_scope.

Inductive RetryError :=
| RetryDisabled
| RetriesExhausted
| ReasonNotRetryable (reason : CallEndReason).

Record PushRetryHandler := {
  retry_count : Z;
  last_retry : option Z
}.

Definition handler_new : PushRetryHandler := {| retry_count := 0; last_retry := None |}.

(** A scheduled task: the delay and the message it would send. *)
Record RetryTask := { task_delay : Z; task_message : PushRetryMsg }.

Record RetryScheduler := {
  handler : PushRetryHandler;
  retry_task : option RetryTask
}.

Definition scheduler_new : RetryScheduler := {| handler := handler_new; retry_task := None |}.

Section Retry.
Context (m : overflow_mode) (config : VoIPConfig).

Definition can_retry (h : PushRetryHandler) : bool :=
  retry_count h <? push_retry_max_attempts config.

Definition next_retry_delay (h : PushRetryHandler) : option Z :=
  let?o next_attempt := arith m 32 (retry_count h + 1) in
  retry_delay_secs m config next_attempt.

Definition record_retry (now : Z) (h : PushRetryHandler) : option PushRetryHandler :=
  let?o count := arith m 32 (retry_count h + 1) in
  Some {| retry_count := count; last_retry := Some now |}.

Definition handler_reset (h : PushRetryHandler) : PushRetryHandler := handler_new.

(** [as_millis() as u64]. *)
Definition create_push_retry_message (h : PushRetryHandler) (call_id peer_id : string)
    (reason : CallEndReason) : option PushRetryMsg :=
  let?o delay := next_retry_delay h in
  let?o attempt := arith m 32 (retry_count h + 1) in
  Some {| rt_call_id := call_id; rt_caller_id := ""; rt_callee_id := peer_id;
          rt_reason := as_i32 (into reason : ProtoCallEndReason);
          rt_retry_attempt := attempt; rt_retry_after_ms := cast 64 (delay * 1000) |}.

Definition cancel (s : RetryScheduler) : RetryScheduler :=
  {| handler := handler s; retry_task := None |}.

Definition schedule_retry (now : Z) (call_id peer_id : string) (reason : CallEndReason)
    (s : RetryScheduler) : option (result RetryError unit * RetryScheduler) :=
  if negb (push_retry_enabled config) then Some (Err RetryDisabled, s)
  else if negb (can_retry (handler s)) then Some (Err RetriesExhausted, s)
  else if negb (should_retry reason) then Some (Err (ReasonNotRetryable reason), s)
  else
    let s := cancel s in
    let?o delay := next_retry_delay (handler s) in
    let?o msg := create_push_retry_message (handler s) call_id peer_id reason in
    let?o h := record_retry now (handler s) in
    Some (Ok tt, {| handler := h;
                    retry_task := Some {| task_delay := delay; task_message := msg |} |}).

Definition scheduler_reset (s : RetryScheduler) : RetryScheduler :=
  {| handler := handler_reset (handler s); retry_task := None |}.

(** ** The migration handler *)

Record MigrationRetryHandler := {
  mr_attempt : Z;
  mr_max_attempts : Z;
  mr_initial_delay_secs : Z;
  mr_backoff_multiplier : Z
}.

Definition migration_new : MigrationRetryHandler := {|
  mr_attempt := 0; mr_max_attempts := push_retry_max_attempts config;
  mr_initial_delay_secs := push_retry_initial_delay_secs config;
  mr_backoff_multiplier := push_retry_backoff_multiplier config
|}.

(** The outer option is a panic, the inner one the answer. *)
Definition next_delay (h : MigrationRetryHandler) : option (option Z) :=
  if mr_max_attempts h <=? mr_attempt h then Some None
  else
    let?o p := arith m 64 (mr_backoff_multiplier h ^ mr_attempt h) in
    let?o d := arith m 64 (mr_initial_delay_secs h * p) in
    Some (Some d).

Definition record_attempt (h : MigrationRetryHandler) : option MigrationRetryHandler :=
  let?o a := arith m 32 (mr_attempt h + 1) in
  Some {| mr_attempt := a; mr_max_attempts := mr_max_attempts h;
          mr_initial_delay_secs := mr_initial_delay_secs h;
          mr_backoff_multiplier := mr_backoff_multiplier h |}.

Definition is_exhausted (h : MigrationRetryHandler) : bool := mr_max_attempts h <=? mr_attempt h.

(** [n] retries of a call, and [n] attempts of a migration. *)
Fixpoint schedule_many (n : nat) (now : Z) (call_id peer_id : string) (reason : CallEndReason)
    (s : RetryScheduler) : option RetryScheduler :=
  match n with
  | O => Some s
  | S n' =>
      let?o s' := schedule_many n' now call_id peer_id reason s in
      match schedule_retry now call_id peer_id reason s' with
      | Some (Ok _, s2) => Some s2
      | _ => None
      end
  end.

Fixpoint attempt_many (n : nat) (h : MigrationRetryHandler) : option MigrationRetryHandler :=
  match n with
  | O => Some h
  | S n' => let?o h' := attempt_many n' h in record_attempt h'
  end.

(** ** Facts *)

Hypothesis Hmax : 0 <= push_retry_max_attempts config < 2 ^ 32.
Hypothesis Henabled : push_retry_enabled config = true.

(** The delay of retry [k] when nothing overflows. *)
Definition backoff (k : Z) : Z :=
  push_retry_initial_delay_secs config * push_retry_backoff_multiplier config ^ (k - 1).

Hypothesis Hinit : 1 <= push_retry_initial_delay_secs config.
Hypothesis Hmult : 1 <= push_retry_backoff_multiplier config.
Hypothesis Hfits : forall k, 1 <= k <= push_retry_max_attempts config -> backoff k < 2 ^ 64.

Lemma retry_delay_backoff k :
  1 <= k <= push_retry_max_attempts config -> retry_delay_secs m config k = Some (backoff k).
Proof. intros Hk. apply retry_delay_closed_form; try lia. by apply Hfits. Qed.

Lemma schedule_many_ok n now call_id peer_id reason :
  should_retry reason = true -> Z.of_nat n <= push_retry_max_attempts config ->
  exists s, schedule_many n now call_id peer_id reason scheduler_new = Some s /\
    retry_count (handler s) = Z.of_nat n /\
    (forall k, n = S k -> option_map task_delay (retry_task s) = Some (backoff (Z.of_nat n))).
Proof.
  intros Hr. induction n as [|n IH]; intros Hn; [by exists scheduler_new|].
  destruct IH as (s & Hs & Hc & _); [lia|]. cbn [schedule_many]. rewrite Hs.
  unfold schedule_retry, can_retry, create_push_retry_message, record_retry, next_retry_delay.
  rewrite Henabled, Hr. cbn [cancel handler negb]. rewrite Hc.
  rewrite (proj2 (Z.ltb_lt _ _)) by lia. cbn [negb].
  rewrite !arith_in_range by lia. rewrite retry_delay_backoff by lia.
  eexists. split; [done|]. cbn [handler retry_count retry_task option_map task_delay].
  split; [lia|]. intros k _. do 2 f_equal. lia.
Qed.

Lemma attempt_many_ok n :
  Z.of_nat n <= push_retry_max_attempts config ->
  attempt_many n migration_new =
    Some {| mr_attempt := Z.of_nat n; mr_max_attempts := push_retry_max_attempts config;
            mr_initial_delay_secs := push_retry_initial_delay_secs config;
            mr_backoff_multiplier := push_retry_backoff_multiplier config |}.
Proof.
  induction n as [|n IH]; intros Hn; [done|]. cbn [attempt_many]. rewrite IH by lia.
  unfold record_attempt. cbn [mr_attempt]. rewrite arith_in_range by lia. do 2 f_equal. lia.
Qed.
End Retry.

(** The two implementations of the backoff agree and are exhausted together: the [n]-th
    scheduled retry of a call waits as long as the [n]-th attempt of a migration, namely
    [initial * multiplier ^ (n - 1)] seconds, and after the configured number of retries a
    call schedules none and a migration gives no delay. *)
Lemma retry_schedules_agree m config now call_id peer_id reason n :
  0 <= push_retry_max_attempts config < 2 ^ 32 -> push_retry_enabled config = true ->
  1 <= push_retry_initial_delay_secs config -> 1 <= push_retry_backoff_multiplier config ->
  (forall k, 1 <= k <= push_retry_max_attempts config -> backoff config k < 2 ^ 64) ->
  should_retry reason = true -> Z.of_nat n <= push_retry_max_attempts config ->
  exists s h,
    schedule_many m config n now call_id peer_id reason scheduler_new = Some s /\
    attempt_many m n (migration_new config) = Some h /\
    if Z.of_nat n <? push_retry_max_attempts config
    then next_delay m h = Some (Some (backoff config (Z.of_nat n + 1))) /\
         exists s', schedule_retry m config now call_id peer_id reason s = Some (Ok tt, s') /\
           option_map task_delay (retry_task s') = Some (backoff config (Z.of_nat n + 1))
    else next_delay m h = Some None /\ is_exhausted h = true /\
         schedule_retry m config now call_id peer_id reason s = Some (Err RetriesExhausted, s).
Proof.
  intros Hmax Hen Hi Hm Hfits Hr Hn.
  destruct (schedule_many_ok m config Hmax Hen Hi Hm Hfits n now call_id peer_id reason Hr Hn)
    as (s & Hs & Hc & _).
  eexists s, _. split; [done|]. split; [by apply attempt_many_ok|].
  destruct (_ <? _) eqn:E; bool_to_prop.
  - unfold next_delay. cbn [mr_max_attempts mr_attempt mr_backoff_multiplier mr_initial_delay_secs].
    rewrite (proj2 (Z.leb_gt _ _)) by lia.
    specialize (Hfits (Z.of_nat n + 1) ltac:(lia)). unfold backoff in *.
    replace (Z.of_nat n + 1 - 1) with (Z.of_nat n) in * by lia.
    assert (0 < push_retry_backoff_multiplier config ^ Z.of_nat n) by (apply Z.pow_pos_nonneg; lia).
    rewrite !arith_in_range by nia. split; [done|].
    unfold schedule_retry, can_retry, create_push_retry_message, record_retry, next_retry_delay.
    rewrite Hen, Hr. cbn [cancel handler negb]. rewrite Hc, (proj2 (Z.ltb_lt _ _)) by lia.
    cbn [negb]. rewrite !arith_in_range by lia.
    rewrite retry_delay_closed_form; try lia;
      replace (Z.of_nat n + 1 - 1) with (Z.of_nat n) by lia; [|done].
    eexists. by split.
  - unfold next_delay, is_exhausted. cbn [mr_max_attempts mr_attempt].
    rewrite (proj2 (Z.leb_le _ _)) by lia. do 2 (split; [done|]).
    unfold schedule_retry, can_retry. rewrite Hen, Hc, (proj2 (Z.ltb_ge _ _)) by lia. done.
Qed.

Lemma retry_schedules_agree_witness :
  exists s h,
    schedule_many Checked default_config 3 0 "c" "b" End_FailedIpv4Random scheduler_new = Some s /\
    attempt_many Checked 3 (migration_new default_config) = Some h /\ is_exhausted h = true.
Proof.
  destruct (retry_schedules_agree Checked default_config 0 "c" "b" End_FailedIpv4Random 3)
    as (s & h & Hs & Hh & Hx).
  - vm_compute. split; congruence.
  - reflexivity.
  - vm_compute. congruence.
  - vm_compute. congruence.
  - intros k Hk. assert (k = 1 \/ k = 2 \/ k = 3) as [-> | [-> | ->]] by
      (change (push_retry_max_attempts default_config) with 3 in Hk; lia); reflexivity.
  - reflexivity.
  - vm_compute. congruence.
  - exists s, h. split; [exact Hs|]. split; [exact Hh|]. exact (proj1 (proj2 Hx)).
Defined.
