(* ===== verification/PeerCache.v ===== *)
(** * Peer address book

    [voip-client/src/peer_cache.rs]: discovered peers with a time to live.  Times are
    nanoseconds; the lock is never poisoned, since no operation panics while holding it. *)

From S2P Require Import Prelude Types DhtRecord.

Local Open Scope Z_scope.
Local Open Scope rust_scope.

Record CachedPeer := {
  cpe_record : ProtoPeerRecord;
  discovered_via : DiscoveryMethod;
  discovered_at : Z;
  cpe_ttl : Z
}.

Record PeerAddressBook := {
  book_peers : gmap string CachedPeer;
  default_ttl : Z
}.

Definition book_new (ttl : Z) : PeerAddressBook := {| book_peers := ∅; default_ttl := ttl |}.
Definition book_default_settings : PeerAddressBook := book_new (300 * NS_PER_SEC).

Definition cached_is_expired (now : Z) (c : CachedPeer) : bool :=
  cpe_ttl c <? elapsed now (discovered_at c).

Definition with_peers (peers : gmap string CachedPeer) (b : PeerAddressBook) : PeerAddressBook :=
  {| book_peers := peers; default_ttl := default_ttl b |}.

Definition book_insert (now : Z) (r : ProtoPeerRecord) (via : DiscoveryMethod)
    (b : PeerAddressBook) : PeerAddressBook :=
  with_peers (<[ppr_peer_id r := {| cpe_record := r; discovered_via := via; discovered_at := now;
                                    cpe_ttl := default_ttl b |}]> (book_peers b)) b.

Definition book_get (now : Z) (pid : string) (b : PeerAddressBook)
    : option (ProtoPeerRecord * DiscoveryMethod) :=
  let?o c := book_peers b !! pid in
  if cached_is_expired now c then None else Some (cpe_record c, discovered_via c).

Definition book_invalidate (pid : string) (b : PeerAddressBook) : PeerAddressBook :=
  with_peers (delete pid (book_peers b)) b.

Definition cleanup_expired (now : Z) (b : PeerAddressBook) : PeerAddressBook * Z :=
  let kept := filter (fun kv : string * CachedPeer => cached_is_expired now kv.2 = false)
                (book_peers b) in
  (with_peers kept b, Z.of_nat (size (book_peers b)) - Z.of_nat (size kept)).

Definition book_clear (b : PeerAddressBook) : PeerAddressBook := with_peers ∅ b.

(** ** What the book promises

    A finite map from peer ids to what was discovered about them, at a given time. *)

Definition known (now : Z) (b : PeerAddressBook) : gmap string (ProtoPeerRecord * DiscoveryMethod) :=
  omap (fun c => if cached_is_expired now c then None else Some (cpe_record c, discovered_via c))
    (book_peers b).

Lemma known_lookup now b pid : known now b !! pid = book_get now pid b.
Proof. unfold known, book_get. rewrite lookup_omap. by destruct (book_peers b !! pid). Qed.

(** At every time the book behaves as the finite map of its unexpired entries: a lookup
    reads the map, an insertion overwrites one key with an entry that is not expired yet, an
    invalidation deletes one key, a cleanup changes nothing visible and drops exactly the
    expired entries, and clearing empties it. *)
Lemma address_book_is_map now b :
  0 <= default_ttl b ->
  (forall pid, book_get now pid b = known now b !! pid) /\
  (forall r via, known now (book_insert now r via b) = <[ppr_peer_id r := (r, via)]> (known now b)) /\
  (forall pid, known now (book_invalidate pid b) = delete pid (known now b)) /\
  (known now (fst (cleanup_expired now b)) = known now b /\
   dom (book_peers (fst (cleanup_expired now b))) = dom (known now b) /\
   snd (cleanup_expired now b) =
     Z.of_nat (size (book_peers b)) - Z.of_nat (size (dom (known now b)))) /\
  known now (book_clear b) = ∅.
Proof.
  intros Httl.
  assert (known now (fst (cleanup_expired now b)) = known now b) as Hc.
  { apply map_eq. intros pid. rewrite !known_lookup. unfold book_get, cleanup_expired. cbn.
    destruct (book_peers b !! pid) as [c|] eqn:E.
    - destruct (cached_is_expired now c) eqn:Ex.
      + by rewrite (map_lookup_filter_None_2 _ _ pid) by
          (right; intros c' Hc'; simplify_eq; simpl; congruence).
      + rewrite (map_lookup_filter_Some_2 _ _ pid c E) by done. by rewrite Ex.
    - by rewrite (map_lookup_filter_None_2 _ _ pid) by (by left). }
  assert (dom (book_peers (fst (cleanup_expired now b))) = dom (known now b)) as Hd.
  { apply set_eq. intros pid. rewrite !elem_of_dom, known_lookup. unfold book_get. cbn.
    split.
    - intros [c [Hl Hf]%map_lookup_filter_Some]. rewrite Hl. simpl in Hf. rewrite Hf. by eexists.
    - intros [x Hx]. destruct (book_peers b !! pid) as [c|] eqn:E; [|done].
      destruct (cached_is_expired now c) eqn:Ex; [done|]. exists c.
      by apply map_lookup_filter_Some_2. }
  split; [intros; by rewrite known_lookup|]. split; [|split; [|split; [|]]].
  - intros r via. unfold known, book_insert. cbn. rewrite omap_insert.
    unfold cached_is_expired at 1. cbn. unfold elapsed at 1, saturating_sub.
    rewrite Z.sub_diag, (proj2 (Z.ltb_ge _ _)) by lia. done.
  - intros pid. unfold known, book_invalidate. cbn. by rewrite omap_delete.
  - split; [done|]. split; [done|]. rewrite <- Hd, size_dom. done.
  - apply omap_empty.
Qed.

Lemma address_book_is_map_witness :
  book_get 5 "aa" (book_insert 5 (to_proto DhtSample.record) Discovery_Dht book_default_settings) =
    Some (to_proto DhtSample.record, Discovery_Dht).
Proof.
  rewrite (proj1 (address_book_is_map 5
    (book_insert 5 (to_proto DhtSample.record) Discovery_Dht book_default_settings)
    ltac:(vm_compute; congruence))).
  vm_compute. reflexivity.
Defined.
