(* ===== verification/Bridge.v ===== *)
(** * UDP over TCP bridge

    [scripts/udp_tcp_bridge.py]: datagrams carried over a TCP stream with a length prefix.
    The stream arrives in chunks of any size; [asyncio] runs one task at a time, so a run is
    a sequence of the steps its tasks take between two suspensions. *)

From S2P Require Import Prelude.

Local Open Scope Z_scope.
Local Open Scope rust_scope.

(** ** Framing *)

(** [struct.pack(">I", len(data)) + data]; packing raises above 32 bits. *)
Definition pack_frame (data : list Z) : option (list Z) :=
  if zlen data <? 2 ^ 32 then Some (to_be 4 (zlen data) ++ data) else None.

(** [read_exact]: [reader.read] gives at most what is asked for from the next chunk, and
    nothing at the end of the stream, where the function raises ([None]). *)
Fixpoint read_exact (n : Z) (chunks : list (list Z)) : option (list Z * list (list Z)) :=
  if n <=? 0 then Some ([], chunks)
  else
    match chunks with
    | [] => None
    | c :: rest =>
        if zlen c <=? n then
          let?o (data, rest') := read_exact (n - zlen c) rest in Some (c ++ data, rest')
        else Some (take (Z.to_nat n) c, drop (Z.to_nat n) c :: rest)
    end.

Inductive TcpEnd := TcpClosed | FrameTooLarge (n : Z) | TcpNoFuel.

(** The main loop of both modes: the payloads it hands to the socket and why it ends.
    Every iteration that goes on takes at least the four bytes of a length. *)
Fixpoint tcp_to_udp (fuel : nat) (chunks : list (list Z)) : list (list Z) * TcpEnd :=
  match fuel with
  | O => ([], TcpNoFuel)
  | S fuel' =>
      match read_exact 4 chunks with
      | None => ([], TcpClosed)
      | Some (len_bytes, chunks1) =>
          let frame_len := from_be len_bytes in
          if 65535 <? frame_len then ([], FrameTooLarge frame_len)
          else
            match read_exact frame_len chunks1 with
            | None => ([], TcpClosed)
            | Some (payload, chunks2) =>
                let (l, e) := tcp_to_udp fuel' chunks2 in (payload :: l, e)
            end
      end
  end.

Definition receive_stream (chunks : list (list Z)) : list (list Z) * TcpEnd :=
  tcp_to_udp (S (length (concat chunks))) chunks.

(** ** The client mode *)

Section ClientMode.
Context {Addr : Type}.

Record UDPClientProtocol := { peer_addr : option Addr; queue : list (list Z) }.

Definition datagram_received (data : list Z) (addr : Addr) (p : UDPClientProtocol)
    : UDPClientProtocol :=
  {| peer_addr := Some addr; queue := queue p ++ [data] |}.

(** The bridge: its UDP side, whether the TCP connection is open, whether the task that
    feeds it runs, the bytes written to it and the replies sent to UDP. *)
Record Bridge := {
  udp_proto : UDPClientProtocol;
  tcp_open : bool;
  pumping : bool;
  written : list Z;
  replies : list (list Z * Addr)
}.

Definition client_start : Bridge := {|
  udp_proto := {| peer_addr := None; queue := [] |}; tcp_open := false; pumping := true;
  written := []; replies := []
|}.

(** Steps: a datagram arrives; the next queued one is written, the first after opening the
    connection; that write fails after some bytes; the main loop forwards a payload; the stream
    ends. *)
Inductive BridgeEvent :=
| Datagram (data : list Z) (addr : Addr)
| PumpWrite
| PumpFails (bytes : nat)
| Payload (data : list Z)
| StreamEnds.

Definition set_queue (q : list (list Z)) (p : UDPClientProtocol) : UDPClientProtocol :=
  {| peer_addr := peer_addr p; queue := q |}.

Definition pump_write (b : Bridge) : option Bridge :=
  match pumping b, queue (udp_proto b) with
  | true, data :: q =>
      let?o frame := pack_frame data in
      Some {| udp_proto := set_queue q (udp_proto b); tcp_open := true; pumping := true;
              written := written b ++ frame; replies := replies b |}
  | _, _ => Some b
  end.

(** A failed write ends the task; before the connection is in use it ends the program. *)
Definition pump_fails (bytes : nat) (b : Bridge) : option Bridge :=
  match pumping b, queue (udp_proto b) with
  | true, data :: q =>
      let?o frame := pack_frame data in
      Some {| udp_proto := set_queue q (udp_proto b); tcp_open := tcp_open b; pumping := false;
              written := written b ++ take bytes frame; replies := replies b |}
  | _, _ => Some b
  end.

Definition forward_payload (data : list Z) (b : Bridge) : Bridge :=
  match tcp_open b, peer_addr (udp_proto b) with
  | true, Some addr =>
      {| udp_proto := udp_proto b; tcp_open := true; pumping := pumping b; written := written b;
         replies := replies b ++ [(data, addr)] |}
  | _, _ => b
  end.

(** The [finally] clause. *)
Definition stream_ends (b : Bridge) : Bridge := {|
  udp_proto := udp_proto b; tcp_open := false; pumping := if tcp_open b then false else pumping b;
  written := written b; replies := replies b
|}.

Definition bridge_step (e : BridgeEvent) (b : Bridge) : option Bridge :=
  match e with
  | Datagram data addr =>
      Some {| udp_proto := datagram_received data addr (udp_proto b); tcp_open := tcp_open b;
              pumping := pumping b; written := written b; replies := replies b |}
  | PumpWrite => pump_write b
  | PumpFails bytes => pump_fails bytes b
  | Payload data => Some (forward_payload data b)
  | StreamEnds => Some (stream_ends b)
  end.

Fixpoint bridge_run (es : list BridgeEvent) (b : Bridge) : option Bridge :=
  match es with
  | [] => Some b
  | e :: es' => let?o b' := bridge_step e b in bridge_run es' b'
  end.

(** The datagrams of a run, with their senders. *)
Definition arrivals (es : list BridgeEvent) : list (list Z * Addr) :=
  omap (fun e => match e with Datagram data addr => Some (data, addr) | _ => None end) es.

(** What is due for event [i] of a run: a payload that arrives while the connection is open
    goes to whoever sent the last datagram before it. *)
Definition reply_at (es : list BridgeEvent) (i : nat) : option (list Z * Addr) :=
  match es !! i, bridge_run (take i es) client_start with
  | Some (Payload data), Some b =>
      if tcp_open b then (fun d => (data, d.2)) <$> last (arrivals (take i es)) else None
  | _, _ => None
  end.
End ClientMode.

Arguments UDPClientProtocol : clear implicits.
Arguments Bridge : clear implicits.
Arguments BridgeEvent : clear implicits.

(** ** Facts *)

Definition frames (ds : list (list Z)) : list Z := concat (map (fun d => to_be 4 (zlen d) ++ d) ds).

Lemma read_exact_flat n chunks :
  match read_exact n chunks with
  | Some (data, rest) =>
      concat chunks = data ++ concat rest /\ zlen data = Z.max 0 n
  | None => zlen (concat chunks) < n
  end.
Proof.
  revert n. induction chunks as [|c cs IH]; intros n; cbn [read_exact]; case_goal; bool_to_prop.
  - split; [done|]. unfold zlen. simpl. lia.
  - unfold zlen. simpl. lia.
  - split; [done|]. unfold zlen. simpl. lia.
  - cbn [concat]. rewrite zlen_app. destruct (zlen c <=? n) eqn:Ec; bool_to_prop.
    + specialize (IH (n - zlen c)). destruct (read_exact (n - zlen c) cs) as [[d r]|]; [|lia].
      destruct IH as [-> IH]. rewrite zlen_app, app_assoc. split; [done|lia].
    + cbn [concat]. rewrite app_assoc, take_drop. split; [done|].
      unfold zlen in *. rewrite length_take. lia.
Qed.

Lemma read_exact_app n chunks data l :
  concat chunks = data ++ l -> zlen data = n ->
  exists rest, read_exact n chunks = Some (data, rest) /\ concat rest = l.
Proof.
  intros Hc Hn. pose proof (read_exact_flat n chunks) as H. pose proof (zlen_nonneg l).
  pose proof (zlen_nonneg data). rewrite Hc in H.
  destruct (read_exact n chunks) as [[d rest]|]; [|rewrite zlen_app in H; lia].
  destruct H as [He Hd]. apply app_inj_1 in He as [-> ->]; [by exists rest|].
  unfold zlen in *. lia.
Qed.

Lemma read_exact_short n chunks : zlen (concat chunks) < n -> read_exact n chunks = None.
Proof.
  intros Hn. pose proof (read_exact_flat n chunks) as H.
  destruct (read_exact n chunks) as [[d rest]|]; [|done]. destruct H as [He Hd].
  rewrite He, zlen_app in Hn. pose proof (zlen_nonneg (concat rest)). lia.
Qed.

Lemma read_exact_chunking n c1 c2 :
  concat c1 = concat c2 ->
  match read_exact n c1, read_exact n c2 with
  | Some (d1, r1), Some (d2, r2) => d1 = d2 /\ concat r1 = concat r2
  | None, None => True
  | _, _ => False
  end.
Proof.
  intros Hc. pose proof (read_exact_flat n c1) as H1.
  destruct (read_exact n c1) as [[d1 r1]|].
  - destruct H1 as [He Hd]. destruct (decide (0 <= n)).
    + destruct (read_exact_app n c2 d1 (concat r1)) as (r2 & -> & ->); [congruence|lia|done].
    + assert (d1 = []) as -> by (destruct d1; [done|rewrite zlen_cons in Hd; pose proof (zlen_nonneg d1); lia]).
      destruct c2 as [|c c2]; cbn [read_exact]; replace (n <=? 0) with true by lia; by rewrite <- Hc.
  - rewrite Hc in H1. by rewrite (read_exact_short _ _ H1).
Qed.

Lemma tcp_to_udp_chunking fuel c1 c2 :
  concat c1 = concat c2 -> tcp_to_udp fuel c1 = tcp_to_udp fuel c2.
Proof.
  revert c1 c2. induction fuel as [|f IH]; intros c1 c2 Hc; [done|]. cbn [tcp_to_udp].
  pose proof (read_exact_chunking 4 c1 c2 Hc) as H.
  destruct (read_exact 4 c1) as [[d1 r1]|], (read_exact 4 c2) as [[d2 r2]|]; try done.
  destruct H as [-> H]. case_goal; [done|].
  pose proof (read_exact_chunking (from_be d2) r1 r2 H) as H2.
  destruct (read_exact (from_be d2) r1) as [[p1 q1]|], (read_exact (from_be d2) r2) as [[p2 q2]|];
    try done.
  destruct H2 as [-> H2]. by rewrite (IH _ _ H2).
Qed.

Lemma tcp_to_udp_ends fuel chunks :
  (length (concat chunks) < fuel)%nat -> snd (tcp_to_udp fuel chunks) <> TcpNoFuel.
Proof.
  revert chunks. induction fuel as [|f IH]; intros chunks Hf; [lia|]. cbn [tcp_to_udp].
  pose proof (read_exact_flat 4 chunks) as H.
  destruct (read_exact 4 chunks) as [[d r]|]; [|done]. destruct H as [He Hd].
  case_goal; [done|]. pose proof (read_exact_flat (from_be d) r) as H2.
  destruct (read_exact (from_be d) r) as [[p q]|]; [|done]. destruct H2 as [He2 Hd2].
  rewrite He, He2, !length_app in Hf. unfold zlen in Hd.
  specialize (IH q ltac:(lia)). by destruct (tcp_to_udp f q).
Qed.

Lemma frame_len_small (d : list Z) : zlen d <= 65535 -> from_be (to_be 4 (zlen d)) = zlen d.
Proof. intros. apply from_be_to_be_small. pose proof (zlen_nonneg d). simpl. lia. Qed.

(** A stream of frames that may be cut anywhere gives the datagrams before the cut. *)
Lemma tcp_to_udp_frames ds fuel chunks k :
  Forall (fun d => zlen d <= 65535) ds -> (length (concat chunks) < fuel)%nat ->
  concat chunks = take k (frames ds) ->
  exists n, tcp_to_udp fuel chunks = (take n ds, TcpClosed) /\
    ((length (frames ds) <= k)%nat -> take n ds = ds).
Proof.
  revert fuel chunks k. induction ds as [|d ds IH]; intros fuel chunks k Hs Hf Hc;
    (destruct fuel as [|f]; [lia|]); cbn [tcp_to_udp].
  - rewrite read_exact_short by (rewrite Hc; change (frames []) with (@nil Z); rewrite take_nil; unfold zlen; simpl; lia).
    by exists 0%nat.
  - apply Forall_cons in Hs as [Hd Hs].
    assert (Hl : length (frames (d :: ds)) = (4 + length d + length (frames ds))%nat)
      by (unfold frames; cbn [map concat]; by rewrite !length_app, length_to_be).
    assert (Hfr : frames (d :: ds) = to_be 4 (zlen d) ++ d ++ frames ds)
      by (unfold frames; cbn [map concat]; by rewrite <- app_assoc).
    assert (Hlen : length (concat chunks) = (k `min` length (frames (d :: ds)))%nat)
      by (rewrite Hc; apply length_take).
    destruct (decide (k < 4)%nat) as [Hk|Hk].
    { rewrite read_exact_short by (unfold zlen; lia). exists 0%nat. split; [done|lia]. }
    rewrite Hfr, take_app_ge in Hc by (rewrite length_to_be; lia).
    destruct (read_exact_app 4 _ _ _ Hc) as (r & -> & Hr); [unfold zlen; by rewrite length_to_be|].
    rewrite frame_len_small by done. replace (65535 <? zlen d) with false by lia.
    rewrite length_to_be in Hr.
    destruct (decide (k - 4 < length d)%nat) as [Hk2|Hk2].
    { rewrite read_exact_short by (unfold zlen; rewrite Hr, length_take; lia).
      exists 0%nat. split; [done|lia]. }
    rewrite take_app_ge in Hr by lia.
    destruct (read_exact_app (zlen d) _ _ _ Hr) as (q & -> & Hq); [done|].
    destruct (IH f q (k - 4 - length d)%nat Hs) as (n & -> & Hn); [|done|].
    { rewrite Hq, length_take. lia. }
    exists (S n). split; [done|]. intros. cbn [take]. rewrite Hn; [done|lia].
Qed.

Section ClientFacts.
Context {Addr : Type}.
Implicit Types (es : list (BridgeEvent Addr)) (b : Bridge Addr).

(** After the arrivals [got]: what was written are the frames of the first of them, up to a
    failure in the last; the rest is queued while the task runs, and an open bridge knows the
    last sender. *)
Record bridge_ok (got : list (list Z * Addr)) b : Prop := {
  ok_written : exists sent later j, map fst got = sent ++ later /\
    written b = take j (frames sent) /\
    (pumping b = true -> written b = frames sent /\ queue (udp_proto b) = later);
  ok_peer : peer_addr (udp_proto b) = snd <$> last got;
  ok_open : tcp_open b = true -> got <> []
}.

Lemma frames_snoc ds d : frames (ds ++ [d]) = frames ds ++ to_be 4 (zlen d) ++ d.
Proof. unfold frames. rewrite map_app, concat_app. cbn [map concat]. by rewrite app_nil_r. Qed.

(** Both ends of a write: whole, or cut after [j] bytes. *)
Lemma pump_ok got b b' :
  bridge_ok got b -> pump_write b = Some b' \/ (exists j, pump_fails j b = Some b') ->
  bridge_ok got b'.
Proof.
  intros [(sent & later & j & Hg & Hw & Hq) Hp Ho]. unfold pump_write, pump_fails, pack_frame.
  destruct (pumping b) eqn:Hb;
    [|intros [[= <-]|[i [= <-]]]; (split; [by exists sent, later, j; rewrite ?Hb|done..])].
  destruct Hq as [Hall Hq]; [done|]. rewrite Hq. destruct later as [|d later].
  { intros [[= <-]|[i [= <-]]]; (split; [by exists sent, [], j; rewrite ?Hb|done..]). }
  destruct (zlen d <? 2 ^ 32); [|by intros [?|[i ?]]].
  assert (Hfr := frames_snoc sent d).
  intros [[= <-]|[i [= <-]]]; (split; [exists (sent ++ [d]), later; rewrite <- app_assoc|done|]).
  - exists (length (frames (sent ++ [d]))). rewrite take_ge, Hfr by done. cbn. by rewrite Hall.
  - intros _ ->. by destruct sent.
  - exists (length (frames sent) + i)%nat. rewrite Hfr, take_app_add. cbn. by rewrite Hall.
  - done.
Qed.

Lemma bridge_step_ok got e b b' :
  bridge_ok got b -> bridge_step e b = Some b' -> bridge_ok (got ++ arrivals [e]) b'.
Proof.
  intros Hok. destruct e as [data addr| |bytes|data|]; cbn [bridge_step arrivals omap list_omap];
    rewrite ?app_nil_r.
  - intros [= <-]. destruct Hok as [(sent & later & j & Hg & Hw & Hq) Hp Ho]. split; cbn.
    + exists sent, (later ++ [data]), j. rewrite map_app, Hg, <- app_assoc. split_and!; try done.
      intros Hb. destruct (Hq Hb) as [? Hl]. by rewrite Hl.
    + by rewrite last_snoc.
    + intros _ H. by destruct got.
  - intros H. eapply pump_ok; eauto.
  - intros H. eapply pump_ok; eauto.
  - intros [= <-]. unfold forward_payload. destruct (tcp_open b) eqn:E; [|done].
    destruct (peer_addr (udp_proto b)) eqn:E2; [|done]. destruct Hok as [H1 H2 H3].
    split; cbn; [done|congruence|by rewrite E in H3].
  - intros [= <-]. destruct Hok as [(sent & later & j & Hg & Hw & Hq) Hp Ho]. split; [|done|done].
    exists sent, later, j. split_and!; [done..|]. cbn. by destruct (tcp_open b).
Qed.

Lemma bridge_run_ok es b b' got :
  bridge_ok got b -> bridge_run es b = Some b' -> bridge_ok (got ++ arrivals es) b'.
Proof.
  revert b got. induction es as [|e es IH]; intros b got Hok; cbn [bridge_run].
  - intros [= <-]. by rewrite app_nil_r.
  - destruct (bridge_step e b) as [b1|] eqn:E; [|done]. intros Hr.
    apply (bridge_step_ok _ _ _ _ Hok) in E. apply (IH _ _ E) in Hr.
    rewrite <- app_assoc in Hr. change (e :: es) with ([e] ++ es).
    unfold arrivals in *. by rewrite omap_app.
Qed.

Lemma bridge_run_app es es' b :
  bridge_run (es ++ es') b = (let?o mid := bridge_run es b in bridge_run es' mid).
Proof.
  revert b. induction es as [|e es IH]; intros b; cbn [app bridge_run]; [done|].
  destruct (bridge_step e b); cbn; [apply IH|done].
Qed.

Lemma bridge_start_ok : bridge_ok [] (client_start (Addr := Addr)).
Proof. by split; [exists [], [], 0%nat|..]. Qed.

(** What one event adds to the replies. *)
Lemma step_replies got e b b' :
  bridge_ok got b -> bridge_step e b = Some b' ->
  replies b' = replies b ++
    match e with
    | Payload data => if tcp_open b then option_list ((fun d => (data, d.2)) <$> last got) else []
    | _ => []
    end.
Proof.
  intros [_ Hp Ho]. destruct e as [data addr| |bytes|data|]; cbn [bridge_step]; intros H.
  1,5: injection H as <-; by rewrite app_nil_r.
  1,2: unfold pump_write, pump_fails in H; rewrite app_nil_r; repeat case_in H; by simplify_eq/=.
  injection H as <-. unfold forward_payload. destruct (tcp_open b); [|by rewrite app_nil_r].
  rewrite Hp. destruct (last got) as [[d a]|] eqn:E; [done|]. by rewrite app_nil_r.
Qed.

Lemma bridge_replies es b :
  bridge_run es client_start = Some b -> replies b = omap (reply_at es) (seq 0 (length es)).
Proof.
  revert b. induction es as [|e es IH] using rev_ind; intros b; [by intros [= <-]|].
  rewrite bridge_run_app. destruct (bridge_run es client_start) as [b1|] eqn:E; [|done].
  cbn [option_bind bridge_run]. destruct (bridge_step e b1) as [b2|] eqn:Es; [|done]. intros [= <-].
  rewrite length_app, seq_app, omap_app. cbn [length seq Nat.add].
  pose proof (bridge_run_ok es _ _ [] bridge_start_ok E) as Hok.
  rewrite (step_replies _ _ _ _ Hok Es), (IH b1 eq_refl). f_equal.
  - apply list_omap_ext, Forall_Forall2_diag, Forall_forall. intros i Hi. apply elem_of_seq in Hi. unfold reply_at.
    by rewrite lookup_app_l, take_app_le by lia.
  - cbn. unfold reply_at. rewrite lookup_app_r, Nat.sub_diag, take_app_length, E by done. cbn.
    destruct e; try done. destruct (tcp_open b1); [|done]. by destruct (last _).
Qed.
End ClientFacts.

(** C29: the bridge keeps datagrams.  After any run of the client mode whose datagrams fit
    UDP, however TCP cuts the written bytes into chunks and wherever it breaks off, the other
    side gets the first datagrams in order, and all that were written when it does not break
    off; nothing waits outside the queue while the sending task runs.  In the other direction
    every payload that arrives while the connection is open is sent on unchanged, in order, to
    whoever sent the last datagram before it, and nothing else is sent.  On any stream the
    receiving loop ends, and what it forwards does not depend on the chunks. *)
Theorem bridge_preserves_datagrams {Addr} (es : list (BridgeEvent Addr)) b chunks k any any' :
  bridge_run es client_start = Some b ->
  Forall (fun d => zlen d <= 65535) (map fst (arrivals es)) ->
  concat chunks = take k (written b) -> concat any = concat any' ->
  (exists delivered later,
    map fst (arrivals es) = delivered ++ later /\
    receive_stream chunks = (delivered, TcpClosed) /\
    ((length (written b) <= k)%nat -> pumping b = true -> later = queue (udp_proto b))) /\
  (tcp_open b = true -> exists addr,
    peer_addr (udp_proto b) = Some addr /\ snd <$> last (arrivals es) = Some addr) /\
  replies b = omap (reply_at es) (seq 0 (length es)) /\
  snd (receive_stream any) <> TcpNoFuel /\ receive_stream any = receive_stream any'.
Proof.
  intros Hr Hs Hc Ha. pose proof (bridge_run_ok es _ _ [] bridge_start_ok Hr) as Hok.
  cbn [app] in Hok.
  destruct Hok as [(sent & later & j & Hg & Hw & Hq) Hp Ho]. rewrite Hg in Hs.
  apply Forall_app in Hs as [Hs _]. split_and!.
  - rewrite Hw, take_take in Hc.
    destruct (tcp_to_udp_frames sent (S (length (concat chunks))) chunks (k `min` j)) as
      (n & Hn & Hall); [done|lia|done|].
    exists (take n sent), (drop n sent ++ later). rewrite app_assoc, take_drop. split_and!; try done.
    intros Hk Hb. destruct (Hq Hb) as [Hf ->]. rewrite Hf in Hk, Hw.
    assert (drop n sent = []) as ->; [|done]. apply (f_equal length) in Hw as Hlen.
    rewrite length_take in Hlen. specialize (Hall ltac:(lia)).
    rewrite <- (app_nil_r (take n sent)) in Hall. rewrite <- (take_drop n sent) in Hall at 2.
    by apply app_inv_head in Hall.
  - intros Ht. specialize (Ho Ht). destruct (last (arrivals es)) as [[d a]|] eqn:E.
    + by exists a; rewrite Hp.
    + by apply last_None in E.
  - by apply bridge_replies.
  - apply tcp_to_udp_ends. lia.
  - unfold receive_stream. rewrite Ha. by apply tcp_to_udp_chunking.
Qed.

Module BridgeSample.
Definition run : list (BridgeEvent Z) :=
  [Datagram [1; 2; 3] 7; PumpWrite; Payload [9]; Datagram [] 8; Datagram [4] 8; PumpWrite].
Definition end_state : Bridge Z := {|
  udp_proto := {| peer_addr := Some 8; queue := [[4]] |}; tcp_open := true; pumping := true;
  written := [0; 0; 0; 3; 1; 2; 3; 0; 0; 0; 0]; replies := [([9], 7)]
|}.
Definition chunks : list (list Z) := [[0]; [0; 0; 3; 1]; [2; 3; 0; 0; 0]; [0]].
End BridgeSample.

Lemma bridge_preserves_datagrams_witness :
  bridge_run BridgeSample.run client_start = Some BridgeSample.end_state /\
  receive_stream BridgeSample.chunks = ([[1; 2; 3]; []], TcpClosed) /\
  (exists delivered later,
    [[1; 2; 3]; []; [4]] = delivered ++ later /\
    receive_stream BridgeSample.chunks = (delivered, TcpClosed) /\
    ((11 <= 11)%nat -> true = true -> later = [[4]])) /\
  [([9], 7)] = omap (reply_at BridgeSample.run) (seq 0 6).
Proof.
  split; [reflexivity|]. split; [vm_compute; reflexivity|].
  destruct (bridge_preserves_datagrams BridgeSample.run BridgeSample.end_state
    BridgeSample.chunks 11 [] []) as (Hd & _ & Hr & _).
  - reflexivity.
  - repeat constructor; vm_compute; congruence.
  - reflexivity.
  - reflexivity.
  - split; [exact Hd|exact Hr].
Defined.
