(* ===== verification/Cli.v ===== *)
(** * The command line client

    [voip-cli/src/identity.rs], [voip-cli/src/commands.rs] and [voip-client/src/peer.rs]: the
    identity file, the peer runtime's registration and lookup, and the commands, over the
    server of [Rest].  The [hex] crate and the JSON of the identity file are interfaces; the
    [anyhow] errors are a type with one constructor per message. *)

From S2P Require Import Prelude Types Config Crypto RustStr RustNet Wire RateLimit Lru Jwt Server.
From S2P Require Import Session Rest.

Local Open Scope Z_scope.
Local Open Scope rust_scope.

Inductive CliError :=
| InvalidSigningKeyHex | SigningKeyLength | InvalidVerifyingKeyHex | VerifyingKeyLength
| InvalidVerifyingKey | KeyMismatch
| IdentityExists | NoIdentity | BadIdentityFile
| InvalidListenAddr (addr : string) | BindFailed
| RequestFailed | HttpStatus (code : Z) | BadResponse | PeerIdMismatch | NotRegistered
| NoAddresses (peer_id : string) | InvalidTarget (addr : string).

(** ** Identities *)

Record Identity := { id_peer_id : string; id_signing_key : string; id_verifying_key : string }.

Class HexCrate := {
  hex_enc : list Z -> string;
  hex_dec : string -> option (list Z)
}.

Class HexLaws (X : HexCrate) := {
  hex_dec_enc l : bytes_ok l -> hex_dec (hex_enc l) = Some l
}.

(** [serde_json] on an [Identity]. *)
Class IdentityJson := {
  identity_to_json : Identity -> string;
  identity_from_json : string -> option Identity
}.

Class IdentityJsonLaws (I : IdentityJson) := {
  identity_json_roundtrip i : identity_from_json (identity_to_json i) = Some i
}.

(** The two files of [~/.voip-cli]. *)
Record Disk := { identity_file : option string; jwt_file : option string }.

Section Identities.
Context {S : SigScheme} {X : HexCrate} {I : IdentityJson}.

Definition generate (seed : list Z) : Identity :=
  let (sk, vk) := generate_ed25519_keypair seed in
  {| id_peer_id := peer_id_from_public_key vk; id_signing_key := hex_enc (sk_to_bytes sk);
     id_verifying_key := hex_enc (vk_to_bytes vk) |}.

Definition key_bytes (s : string) (bad_hex bad_length : CliError) : result CliError (list Z) :=
  let? bytes := ok_or (hex_dec s) bad_hex in
  if zlen bytes =? 32 then Ok bytes else Err bad_length.

Definition identity_signing_key (i : Identity) : result CliError SigningKey :=
  let? bytes := key_bytes (id_signing_key i) InvalidSigningKeyHex SigningKeyLength in
  Ok (sk_from_bytes bytes).

Definition identity_verifying_key (i : Identity) : result CliError VerifyingKey :=
  let? bytes := key_bytes (id_verifying_key i) InvalidVerifyingKeyHex VerifyingKeyLength in
  ok_or (vk_from_bytes bytes) InvalidVerifyingKey.

Definition identity_load (d : Disk) : result CliError Identity :=
  let? contents := ok_or (identity_file d) NoIdentity in
  ok_or (identity_from_json contents) BadIdentityFile.

Definition identity_save (i : Identity) (d : Disk) : Disk :=
  {| identity_file := Some (identity_to_json i); jwt_file := jwt_file d |}.

Definition cmd_init (force : bool) (seed : list Z) (d : Disk) : result CliError unit * Disk :=
  match identity_file d, force with
  | Some _, false => (Err IdentityExists, d)
  | _, _ => (Ok tt, identity_save (generate seed) d)
  end.

Definition cmd_whoami (d : Disk) : result CliError string :=
  let? i := identity_load d in Ok (id_peer_id i).

(** ** The peer runtime *)

Record PeerIdentity := {
  pid_signing_key : SigningKey;
  pid_verifying_key : VerifyingKey;
  pid_peer_id : string
}.

Definition from_bytes (bytes : list Z) : PeerIdentity :=
  let sk := sk_from_bytes bytes in
  {| pid_signing_key := sk; pid_verifying_key := verifying_key sk;
     pid_peer_id := peer_id_from_public_key (verifying_key sk) |}.

Definition from_hex (signing_key_hex verifying_key_hex : string) : result CliError PeerIdentity :=
  let? bytes := key_bytes signing_key_hex InvalidSigningKeyHex SigningKeyLength in
  let expected := hex_enc (vk_to_bytes (verifying_key (sk_from_bytes bytes))) in
  if negb (bool_decide (expected = verifying_key_hex)) then Err KeyMismatch
  else Ok (from_bytes bytes).
End Identities.

(** An HTTP exchange: no answer, or a status with the body where it parses. *)
Definition Reply (A : Type) : Type := option (Z * option A).

Definition success (code : Z) : bool := (200 <=? code) && (code <? 300).

Definition read_reply {A : Type} (r : Reply A) : result CliError A :=
  let? (code, body) := ok_or r RequestFailed in
  if negb (success code) then Err (HttpStatus code) else ok_or body BadResponse.

(** What the client needs of a signaling server: registering an identifier with a name, and
    fetching a peer's record with a token. *)
Record SignalingApi (St : Type) := {
  api_register : string -> string -> St -> Reply (string * string) * St;
  api_get_peer : string -> string -> St -> Reply PeerResponse * St
}.
Arguments api_register {St}.
Arguments api_get_peer {St}.

Record PeerConfig := { signaling_url : string; cfg_display_name : string; listen_addr : string }.

Section Runtime.
Context {S : SigScheme} {X : HexCrate} {I : IdentityJson} {St : Type} (api : SignalingApi St)
  (bind : SocketAddr -> bool).

Record Peer := { peer_identity : PeerIdentity; peer_config : PeerConfig; jwt : option string }.

Definition peer_new (id : PeerIdentity) (config : PeerConfig) : result CliError Peer :=
  let? addr := ok_or (parse_socket_addr (listen_addr config)) (InvalidListenAddr (listen_addr config)) in
  if bind addr then Ok {| peer_identity := id; peer_config := config; jwt := None |}
  else Err BindFailed.

(** Identifier and token of the answer. *)
Definition register_reply (peer_id : string) (r : Reply (string * string)) : result CliError string :=
  let? (id, token) := read_reply r in
  if negb (bool_decide (id = peer_id)) then Err PeerIdMismatch else Ok token.

Definition peer_register (p : Peer) (st : St) : result CliError string * Peer * St :=
  let (r, st) := api_register api (pid_peer_id (peer_identity p))
                   (cfg_display_name (peer_config p)) st in
  match register_reply (pid_peer_id (peer_identity p)) r with
  | Ok token =>
      (Ok token,
       {| peer_identity := peer_identity p; peer_config := peer_config p; jwt := Some token |}, st)
  | Err e => (Err e, p, st)
  end.

Definition peer_lookup (p : Peer) (peer_id : string) (st : St) : result CliError PeerResponse * St :=
  match jwt p with
  | None => (Err NotRegistered, st)
  | Some token => let (r, st) := api_get_peer api token peer_id st in (read_reply r, st)
  end.

(** ** The commands *)

(** [&jwt_token[..40.min(len)]]: the part of a token that [register] prints. *)
Definition token_preview (token : string) : option string :=
  str_prefix token (Z.min 40 (str_len token)).

(** [register]: the token is stored, then the beginning of it is printed; [None] is the panic of
    that slice. *)
Definition cmd_register (display_name : string) (d : Disk) (st : St)
    : option (result CliError unit) * Disk * St :=
  match identity_load d with
  | Err e => (Some (Err e), d, st)
  | Ok i =>
      let (r, st) := api_register api (id_peer_id i) display_name st in
      match register_reply (id_peer_id i) r with
      | Ok token =>
          (option_map (fun _ => Ok tt) (token_preview token),
           {| identity_file := identity_file d; jwt_file := Some token |}, st)
      | Err e => (Some (Err e), d, st)
      end
  end.

Definition load_peer_identity (d : Disk) : result CliError (Identity * PeerIdentity) :=
  let? i := identity_load d in
  let? id := from_hex (id_signing_key i) (id_verifying_key i) in
  Ok (i, id).

(** [listen] up to its accept loop: a failed registration is only reported. *)
Definition cmd_listen (url display_name listen : string) (d : Disk) (st : St)
    : result CliError Peer * St :=
  let config := {| signaling_url := url; cfg_display_name := display_name; listen_addr := listen |} in
  match (let? (_, id) := load_peer_identity d in peer_new id config) with
  | Ok p => let '(_, p, st) := peer_register p st in (Ok p, st)
  | Err e => (Err e, st)
  end.

Definition call_candidate (r : PeerResponse) : option string :=
  match head (resp_ipv6_addresses r) with
  | Some a => Some a
  | None => head (resp_ipv4_reflexive r)
  end.

Definition call_target (p : Peer) (peer_id : string) (direct_addr : option string) (st : St)
    : result CliError string * St :=
  match direct_addr with
  | Some addr => (Ok addr, st)
  | None =>
      let (r, st) := peer_lookup p peer_id st in
      (let? record := r in ok_or (call_candidate record) (NoAddresses peer_id), st)
  end.

(** [&id.peer_id[..8]] panics on a shorter identifier, and within a character. *)
Definition caller_config (url listen : string) (i : Identity) : option PeerConfig :=
  let?o prefix := str_prefix (id_peer_id i) 8 in
  Some {| signaling_url := url; cfg_display_name := "caller-" +:+ prefix; listen_addr := listen |}.

(** [call] up to the address it connects to; [None] is a panic. *)
Definition cmd_call (url peer_id : string) (direct_addr : option string) (listen : string)
    (d : Disk) (st : St) : option (result CliError SocketAddr * St) :=
  match load_peer_identity d with
  | Err e => Some (Err e, st)
  | Ok (i, id) =>
      let?o config := caller_config url listen i in
      match peer_new id config with
      | Err e => Some (Err e, st)
      | Ok p =>
          match peer_register p st with
          | (Err e, _, st) => Some (Err e, st)
          | (Ok _, p, st) =>
              let (target, st) := call_target p peer_id direct_addr st in
              Some (let? addr := target in ok_or (parse_socket_addr addr) (InvalidTarget addr), st)
          end
      end
  end.
End Runtime.

(** ** The project's server behind the client

    The client's registration body has two fields; the others take their defaults.  [None]
    is a server whose handler panicked. *)

Section Server.
Context {S : SigScheme} {L : Lru} {J : JsonClaims}.

Definition register_body (peer_id display_name : string) : RegisterPeerRequest := {|
  req_peer_id := peer_id; req_display_name := display_name; req_ipv6_addresses := [];
  req_ipv4_reflexive := []; req_nat_type := None; req_status := None; req_fcm_token := None
|}.

(** The two requests of a command arrive at the times [clk] and [clk']. *)
Definition server_api (m : overflow_mode) (clk clk' : Clock) : SignalingApi (option Server) := {|
  api_register peer_id display_name o :=
    match o with
    | None => (None, None)
    | Some s =>
        match rest_register_peer m clk (register_body peer_id display_name) s with
        | None => (None, None)
        | Some (Ok resp, s) => (Some (201, Some (rpr_peer_id resp, rpr_jwt_token resp)), Some s)
        | Some (Err e, s) => (Some (http_status e, None), Some s)
        end
    end;
  api_get_peer token peer_id o :=
    match o with
    | None => (None, None)
    | Some s =>
        match auth_middleware (unix_secs clk') (srv_key s) ("/v1/peers/" +:+ peer_id) GET
                (Some (Some ("Bearer " +:+ token))) with
        | Err e => (Some (http_status e, None), Some s)
        | Ok _ =>
            match rest_get_peer peer_id s with
            | (Ok resp, s) => (Some (200, Some resp), Some s)
            | (Err e, s) => (Some (http_status e, None), Some s)
            end
        end
    end
|}.
End Server.

(** ** Facts *)

Section Facts.
Context {S : SigScheme} {SL : SigLaws S} {X : HexCrate} {XL : HexLaws X} {I : IdentityJson}
  {IL : IdentityJsonLaws I}.

Definition no_files : Disk := {| identity_file := None; jwt_file := None |}.

(** The identity a peer works with after [init]. *)
Definition fresh_identity (seed : list Z) : PeerIdentity :=
  let sk := sk_from_bytes seed in
  {| pid_signing_key := sk; pid_verifying_key := verifying_key sk;
     pid_peer_id := peer_id_from_public_key (verifying_key sk) |}.

Lemma key_bytes_enc l e e' : bytes_ok l -> length l = 32%nat -> key_bytes (hex_enc l) e e' = Ok l.
Proof.
  intros Hl Hn. unfold key_bytes. rewrite hex_dec_enc by done. cbn [ok_or result_bind].
  unfold zlen. by rewrite Hn.
Qed.

Lemma load_after_init seed :
  load_peer_identity (snd (cmd_init false seed no_files)) = Ok (generate seed, fresh_identity seed).
Proof.
  unfold load_peer_identity, identity_load. cbn -[generate]. rewrite identity_json_roundtrip.
  cbn -[generate]. unfold from_hex. cbn [generate id_signing_key id_verifying_key generate_ed25519_keypair].
  rewrite key_bytes_enc by eauto using sk_bytes_ok, sk_bytes_length. cbn [result_bind].
  unfold from_bytes. rewrite sk_from_to_bytes, bool_decide_true by done. done.
Qed.

Lemma peer_id_facts (sk : SigningKey) :
  str_len (peer_id_from_public_key (verifying_key sk)) = 64 /\
  parse_peer_id (peer_id_from_public_key (verifying_key sk)) = Ok (verifying_key sk).
Proof. destruct (peer_id_roundtrip sk []) as (H1 & H2 & _). by split. Qed.

Lemma caller_config_ok url listen seed :
  exists name, caller_config url listen (generate seed) =
    Some {| signaling_url := url; cfg_display_name := name; listen_addr := listen |}.
Proof.
  unfold caller_config. cbn [generate generate_ed25519_keypair id_peer_id].
  destruct (peer_id_facts (sk_from_bytes seed)) as [Hl _].
  rewrite str_prefix_ascii; [by eexists|..|by rewrite Hl].
  unfold peer_id_from_public_key, hex_encode.
  rewrite as_bytes_of_bytes by apply hex_bytes_ok, vk_bytes_ok. apply hex_bytes_ascii, vk_bytes_ok.
Qed.

Lemma peer_new_ok bind id config addr :
  parse_socket_addr (listen_addr config) = Some addr -> bind addr = true ->
  peer_new bind id config = Ok {| peer_identity := id; peer_config := config; jwt := None |}.
Proof. intros Hp Hb. unfold peer_new. rewrite Hp. cbn [ok_or result_bind]. by rewrite Hb. Qed.

Context {L : Lru} {LL : LruLaws L} {J : JsonClaims} {JL : JsonLaws J}.

Lemma register_peer_lookup info (s : Server) :
  (size (lru_map (peers s)) < lru_cap (peers s))%nat ->
  let s' := register_peer info None s in
  (exists e, lru_map (peers s') !! pi_peer_id info = Some e /\ pe_info e = info) /\
  (forall k, k <> pi_peer_id info -> lru_map (peers s') !! k = lru_map (peers s) !! k) /\
  (size (lru_map (peers s')) <= 1 + size (lru_map (peers s)))%nat /\
  lru_cap (peers s') = lru_cap (peers s) /\ limiter s' = limiter s /\ srv_key s' = srv_key s /\
  srv_config s' = srv_config s.
Proof.
  intros Hs. cbn zeta. unfold register_peer.
  destruct (lru_map (peers s) !! pi_peer_id info) as [e|] eqn:E;
    cbn [peers set_peers limiter srv_key srv_config].
  - rewrite modify_map, modify_cap, lookup_alter_eq, E. split_and!; try done.
    + by eexists.
    + intros. by apply lookup_alter_ne.
    + rewrite <- !(size_dom (D := gset string)), dom_alter_L. lia.
  - rewrite put_map, put_cap, lookup_insert_eq by (right; done). split_and!; try done.
    + by eexists.
    + intros. by apply lookup_insert_ne.
    + rewrite map_size_insert, E. lia.
Qed.

(** A peer with the identity of [seed] registers, from a state with room, within the limit. *)
Lemma peer_register_ok m clk clk' seed config (s : Server) r :
  let id := fresh_identity seed in
  limiter_check (instant clk) (pid_peer_id id) Action_Registration (limiter s) = Some (r, true) ->
  0 <= unix_secs clk -> 0 <= jwt_expiry_secs (srv_config s) ->
  unix_secs clk + jwt_expiry_secs (srv_config s) < 2 ^ 64 ->
  exists token,
    peer_register (server_api m clk clk') {| peer_identity := id; peer_config := config; jwt := None |}
      (Some s) =
      (Ok token, {| peer_identity := id; peer_config := config; jwt := Some token |},
       Some (register_peer (registered_info clk (register_body (pid_peer_id id)
               (cfg_display_name config))) None (set_limiter r s))) /\
    forall now, unix_secs clk <= now <= unix_secs clk + jwt_expiry_secs (srv_config s) ->
      exists c, verify_jwt now (verifying_key (srv_key s)) token = Ok c.
Proof.
  cbn zeta. intros Hl H0 He Hmax.
  destruct (rest_register_ok m clk (register_body (pid_peer_id (fresh_identity seed))
    (cfg_display_name config)) s _ r (proj2 (peer_id_facts (sk_from_bytes seed))) Hl H0 He Hmax)
    as (token & Hr & Hv).
  exists token. split.
  - unfold peer_register. cbn [peer_identity peer_config api_register server_api].
    rewrite Hr. unfold register_reply, read_reply. cbn -[register_peer].
    by rewrite bool_decide_true by done.
  - intros now Hnow. destruct (Hv now Hnow) as (c & Hc & _). by exists c.
Qed.

(** A registered peer gets the record of a peer the server knows. *)
Lemma peer_lookup_ok m clk clk' p token peer_id (s : Server) c e :
  jwt p = Some token ->
  verify_jwt (unix_secs clk') (verifying_key (srv_key s)) token = Ok c ->
  lru_map (peers s) !! peer_id = Some e ->
  exists s', peer_lookup (server_api m clk clk') p peer_id (Some s) =
    (Ok (peer_response (pe_info e)), Some s').
Proof.
  intros Hj Hv He. unfold peer_lookup. rewrite Hj. cbn [api_get_peer server_api].
  unfold auth_middleware. rewrite peers_path_private. cbn [ok_or result_bind].
  rewrite as_bytes_app, strip_prefix_app. cbn [ok_or result_bind]. rewrite string_of_as_bytes, Hv.
  cbn [map_err result_bind]. unfold rest_get_peer, get_peer. rewrite He. by eexists.
Qed.
End Facts.

(** C6: from key generation to the call.  Two users run [init]; each identity file gives back
    the generated key pair and identifier.  The first listens: it is registered with the
    server under its identifier.  The second calls it: with a direct address the call goes to
    that address.  Without one the caller's token passes the server's authentication and the
    lookup finds the listener, but a listener registers without any address, so the call ends
    there. *)
Theorem cli_call_reaches_listener {S : SigScheme} {SL : SigLaws S} {X : HexCrate} {XL : HexLaws X}
    {I : IdentityJson} {IL : IdentityJsonLaws I} {L : Lru} {LL : LruLaws L} {J : JsonClaims}
    {JL : JsonLaws J} m clk1 clk2 clk3 bind url name la lb xa xb seed_a seed_b (s : Server) r1 r2 :
  let ida := pid_peer_id (fresh_identity seed_a) in
  let idb := pid_peer_id (fresh_identity seed_b) in
  let da := snd (cmd_init false seed_a no_files) in
  let db := snd (cmd_init false seed_b no_files) in
  let expiry := jwt_expiry_secs (srv_config s) in
  ida <> idb ->
  parse_socket_addr la = Some xa -> bind xa = true ->
  parse_socket_addr lb = Some xb -> bind xb = true ->
  (1 + size (lru_map (peers s)) < lru_cap (peers s))%nat ->
  limiter_check (instant clk1) ida Action_Registration (limiter s) = Some (r1, true) ->
  limiter_check (instant clk2) idb Action_Registration r1 = Some (r2, true) ->
  0 <= unix_secs clk1 <= unix_secs clk2 -> 0 <= expiry -> unix_secs clk2 + expiry < 2 ^ 64 ->
  unix_secs clk2 <= unix_secs clk3 <= unix_secs clk2 + expiry ->
  cmd_whoami da = Ok ida /\
  exists pa sa,
    cmd_listen (server_api m clk1 clk1) bind url name la da (Some s) = (Ok pa, Some sa) /\
    peer_identity pa = fresh_identity seed_a /\
    (forall target addr, parse_socket_addr target = Some addr -> exists s',
       cmd_call (server_api m clk2 clk3) bind url ida (Some target) lb db (Some sa) =
         Some (Ok addr, Some s')) /\
    exists s', cmd_call (server_api m clk2 clk3) bind url ida None lb db (Some sa) =
      Some (Err (NoAddresses ida), Some s').
Proof.
  cbn zeta. intros Hne Hla Hba Hlb Hbb Hroom Hl1 Hl2 Ht He Hmax Hj. split.
  { unfold cmd_whoami, identity_load. cbn -[generate]. by rewrite identity_json_roundtrip. }
  set (ca := {| signaling_url := url; cfg_display_name := name; listen_addr := la |}).
  destruct (caller_config_ok url lb seed_b) as [nb Hcb].
  set (cb := {| signaling_url := url; cfg_display_name := nb; listen_addr := lb |}) in Hcb.
  destruct (peer_register_ok m clk1 clk1 seed_a ca s r1 Hl1) as (ta & Hra & _); [lia..|].
  change (cfg_display_name ca) with name in Hra. set (sa := register_peer _ None _) in Hra.
  destruct (register_peer_lookup (registered_info clk1 (register_body
    (pid_peer_id (fresh_identity seed_a)) name)) (set_limiter r1 s)) as
    ((ea & Hea & Hia) & _ & Hsz & Hcap & Hlim & Hkey & Hcfg); [cbn; lia|].
  fold sa in Hea, Hsz, Hcap, Hlim, Hkey, Hcfg.
  cbn [peers set_limiter srv_config limiter srv_key] in Hsz, Hcap, Hlim, Hkey, Hcfg.
  rewrite <- Hlim in Hl2. rewrite <- Hcfg in He, Hmax, Hj.
  destruct (peer_register_ok m clk2 clk3 seed_b cb sa r2 Hl2) as (tb & Hrb & Hvb); [lia..|].
  change (cfg_display_name cb) with nb in Hrb. set (sb := register_peer _ None _) in Hrb.
  destruct (register_peer_lookup (registered_info clk2 (register_body
    (pid_peer_id (fresh_identity seed_b)) nb)) (set_limiter r2 sa)) as
    (_ & Hother & _ & _ & _ & Hkeyb & _); [cbn; lia|]. fold sb in Hother, Hkeyb.
  exists {| peer_identity := fresh_identity seed_a; peer_config := ca; jwt := Some ta |}, sa.
  split_and!; [|done|..].
  - unfold cmd_listen. rewrite load_after_init. cbn [result_bind]. fold ca.
    rewrite (peer_new_ok _ _ _ xa) by done. by rewrite Hra.
  - intros target addr Hp. exists sb. unfold cmd_call. rewrite load_after_init, Hcb.
    rewrite (peer_new_ok _ _ _ xb), Hrb by done. cbn [call_target result_bind]. by rewrite Hp.
  - destruct (Hvb (unix_secs clk3)) as [c Hc]; [done|].
    destruct (peer_lookup_ok m clk2 clk3 {| peer_identity := fresh_identity seed_b;
      peer_config := cb; jwt := Some tb |} tb (pid_peer_id (fresh_identity seed_a)) sb c ea)
      as [s' Hs']; [done| |rewrite Hother; done|].
    { rewrite Hkeyb. exact Hc. }
    exists s'. unfold cmd_call. rewrite load_after_init, Hcb.
    rewrite (peer_new_ok _ _ _ xb), Hrb by done. cbn [call_target]. rewrite Hs'. by rewrite Hia.
Qed.

(** Concrete interfaces for the witness: the repository's own hex codec, and an identity file
    with one line of hex per field. *)
Module CliSample.
#[export] Instance hex : HexCrate := {|
  hex_enc := hex_encode;
  hex_dec s := match hex_decode s with Ok l => Some l | Err _ => None end
|}.

#[export] Instance hex_laws : HexLaws hex.
Proof. split. intros l Hl. cbn [hex_dec hex_enc hex]. by rewrite hex_roundtrip. Qed.

Definition NEWLINE : Z := 10.

Definition unhex (l : list Z) : option string :=
  match hex_chunks l with Ok b => Some (string_of_bytes b) | Err _ => None end.

#[export] Instance json : IdentityJson := {|
  identity_to_json i := string_of_bytes (hex_bytes (as_bytes (id_peer_id i)) ++ NEWLINE ::
    hex_bytes (as_bytes (id_signing_key i)) ++ NEWLINE :: hex_bytes (as_bytes (id_verifying_key i)));
  identity_from_json s :=
    match split_on NEWLINE (as_bytes s) with
    | [a; b; c] =>
        match unhex a, unhex b, unhex c with
        | Some a, Some b, Some c =>
            Some {| id_peer_id := a; id_signing_key := b; id_verifying_key := c |}
        | _, _, _ => None
        end
    | _ => None
    end
|}.

Lemma newline_fresh l : bytes_ok l -> NEWLINE ∉ hex_bytes l.
Proof.
  induction 1 as [|b l Hb _ IH]; cbn [hex_bytes]; [apply not_elem_of_nil|].
  destruct (nibbles b Hb) as (H1 & H2 & _). rewrite !not_elem_of_cons. split_and!; [..|done].
  - intros Heq. destruct (hex_char_spec _ H1) as [_ Hc]. by rewrite <- Heq in Hc.
  - intros Heq. destruct (hex_char_spec _ H2) as [_ Hc]. by rewrite <- Heq in Hc.
Qed.

Lemma unhex_hex s : unhex (hex_bytes (as_bytes s)) = Some s.
Proof. unfold unhex. rewrite hex_chunks_bytes by apply as_bytes_ok. by rewrite string_of_as_bytes. Qed.

#[export] Instance json_laws : IdentityJsonLaws json.
Proof.
  split. intros [a b c]. cbn [identity_from_json identity_to_json json id_peer_id id_signing_key
    id_verifying_key]. rewrite as_bytes_of_bytes.
  - rewrite !split_on_app, split_on_fresh by apply newline_fresh, as_bytes_ok.
    by rewrite !unhex_hex.
  - repeat first [apply Forall_app; split | apply Forall_cons; split]; try done;
      apply hex_bytes_ok, as_bytes_ok.
Qed.

Definition server : @Server ToySig.scheme ListLru.ops := Sample.server0.

Definition clock (t : Z) : Clock := {| instant := 0; unix_secs := t |}.

Definition seed (b : Z) : list Z := replicate 32 b.

Definition id (b : Z) : string := pid_peer_id (fresh_identity (S := ToySig.scheme) (seed b)).

Definition limits (pid : string) (r : RateLimiter) : RateLimiter :=
  match limiter_check 0 pid Action_Registration r with Some (r, _) => r | None => r end.
End CliSample.

Lemma cli_call_reaches_listener_witness :
  exists pa sa,
    cmd_listen (S := ToySig.scheme) (X := CliSample.hex) (I := CliSample.json) (server_api (S := ToySig.scheme) (L := ListLru.ops)
      (J := ToyJson.json) Checked (CliSample.clock 1000) (CliSample.clock 1000)) (fun _ => true)
      "http://s" "alice" "0.0.0.0:4433"
      (snd (cmd_init (S := ToySig.scheme) (X := CliSample.hex) (I := CliSample.json) false (CliSample.seed 97) no_files))
      (Some CliSample.server) = (Ok pa, Some sa).
Proof.
  assert (Hl : forall pid r, option_map snd (limiter_check 0 pid Action_Registration r) = Some true ->
    limiter_check 0 pid Action_Registration r = Some (CliSample.limits pid r, true)).
  { intros pid r H. unfold CliSample.limits. destruct (limiter_check _ _ _ _) as [[x b]|];
      [|discriminate H]. injection H as ->. reflexivity. }
  destruct (cli_call_reaches_listener (S := ToySig.scheme) (SL := ToySig.laws)
    (X := CliSample.hex) (XL := CliSample.hex_laws) (I := CliSample.json) (IL := CliSample.json_laws) (L := ListLru.ops)
    (LL := list_lru_laws) (J := ToyJson.json) (JL := toy_json_laws) Checked (CliSample.clock 1000)
    (CliSample.clock 1010) (CliSample.clock 1020) (fun _ => true) "http://s" "alice" "0.0.0.0:4433"
    "0.0.0.0:0" (V4 [0; 0; 0; 0] 4433) (V4 [0; 0; 0; 0] 0) (CliSample.seed 97) (CliSample.seed 98)
    CliSample.server (CliSample.limits (CliSample.id 97) (limiter CliSample.server))
    (CliSample.limits (CliSample.id 98)
       (CliSample.limits (CliSample.id 97) (limiter CliSample.server))))
    as (_ & pa & sa & H & _).
  1: vm_compute; discriminate.
  1-4: vm_compute; reflexivity.
  1: apply Nat.ltb_lt; vm_compute; reflexivity.
  1-2: apply Hl; vm_compute; reflexivity.
  1-4: vm_compute; try split; first [reflexivity | discriminate].
  exists pa, sa. exact H.
Defined.
