(* ===== verification/CliMain.v ===== *)
(** * The command lines of [voip-cli]

    [voip-cli/src/main.rs]: the subcommands, the logging filter and the dispatch of [main] to the
    commands of [Cli]; then sequences of command lines of one user.  The argument parser is
    [clap]'s; a command line is its parsed value. *)

From S2P Require Import Prelude Types Config Crypto RustStr RustNet Wire RateLimit Lru Jwt Server.
From S2P Require Import Session Rest Cli.

Local Open Scope Z_scope.
Local Open Scope rust_scope.

Inductive Commands :=
| Commands_Init (force : bool)
| Commands_Whoami
| Commands_Register (url display_name : string)
| Commands_Listen (url display_name listen : string)
| Commands_Call (url peer_id message : string) (direct_addr : option string) (listen : string).

(** The values of the options that a command line leaves out. *)
Definition DEFAULT_DISPLAY_NAME : string := "voip-cli-peer".
Definition DEFAULT_LISTEN : string := "0.0.0.0:4433".
Definition DEFAULT_MESSAGE : string := "ping".
Definition DEFAULT_CALLER_LISTEN : string := "0.0.0.0:0".

Record CliArgs := { verbose : Z; command : Commands }.

Definition log_filter (c : CliArgs) : string :=
  if verbose c =? 0 then "voip_cli=info,voip_client=warn"
  else if verbose c =? 1 then "voip_cli=debug,voip_client=info"
  else "voip_cli=trace,voip_client=debug".

Section Main.
Context {S : SigScheme} {X : HexCrate} {I : IdentityJson} {St : Type} (bind : SocketAddr -> bool).

(** How a command ends: done, an identifier printed, a peer that enters its accept loop, an
    address that is dialled with a message, an error, or a panic. *)
Inductive Outcome :=
| Done
| Printed (peer_id : string)
| Accepting (p : Peer)
| Dialling (addr : SocketAddr) (message : string)
| CliFailed (e : CliError)
| CliPanicked.

Definition outcome {A} (ok : A -> Outcome) (r : result CliError A) : Outcome :=
  match r with Ok a => ok a | Err e => CliFailed e end.

(** The [match] at the end of [main]; [seed] is what key generation would draw. *)
Definition run_command (api : SignalingApi St) (seed : list Z) (c : Commands) (d : Disk) (st : St)
    : Outcome * Disk * St :=
  match c with
  | Commands_Init force =>
      let (r, d) := cmd_init force seed d in (outcome (fun _ => Done) r, d, st)
  | Commands_Whoami => (outcome Printed (cmd_whoami d), d, st)
  | Commands_Register _ display_name =>
      let '(r, d, st) := cmd_register api display_name d st in
      (match r with Some r => outcome (fun _ => Done) r | None => CliPanicked end, d, st)
  | Commands_Listen url display_name listen =>
      let (r, st) := cmd_listen api bind url display_name listen d st in (outcome Accepting r, d, st)
  | Commands_Call url peer_id message direct_addr listen =>
      match cmd_call api bind url peer_id direct_addr listen d st with
      | Some (r, st) => (outcome (fun addr => Dialling addr message) r, d, st)
      | None => (CliPanicked, d, st)
      end
  end.

(** One command line of a user: the server as it answers at that time, and the randomness. *)
Record Line := { ln_api : SignalingApi St; ln_seed : list Z; ln_command : Commands }.

Fixpoint run_lines (lines : list Line) (d : Disk) (st : St) : list Outcome * Disk * St :=
  match lines with
  | [] => ([], d, st)
  | l :: lines =>
      let '(o, d, st) := run_command (ln_api l) (ln_seed l) (ln_command l) d st in
      let '(os, d, st) := run_lines lines d st in (o :: os, d, st)
  end.

(** ** What the directory stands for

    The key pair that a user holds: that of the first [init] or of the last [init --force]. *)
Definition held_after (l : Line) (held : option (list Z)) : option (list Z) :=
  match ln_command l, held with
  | Commands_Init _, None | Commands_Init true, _ => Some (ln_seed l)
  | _, _ => held
  end.

Definition held_seed (lines : list Line) (held : option (list Z)) : option (list Z) :=
  fold_left (fun h l => held_after l h) lines held.

Definition holds_key (held : option (list Z)) (d : Disk) : Prop :=
  identity_file d = (fun seed => identity_to_json (generate seed)) <$> held.
End Main.

(** ** Facts *)

Section Facts.
Context {S : SigScheme} {SL : SigLaws S} {X : HexCrate} {XL : HexLaws X} {I : IdentityJson}
  {IL : IdentityJsonLaws I} {St : Type} (bind : SocketAddr -> bool).
Implicit Types (d : Disk) (st : St) (l : Line (St := St)) (lines : list (Line (St := St))).

Lemma holds_key_load held d : holds_key held d ->
  identity_load d = match held with Some s => Ok (generate s) | None => Err NoIdentity end /\
  load_peer_identity d =
    match held with Some s => Ok (generate s, fresh_identity s) | None => Err NoIdentity end.
Proof.
  unfold holds_key. intros Hd. destruct held as [s|]; cbn in Hd.
  - assert (load_peer_identity d = load_peer_identity (snd (cmd_init false s no_files))) as ->.
    { unfold load_peer_identity, identity_load. by rewrite Hd. }
    rewrite load_after_init. split; [|done]. unfold identity_load. rewrite Hd. cbn -[generate].
    by rewrite identity_json_roundtrip.
  - unfold load_peer_identity, identity_load. by rewrite Hd.
Qed.

Definition with_jwt_file (j : option string) d : Disk :=
  {| identity_file := identity_file d; jwt_file := j |}.

(** No command reads the token file. *)
Lemma token_file_unread api seed c d st j :
  exists j',
    run_command bind api seed c (with_jwt_file j d) st =
      (let '(o, d', st') := run_command bind api seed c d st in (o, with_jwt_file j' d', st')).
Proof.
  destruct c as [force| |url name|url name listen|url pid msg direct listen]; cbn [run_command].
  - exists j. unfold cmd_init. cbn [identity_file with_jwt_file]. by destruct (identity_file d), force.
  - by exists j.
  - unfold cmd_register. change (identity_load (with_jwt_file j d)) with (identity_load d).
    destruct (identity_load d) as [i|]; [|by exists j].
    destruct (api_register _ _ _ _) as [r st1]. destruct (register_reply _ _) as [t|];
      [|by exists j]. exists (Some t). by destruct (token_preview t).
  - exists j. change (cmd_listen api bind url name listen (with_jwt_file j d) st)
      with (cmd_listen api bind url name listen d st). by destruct (cmd_listen _ _ _ _ _ _ _).
  - exists j. change (cmd_call api bind url pid direct listen (with_jwt_file j d) st)
      with (cmd_call api bind url pid direct listen d st).
    by destruct (cmd_call _ _ _ _ _ _ _ _) as [[? ?]|].
Qed.

(** The key pair held follows the [init] lines. *)
Lemma run_command_key l held d st :
  holds_key held d ->
  holds_key (held_after l held)
    (run_command bind (ln_api l) (ln_seed l) (ln_command l) d st).1.2.
Proof.
  intros Hd. destruct l as [api seed c]. unfold held_after. cbn [ln_api ln_seed ln_command].
  destruct c as [force| |url name|url name listen|url pid msg direct listen]; cbn [run_command].
  - unfold cmd_init. pose proof Hd as Hf. unfold holds_key in Hf. rewrite Hf.
    by destruct held, force.
  - done.
  - unfold cmd_register. destruct (identity_load d) as [i|]; [|done].
    destruct (api_register _ _ _ _) as [r st1]. by destruct (register_reply _ _).
  - by destruct (cmd_listen _ _ _ _ _ _ _).
  - by destruct (cmd_call _ _ _ _ _ _ _ _) as [[? ?]|].
Qed.

(** Without a key pair nothing reaches the server or the token file. *)
Lemma run_command_silent l d st :
  identity_file d = None ->
  let '(o, d', st') := run_command bind (ln_api l) (ln_seed l) (ln_command l) d st in
  st' = st /\ jwt_file d' = jwt_file d.
Proof.
  intros Hd. destruct (holds_key_load None d Hd) as [Hl Hp].
  destruct l as [api seed [force| |url name|url name listen|url pid msg direct listen]];
    cbn [run_command ln_api ln_seed ln_command].
  - unfold cmd_init. by rewrite Hd.
  - done.
  - unfold cmd_register. by rewrite Hl.
  - unfold cmd_listen. by rewrite Hp.
  - unfold cmd_call. by rewrite Hp.
Qed.



Lemma held_after_none l h : held_after l h = None -> h = None.
Proof. unfold held_after. by destruct (ln_command l) as [[|]| | | |], h. Qed.

Lemma held_seed_none lines h : held_seed lines h = None -> h = None.
Proof.
  revert h. induction lines as [|l lines IH]; intros h; [done|]. cbn [held_seed fold_left].
  intros H. by eapply held_after_none, IH.
Qed.

(** What the commands do from a directory that holds [held]. *)
Lemma run_lines_from lines : forall held d st,
  holds_key held d ->
  let '(outs, d', st') := run_lines bind lines d st in
  holds_key (held_seed lines held) d' /\
  (held_seed lines held = None -> st' = st /\ jwt_file d' = jwt_file d) /\
  forall j, exists j', run_lines bind lines (with_jwt_file j d) st = (outs, with_jwt_file j' d', st').
Proof.
  induction lines as [|l lines IH]; intros held d st Hd; cbn [run_lines].
  { split_and!; [done|done|]. intros j. by exists j. }
  pose proof (run_command_key l held d st Hd) as Hk.
  pose proof (run_command_silent l d st) as Hs.
  pose proof (token_file_unread (ln_api l) (ln_seed l) (ln_command l) d st) as Hj.
  destruct (run_command _ _ _ _ d st) as [[o d1] st1]. cbn in Hk.
  specialize (IH _ d1 st1 Hk). destruct (run_lines _ lines d1 st1) as [[outs d'] st'].
  destruct IH as (Hk' & Hs' & Hj'). split_and!; [done|..].
  - intros Hnone. destruct (Hs' Hnone) as [-> ->].
    apply held_seed_none in Hnone. apply Hs. unfold holds_key in Hd.
    by rewrite Hd, Hnone.
  - intros j. destruct (Hj j) as [j1 ->]. destruct (Hj' j1) as [j2 ->]. by exists j2.
Qed.

End Facts.

(** No command reads the stored token: a run that starts with another token file has the same
    outcomes and sends the same requests. *)
Lemma stored_token_unread {S : SigScheme} {SL : SigLaws S} {X : HexCrate} {XL : HexLaws X}
    {I : IdentityJson} {IL : IdentityJsonLaws I} {St : Type} bind (lines : list (Line (St := St)))
    (st : St) :
  let '(outs, d, st') := run_lines bind lines no_files st in
  forall j, exists j',
    run_lines bind lines {| identity_file := None; jwt_file := j |} st =
      (outs, {| identity_file := identity_file d; jwt_file := j' |}, st').
Proof.
  pose proof (run_lines_from bind lines None no_files st eq_refl) as H.
  destruct (run_lines bind lines no_files st) as [[outs d] st']. apply H.
Qed.


(** A user who asks for their identifier, generates a key pair, registers and asks again. *)
Module CliMainSample.
Definition api (token : string) : SignalingApi (list string) := {|
  api_register peer_id _ st := (Some (201, Some (peer_id, token)), peer_id :: st);
  api_get_peer _ _ st := (None, st)
|}.

Definition line (b : Z) (c : Commands) : Line := {|
  ln_api := api "token"; ln_seed := CliSample.seed b; ln_command := c
|}.

(** 39 letters and a character of two bytes. *)
Definition split_token : string := string_of_bytes (replicate 39 97 ++ [195; 169]).

Definition lines : list Line := [
  line 97 Commands_Whoami; line 97 (Commands_Init false);
  line 98 (Commands_Register "http://s" DEFAULT_DISPLAY_NAME); line 98 (Commands_Init false);
  line 98 Commands_Whoami;
  {| ln_api := api split_token; ln_seed := CliSample.seed 98;
     ln_command := Commands_Register "http://t" DEFAULT_DISPLAY_NAME |}
].
End CliMainSample.

