(* ===== verification/Migration.v ===== *)
(** * Connection migration

    [ConnectionMigrator] and [NetworkMonitor] of [voip-client/src/migration.rs], over the NAT
    prober of [NatProbe].  What QUIC shows at each check of the path, and whether the stream of
    the notification works, are arguments. *)

From S2P Require Import Prelude Types Config RustNet Wire NatProbe Probe Codec DhtRecord.

Local Open Scope Z_scope.
Local Open Scope rust_scope.

Inductive NetworkChangeEvent :=
| WifiToCellular | CellularToWifi | NewWifiNetwork | Ipv6PrefixChange | NatRebinding.

Definition requires_nat_reprobe (e : NetworkChangeEvent) : bool :=
  match e with
  | WifiToCellular | CellularToWifi | NewWifiNetwork | NatRebinding => true
  | Ipv6PrefixChange => false
  end.

Definition changes_interface (e : NetworkChangeEvent) : bool :=
  match e with
  | WifiToCellular | CellularToWifi | NewWifiNetwork => true
  | Ipv6PrefixChange | NatRebinding => false
  end.

Inductive MigrationError :=
| Migration_Timeout (ms : Z)
| PathValidationFailed (reason : string).

Inductive MigrationResult :=
| Migration_Success (new_local_addr : SocketAddr) (nat_reprobed : bool)
    (new_nat_info : option NATInfo)
| Migration_Failed (e : MigrationError).

(** ** Waiting for the path *)

Inductive IpAddr := Ipv4Addr (octets : list Z) | Ipv6Addr (groups : list Z).

Definition socket_addr_new (ip : IpAddr) (port : Z) : SocketAddr :=
  match ip with Ipv4Addr o => V4 o port | Ipv6Addr g => V6 g 0 port end.

(** What a check sees: a closed connection, no local address yet, or one. *)
Inductive PathView := PathClosed | PathPending | PathAddr (ip : IpAddr).

Section Migrator.
Context (m : overflow_mode) (config : VoIPConfig).

(** The loop over the ticks of the 100 ms interval, the first at once; the deadline test and
    the timeout around the loop give the same error. *)
Fixpoint wait_loop (fuel : nat) (view : Z -> PathView) (tick : Z) : result MigrationError SocketAddr :=
  match fuel with
  | O => Err (Migration_Timeout (migration_path_timeout_ms config))
  | S fuel' =>
      if migration_path_timeout_ms config <? 100 * tick
      then Err (Migration_Timeout (migration_path_timeout_ms config))
      else
        match view tick with
        | PathClosed => Err (PathValidationFailed "connection closed during migration")
        | PathAddr ip => Ok (socket_addr_new ip 0)
        | PathPending => wait_loop fuel' view (tick + 1)
        end
  end.

(** The fuel exceeds the number of ticks before the deadline. *)
Definition wait_for_path_validation (view : Z -> PathView) : result MigrationError SocketAddr :=
  wait_loop (Z.to_nat (migration_path_timeout_ms config / 100) + 2) view 0.

(** ** The notification *)

Record ConnectionMigration := {
  new_ipv6_addresses : list string;
  new_ipv4_reflexive : list string;
  new_prediction : option ProtoPortPrediction
}.

Definition build_migration_message (info : option NATInfo) : ConnectionMigration := {|
  new_ipv6_addresses := []; new_ipv4_reflexive := [];
  new_prediction :=
    match info with Some i => option_map PortPrediction_to_proto (prediction i) | None => None end
|}.

Definition MIGRATION_TYPE_ID : Z := 0x0001.

(** Errors of opening the stream, writing and finishing. *)
Record StreamIo := { io_open : option string; io_write : option string; io_finish : option string }.

Definition io_step {A} (e : option string) (k : result MigrationError A) : result MigrationError A :=
  match e with Some msg => Err (PathValidationFailed msg) | None => k end.

Context `{P : Prost ConnectionMigration}.

(** The answer, and the bytes that reached the stream. *)
Definition send_migration_notification (io : StreamIo) (info : option NATInfo)
    : result MigrationError unit * option (list Z) :=
  let buf := to_be 2 MIGRATION_TYPE_ID ++ encode_to_vec (build_migration_message info) in
  (io_step (io_open io) (io_step (io_write io) (io_step (io_finish io) (Ok tt))),
   match io_open io, io_write io with None, None => Some buf | _, _ => None end).

(** ** The handler *)

(** The prober: its own configuration, its cache and what its paths answer in this probe. *)
Record ProberState := {
  ps_config : VoIPConfig;
  ps_cache : option NATProbeCache;
  ps_now_ms : Z;
  ps_path : nat -> string -> result NatProbeError NATProbeResult
}.

(** The new NAT information, and the prober's cache after it. *)
Definition reprobe (event : NetworkChangeEvent) (prober : option ProberState)
    : Outcome (option NATInfo * option NATProbeCache) :=
  match requires_nat_reprobe event, prober with
  | true, Some p =>
      outcome_bind (probe m (ps_config p) (ps_now_ms p) (ps_path p) (invalidate_cache (ps_cache p)))
        (fun '(r, cache) => Done (match r with Ok info => Some info | Err _ => None end, cache))
  | _, Some p => Done (None, ps_cache p)
  | _, None => Done (None, None)
  end.

(** The result with the notification on the wire and the prober's cache. *)
Definition handle_network_change (event : NetworkChangeEvent) (view : Z -> PathView)
    (io : StreamIo) (prober : option ProberState)
    : Outcome (MigrationResult * option (list Z) * option NATProbeCache) :=
  match wait_for_path_validation view with
  | Err e => Done (Migration_Failed e, None, match prober with Some p => ps_cache p | None => None end)
  | Ok addr =>
      outcome_bind (reprobe event prober) (fun '(info, cache) =>
      let '(_, bytes) := send_migration_notification io info in
      let nat_reprobed := match info with Some _ => true | None => false end in
      Done (Migration_Success addr nat_reprobed info, bytes, cache))
  end.
End Migrator.

(** ** The network monitor *)

Record NetworkMonitor := { last_addresses : list SocketAddr; monitor_active : bool }.

Definition monitor_new : NetworkMonitor := {| last_addresses := []; monitor_active := false |}.

Definition monitor_set (active : bool) (n : NetworkMonitor) : NetworkMonitor :=
  {| last_addresses := last_addresses n; monitor_active := active |}.

Definition monitor_start : NetworkMonitor -> NetworkMonitor := monitor_set true.
Definition monitor_stop : NetworkMonitor -> NetworkMonitor := monitor_set false.

Definition check_for_changes (n : NetworkMonitor) : list NetworkChangeEvent := [].

Definition update_addresses (addresses : list SocketAddr) (n : NetworkMonitor) : NetworkMonitor :=
  {| last_addresses := addresses; monitor_active := monitor_active n |}.

(** ** Facts *)

(** The tick at which the wait is decided: the first that is not pending. *)
Definition decided_at (view : Z -> PathView) (k : Z) : Prop :=
  0 <= k /\ view k <> PathPending /\ forall j, 0 <= j < k -> view j = PathPending.

Lemma wait_loop_decided config view k fuel tick :
  decided_at view k -> 0 <= tick <= k -> 100 * k <= migration_path_timeout_ms config ->
  k - tick < Z.of_nat fuel ->
  wait_loop config fuel view tick =
    match view k with
    | PathAddr ip => Ok (socket_addr_new ip 0)
    | _ => Err (PathValidationFailed "connection closed during migration")
    end.
Proof.
  intros (Hk & Hv & Hp). revert tick. induction fuel as [|f IH]; intros tick Ht Hd Hf; [lia|].
  cbn [wait_loop]. rewrite (proj2 (Z.ltb_ge _ _)) by lia.
  destruct (decide (tick = k)) as [->|Hne]; [by destruct (view k)|].
  rewrite Hp by lia. apply IH; lia.
Qed.

Lemma wait_loop_pending config view fuel tick :
  (forall j, 0 <= j -> 100 * j <= migration_path_timeout_ms config -> view j = PathPending) ->
  0 <= tick ->
  wait_loop config fuel view tick = Err (Migration_Timeout (migration_path_timeout_ms config)).
Proof.
  intros Hp. revert tick. induction fuel as [|f IH]; intros tick Ht; [done|]. cbn [wait_loop].
  destruct (Z.ltb_spec (migration_path_timeout_ms config) (100 * tick)); [done|].
  rewrite Hp by lia. apply IH. lia.
Qed.

Lemma wait_decided config view k :
  decided_at view k -> 100 * k <= migration_path_timeout_ms config ->
  wait_for_path_validation config view =
    match view k with
    | PathAddr ip => Ok (socket_addr_new ip 0)
    | _ => Err (PathValidationFailed "connection closed during migration")
    end.
Proof.
  intros Hd Hk. apply wait_loop_decided; try done.
  - destruct Hd as [? _]. lia.
  - assert (k <= migration_path_timeout_ms config / 100) by (apply Z.div_le_lower_bound; lia).
    destruct Hd as [? _]. lia.
Qed.

(** When the path closes or shows no address in time the connection is given up and nothing
    is sent. *)
Lemma migration_fails m config `{P : Prost ConnectionMigration} event view io prober :
  (forall k ip, 0 <= k -> 100 * k <= migration_path_timeout_ms config -> view k = PathAddr ip ->
     exists j, 0 <= j < k /\ view j = PathClosed) ->
  exists e cache, handle_network_change m config event view io prober =
    Done (Migration_Failed e, None, cache).
Proof.
  intros H. unfold handle_network_change.
  destruct (wait_for_path_validation config view) as [addr|e] eqn:E; [exfalso|by do 2 eexists].
  unfold wait_for_path_validation in E.
  assert (forall fuel tick, 0 <= tick -> (forall j, 0 <= j < tick -> view j = PathPending) ->
    wait_loop config fuel view tick = Ok addr -> False) as Hw.
  { intros fuel. induction fuel as [|f IH]; intros tick Ht Hp; [done|]. cbn [wait_loop].
    destruct (Z.ltb_spec (migration_path_timeout_ms config) (100 * tick)); [done|].
    destruct (view tick) as [| |ip] eqn:Ev; [done|..].
    - apply IH; [lia|]. intros j Hj. destruct (decide (j = tick)) as [->|]; [done|]. apply Hp. lia.
    - intros _. destruct (H tick ip) as (j & Hj & Hc); [lia|lia|done|]. rewrite Hp in Hc by lia.
      done. }
  eapply Hw; [| |exact E]; [lia|]. intros j Hj. lia.
Qed.

(** C4: after a change of network the peer can be reached again.  The connection shows a
    local address in time, the NAT of the new network hands out ports in constant steps, the
    change is one that asks for a probe, and the stream of the notification can be opened and
    written.  Then the handler succeeds with the first local address the connection shows (which
    the code does not compare with the old one), the prober's old cache is replaced by one of
    the new results, and the notification it writes is a framed message whose prediction lets
    the other side, with its own configuration, connect on the port the NAT uses next. *)
Theorem migrated_peer_reachable m config remote `{P : Prost ConnectionMigration}
    {PL : ProstLaws ConnectionMigration} event view k ip io prober ips results r0 rest quic
    a b c d p step n t conn :
  decided_at view k -> 100 * k <= migration_path_timeout_ms config -> view k = PathAddr ip ->
  requires_nat_reprobe event = true -> io_open io = None -> io_write io = None ->
  ips_to_probe (ps_config prober) (path_probe_count (ps_config prober)) = ips ->
  successes (imap (ps_path prober) ips) = results -> 3 <= zlen results ->
  results = r0 :: rest ->
  0 <= a < 256 -> 0 <= b < 256 -> 0 <= c < 256 -> 0 <= d < 256 ->
  Forall (fun r => probe_external_ip r = ipv4_text a b c d) results ->
  external_ports results = progression p step (S (S n)) -> step <> 0 ->
  0 <= prediction_margin_sequential (ps_config prober) ->
  2 * prediction_margin_sequential (ps_config prober) + 1 <= prediction_max_probes remote ->
  let next := p + step * (Z.of_nat (S n) + 1) in
  1024 <= next -> next + prediction_max_probes remote < 2 ^ 16 ->
  t <= quic_prediction_timeout_ms remote -> answers_only quic [a; b; c; d] next t conn ->
  exists info bytes cache msg pr,
    handle_network_change m config event view io (Some prober) =
      Done (Migration_Success (socket_addr_new ip 0) true (Some info), Some bytes, Some cache) /\
    cache = build_cache (ps_now_ms prober) results info (ps_config prober) /\
    take 2 bytes = to_be 2 MIGRATION_TYPE_ID /\ prost_decode (drop 2 bytes) = Some msg /\
    new_prediction msg = Some pr /\
    one_sided_execute m remote quic (PortPrediction_from_proto pr) (ppp_external_ip pr)
      = Some (Ok conn).
Proof.
  intros Hd Hk Hv He Ho Hw Hips Hres H3 Hr Ha Hb Hc Hdd Hall Hports Hs Hm Hmax next Hlo Hhi Ht Hq.
  destruct (predicted_port_reached m (ps_now_ms prober / 1000) results (ps_config prober) remote quic
    r0 rest a b c d p step n t conn) as (pr & Hcl & Hex); try done.
  set (info := {| nat_type := _ |}) in Hcl.
  exists info, (to_be 2 MIGRATION_TYPE_ID ++ encode_to_vec (build_migration_message (Some info))),
    (build_cache (ps_now_ms prober) results info (ps_config prober)),
    (build_migration_message (Some info)), (PortPrediction_to_proto pr).
  split_and!; [|done|done| |done|].
  - unfold handle_network_change. rewrite (wait_decided _ _ k), Hv by done.
    unfold reprobe, probe. rewrite He, Hips. destruct ips as [|ip0 ips]; [by rewrite <- Hres in Hr|].
    rewrite Hres, (proj2 (Z.ltb_ge _ _)), Hcl by lia. cbn -[to_be build_cache].
    by rewrite Ho, Hw.
  - change (drop 2 (to_be 2 MIGRATION_TYPE_ID ++ ?x)) with x. apply prost_roundtrip.
  - by rewrite PortPrediction_roundtrip.
Qed.

Module MigrationSample.
Import RecordCodec.

#[export] Instance message_ser : Ser ConnectionMigration := view_ser
  (fun c => (new_ipv6_addresses c, new_ipv4_reflexive c, new_prediction c))
  (fun '(x, y, z) => Build_ConnectionMigration x y z).
#[export] Instance message_ser_laws : SerLaws ConnectionMigration.
Proof. apply view_ser_laws. by intros []. Qed.

Definition message_codec : Prost ConnectionMigration := codec ConnectionMigration.
Definition message_codec_laws : ProstLaws ConnectionMigration (P := message_codec) :=
  codec_laws ConnectionMigration.

Definition config : VoIPConfig :=
  with_server_ips ["198.51.100.1"; "198.51.100.2"; "198.51.100.3"] default_config.

(** The prober has a configuration of its own. *)
Definition prober_config : VoIPConfig :=
  with_server_ips ["198.51.100.7"; "198.51.100.8"; "198.51.100.9"] default_config.

Definition prober : ProberState := {|
  ps_config := prober_config; ps_cache := None; ps_now_ms := 5000;
  ps_path i _ := Ok (NatSample.result_at (ipv4_text 1 2 3 4) (40000 + 2 * Z.of_nat i)) |}.

(** The address appears at the third check. *)
Definition view (tick : Z) : PathView :=
  if tick =? 2 then PathAddr (Ipv4Addr [10; 0; 0; 7]) else PathPending.

Definition io : StreamIo := {| io_open := None; io_write := None; io_finish := None |}.
End MigrationSample.

Lemma migrated_peer_reachable_witness :
  exists info bytes cache msg pr,
    handle_network_change Checked MigrationSample.config (P := MigrationSample.message_codec)
      WifiToCellular MigrationSample.view MigrationSample.io (Some MigrationSample.prober) =
      Done (Migration_Success (V4 [10; 0; 0; 7] 0) true (Some info), Some bytes, Some cache) /\
    cache = build_cache 5000
      (map (NatSample.result_at (ipv4_text 1 2 3 4)) [40000; 40002; 40004]) info
      MigrationSample.prober_config /\
    take 2 bytes = to_be 2 MIGRATION_TYPE_ID /\
    prost_decode (Prost := MigrationSample.message_codec) (drop 2 bytes) = Some msg /\
    new_prediction msg = Some pr /\
    one_sided_execute Checked default_config ProbeSample.quic
      (PortPrediction_from_proto pr) (ppp_external_ip pr) = Some (Ok 7).
Proof.
  apply (migrated_peer_reachable Checked MigrationSample.config default_config (P := MigrationSample.message_codec)
    (PL := MigrationSample.message_codec_laws) WifiToCellular MigrationSample.view 2
    (Ipv4Addr [10; 0; 0; 7]) MigrationSample.io MigrationSample.prober
    ["198.51.100.7"; "198.51.100.8"; "198.51.100.9"]
    (map (NatSample.result_at (ipv4_text 1 2 3 4)) [40000; 40002; 40004])
    (NatSample.result_at (ipv4_text 1 2 3 4) 40000)
    (map (NatSample.result_at (ipv4_text 1 2 3 4)) [40002; 40004]) ProbeSample.quic
    1 2 3 4 40000 2 1 120 7); try lia; try reflexivity; try (vm_compute; congruence).
  - split; [lia|]. split; [discriminate|]. intros j Hj. unfold MigrationSample.view.
    destruct (Z.eqb_spec j 2); [lia|reflexivity].
  - repeat constructor.
  - split; [reflexivity|]. intros port Hp. exists 3000, "closed"%string.
    unfold ProbeSample.quic. cbn [addr_port]. destruct (decide (port = 40006)); [|reflexivity].
    contradiction.
Defined.
