(* ===== verification/QuicProbe.v ===== *)
(** * Path probe responses of the signaling server

    [voip-signaling/src/quic_probe.rs]: the message with which the server reflects a client's
    observed address; the listener that would send it is a stub.  [prost] writes the message in
    the protobuf wire format, which omits fields with default values. *)

From S2P Require Import Prelude Types Config RustStr RustNet Wire NatProbe.

Local Open Scope Z_scope.
Local Open Scope rust_scope.

Record PathProbeResponse := {
  ppr_server_ip : string;
  ppr_observed_ip : string;
  ppr_observed_port : Z;
  ppr_timestamp_ms : Z
}.

(** The format on messages without default values. *)
Class PathProbeFormat {P : Prost PathProbeResponse} := {
  path_probe_format r :
    ppr_server_ip r <> "" -> ppr_observed_ip r <> "" -> ppr_observed_port r <> 0 ->
    ppr_timestamp_ms r <> 0 ->
    encode_to_vec r = encode_probe_response (as_bytes (ppr_server_ip r))
      (as_bytes (ppr_observed_ip r)) (ppr_observed_port r) (ppr_timestamp_ms r)
}.

Section Responses.
Context `{P : Prost PathProbeResponse}.

Definition build_path_probe_response (server_ip observed_ip : string) (observed_port timestamp_ms : Z)
    : FramedMessage := {|
  type_id := PATH_PROBE_RESPONSE;
  framed_payload := encode_to_vec {|
    ppr_server_ip := server_ip; ppr_observed_ip := observed_ip;
    ppr_observed_port := observed_port; ppr_timestamp_ms := timestamp_ms |}
|}.

Definition encode_path_probe_response (now_ms : Z) (server_ip observed_ip : string)
    (observed_port : Z) : list Z :=
  framed_to_bytes (build_path_probe_response server_ip observed_ip observed_port now_ms).

Definition handle_path_migration (now_ms : Z) (server_ip : string) (observed_addr : SocketAddr)
    : list Z :=
  encode_path_probe_response now_ms server_ip (ip_text observed_addr) (addr_port observed_addr).
End Responses.

(** The listener is a stub: it logs its configuration and binds nothing. *)
Record QuicProbeConfig := { qp_server_ips : list string; qp_port : Z; qp_max_connections : Z }.

Definition default_probe_config : QuicProbeConfig :=
  {| qp_server_ips := []; qp_port := 443; qp_max_connections := 100 |}.

Inductive QuicProbeError :=
| Probe_BindFailed (s : string) | Probe_TlsError (s : string) | Probe_ConnectionError (s : string).

Definition probe_server_start (config : QuicProbeConfig) : result QuicProbeError unit := Ok tt.

(** C35: a probe learns its own address.  When the server answers a probe with the address it
    observed, the client reads back exactly that address and port in both builds, through the
    frame, the protobuf encoding and the client's hand-written decoder.  With overflow checks
    the decoder ends on every input within one iteration per byte. *)
Theorem path_probe_reflects_address `{P : Prost PathProbeResponse} {F : PathProbeFormat}
    m io target server_ip now_ms a data :
  addr_ok a -> addr_port a <> 0 -> 0 < now_ms < 2 ^ 64 -> server_ip <> "" ->
  zlen (handle_path_migration now_ms server_ip a) < 2 ^ 64 ->
  path_open io = Got tt -> path_write io = None ->
  path_read io = Got (handle_path_migration now_ms server_ip a) ->
  probe_single_path m io target = Some (Ok {|
    probe_server_ip := target; probe_local_port := 0; probe_external_ip := ip_text a;
    probe_external_port := addr_port a; probe_timestamp_ms := path_now_ms io;
    probe_rtt_ms := path_rtt_ms io |}) /\
  parse_path_probe_response Checked data <> ParseNoFuel.
Proof.
  intros Ha Hp Hn Hs Hlen Ho Hw Hr.
  split; [|apply parse_loop_fuel; [done|unfold zlen; lia]].
  destruct (ip_text_ascii a Ha) as [Hne Hascii].
  assert (0 < addr_port a < 2 ^ 16) by (destruct a; cbn in *; lia).
  unfold handle_path_migration, encode_path_probe_response, framed_to_bytes, encode_message in *.
  cbn [type_id framed_payload build_path_probe_response] in *.
  rewrite path_probe_format in Hlen, Hr by (cbn; lia || done).
  cbn [ppr_server_ip ppr_observed_ip ppr_observed_port ppr_timestamp_ms] in Hlen, Hr.
  rewrite zlen_app in Hlen. unfold probe_single_path. rewrite Ho, Hw, Hr. cbn [timed result_bind].
  rewrite (proj2 (Z.ltb_ge _ _))
    by (rewrite zlen_app; pose proof (zlen_nonneg (encode_probe_response (as_bytes server_ip)
          (as_bytes (ip_text a)) (addr_port a) now_ms)); change (zlen (to_be 2 _)) with 2; lia).
  cbn [to_be app take drop]. change (negb _) with false. cbn iota.
  change (zlen (to_be 2 PATH_PROBE_RESPONSE)) with 2 in Hlen.
  rewrite drop_0, parse_response by (done || lia). by rewrite string_of_as_bytes.
Qed.

(** An encoder in the format. *)
Module QuicProbeSample.
#[export] Instance prost : Prost PathProbeResponse := {|
  encode_to_vec r := encode_probe_response (as_bytes (ppr_server_ip r))
    (as_bytes (ppr_observed_ip r)) (ppr_observed_port r) (ppr_timestamp_ms r);
  prost_decode _ := None
|}.
#[export] Instance format : PathProbeFormat (P := prost).
Proof. by split. Qed.

Definition io : PathIo := {|
  path_open := Got tt; path_write := None; path_rtt_ms := 20; path_now_ms := 7000;
  path_read := Got (handle_path_migration (P := prost) 6990 "198.51.100.1"
                        (V6 [8193; 3512; 0; 0; 0; 0; 0; 9] 0 40000))
|}.
End QuicProbeSample.

Lemma path_probe_reflects_address_witness :
  probe_single_path Checked QuicProbeSample.io "198.51.100.1" = Some (Ok {|
    probe_server_ip := "198.51.100.1"; probe_local_port := 0;
    probe_external_ip := "2001:db8::9"; probe_external_port := 40000;
    probe_timestamp_ms := 7000; probe_rtt_ms := 20 |}) /\
  parse_path_probe_response Checked looping_response <> ParseNoFuel.
Proof.
  apply (path_probe_reflects_address (P := QuicProbeSample.prost) (F := QuicProbeSample.format)
    Checked QuicProbeSample.io "198.51.100.1" "198.51.100.1" 6990
    (V6 [8193; 3512; 0; 0; 0; 0; 0; 9] 0 40000) looping_response);
    try lia; try (vm_compute; reflexivity); try discriminate.
  split; [reflexivity|]. split; [repeat constructor; lia|]. cbn. lia.
Defined.
