(* ===== verification/Deployment.v ===== *)
(** * The deployed signaling server

    [voip-signaling/src/server.rs] and [main.rs]: the builder, the server that the binary
    starts, and its life as one transition system.  A step is an HTTP request, which passes the
    authentication middleware and reaches its handler, a frame or the end of a WebSocket
    session, or the periodic cleanup of the rate limiter.  The remaining handlers of
    [handlers.rs], which only read, are here too.

    The matching of paths is axum's: a request is given by its route, and [/v1/peers/lookup]
    is never the route of a peer named [lookup].  [Lowercase] is [str::to_lowercase], of which
    only the documented behaviour on ASCII is used, and [LruIter] the iteration of the [lru]
    crate. *)

From S2P Require Import Prelude Types Config Crypto Base64 RustStr RustNet Wire RateLimit Lru.
From S2P Require Import Jwt Server Session Rest.

Local Open Scope Z_scope.
Local Open Scope rust_scope.

(** ** Configuration and builder *)

Definition DEFAULT_PORT : Z := 8443.

Record ServerConfig := {
  cfg_listen_addr : string;
  cfg_rate_limits : RateLimitConfig;
  cfg_server_ips : list string;
  cfg_voip : VoIPConfig
}.

Definition default_server_config : ServerConfig := {|
  cfg_listen_addr := "0.0.0.0:" +:+ string_of_bytes (decimal DEFAULT_PORT);
  cfg_rate_limits := default_rate_limits;
  cfg_server_ips := [];
  cfg_voip := default_config
|}.

Section Builder.
Context {S : SigScheme} {L : Lru}.

Record SignalingServerBuilder := {
  sb_config : ServerConfig;
  sb_signing_key : option SigningKey
}.

Definition builder_new : SignalingServerBuilder :=
  {| sb_config := default_server_config; sb_signing_key := None |}.

Definition with_config (c : ServerConfig) (b : SignalingServerBuilder) : SignalingServerBuilder :=
  {| sb_config := c; sb_signing_key := sb_signing_key b |}.

Definition listen_addr (addr : string) (b : SignalingServerBuilder) : SignalingServerBuilder :=
  let c := sb_config b in
  with_config {| cfg_listen_addr := addr; cfg_rate_limits := cfg_rate_limits c;
                 cfg_server_ips := cfg_server_ips c; cfg_voip := cfg_voip c |} b.

Definition rate_limits (r : RateLimitConfig) (b : SignalingServerBuilder) : SignalingServerBuilder :=
  let c := sb_config b in
  with_config {| cfg_listen_addr := cfg_listen_addr c; cfg_rate_limits := r;
                 cfg_server_ips := cfg_server_ips c; cfg_voip := cfg_voip c |} b.

Definition builder_server_ips (ips : list string) (b : SignalingServerBuilder) : SignalingServerBuilder :=
  let c := sb_config b in
  with_config {| cfg_listen_addr := cfg_listen_addr c; cfg_rate_limits := cfg_rate_limits c;
                 cfg_server_ips := ips; cfg_voip := cfg_voip c |} b.

Definition server_ip (ip : string) (b : SignalingServerBuilder) : SignalingServerBuilder :=
  builder_server_ips (cfg_server_ips (sb_config b) ++ [ip]) b.

Definition builder_signing_key (key : SigningKey) (b : SignalingServerBuilder)
    : SignalingServerBuilder :=
  {| sb_config := sb_config b; sb_signing_key := Some key |}.

Definition voip_config (v : VoIPConfig) (b : SignalingServerBuilder) : SignalingServerBuilder :=
  let c := sb_config b in
  with_config {| cfg_listen_addr := cfg_listen_addr c; cfg_rate_limits := cfg_rate_limits c;
                 cfg_server_ips := cfg_server_ips c; cfg_voip := v |} b.

Record SignalingServer := { ss_config : ServerConfig; ss_state : Server }.

(** [generated] is the key that the random generator gives. *)
Definition build (generated : SigningKey) (b : SignalingServerBuilder) : SignalingServer :=
  let c := sb_config b in
  {| ss_config := c;
     ss_state := server_new (cfg_rate_limits c) (cfg_server_ips c)
                   (default generated (sb_signing_key b)) (cfg_voip c) |}.

(** *** The binary *)

Definition DEFAULT_SERVER_IPS : list string :=
  ["10.0.0.1"; "10.0.0.2"; "10.0.0.3"; "10.0.0.4"; "10.0.0.5"].

Definition main_voip_config : VoIPConfig := with_server_ips DEFAULT_SERVER_IPS default_config.

Definition main_server (generated : SigningKey) : SignalingServer :=
  build generated (voip_config main_voip_config
    (builder_server_ips DEFAULT_SERVER_IPS (listen_addr "0.0.0.0:8443" builder_new))).
End Builder.

(** ** The handlers that only read *)

Class Lowercase := { to_lowercase : string -> string }.

(** [char::to_ascii_lowercase]. *)
Definition ascii_lower (b : Z) : Z := if (65 <=? b) && (b <=? 90) then b + 32 else b.

Class LowercaseLaws (C : Lowercase) := {
  lowercase_ascii s : Forall (fun b => 0 <= b < 128) (as_bytes s) ->
    to_lowercase s = string_of_bytes (map ascii_lower (as_bytes s))
}.

Class LruIter (L : Lru) := { lru_iter {V} : lru V -> list (string * V) }.

(** The iterator visits every entry once. *)
Class LruIterLaws {L : Lru} (I : LruIter L) := {
  iter_entries {V} (c : lru V) : lru_iter c ≡ₚ map_to_list (lru_map c)
}.

Record LookupResponse := { lk_peer_id : string; lk_display_name : string; lk_status : string }.

Record MyIpResponse := { my_ip : string; my_ip_version : Z; my_port : Z; my_observed_at : Z }.

Record ProxyEntryResponse := {
  per_node_id : string;
  per_proxy_url : string;
  per_capacity : Z;
  per_region : string;
  per_latency_hint_ms : Z
}.

Definition extract_client_ip (addr : SocketAddr) : string * Z * Z :=
  (ip_text addr, addr_port addr, if is_ipv6_addr addr then 6 else 4).

Definition get_my_ip (now_secs : Z) (addr : SocketAddr) : MyIpResponse :=
  let '(ip, port, version) := extract_client_ip addr in
  {| my_ip := ip; my_ip_version := version; my_port := port; my_observed_at := now_secs |}.

Section Requests.
Context {S : SigScheme} {L : Lru} {I : LruIter L} {C : Lowercase} {P : ServerProto} {J : JsonClaims}.

Definition rest_lookup_peer (username : string) (s : Server) : result SignalingError LookupResponse :=
  let query_lower := to_lowercase username in
  match list_find (fun kv : string * PeerEntry =>
          to_lowercase (pi_display_name (pe_info kv.2)) = query_lower) (lru_iter (peers s)) with
  | Some (_, (_, entry)) =>
      Ok {| lk_peer_id := pi_peer_id (pe_info entry); lk_display_name := pi_display_name (pe_info entry);
            lk_status := peer_status_str (pi_status (pe_info entry)) |}
  | None => Err (Sig_UnknownPeer username)
  end.

Definition rest_get_proxies (s : Server) : list ProxyEntryResponse :=
  map (fun p => {| per_node_id := px_node_id p; per_proxy_url := px_proxy_url p;
                   per_capacity := px_capacity p; per_region := px_region p;
                   per_latency_hint_ms := px_latency_hint_ms p |}) (get_proxies s).

Definition rest_dht_bootstrap (s : Server) : list string := dht_bootstrap s.

(** ** Requests *)

Inductive Request :=
| Rq_RegisterPeer (body : RegisterPeerRequest)
| Rq_LookupPeer (username : string)
| Rq_GetPeer (peer_id : string)
| Rq_UpdatePeer (peer_id : string) (body : RegisterPeerRequest)
| Rq_UnregisterPeer (peer_id : string)
| Rq_PeerStatus (peer_id : string)
| Rq_MyIp
| Rq_WsUpgrade (token : string)
| Rq_Proxies
| Rq_DhtBootstrap
| Rq_ProxyToken (peer_id target_peer_id : string).

Definition request_route (r : Request) : Route :=
  match r with
  | Rq_RegisterPeer _ => R_RegisterPeer
  | Rq_LookupPeer _ => R_LookupPeer
  | Rq_GetPeer p => R_GetPeer p
  | Rq_UpdatePeer p _ => R_UpdatePeer p
  | Rq_UnregisterPeer p => R_UnregisterPeer p
  | Rq_PeerStatus p => R_PeerStatus p
  | Rq_MyIp => R_MyIp
  | Rq_WsUpgrade _ => R_WsUpgrade
  | Rq_Proxies => R_Proxies
  | Rq_DhtBootstrap => R_DhtBootstrap
  | Rq_ProxyToken _ _ => R_ProxyToken
  end.

Inductive Response :=
| Resp_Error (e : SignalingError)
| Resp_Registered (r : RegisterPeerResponse)
| Resp_Lookup (r : LookupResponse)
| Resp_Peer (r : PeerResponse)
| Resp_NoContent (status : Z)
| Resp_Status (peer_id status : string)
| Resp_MyIp (r : MyIpResponse)
| Resp_Upgrade (peer_id : option string)
| Resp_Proxies (l : list ProxyEntryResponse)
| Resp_DhtBootstrap (nodes : list string)
| Resp_ProxyToken (r : ProxyTokenResponse).

Definition respond {A} (f : A -> Response) (r : result SignalingError A) : Response :=
  match r with Ok x => f x | Err e => Resp_Error e end.

(** The route to its handler, with the authenticated peer. *)
Definition route_to (m : overflow_mode) (clk : Clock) (addr : SocketAddr) (auth : string)
    (req : Request) (s : Server) : option (Response * Server) :=
  match req with
  | Rq_RegisterPeer body =>
      let?o (r, s) := rest_register_peer m clk body s in Some (respond Resp_Registered r, s)
  | Rq_LookupPeer name => Some (respond Resp_Lookup (rest_lookup_peer name s), s)
  | Rq_GetPeer p => let (r, s) := rest_get_peer p s in Some (respond Resp_Peer r, s)
  | Rq_UpdatePeer p body =>
      let (r, s) := rest_update_peer clk auth p body s in Some (respond Resp_Peer r, s)
  | Rq_UnregisterPeer p =>
      let (r, s) := rest_unregister_peer auth p s in Some (respond Resp_NoContent r, s)
  | Rq_PeerStatus p =>
      let (r, s) := rest_get_peer_status p s in
      Some (respond (fun x => Resp_Status x.1 x.2) r, s)
  | Rq_MyIp => Some (Resp_MyIp (get_my_ip (unix_secs clk) addr), s)
  | Rq_WsUpgrade token =>
      Some (respond (fun st => Resp_Upgrade st.1) (rest_ws_upgrade clk token s), s)
  | Rq_Proxies => Some (Resp_Proxies (rest_get_proxies s), s)
  | Rq_DhtBootstrap => Some (Resp_DhtBootstrap (rest_dht_bootstrap s), s)
  | Rq_ProxyToken p target =>
      let (r, s) := rest_issue_proxy_token clk p target s in Some (respond Resp_ProxyToken r, s)
  end.

(** [router]: the middleware first. *)
Definition http_handle (m : overflow_mode) (clk : Clock) (addr : SocketAddr)
    (authorization : option (option string)) (req : Request) (s : Server)
    : option (Response * Server) :=
  let (method, path) := route_request (request_route req) in
  match auth_middleware (unix_secs clk) (srv_key s) path method authorization with
  | Err e => Some (Resp_Error e, s)
  | Ok auth => route_to m clk addr auth req s
  end.

(** ** The running server *)

(** An upgraded request opens a session on a new channel. *)
Definition opened (ch : Z) (resp : Response) (ses : gmap Z (option string)) : gmap Z (option string) :=
  match resp with Resp_Upgrade holder => <[ch := holder]> ses | _ => ses end.

Inductive deploy_step : World S L -> World S L -> Prop :=
| dep_http w m clk addr authorization req resp s' ch :
    sessions w !! ch = None ->
    http_handle m clk addr authorization req (server w) = Some (resp, s') ->
    deploy_step w {| server := s'; sessions := opened ch resp (sessions w) |}
| dep_receive w c data h h' s' :
    sessions w !! tx c = Some h ->
    ws_receive c data (h, server w) = Some (h', s') ->
    deploy_step w {| server := s'; sessions := <[tx c := h']> (sessions w) |}
| dep_close w ch h :
    sessions w !! ch = Some h ->
    deploy_step w {| server := ws_close (h, server w); sessions := delete ch (sessions w) |}
| dep_cleanup w now order :
    deploy_step w {| server := set_limiter (limiter_cleanup now order (limiter (server w))) (server w);
                     sessions := sessions w |}.

Definition deploy_init (w : World S L) : Prop :=
  exists generated, server w = ss_state (main_server generated) /\ sessions w = ∅.
End Requests.

(** ** A server for the witnesses *)

Module DeploySample.
#[export] Instance iter : LruIter ListLru.ops := {| lru_iter V c := map_to_list (lru_map (Lru := ListLru.ops) c) |}.

#[export] Instance lower : Lowercase :=
  {| to_lowercase s := string_of_bytes (map ascii_lower (as_bytes s)) |}.

Definition addr : SocketAddr := V4 [203; 0; 113; 9] 40000.

(** Peer [a] of the small server, with a token of its key. *)
Definition server : @Server ToySig.scheme ListLru.ops := Sample.server.

Definition header : option (option string) := Some (Some ("Bearer " +:+ JwtSample.token)).

Definition after : @Server ToySig.scheme ListLru.ops := unregister_peer "a" server.

(** The server as the binary starts it. *)
Definition start : @Server ToySig.scheme ListLru.ops :=
  ss_state (main_server (S := ToySig.scheme) "k"%char).
End DeploySample.

(** ** Facts *)

(** *** Requests

    What a request may do to the registry of peers.  Only the owner of a token changes or
    removes an entry, its own; the unauthenticated registration adds or replaces one, which in
    a full registry displaces another. *)

Inductive peers_change (req : Request) (subject : string)
    : gmap string PeerEntry -> gmap string PeerEntry -> Prop :=
| pc_stay m : peers_change req subject m m
| pc_register m body e :
    req = Rq_RegisterPeer body -> pi_peer_id (pe_info e) = req_peer_id body ->
    pe_sender e = (m !! req_peer_id body) ≫= pe_sender ->
    peers_change req subject m (<[req_peer_id body := e]> m)
| pc_register_full m body e j :
    req = Rq_RegisterPeer body -> pi_peer_id (pe_info e) = req_peer_id body ->
    pe_sender e = None -> m !! req_peer_id body = None -> size m = PEERS_CAP ->
    peers_change req subject m (<[req_peer_id body := e]> (delete j m))
| pc_update m body e old :
    req = Rq_UpdatePeer subject body -> m !! subject = Some old ->
    pi_peer_id (pe_info e) = subject -> pe_sender e = pe_sender old ->
    peers_change req subject m (<[subject := e]> m)
| pc_remove m :
    req = Rq_UnregisterPeer subject -> peers_change req subject m (delete subject m).

(** What no request touches. *)
Definition same_rest {S : SigScheme} {L : Lru} (s s' : Server) : Prop :=
  calls s' = calls s /\ proxies s' = proxies s /\ dht_bootstrap s' = dht_bootstrap s /\
  srv_key s' = srv_key s /\ srv_config s' = srv_config s /\ sent s' = sent s /\ pushed s' = pushed s.

(** No relay is ever arranged; without proxies and bootstrap nodes the server keeps its key and
    configuration. *)
Definition no_relay (m : FramedMessage) : Prop := type_id m <> MASQUE_RELAY_NEEDED.

Record quiet {S : SigScheme} {L : Lru} (key : SigningKey) (s : Server) : Prop := {
  q_proxies : proxies s = [];
  q_dht : dht_bootstrap s = [];
  q_key : srv_key s = key;
  q_config : srv_config s = main_voip_config;
  q_sent : Forall (fun x => no_relay x.2) (sent s)
}.

Section Facts.
Context {S : SigScheme} {L : Lru} {LL : LruLaws L} {I : LruIter L} {C : Lowercase}
  {P : ServerProto} {J : JsonClaims}.
Implicit Types s : Server.

Lemma register_same info o s : same_rest s (register_peer info o s).
Proof. unfold register_peer, same_rest. by case_goal. Qed.

Lemma unregister_same k s : same_rest s (unregister_peer k s).
Proof. unfold unregister_peer, same_rest. by case_goal. Qed.

(** The registry after a registration without a session. *)
Lemma register_peers info s : srv_ok s ->
  let k := pi_peer_id info in
  exists e, pe_info e = info /\ pe_sender e = (lru_map (peers s) !! k) ≫= pe_sender /\
    (lru_map (peers (register_peer info None s)) = <[k := e]> (lru_map (peers s)) \/
     (lru_map (peers s) !! k = None /\ size (lru_map (peers s)) = PEERS_CAP /\
      exists j, lru_map (peers (register_peer info None s)) = <[k := e]> (delete j (lru_map (peers s))))).
Proof.
  intros Hs k. unfold register_peer. fold k.
  destruct (lru_map (peers s) !! k) as [old|] eqn:E; cbn [peers set_peers].
  - exists {| pe_info := info; pe_sender := pe_sender old |}. split; [done|]. split; [done|].
    left. rewrite modify_map. apply map_eq. intros i. destruct (decide (i = k)) as [->|].
    + by rewrite lookup_alter_eq, lookup_insert_eq, E.
    + by rewrite lookup_alter_ne, lookup_insert_ne.
  - exists {| pe_info := info; pe_sender := None |}. split; [done|]. split; [done|].
    destruct (lru_put_cases PEERS_CAP k {| pe_info := info; pe_sender := None |} (peers s)
                peers_cap_pos (ok_peers s Hs)) as [?|(_ & Hsz & j & _ & _ & Hm)]; [by left|].
    right. split; [done|]. split; [done|]. by exists j.
Qed.

Lemma unregister_peers k s :
  lru_map (peers (unregister_peer k s)) = delete k (lru_map (peers s)).
Proof.
  unfold unregister_peer. case_goal; cbn [peers set_peers set_limiter].
  - by rewrite pop_map.
  - by rewrite delete_id.
Qed.

Lemma update_change clk auth p body s : srv_ok s ->
  let s' := (rest_update_peer clk auth p body s).2 in
  peers_change (Rq_UpdatePeer p body) auth (lru_map (peers s)) (lru_map (peers s')) /\
  same_rest s s'.
Proof.
  intros Hs. unfold rest_update_peer. case_goal; [split; [constructor|done]|]. bool_to_prop. subst p.
  unfold get_peer. destruct (lru_map (peers s) !! auth) as [old|] eqn:E; cbn [option_map snd];
    [|split; [|done]; cbn; rewrite promote_map; constructor].
  set (info := {| pi_peer_id := auth |}). set (s1 := set_peers _ s).
  assert (Hs1 : srv_ok s1) by (by apply ok_promote_peer).
  assert (Hm : lru_map (peers s1) = lru_map (peers s)) by (cbn; by rewrite promote_map).
  destruct (register_peers info s1 Hs1) as (e & He & Hse & Hr). rewrite Hm in *.
  split; [|exact (register_same info None s1)].
  destruct Hr as [->|(Hno & _)]; [|cbn in Hno; by rewrite E in Hno].
  cbn in Hse. rewrite E in Hse. apply (pc_update _ _ _ body _ old); try done. by rewrite He.
Qed.

Lemma register_change m clk body auth s r s' : srv_ok s ->
  rest_register_peer m clk body s = Some (r, s') ->
  peers_change (Rq_RegisterPeer body) auth (lru_map (peers s)) (lru_map (peers s')) /\
  same_rest s s'.
Proof.
  intros Hs. unfold rest_register_peer. case_goal; [|intros [= _ <-]; split; [constructor|done]].
  case_goal; [|done]. case_goal. case_goal; [intros [= _ <-]; split; [constructor|done]|].
  set (info := {| pi_peer_id := req_peer_id body |}). set (s1 := set_limiter _ s).
  assert (Hs1 : srv_ok s1) by (by apply ok_set_limiter).
  destruct (register_peers info s1 Hs1) as (e & He & Hse & Hr).
  case_goal; [|done]. cbn [option_bind]. intros [= _ <-].
  split; [|exact (register_same info None s1)].
  destruct Hr as [->|(Hno & Hsz & j & ->)].
  - apply (pc_register _ _ _ body); [done|by rewrite He|done].
  - apply (pc_register_full _ _ _ body); try done; [by rewrite He|]. cbn in Hse, Hno.
    by rewrite Hno in Hse.
Qed.

Lemma proxy_token_change clk p q s :
  let s' := (rest_issue_proxy_token clk p q s).2 in
  lru_map (peers s') = lru_map (peers s) /\ same_rest s s'.
Proof.
  unfold rest_issue_proxy_token, get_peer.
  repeat (case_goal; cbn [option_map snd peers set_peers]); rewrite ?promote_map; done.
Qed.

Lemma route_change m clk addr auth req s resp s' : srv_ok s ->
  route_to m clk addr auth req s = Some (resp, s') ->
  peers_change req auth (lru_map (peers s)) (lru_map (peers s')) /\ same_rest s s'.
Proof.
  intros Hs. destruct req; cbn [route_to].
  - destruct (rest_register_peer m clk body s) as [[r t]|] eqn:E; [|done]. intros [= _ <-].
    by eapply register_change.
  - intros [= _ <-]. split; [constructor|done].
  - cbn. intros [= _ <-]. cbn. rewrite promote_map. split; [constructor|done].
  - pose proof (update_change clk auth peer_id body s Hs) as H.
    destruct (rest_update_peer clk auth peer_id body s). by intros [= _ <-].
  - unfold rest_unregister_peer. case_goal; intros [= _ <-]; [split; [constructor|done]|].
    bool_to_prop. subst. rewrite unregister_peers. split; [by constructor|apply unregister_same].
  - cbn. intros [= _ <-]. cbn. rewrite promote_map. split; [constructor|done].
  - intros [= _ <-]. split; [constructor|done].
  - intros [= _ <-]. split; [constructor|done].
  - intros [= _ <-]. split; [constructor|done].
  - intros [= _ <-]. split; [constructor|done].
  - pose proof (proxy_token_change clk peer_id target_peer_id s) as [Hp Hq].
    destruct (rest_issue_proxy_token clk peer_id target_peer_id s). intros [= _ <-].
    cbn [snd] in Hp. rewrite Hp. split; [constructor|done].
Qed.

Lemma http_same m clk addr header req s resp s' : srv_ok s ->
  http_handle m clk addr header req s = Some (resp, s') -> same_rest s s'.
Proof.
  intros Hs. unfold http_handle. destruct (route_request _) as [meth path].
  case_goal; [|by intros [= _ <-]]. intros H. by eapply route_change.
Qed.

Lemma ok_http m clk addr header req s resp s' : srv_ok s ->
  http_handle m clk addr header req s = Some (resp, s') -> srv_ok s'.
Proof.
  intros Hs. unfold http_handle. destruct (route_request _) as [meth path].
  case_goal; [|by intros [= _ <-]]. destruct req; cbn [route_to]; unfold rest_register_peer,
    rest_get_peer, rest_update_peer, rest_unregister_peer, rest_get_peer_status,
    rest_issue_proxy_token; unfold get_peer; repeat case_goal; intros; simplify_eq/=; try done;
    repeat first [apply ok_register | apply ok_unregister | apply ok_promote_peer
                 | apply (ok_promote_peer _ (set_peers _ _)) | apply ok_set_limiter]; try done.
Qed.

(** *** The deployed server never relays *)

Context (key : SigningKey).
Local Notation Q := (quiet key).

Lemma quiet_same s s' : Q s -> same_rest s s' -> Q s'.
Proof. intros [H1 H2 H3 H4 H5] (_ & E1 & E2 & E3 & E4 & E5 & _). split; by rewrite ?E1, ?E2, ?E3, ?E4, ?E5. Qed.

Lemma quiet_peers p s : Q s -> Q (set_peers p s).
Proof. by intros []. Qed.

Lemma quiet_calls c s : Q s -> Q (set_calls c s).
Proof. by intros []. Qed.

Lemma quiet_limiter r s : Q s -> Q (set_limiter r s).
Proof. by intros []. Qed.

Lemma quiet_notify n s : Q s -> Q (notify n s).
Proof. by intros []. Qed.

Lemma quiet_deliver ch m s : Q s -> no_relay m -> Q (deliver ch m s).
Proof. intros [] Hm. split; try done. cbn. by apply Forall_app_2; [|constructor]. Qed.

Hint Resolve quiet_peers quiet_calls quiet_limiter quiet_notify quiet_deliver : core.

Lemma quiet_register info o s : Q s -> Q (register_peer info o s).
Proof. intros. eapply quiet_same; [done|apply register_same]. Qed.

Lemma quiet_unregister k s : Q s -> Q (unregister_peer k s).
Proof. intros. eapply quiet_same; [done|apply unregister_same]. Qed.

Lemma quiet_send co k m s r s' : no_relay m -> Q s -> send_to_peer co k m s = (r, s') -> Q s'.
Proof. intros Hm Hs. unfold send_to_peer. repeat case_goal; intros; simplify_eq; auto. Qed.

Lemma quiet_send2 co k m s : no_relay m -> Q s -> Q (send_to_peer co k m s).2.
Proof. intros Hm Hs. destruct (send_to_peer co k m s) eqn:E. by eapply quiet_send. Qed.

Lemma quiet_reply c code msg s : Q s -> Q (reply_error c code msg s).
Proof. intros. unfold reply_error, reply. case_goal; [|done]. by apply quiet_deliver. Qed.

Lemma quiet_check c a k s s' b : Q s -> check_limit c a k s = Some (s', b) -> Q s'.
Proof. intros Hs. unfold check_limit. repeat case_goal; intros; simplify_eq; auto. Qed.

Lemma quiet_create c s r s' : Q s -> create_call c s = (r, s') -> Q s'.
Proof. intros Hs. unfold create_call. repeat case_goal; intros; simplify_eq; auto. Qed.

Lemma quiet_update k st s r s' : Q s -> update_call_state k st s = (r, s') -> Q s'.
Proof. intros Hs. unfold update_call_state. repeat case_goal; intros; simplify_eq; auto. Qed.

Lemma quiet_end clk k r s : Q s -> Q (end_call clk k r s).2.
Proof. intros Hs. unfold end_call. repeat case_goal; cbn; auto. Qed.

Lemma quiet_get_call k s r s' : Q s -> get_call k s = (r, s') -> Q s'.
Proof. intros Hs. unfold get_call. intros; simplify_eq; auto. Qed.

Lemma quiet_remove k s : Q s -> Q (remove_call k s).
Proof. intros. unfold remove_call. auto. Qed.

(** Without a proxy no relay is arranged. *)
Lemma quiet_no_relay co clk id a b s : Q s ->
  send_relay_needed co clk id a b s = (Err Sig_MasqueNoProxy, s).
Proof. intros []. unfold send_relay_needed, select_proxy, get_proxies. by rewrite q_proxies0. Qed.

Lemma quiet_retry m co id a b reason o n s s' :
  Q s -> handle_retryable_failure m co id a b reason o n s = Some s' -> Q s'.
Proof.
  intros Hs. unfold handle_retryable_failure, get_peer. repeat case_goal; intros H; simplify_eq/=;
    try done; repeat first [apply quiet_notify | apply quiet_peers]; by apply quiet_send2.
Qed.

Lemma no_relay_forward t p : t <> MASQUE_RELAY_NEEDED -> no_relay (forward t p).
Proof. done. Qed.

Ltac quiet_forward :=
  repeat match goal with
  | Hs : quiet key ?s, H : check_limit _ _ _ ?s = Some (?s', _) |- _ =>
      pose proof (quiet_check _ _ _ _ _ _ Hs H); clear H
  | Hs : quiet key ?s, H : send_to_peer _ _ (forward _ _) ?s = (_, ?s') |- _ =>
      assert (quiet key s') by (by eapply quiet_send; [apply no_relay_forward|exact Hs|exact H]); clear H
  | Hs : quiet key ?s, H : create_call _ ?s = (_, ?s') |- _ =>
      pose proof (quiet_create _ _ _ _ Hs H); clear H
  | Hs : quiet key ?s, H : update_call_state _ _ ?s = (_, ?s') |- _ =>
      pose proof (quiet_update _ _ _ _ _ Hs H); clear H
  | Hs : quiet key ?s, H : get_call _ ?s = (_, ?s') |- _ =>
      pose proof (quiet_get_call _ _ _ _ Hs H); clear H
  end.

Ltac quiet_case := repeat case_goal; intros; simplify_eq/=; quiet_forward; try done;
  repeat first [apply quiet_remove | apply quiet_end | apply quiet_reply | apply quiet_register
               | apply quiet_unregister | apply quiet_send2; [by apply no_relay_forward|]]; try done.

Lemma quiet_failed c p h s h' s' :
  Q s -> ws_handle_call_failed c p (h, s) = Some (h', s') -> Q s'.
Proof.
  intros Hs. unfold ws_handle_call_failed.
  destruct (prost_decode p) as [msg|]; [|by intros [= _ <-]].
  destruct (get_call (cf_call_id msg) s) as [[e|] s1] eqn:E; [|quiet_case].
  case_goal; [quiet_case|]. quiet_forward.
  set (s2 := (send_to_peer _ _ _ s1).2).
  assert (Hs2 : Q s2) by (by apply quiet_send2).
  rewrite quiet_no_relay by done.
  repeat case_goal; intros; simplify_eq/=; apply quiet_end; try done; by eapply quiet_retry.
Qed.

Lemma quiet_receive c data h s h' s' :
  Q s -> ws_receive c data (h, s) = Some (h', s') -> Q s'.
Proof.
  assert (Hd : forall m h0 s0 h1 s1, Q s0 ->
    dispatch_ws_message c m (h0, s0) = Some (h1, s1) -> Q s1).
  { intros m h0 s0 h1 s1 Hs. unfold dispatch_ws_message.
    repeat (case_goal; [first [by apply quiet_failed
      | unfold ws_handle_peer_register, ws_handle_peer_unregister, ws_handle_call_request,
          ws_handle_call_accept, ws_handle_call_reject, ws_handle_call_ended; quiet_case]|]).
    quiet_case. }
  intros Hs. unfold ws_receive. cbn [fst snd]. repeat case_goal; intros; simplify_eq/=; try done;
    quiet_forward; eauto using quiet_reply.
Qed.

Lemma quiet_close h s : Q s -> Q (ws_close (h, s)).
Proof.
  intros. unfold ws_close, disconnect_peer. cbn [fst snd].
  repeat case_goal; repeat first [apply quiet_limiter | apply quiet_peers]; done.
Qed.

Lemma quiet_step w w' : srv_ok (server w) /\ Q (server w) -> deploy_step w w' ->
  srv_ok (server w') /\ Q (server w').
Proof.
  intros [Ho Hq] Hstep. destruct Hstep; cbn [server].
  - split; [by eapply ok_http|]. eapply quiet_same; [done|by eapply http_same].
  - split; [by eapply ok_receive|by eapply quiet_receive].
  - split; [by apply ok_close|by apply quiet_close].
  - split; [by apply ok_set_limiter|by apply quiet_limiter].
Qed.
End Facts.

#[export] Instance sample_lower_laws : LowercaseLaws DeploySample.lower.
Proof. by split. Qed.

#[export] Instance sample_iter_laws : LruIterLaws DeploySample.iter.
Proof. by split. Qed.

(** The lookup by name finds a registered peer of that name, up to case, whenever there is
    one; which of several it finds depends on the order of the cache. *)
Lemma lookup_peer_correct {S : SigScheme} {L : Lru} {I : LruIter L} {IL : LruIterLaws I}
    {C : Lowercase} name s :
  match rest_lookup_peer name s with
  | Ok r => exists k e, lru_map (peers s) !! k = Some e /\ lk_peer_id r = pi_peer_id (pe_info e) /\
      lk_display_name r = pi_display_name (pe_info e) /\
      to_lowercase (lk_display_name r) = to_lowercase name
  | Err e => e = Sig_UnknownPeer name /\
      forall k e, lru_map (peers s) !! k = Some e ->
        to_lowercase (pi_display_name (pe_info e)) <> to_lowercase name
  end.
Proof.
  unfold rest_lookup_peer. destruct (list_find _ _) as [[i [k e]]|] eqn:E.
  - apply list_find_Some in E as (Hi & He & _). apply list_elem_of_lookup_2 in Hi.
    rewrite iter_entries in Hi. apply elem_of_map_to_list in Hi. by exists k, e.
  - split; [done|]. apply list_find_None in E. intros k e Hk. rewrite Forall_forall in E.
    apply (E (k, e)). rewrite iter_entries. by apply elem_of_map_to_list.
Qed.

(** C23: who may change what through HTTP.  A request is either refused by the middleware,
    leaving the server as it was, or runs as a subject: the owner of the bearer token, or
    nobody on the public routes.  It never touches calls, proxies, keys, configuration or sent
    messages; the registry of peers changes only by a registration, which keeps the session of
    a known peer and in a full registry displaces one other, or as the subject updates or
    removes its own entry. *)
Theorem http_access_control {S : SigScheme} {L : Lru} {LL : LruLaws L} {I : LruIter L}
    {C : Lowercase} {P : ServerProto} {J : JsonClaims} m clk addr header req s resp s' :
  srv_ok s -> http_handle m clk addr header req s = Some (resp, s') ->
  (s' = s /\ exists e, resp = Resp_Error (Sig_Unauthorized e)) \/
  exists subject,
    peers_change req subject (lru_map (peers s)) (lru_map (peers s')) /\ same_rest s s' /\
    if documented_public (request_route req) then subject = ""
    else exists tok c, header = Some (Some ("Bearer " +:+ tok)) /\
           verify_jwt (unix_secs clk) (verifying_key (srv_key s)) tok = Ok c /\ claim_sub c = subject.
Proof.
  intros Hs. unfold http_handle. pose proof (auth_subject (unix_secs clk) (srv_key s) (request_route req) header) as Ha.
  destruct (route_request (request_route req)) as [meth path]; cbn [fst snd] in Ha.
  destruct (auth_middleware _ _ _ _ _) as [auth|e] eqn:E.
  - intros Hr. right. exists auth. destruct (route_change _ _ _ _ _ _ _ _ Hs Hr) as [Hp Hq].
    split; [done|]. split; [done|]. by apply Ha.
  - intros [= <- <-]. left. split; [done|]. by apply auth_refuses in E as [? ->]; eexists.
Qed.

Lemma http_access_control_witness :
  peers_change (Rq_UnregisterPeer "a") "a" (lru_map (peers DeploySample.server))
    (lru_map (peers DeploySample.after)) /\
  lru_map (peers DeploySample.after) !! "a" = None.
Proof.
  split; [|vm_compute; reflexivity].
  destruct (http_access_control (S := ToySig.scheme) (L := ListLru.ops) (LL := list_lru_laws)
    (I := DeploySample.iter) (C := DeploySample.lower) (P := Sample.proto) (J := ToyJson.json)
    Checked {| instant := 0; unix_secs := 2000 |} DeploySample.addr DeploySample.header
    (Rq_UnregisterPeer "a") DeploySample.server (Resp_NoContent 204) DeploySample.after)
    as [[_ [e He]]|(subject & Hp & _ & tok & c & Ht & Hv & Hc)].
  - exact sample_server_ok.
  - assert (Ha : auth_middleware (S := ToySig.scheme) (J := ToyJson.json) 2000 "k"%char "/v1/peers/a"
      DELETE DeploySample.header = Ok "a") by (vm_compute; reflexivity).
    unfold http_handle. cbn [request_route route_request unix_secs].
    change (srv_key DeploySample.server) with "k"%char. change ("/v1/peers/" +:+ "a") with "/v1/peers/a".
    rewrite Ha. reflexivity.
  - discriminate He.
  - injection Ht as Ht. change (JwtSample.token = tok) in Ht. subst tok. vm_compute in Hv. injection Hv as <-. cbn in Hc. subst subject. exact Hp.
Defined.

(** C24: the deployed server never arranges a relay.  From the state in which the binary starts,
    through every sequence of requests, frames, session ends and cleanups, the registries keep
    their invariant, but no proxy ever appears: arranging a relay always fails for want of
    one, no relay message is ever sent, the list of proxies and the list of DHT bootstrap nodes
    that clients are given are empty, and the key and configuration never change. *)
Theorem deployed_server_never_relays {S : SigScheme} {L : Lru} {LL : LruLaws L} {I : LruIter L}
    {C : Lowercase} {P : ServerProto} {J : JsonClaims} (w : World S L) :
  reachable deploy_init deploy_step w ->
  srv_ok (server w) /\ (exists key, quiet key (server w)) /\
  (forall co clk id a b,
     send_relay_needed co clk id a b (server w) = (Err Sig_MasqueNoProxy, server w)) /\
  rest_get_proxies (server w) = [] /\ rest_dht_bootstrap (server w) = [].
Proof.
  intros Hr.
  assert (exists key, srv_ok (server w) /\ quiet key (server w)) as (key & Ho & Hq).
  { induction Hr as [w0 (key & Hw & _)|w0 w1 _ (key & IH) Hstep].
    - exists key. rewrite Hw. split; [apply ok_server_new|]. by split.
    - exists key. by eapply quiet_step. }
  split; [done|]. split; [by exists key|]. split; [intros; by eapply quiet_no_relay|].
  unfold rest_get_proxies, get_proxies, rest_dht_bootstrap. by rewrite (q_proxies _ _ Hq), (q_dht _ _ Hq).
Qed.

Lemma deployed_server_never_relays_witness :
  rest_get_proxies (S := ToySig.scheme) (L := ListLru.ops) DeploySample.start = [].
Proof.
  apply (deployed_server_never_relays (S := ToySig.scheme) (L := ListLru.ops) (LL := list_lru_laws)
    (I := DeploySample.iter) (C := DeploySample.lower) (P := Sample.proto) (J := ToyJson.json)
    {| server := DeploySample.start; sessions := ∅ |}).
  apply reachable_init. exists "k"%char. split; reflexivity.
Defined.
