(* ===== verification/HttpClient.v ===== *)
(** * The HTTP client of the signaling server

    [voip-client/src/signaling_client.rs]: the two requests for lists, against the server of
    [Deployment].  [Reqwest] is the HTTP library, [SerdeJson] the printer and parser of JSON;
    a JSON value is kept as serde_json's [Value], a struct serializes to an object and a [Vec]
    to and from an array.  The decoder of one proxy record is generated code, an argument. *)

From S2P Require Import Prelude Types Config Crypto RustStr RustNet Wire RateLimit Lru.
From S2P Require Import Jwt Server Session Rest Client Deployment.

Local Open Scope Z_scope.
Local Open Scope rust_scope.

Inductive Json :=
| JNumber (n : Z)
| JString (s : string)
| JArray (l : list Json)
| JObject (fields : list (string * Json)).

Class SerdeJson := {
  json_to_vec : Json -> list Z;
  json_parse : list Z -> result string Json;
  (** the message when a value of another type is expected *)
  type_error : string -> Json -> string
}.

Class SerdeJsonLaws (J : SerdeJson) := {
  json_roundtrip j : json_parse (json_to_vec j) = Ok j
}.

(** A request with its [Authorization] header gives a status and a body, or the text of a
    transport error; the last two are the display of a status and its reason. *)
Class Reqwest := {
  http_get : string -> string -> result string (Z * list Z);
  status_text : Z -> string;
  canonical_reason : Z -> option string
}.

(** ** The client *)

Record SignalingHttpClient := { hc_base_url : string; hc_jwt_token : string }.

(** [trim_end_matches('/')]. *)
Fixpoint trim_front (c : Z) (l : list Z) : list Z :=
  match l with b :: l' => if b =? c then trim_front c l' else l | [] => [] end.

Definition trim_end_matches (c : Z) (s : string) : string :=
  string_of_bytes (reverse (trim_front c (reverse (as_bytes s)))).

Definition http_client_new (base_url jwt_token : string) : SignalingHttpClient :=
  {| hc_base_url := trim_end_matches 47 base_url; hc_jwt_token := jwt_token |}.

(** [serde]'s [Vec<T>]: an array, each element by the decoder of [T]. *)
Fixpoint from_elements {T} (decode : Json -> result string T) (l : list Json) : result string (list T) :=
  match l with
  | [] => Ok []
  | j :: l' =>
      let? x := decode j in
      let? xs := from_elements decode l' in
      Ok (x :: xs)
  end.

Definition from_array {SJ : SerdeJson} {T} (decode : Json -> result string T) (j : Json)
    : result string (list T) :=
  match j with JArray l => from_elements decode l | _ => Err (type_error "a sequence" j) end.

Definition from_string {SJ : SerdeJson} (j : Json) : result string string :=
  match j with JString s => Ok s | _ => Err (type_error "a string" j) end.

Definition is_success (status : Z) : bool := (200 <=? status) && (status <? 300).

Section Client.
Context {R : Reqwest} {SJ : SerdeJson} {Record_ : Type} (decode_record : Json -> result string Record_).

Definition client_get_proxies (c : SignalingHttpClient) : result ClientError (list Record_) :=
  let url := hc_base_url c +:+ "/v1/proxies" in
  let? (status, body) := map_err (fun e => Client_SignalingError ("proxy fetch: " +:+ e))
                           (http_get url ("Bearer " +:+ hc_jwt_token c)) in
  if negb (is_success status) then
    Err (Client_SignalingError ("proxy fetch returned " +:+ status_text status +:+ ": " +:+
                                default "unknown" (canonical_reason status)))
  else map_err (fun e => Client_SignalingError ("proxy decode: " +:+ e))
         (let? j := json_parse body in from_array decode_record j).

Definition client_get_dht_bootstrap (c : SignalingHttpClient) : result ClientError (list string) :=
  let url := hc_base_url c +:+ "/v1/dht/bootstrap" in
  let? (status, body) := map_err (fun e => Client_SignalingError ("DHT bootstrap fetch: " +:+ e))
                           (http_get url ("Bearer " +:+ hc_jwt_token c)) in
  if negb (is_success status) then
    Err (Client_SignalingError ("DHT bootstrap returned " +:+ status_text status +:+ ": " +:+
                                default "unknown" (canonical_reason status)))
  else map_err (fun e => Client_SignalingError ("DHT bootstrap decode: " +:+ e))
         (let? j := json_parse body in from_array from_string j).
End Client.

(** ** What the server writes *)

Definition error_json (e : SignalingError) : Json :=
  JObject [("code", JNumber (sig_code e)); ("message", JString (sig_to_string e))].

Definition proxy_entry_json (p : ProxyEntryResponse) : Json :=
  JObject [("node_id", JString (per_node_id p)); ("proxy_url", JString (per_proxy_url p));
           ("capacity", JNumber (per_capacity p)); ("region", JString (per_region p));
           ("latency_hint_ms", JNumber (per_latency_hint_ms p))].

(** Status and body of the answers to the two requests. *)
Definition list_answer (r : Response) : option (Z * Json) :=
  match r with
  | Resp_Error e => Some (http_status e, error_json e)
  | Resp_Proxies l => Some (200, JObject [("proxies", JArray (map proxy_entry_json l))])
  | Resp_DhtBootstrap nodes => Some (200, JObject [("nodes", JArray (map JString nodes))])
  | _ => None
  end.

(** The HTTP library delivers the answer of server [s], at the address [base], to a request
    with the given route and bearer token. *)
Definition delivers {S : SigScheme} {L : Lru} {I : LruIter L} {C : Lowercase} {P : ServerProto}
    {J : JsonClaims} {R : Reqwest} {SJ : SerdeJson} (m : overflow_mode) (clk : Clock) (s : Server)
    (url auth : string) (req : Request) : Prop :=
  exists addr resp s' status body,
    http_handle m clk addr (Some (Some auth)) req s = Some (resp, s') /\
    list_answer resp = Some (status, body) /\
    http_get url auth = Ok (status, json_to_vec body).

(** ** A codec and a network for the witness *)

Fixpoint to_tree (j : Json) : gen_tree (Z + string) :=
  match j with
  | JNumber n => GenNode 0 [GenLeaf (inl n)]
  | JString s => GenNode 1 [GenLeaf (inr s)]
  | JArray l => GenNode 2 (map to_tree l)
  | JObject l => GenNode 3 (map (fun kv => GenNode 4 [GenLeaf (inr kv.1); to_tree kv.2]) l)
  end.

Fixpoint of_tree (t : gen_tree (Z + string)) : Json :=
  match t with
  | GenNode 0 [GenLeaf (inl n)] => JNumber n
  | GenNode 1 [GenLeaf (inr s)] => JString s
  | GenNode 2 l => JArray (map of_tree l)
  | GenNode 3 l => JObject (map (fun t => match t with
      | GenNode 4 [GenLeaf (inr k); v] => (k, of_tree v)
      | _ => ("", JArray [])
      end) l)
  | _ => JArray []
  end.

Lemma of_to_tree : forall j, of_tree (to_tree j) = j.
Proof.
  fix IH 1. intros [n|s|l|l]; cbn; try done.
  - f_equal. induction l as [|j l IHl]; cbn; [done|]. by rewrite IH, IHl.
  - f_equal. induction l as [|[k v] l IHl]; cbn; [done|]. by rewrite IH, IHl.
Qed.

#[export] Instance Json_eq_dec : EqDecision Json.
Proof.
  intros x y. destruct (decide (to_tree x = to_tree y)) as [E|E]; [left|right].
  - by rewrite <- (of_to_tree x), <- (of_to_tree y), E.
  - by intros ->.
Defined.

#[export] Instance Json_countable : Countable Json := inj_countable' to_tree of_tree of_to_tree.

Module HttpSample.
#[export] Instance serde : SerdeJson := {|
  json_to_vec j := ToyJson.digits (encode j);
  json_parse l := match decode (ToyJson.undigits l) with Some j => Ok j | None => Err "syntax" end;
  type_error expected _ := "invalid type, expected " +:+ expected
|}.

Definition clk : Clock := {| instant := 0; unix_secs := 2000 |}.

(** The sample server behind any address. *)
Definition answer (auth : string) (req : Request) : result string (Z * list Z) :=
  match http_handle (S := ToySig.scheme) (L := ListLru.ops) (I := DeploySample.iter)
          (C := DeploySample.lower) (P := Sample.proto) (J := ToyJson.json) Checked clk
          DeploySample.addr (Some (Some auth)) req DeploySample.server with
  | Some (resp, _) =>
      match list_answer resp with
      | Some (status, body) => Ok (status, json_to_vec body)
      | None => Err "reset"
      end
  | None => Err "reset"
  end.

#[export] Instance reqwest : Reqwest := {|
  http_get url auth :=
    answer auth (if bool_decide (url = "https://s/v1/proxies") then Rq_Proxies else Rq_DhtBootstrap);
  status_text n := string_of_bytes (decimal n);
  canonical_reason _ := None
|}.

Definition client : SignalingHttpClient := http_client_new "https://s/" JwtSample.token.
End HttpSample.

(** ** Facts *)

#[export] Instance sample_serde_laws : SerdeJsonLaws HttpSample.serde.
Proof. split. intros j. cbn. by rewrite toy_undigits, decode_encode. Qed.

Lemma trim_front_stops c l : head (trim_front c l) <> Some c.
Proof.
  induction l as [|b l IH]; cbn; [done|]. case_goal; [done|]. bool_to_prop. cbn. congruence.
Qed.

(** No trailing slash is left on the base address. *)
Lemma base_url_trimmed base token :
  last (as_bytes (hc_base_url (http_client_new base token))) <> Some 47.
Proof.
  cbn. unfold trim_end_matches. rewrite as_bytes_of_bytes.
  - rewrite <- head_reverse, reverse_involutive. apply trim_front_stops.
  - apply Forall_reverse. pose proof (as_bytes_ok base) as H. apply Forall_reverse in H.
    induction H as [|b l Hb Hl IH]; cbn; [constructor|]. case_goal; [done|by constructor].
Qed.

(** What the server answers to the two requests is never an array. *)
Lemma list_answer_object resp status body :
  list_answer resp = Some (status, body) -> exists fields, body = JObject fields.
Proof. destruct resp; cbn; intros [= <- <-]; by eexists. Qed.

(** The client reads neither list.  Whatever the state of the server and whatever the
    token, the requests for the proxies and for the DHT bootstrap nodes end in an error at the
    client: the server wraps both lists in an object, or answers with an error, and the client
    expects a bare array.  A list the server holds never arrives. *)
Lemma client_reads_no_list {S : SigScheme} {L : Lru} {I : LruIter L} {C : Lowercase}
    {P : ServerProto} {J : JsonClaims} {R : Reqwest} {SJ : SerdeJson} {SL : SerdeJsonLaws SJ}
    {T} (decode_record : Json -> result string T) m clk s c :
  delivers m clk s (hc_base_url c +:+ "/v1/proxies") ("Bearer " +:+ hc_jwt_token c) Rq_Proxies ->
  delivers m clk s (hc_base_url c +:+ "/v1/dht/bootstrap") ("Bearer " +:+ hc_jwt_token c)
    Rq_DhtBootstrap ->
  (exists e, client_get_proxies decode_record c = Err (Client_SignalingError e)) /\
  (exists e, client_get_dht_bootstrap c = Err (Client_SignalingError e)).
Proof.
  intros (a1 & r1 & s1 & st1 & b1 & H1 & L1 & G1) (a2 & r2 & s2 & st2 & b2 & H2 & L2 & G2).
  destruct (list_answer_object _ _ _ L1) as [f1 ->].
  destruct (list_answer_object _ _ _ L2) as [f2 ->].
  unfold client_get_proxies, client_get_dht_bootstrap. rewrite G1, G2.
  cbn [map_err result_bind]. split; case_goal; try by eexists.
  - rewrite json_roundtrip. by eexists.
  - rewrite json_roundtrip. by eexists.
Qed.

Lemma client_reads_no_list_witness :
  exists e, client_get_proxies (R := HttpSample.reqwest) (SJ := HttpSample.serde)
              (from_string (SJ := HttpSample.serde)) HttpSample.client = Err (Client_SignalingError e).
Proof.
  apply (client_reads_no_list (S := ToySig.scheme) (L := ListLru.ops) (I := DeploySample.iter)
    (C := DeploySample.lower) (P := Sample.proto) (J := ToyJson.json) (R := HttpSample.reqwest)
    (SJ := HttpSample.serde) (SL := sample_serde_laws)
    (from_string (SJ := HttpSample.serde)) Checked HttpSample.clk DeploySample.server HttpSample.client).
  - assert (Ha : auth_middleware (S := ToySig.scheme) (J := ToyJson.json) 2000 "k"%char "/v1/proxies"
      GET DeploySample.header = Ok "a") by (vm_compute; reflexivity).
    assert (Hh : http_handle (S := ToySig.scheme) (L := ListLru.ops) (I := DeploySample.iter)
      (C := DeploySample.lower) (P := Sample.proto) (J := ToyJson.json) Checked HttpSample.clk
      DeploySample.addr DeploySample.header Rq_Proxies DeploySample.server
      = Some (Resp_Proxies [], DeploySample.server)).
    { unfold http_handle. cbn [request_route route_request unix_secs HttpSample.clk].
      change (srv_key DeploySample.server) with "k"%char. rewrite Ha. reflexivity. }
    exists DeploySample.addr, (Resp_Proxies []), DeploySample.server, 200,
      (JObject [("proxies", JArray [])]).
    split; [exact Hh|]. split; [reflexivity|].
    unfold http_get, HttpSample.reqwest, HttpSample.answer.
    change (Some (Some ("Bearer " +:+ hc_jwt_token HttpSample.client))) with DeploySample.header.
    rewrite bool_decide_eq_true_2 by reflexivity. rewrite Hh. reflexivity.
  - assert (Ha : auth_middleware (S := ToySig.scheme) (J := ToyJson.json) 2000 "k"%char
      "/v1/dht/bootstrap" GET DeploySample.header = Ok "a") by (vm_compute; reflexivity).
    assert (Hh : http_handle (S := ToySig.scheme) (L := ListLru.ops) (I := DeploySample.iter)
      (C := DeploySample.lower) (P := Sample.proto) (J := ToyJson.json) Checked HttpSample.clk
      DeploySample.addr DeploySample.header Rq_DhtBootstrap DeploySample.server
      = Some (Resp_DhtBootstrap [], DeploySample.server)).
    { unfold http_handle. cbn [request_route route_request unix_secs HttpSample.clk].
      change (srv_key DeploySample.server) with "k"%char. rewrite Ha. reflexivity. }
    exists DeploySample.addr, (Resp_DhtBootstrap []), DeploySample.server, 200,
      (JObject [("nodes", JArray [])]).
    split; [exact Hh|]. split; [reflexivity|].
    unfold http_get, HttpSample.reqwest, HttpSample.answer.
    change (Some (Some ("Bearer " +:+ hc_jwt_token HttpSample.client))) with DeploySample.header.
    rewrite bool_decide_eq_false_2 by discriminate. rewrite Hh. reflexivity.
Defined.
