(* ===== verification/ProxyServer.v ===== *)
(** * The proxy server and its certificate

    [voip-client/src/proxy.rs]: creating the proxy, its accept operations and its life, and
    the certificate manager.  [Sockets] is what the listeners give; the generator of
    certificates and the TLS library are the classes of [Tls]. *)

From S2P Require Import Prelude Types Crypto RustStr RustNet Tls ProxyToken Proxy DhtRecord.

Local Open Scope Z_scope.
Local Open Scope rust_scope.

(** ** The listeners *)

Section Server.
Context {S : SigScheme} {Conn : Type}.

(** Binding the two listeners. *)
Class Sockets := {
  quic_bind : SocketAddr -> result string unit;
  tcp_bind : SocketAddr -> result string unit
}.

Record ProxyServer := {
  ps_proxy : MasqueProxy Conn;
  ps_verifying_key : VerifyingKey
}.

Definition proxy_new {K : Sockets} (quic_addr tcp_addr : SocketAddr) (lim : ProxyLimits)
    (token_verifier : VerifyingKey) : result ProxyError ProxyServer :=
  let? _ := map_err (fun e => ProxyQuicError ("QUIC bind: " +:+ e)) (quic_bind quic_addr) in
  let? _ := map_err (fun e => ProxyIoError ("TCP bind: " +:+ e)) (tcp_bind tcp_addr) in
  Ok {| ps_proxy := {| sessions := ∅; limits := lim |}; ps_verifying_key := token_verifier |}.

(** [incoming] is what the endpoint gives: closed, or a connection attempt with its outcome.
    The request and its token are not read, and no session is created. *)
Definition accept_quic_connection (incoming : option (result string Conn)) (p : ProxyServer)
    : result ProxyError unit * ProxyServer :=
  match incoming with
  | None => (Err (ProxyQuicError "QUIC endpoint closed"), p)
  | Some (Err e) => (Err (ProxyQuicError ("QUIC accept: " +:+ e)), p)
  | Some (Ok _) => (Ok tt, p)
  end.

(** The stream is dropped. *)
Definition accept_tcp_connection (accepted : result string Conn) (p : ProxyServer)
    : result ProxyError unit * ProxyServer :=
  match accepted with
  | Err e => (Err (ProxyIoError ("TCP accept: " +:+ e)), p)
  | Ok _ => (Ok tt, p)
  end.

(** The operations of the proxy that take it mutably. *)
Inductive proxy_step : ProxyServer -> ProxyServer -> Prop :=
| px_accept_quic incoming p : proxy_step p (accept_quic_connection incoming p).2
| px_accept_tcp accepted p : proxy_step p (accept_tcp_connection accepted p).2
| px_cleanup now p :
    proxy_step p {| ps_proxy := (cleanup_expired_sessions now (ps_proxy p)).1;
                    ps_verifying_key := ps_verifying_key p |}.
End Server.

Arguments ProxyServer {S} Conn.
Arguments Sockets : clear implicits.

(** ** Certificates *)

Inductive CertStrategy :=
| LetsEncrypt (domain email : string)
| SelfSigned
| CloudflareTunnel.

Record CertManager := {
  cm_strategy : CertStrategy;
  cm_cert : option (list Z);
  cm_key : option (list Z)
}.

Definition cert_manager_new (strategy : CertStrategy) : CertManager :=
  {| cm_strategy := strategy; cm_cert := None; cm_key := None |}.

Section Certificates.
Context {G : Rcgen} {T : Rustls} {H : Sha256}.

Definition generate_self_signed_cert : result CertError (list Z * list Z) :=
  let? _ := map_err RcgenError (rcgen_params []) in
  let? key := map_err RcgenError rcgen_key_pair in
  let? cert := map_err SelfSignedGenerationFailed
                 (rcgen_self_signed [] (Some [("CN", "Three Pillars VoIP MASQUE Proxy");
                                              ("O", "Three Pillars VoIP")]) key) in
  Ok (cert, key).

Definition provision (c : CertManager) : result CertError unit * CertManager :=
  match cm_strategy c with
  | LetsEncrypt _ _ =>
      (Err (AcmeChallengeFailed ("ACME provisioning requires a running HTTP-01 challenge server; " +:+
                                 "use SelfSigned for development")), c)
  | SelfSigned =>
      match generate_self_signed_cert with
      | Err e => (Err e, c)
      | Ok (cert, key) =>
          (Ok tt, {| cm_strategy := cm_strategy c; cm_cert := Some cert; cm_key := Some key |})
      end
  | CloudflareTunnel => (Ok tt, c)
  end.

Definition server_config (c : CertManager) : result CertError QuinnServerConfig :=
  let? cert := ok_or (cm_cert c) NotProvisioned in
  let? key := ok_or (cm_key c) NotProvisioned in
  let? _ := map_err TlsConfigError (rustls_single_cert [cert] key) in
  let? _ := map_err ServerConfigError (rustls_quic [cert] key) in
  Ok {| qs_chain := [cert]; qs_key := key; qs_datagram_buffers := Some (Some 65536, 65536) |}.

Definition is_provisioned (c : CertManager) : bool :=
  match cm_cert c, cm_key c with Some _, Some _ => true | _, _ => false end.

(** [{:02x}] of a byte. *)
Definition hex2 (b : Z) : list Z := [hex_digit_char (b / 16); hex_digit_char (b mod 16)].

Definition cert_fingerprint (c : CertManager) : option string :=
  option_map (fun cert => string_of_bytes (concat (map hex2 (sha256 cert)))) (cm_cert c).
End Certificates.

(** ** Messages

    The [Display] texts of the error types, which [thiserror] derives. *)

Definition dec (n : Z) : string := string_of_bytes (decimal n).

Definition ProxyTokenError_display (e : ProxyTokenError) : string :=
  match e with
  | TokenInvalidSignature => "Invalid ProxyToken signature"
  | TokenExpired expires_at => "ProxyToken expired at " +:+ dec expires_at
  | TokenBase64DecodeError s => "Base64 decode error: " +:+ s
  | TokenSerializationError s => "Token serialization error: " +:+ s
  | TokenDeserializationError s => "Token deserialization error: " +:+ s
  | TokenMissingField s => "Missing field: " +:+ s
  | TokenSigningError s => "Ed25519 signing error: " +:+ s
  | TokenVerificationError s => "Ed25519 verification error: " +:+ s
  end.

Definition CertError_display (e : CertError) : string :=
  match e with
  | AcmeChallengeFailed s => "ACME challenge failed: " +:+ s
  | NotProvisioned => "Certificate not provisioned"
  | SelfSignedGenerationFailed s => "Self-signed cert generation failed: " +:+ s
  | InvalidDomain s => "Invalid domain: " +:+ s
  | TlsConfigError s => "TLS config error: " +:+ s
  | CertIoError s => "Certificate I/O error: " +:+ s
  | ServerConfigError s => "Server config error: " +:+ s
  | RcgenError s => "rcgen error: " +:+ s
  end.

Definition ProxyError_display (e : ProxyError) : string :=
  match e with
  | CapacityExceeded max active =>
      "Session capacity exceeded: max " +:+ dec max +:+ ", active " +:+ dec active
  | DurationExceeded limit actual =>
      "Session duration exceeded: limit " +:+ dec limit +:+ "s, actual " +:+ dec actual +:+ "s"
  | DatagramRateExceeded max current =>
      "Datagram rate exceeded: max " +:+ dec max +:+ "/s, current " +:+ dec current +:+ "/s"
  | DatagramSizeExceeded max got =>
      "Datagram too large: max " +:+ dec max +:+ " bytes, got " +:+ dec got +:+ " bytes"
  | BandwidthExceeded max current =>
      "Bandwidth exceeded: max " +:+ dec max +:+ " bps, current " +:+ dec current +:+ " bps"
  | PortBlocked port => "Target port " +:+ dec port +:+ " is not allowed"
  | TokenValidationFailed s => "ProxyToken validation failed: " +:+ s
  | SessionNotFound s => "Session not found: " +:+ s
  | ProxyIoError s => "Proxy I/O error: " +:+ s
  | ProxyQuicError s => "QUIC endpoint error: " +:+ s
  | ProxyCertError e => "Certificate error: " +:+ CertError_display e
  | ProxyBadToken e => "Token error: " +:+ ProxyTokenError_display e
  end.

(** ** Samples *)

Module ProxyServerSample.
#[export] Instance sockets : Sockets := {| quic_bind _ := Ok tt; tcp_bind _ := Ok tt |}.

#[export] Instance sha : Sha256 := fun l => take 32 (l ++ replicate 32 0).

Definition addr : SocketAddr := V6 [0; 0; 0; 0; 0; 0; 0; 0] 0 443.

Definition key : @VerifyingKey ToySig.scheme := "k"%char.

Definition server : ProxyServer (S := ToySig.scheme) unit :=
  {| ps_proxy := {| sessions := ∅; limits := ProxyLimits_default |}; ps_verifying_key := key |}.
End ProxyServerSample.

(** ** Facts *)

Lemma step_keeps_empty {S : SigScheme} {Conn} (p p' : ProxyServer Conn) :
  sessions (ps_proxy p) = ∅ -> proxy_step p p' ->
  sessions (ps_proxy p') = ∅ /\ limits (ps_proxy p') = limits (ps_proxy p).
Proof.
  intros He Hstep. destruct Hstep as [[[c|e]|] p|[c|e] p|now p]; cbn; try done.
  by rewrite He, map_filter_empty.
Qed.

Lemma hex_digit_range d : 0 <= d < 16 ->
  48 <= hex_digit_char d <= 57 \/ 97 <= hex_digit_char d <= 102.
Proof. intros Hd. unfold hex_digit_char. case_goal; bool_to_prop; lia. Qed.

Lemma hex2_length l : length (concat (map hex2 l)) = (2 * length l)%nat.
Proof. induction l as [|b l IH]; cbn [map concat]; [done|]. rewrite length_app, IH. cbn. lia. Qed.

(** The fingerprint is 64 lower-case hexadecimal digits. *)
Lemma fingerprint_form {H : Sha256} c fp :
  (forall l, length (sha256 l) = 32%nat /\ Forall (fun b => 0 <= b < 256) (sha256 l)) ->
  cert_fingerprint c = Some fp ->
  str_len fp = 64 /\
  Forall (fun b => 48 <= b <= 57 \/ 97 <= b <= 102) (as_bytes fp).
Proof.
  intros Hsha. unfold cert_fingerprint. destruct (cm_cert c) as [cert|]; [|done]. intros [= <-].
  destruct (Hsha cert) as [Hlen Hb].
  assert (Hall : Forall (fun b => 48 <= b <= 57 \/ 97 <= b <= 102) (concat (map hex2 (sha256 cert)))).
  { apply Forall_concat, Forall_fmap. eapply Forall_impl; [exact Hb|]. intros b Hr. cbn in Hr |- *.
    pose proof (Z.mod_pos_bound b 16). pose proof (Z.div_pos b 16).
    pose proof (Z.div_lt_upper_bound b 16 16).
    repeat (apply Forall_cons; split); [apply hex_digit_range; lia..|constructor]. }
  assert (Hbytes : as_bytes (string_of_bytes (concat (map hex2 (sha256 cert)))) =
                   concat (map hex2 (sha256 cert))).
  { apply as_bytes_of_bytes. eapply Forall_impl; [exact Hall|]. unfold byte_ok. simpl. lia. }
  unfold str_len. rewrite Hbytes. split; [|done]. rewrite hex2_length. lia.
Qed.

(** ** Properties *)

(** The proxy relays nothing.  From its creation, through every sequence of accepted
    connections and cleanups, it has no session: accepting a connection neither reads a token
    nor creates one.  So it always reports room (unless its limit is zero) and every datagram
    of every call is refused. *)
Lemma proxy_never_opens_session {S : SigScheme} {Conn} {K : Sockets} quic_addr tcp_addr lim vk
    (p0 p : ProxyServer Conn) :
  proxy_new quic_addr tcp_addr lim vk = Ok p0 ->
  reachable (fun q => q = p0) proxy_step p ->
  active_session_count (ps_proxy p) = 0 /\
  has_capacity (ps_proxy p) = (0 <? max_sessions lim) /\
  forall now call_id size,
    check_datagram now call_id size (ps_proxy p) =
      Err (if max_datagram_size lim <? size then DatagramSizeExceeded (max_datagram_size lim) size
           else SessionNotFound call_id).
Proof.
  intros Hnew Hr.
  assert (sessions (ps_proxy p) = ∅ /\ limits (ps_proxy p) = lim) as [He Hl].
  { revert p Hr. apply (reachable_invariant _ _ (fun q : ProxyServer Conn =>
      sessions (ps_proxy q) = ∅ /\ limits (ps_proxy q) = lim)).
    - intros q ->. unfold proxy_new in Hnew. destruct (quic_bind _), (tcp_bind _); try done.
      by injection Hnew as <-.
    - intros q q' [He Hl] Hstep. rewrite <- Hl. by apply step_keeps_empty. }
  assert (active_session_count (ps_proxy p) = 0) as Hc.
  { unfold active_session_count. by rewrite He, map_size_empty. }
  split; [done|]. split; [unfold has_capacity; by rewrite Hc, Hl|].
  intros now call_id size. unfold check_datagram. rewrite Hl, He, lookup_empty. by case_goal.
Qed.

Lemma proxy_never_opens_session_witness :
  check_datagram 5 "call" 100
    (ps_proxy (accept_quic_connection (Some (Ok tt)) ProxyServerSample.server).2) =
  Err (SessionNotFound "call").
Proof.
  apply (proxy_never_opens_session (S := ToySig.scheme) (Conn := unit) (K := ProxyServerSample.sockets)
    ProxyServerSample.addr ProxyServerSample.addr ProxyLimits_default ProxyServerSample.key
    ProxyServerSample.server).
  - reflexivity.
  - eapply reachable_step; [apply reachable_init; reflexivity|]. apply px_accept_quic.
Defined.

(** Only the self-signed strategy provides a certificate.  Provisioning it succeeds exactly
    when the generator does, and the configuration then serves that certificate and key; the
    ACME strategy always fails; the tunnel strategy reports success and leaves nothing to
    serve. *)
Lemma certificate_strategies {G : Rcgen} {T : Rustls} strategy c r c' :
  c = cert_manager_new strategy -> provision c = (r, c') ->
  match strategy with
  | LetsEncrypt _ _ => c' = c /\ exists e, r = Err (AcmeChallengeFailed e)
  | CloudflareTunnel => r = Ok tt /\ is_provisioned c' = false /\ server_config c' = Err NotProvisioned
  | SelfSigned =>
      match generate_self_signed_cert with
      | Ok (cert, key) => r = Ok tt /\ is_provisioned c' = true /\
          forall cfg, server_config c' = Ok cfg -> qs_chain cfg = [cert] /\ qs_key cfg = key
      | Err e => r = Err e /\ c' = c
      end
  end.
Proof.
  intros ->. unfold provision. cbn [cm_strategy cert_manager_new].
  destruct strategy; [intros [= <- <-]; split; [done|by eexists]| |by intros [= <- <-]].
  destruct generate_self_signed_cert as [[cert key]|e]; intros [= <- <-]; [|done].
  split; [done|]. split; [done|]. unfold server_config. cbn [cm_cert cm_key ok_or result_bind].
  intros cfg. destruct (rustls_single_cert _ _); [|done]. cbn.
  destruct (rustls_quic _ _); [|done]. cbn. by intros [= <-].
Qed.
