(* ===== verification/SessionTasks.v ===== *)
(** * The two tasks of a WebSocket session

    [handle_ws_connection] of [voip-signaling/src/session.rs]: the task that forwards the
    session's channel to the socket and the loop that receives from it run side by side; the
    one that ends first takes the peer offline, under a flag that both exchange.  The handlers
    of the frames are those of [Session]. *)

From S2P Require Import Prelude Types Config Crypto Wire RateLimit Lru Server Session.

Local Open Scope Z_scope.
Local Open Scope rust_scope.

Section Tasks.
Context {S : SigScheme} {L : Lru} {P : ServerProto}.

Record WsSession := {
  wt_chan : Z;
  wt_holder : option string;
  wt_disconnected : bool;
  wt_forwarding : bool;
  wt_receiving : bool;
  wt_deadline : Z;
  (** the peers this session has taken offline *)
  wt_cleaned : list string
}.

(** The idle timeout in the clock's unit. *)
Definition idle_timeout (s : Server) : Z := ws_idle_timeout_secs (srv_config s) * NS_PER_SEC.

Definition ws_start (chan : Z) (peer_id : string) (now : Z) (s : Server) : WsSession := {|
  wt_chan := chan; wt_holder := Some peer_id; wt_disconnected := false; wt_forwarding := true;
  wt_receiving := true; wt_deadline := now + idle_timeout s; wt_cleaned := []
|}.

(** The end of either task: [compare_exchange] lets the first one through. *)
Definition cleanup (w : WsSession) (s : Server) : WsSession * Server :=
  if wt_disconnected w then (w, s)
  else
    ({| wt_chan := wt_chan w; wt_holder := wt_holder w; wt_disconnected := true;
        wt_forwarding := wt_forwarding w; wt_receiving := wt_receiving w;
        wt_deadline := wt_deadline w;
        wt_cleaned := wt_cleaned w ++ match wt_holder w with Some p => [p] | None => [] end |},
     match wt_holder w with Some p => disconnect_peer p s | None => s end).

Definition after_frame (holder : option string) (deadline : Z) (w : WsSession) : WsSession := {|
  wt_chan := wt_chan w; wt_holder := holder; wt_disconnected := wt_disconnected w;
  wt_forwarding := wt_forwarding w; wt_receiving := wt_receiving w; wt_deadline := deadline;
  wt_cleaned := wt_cleaned w
|}.

Definition stop_forwarding (w : WsSession) : WsSession := {|
  wt_chan := wt_chan w; wt_holder := wt_holder w; wt_disconnected := wt_disconnected w;
  wt_forwarding := false; wt_receiving := wt_receiving w; wt_deadline := wt_deadline w;
  wt_cleaned := wt_cleaned w
|}.

Definition stop_receiving (w : WsSession) : WsSession := {|
  wt_chan := wt_chan w; wt_holder := wt_holder w; wt_disconnected := wt_disconnected w;
  wt_forwarding := wt_forwarding w; wt_receiving := false; wt_deadline := wt_deadline w;
  wt_cleaned := wt_cleaned w
|}.

(** What can happen: a binary frame, which resets the timer before anything else; any other
    message that keeps the loop going; a close frame, a receive error or the end of the
    stream; the timer; and the end of the forwarding task, when the socket refuses a message
    or the channel closes.  The session's channel is open while the forwarding task runs. *)
Inductive ws_event : WsSession * Server -> WsSession * Server -> Prop :=
| we_binary w s c data h' s' :
    wt_receiving w = true -> tx c = wt_chan w -> chan_open c (wt_chan w) = wt_forwarding w ->
    ws_receive c data (wt_holder w, s) = Some (h', s') ->
    ws_event (w, s) (after_frame h' (instant (clock c) + idle_timeout s) w, s')
| we_other w s now :
    wt_receiving w = true ->
    ws_event (w, s) (after_frame (wt_holder w) (now + idle_timeout s) w, s)
| we_closed w s :
    wt_receiving w = true -> ws_event (w, s) (cleanup (stop_receiving w) s)
| we_idle w s now :
    wt_receiving w = true -> wt_deadline w <= now ->
    ws_event (w, s) (cleanup (stop_receiving w) s)
| we_forward_ends w s :
    wt_forwarding w = true -> ws_event (w, s) (cleanup (stop_forwarding w) s)
(** the rest of the server *)
| we_elsewhere w s s' : ws_event (w, s) (w, s').

Definition ws_begins (st : WsSession * Server) : Prop :=
  exists chan peer_id now, st.1 = ws_start chan peer_id now st.2.

(** ** Facts *)

Record ws_ok (w : WsSession) : Prop := {
  wo_flag : wt_disconnected w = negb (wt_forwarding w && wt_receiving w);
  wo_none : wt_disconnected w = false -> wt_cleaned w = [];
  wo_once : (length (wt_cleaned w) <= 1)%nat
}.

Lemma cleanup_flag w s : wt_disconnected (cleanup w s).1 = true.
Proof. unfold cleanup. by destruct (wt_disconnected w) eqn:E. Qed.

Lemma cleanup_ok w s :
  wt_forwarding w && wt_receiving w = false ->
  (wt_disconnected w = false -> wt_cleaned w = []) -> (length (wt_cleaned w) <= 1)%nat ->
  ws_ok (cleanup w s).1.
Proof.
  intros Hend Hnone Honce. unfold cleanup. destruct (wt_disconnected w) eqn:E; cbn [fst].
  - split; [by rewrite E, Hend|by rewrite E|done].
  - rewrite (Hnone eq_refl). split; cbn; [by rewrite Hend|done|]. destruct (wt_holder w); cbn; lia.
Qed.

Lemma ws_event_ok st st' : ws_ok st.1 -> ws_event st st' -> ws_ok st'.1.
Proof.
  intros Hok Hev. destruct Hev; cbn [fst] in *; destruct Hok as [Hf Hn Ho].
  - by split.
  - by split.
  - apply cleanup_ok; [apply andb_false_r|done|done].
  - apply cleanup_ok; [apply andb_false_r|done|done].
  - apply cleanup_ok; done.
  - by split.
Qed.
End Tasks.

(** A session of the small server whose socket fails, after which its client registers. *)
Module TaskSample.
Definition server : @Server ToySig.scheme ListLru.ops := Sample.server.
Definition session : WsSession := ws_start 2 "b" 0 server.
Definition failed := cleanup (stop_forwarding session) server.

(** A registration frame, on a channel that nobody reads. *)
Definition ctx : Ctx := {|
  clock := {| instant := 1000; unix_secs := 1000 |}; chan_open := fun ch => negb (ch =? 2); tx := 2;
  mode := Checked
|}.
Definition frame : list Z := [1; 0; 1].

Definition registered : session_state :=
  match ws_receive (P := Sample.proto) ctx frame (wt_holder (fst failed), snd failed) with
  | Some st => st
  | None => (None, server)
  end.

Definition again : WsSession :=
  after_frame (fst registered) (1000 + idle_timeout (snd failed)) (fst failed).

Definition closed := cleanup (stop_receiving again) (snd registered).
End TaskSample.

Section Cleanup.
Context {S : SigScheme} {L : Lru} {LL : LruLaws L} {P : ServerProto}.

(** Both tasks run. *)
Definition both_run (w : WsSession) : bool := wt_forwarding w && wt_receiving w.

Lemma disconnect_offline k (s : Server) e :
  lru_map (peers s) !! k = Some e ->
  exists e', lru_map (peers (disconnect_peer k s)) !! k = Some e' /\
    pe_sender e' = None /\ pi_status (pe_info e') = STATUS_OFFLINE.
Proof.
  intros Hk. unfold disconnect_peer. rewrite Hk. destruct (bool_decide _ && _) eqn:E; cbn.
  - apply andb_prop in E as [Hs Ho]. exists e. rewrite promote_map. split; [done|].
    apply bool_decide_eq_true in Hs. by apply Z.eqb_eq in Ho.
  - eexists. rewrite modify_map, promote_map, lookup_alter_eq, Hk. by split.
Qed.

(** The end of one task cleans up when both ran, and does nothing otherwise. *)
Lemma cleanup_step (w w1 : WsSession) (s : Server) :
  ws_ok w -> wt_holder w1 = wt_holder w -> wt_disconnected w1 = wt_disconnected w ->
  wt_cleaned w1 = wt_cleaned w ->
  let '(w', s') := cleanup w1 s in
  wt_forwarding w' = wt_forwarding w1 /\ wt_receiving w' = wt_receiving w1 /\
  (both_run w = true -> wt_cleaned w' = option_list (wt_holder w) /\
     s' = match wt_holder w with Some p => disconnect_peer p s | None => s end) /\
  (both_run w = false -> wt_cleaned w' = wt_cleaned w /\ s' = s).
Proof.
  intros [Hf Hn _] Hh Hd Hc. unfold cleanup. rewrite Hd, Hh, Hc. fold (both_run w) in Hf.
  destruct (both_run w), (wt_disconnected w); try done. rewrite Hn by done. cbn.
  split_and!; done.
Qed.

(** A step ends no task, or it ends one and cleans up. *)
Lemma ws_event_cases (w w' : WsSession) (s s' : Server) :
  ws_event (w, s) (w', s') ->
  (wt_forwarding w', wt_receiving w') = (wt_forwarding w, wt_receiving w) /\
    wt_cleaned w' = wt_cleaned w \/
  exists w1, wt_holder w1 = wt_holder w /\ wt_disconnected w1 = wt_disconnected w /\
    wt_cleaned w1 = wt_cleaned w /\ both_run w1 = false /\ cleanup w1 s = (w', s').
Proof.
  intros Hev. inversion Hev as [| |? ? Hrc Hx Hy|? ? ? Hrc Hdl Hx Hy|? ? Hfw Hx Hy|]; simplify_eq;
    try (by left); right.
  - exists (stop_receiving w). split_and!; try done. apply andb_false_r.
  - exists (stop_receiving w). split_and!; try done. apply andb_false_r.
  - by exists (stop_forwarding w).
Qed.

Lemma ws_reachable_ok st : reachable ws_begins ws_event st -> ws_ok st.1.
Proof.
  revert st. apply (reachable_invariant _ _ (fun st => ws_ok st.1)).
  - intros [w s] (chan & p & now & Hw). cbn in Hw. subst w. by split; cbn; [| |lia].
  - intros x x'. apply ws_event_ok.
Qed.
End Cleanup.

(** C31: the session takes its peer offline once, when the first of its two tasks ends.  From
    every reachable state, whatever happens next: while both tasks run no peer has been taken
    offline; the step in which the first of them ends, by a close, an error, the idle timer or
    a socket that refuses a message, disconnects exactly the peer that the session holds at
    that moment, whose entry is then offline and without a channel; the end of the other task
    leaves the server as it finds it, and no other step takes a peer offline for the session.
    So what a session registers after its socket failed is never taken back. *)
Theorem ws_cleanup_once {S : SigScheme} {L : Lru} {LL : LruLaws L} {P : ServerProto} st st' :
  reachable ws_begins ws_event st -> ws_event st st' ->
  let (w, s) := st in
  let (w', s') := st' in
  let ended := (wt_forwarding w', wt_receiving w') <> (wt_forwarding w, wt_receiving w) in
  (length (wt_cleaned w') <= 1)%nat /\
  (both_run w' = true -> wt_cleaned w' = []) /\
  (both_run w = true -> ended ->
     both_run w' = false /\ wt_cleaned w' = option_list (wt_holder w) /\
     s' = match wt_holder w with Some p => disconnect_peer p s | None => s end /\
     forall p e, wt_holder w = Some p -> lru_map (peers s) !! p = Some e ->
       exists e', lru_map (peers s') !! p = Some e' /\ pe_sender e' = None /\
         pi_status (pe_info e') = STATUS_OFFLINE) /\
  (both_run w = false -> ended -> wt_cleaned w' = wt_cleaned w /\ s' = s) /\
  (~ ended -> wt_cleaned w' = wt_cleaned w).
Proof.
  intros Hr Hev. apply ws_reachable_ok in Hr as Hok. pose proof (ws_event_ok _ _ Hok Hev) as Hok'.
  destruct st as [w s], st' as [w' s']. cbn in Hok, Hok'. destruct Hok' as [Hf' Hn' Ho']. cbv zeta.
  split; [done|]. split; [intros Hb; apply Hn'; unfold both_run in Hb; by rewrite Hf', Hb|].
  destruct (ws_event_cases _ _ _ _ Hev) as [[Hsame Hc]|(w1 & Hh & Hd & Hc & Hb & Heq)].
  - split; [by intros _ Hne|]. by split; [intros _ Hne|].
  - pose proof (cleanup_step w w1 s Hok Hh Hd Hc) as Hs. rewrite Heq in Hs.
    destruct Hs as (Hfw & Hrc & Hfirst & Hsecond).
    assert (both_run w' = false) as Hb' by (unfold both_run in *; by rewrite Hfw, Hrc).
    split_and!.
    + intros Hw _. destruct (Hfirst Hw) as [Hcl ->]. split_and!; try done.
      intros p e Hp He. rewrite Hp. by eapply disconnect_offline.
    + intros Hw _. by apply Hsecond.
    + intros Hsame. destruct (both_run w) eqn:Hw; [|by apply Hsecond].
      exfalso. apply Hsame. intros [= E1 E2]. unfold both_run in Hw, Hb'. by rewrite E1, E2, Hw in Hb'.
Qed.

(** The forwarding task of a session of peer [b] fails; its client registers again, and then
    closes: the server is left as it is, with the peer listed on a channel nobody reads. *)
Lemma ws_cleanup_once_witness :
  wt_cleaned (fst TaskSample.failed) = ["b"]%string /\
  (exists e', lru_map (peers (snd TaskSample.failed)) !! "b" = Some e' /\ pe_sender e' = None /\
     pi_status (pe_info e') = STATUS_OFFLINE) /\
  snd TaskSample.closed = snd TaskSample.registered /\
  option_map pe_sender (lru_map (peers (snd TaskSample.closed)) !! "b") = Some (Some 2).
Proof.
  assert (H0 : reachable (ws_begins (S := ToySig.scheme) (L := ListLru.ops))
    (ws_event (P := Sample.proto)) (TaskSample.session, TaskSample.server)).
  { apply reachable_init. exists 2, "b", 0. reflexivity. }
  assert (E1 : ws_event (P := Sample.proto) (TaskSample.session, TaskSample.server)
    (fst TaskSample.failed, snd TaskSample.failed)).
  { rewrite <- surjective_pairing. apply (we_forward_ends TaskSample.session TaskSample.server). reflexivity. }
  assert (Hr : ws_receive (P := Sample.proto) TaskSample.ctx TaskSample.frame
    (wt_holder (fst TaskSample.failed), snd TaskSample.failed) =
    Some (fst TaskSample.registered, snd TaskSample.registered)).
  { assert (H : option_map fst (ws_receive (P := Sample.proto) TaskSample.ctx TaskSample.frame
      (wt_holder (fst TaskSample.failed), snd TaskSample.failed)) = Some (Some "b"))
      by (vm_compute; reflexivity).
    unfold TaskSample.registered. destruct (ws_receive _ _ _) as [[h s]|]; [reflexivity|discriminate H]. }
  assert (E2 : ws_event (P := Sample.proto) (fst TaskSample.failed, snd TaskSample.failed)
    (TaskSample.again, snd TaskSample.registered)).
  { refine (we_binary _ _ TaskSample.ctx TaskSample.frame _ _ _ _ _ Hr); vm_compute; reflexivity. }
  assert (E3 : ws_event (P := Sample.proto) (TaskSample.again, snd TaskSample.registered)
    (fst TaskSample.closed, snd TaskSample.closed)).
  { rewrite <- surjective_pairing. apply (we_closed TaskSample.again). vm_compute. reflexivity. }
  pose proof (reachable_step _ _ _ _ H0 E1) as H1. pose proof (reachable_step _ _ _ _ H1 E2) as H2.
  destruct (ws_cleanup_once (LL := list_lru_laws) _ _ H0 E1) as (_ & _ & Hfirst & _).
  destruct (ws_cleanup_once (LL := list_lru_laws) _ _ H2 E3) as (_ & _ & _ & Hsecond & _).
  destruct Hfirst as (_ & Hc & _ & Hoff); [vm_compute; reflexivity|vm_compute; discriminate|].
  destruct Hsecond as [_ Hs]; [vm_compute; reflexivity|vm_compute; discriminate|].
  split; [exact Hc|]. split; [|split; [exact Hs|vm_compute; reflexivity]].
  destruct (lru_map (peers TaskSample.server) !! "b") as [e|] eqn:Ee.
  - exact (Hoff "b"%string e eq_refl Ee).
  - assert (H : option_map pe_sender (lru_map (peers TaskSample.server) !! "b") <> None)
      by (vm_compute; discriminate). rewrite Ee in H. destruct (H eq_refl).
Defined.
