(* ===== verification/Runtime.v ===== *)
(** * Tasks, locks and channels of the signaling server

    The handlers of [voip-signaling] are asynchronous: they give up control at every [await],
    where other tasks run.  This file is the machine they run on, with what tokio
    documents of the things the sources use: a lock has one owner; a bounded channel takes a
    message when it has room, makes the sender wait when it is full, and refuses it when the
    receiver has been dropped; a task that panics or is dropped gives its locks back.  The socket
    that a receiver writes to takes a message, lets the writer wait, or fails.  A task is a
    tree of the operations it performs; a step of the machine is one operation of one task, or an
    event from outside.  Which task moves is not determined. *)

From S2P Require Import Prelude Types Config Crypto Wire RateLimit Lru Server.

Local Open Scope Z_scope.
Local Open Scope rust_scope.

(** The locks that tasks take: [peers] and [calls] of [InnerState] (always for writing), the
    mutex in [RateLimiter], and the [peer_id_holder] of a session. *)
Inductive Lock := PeersLock | CallsLock | LimiterLock | HolderLock (ch : Z).

#[export] Instance Lock_eq_dec : EqDecision Lock.
Proof. solve_decision. Defined.

#[export] Instance Lock_countable : Countable Lock.
Proof.
  apply (inj_countable'
    (fun l => match l with PeersLock => inl 0 | CallsLock => inl 1 | LimiterLock => inl 2 | HolderLock ch => inr ch end)
    (fun x => match x with
              | inl n => if n =? 0 then PeersLock else if n =? 1 then CallsLock else LimiterLock
              | inr ch => HolderLock ch
              end)).
  by intros [].
Defined.

(** The tasks: the two of a session, named by its channel, and one per HTTP request. *)
Inductive Tid := RecvTask (ch : Z) | FwdTask (ch : Z) | HttpTask (n : Z).

#[export] Instance Tid_eq_dec : EqDecision Tid.
Proof. solve_decision. Defined.

#[export] Instance Tid_countable : Countable Tid.
Proof.
  apply (inj_countable'
    (fun i => match i with RecvTask ch => inl (inl ch) | FwdTask ch => inl (inr ch) | HttpTask n => inr n end)
    (fun x => match x with inl (inl ch) => RecvTask ch | inl (inr ch) => FwdTask ch | inr n => HttpTask n end)).
  by intros [].
Defined.

(** What the socket does with a message: takes it, lets the writer wait, or fails. *)
Inductive Socket := SocketReads | SocketWaits | SocketFails.

(** [SESSION_CHANNEL_CAPACITY]. *)
Definition SESSION_CHANNEL_CAPACITY : nat := Z.to_nat 256.

Section Machine.
Context {S : SigScheme} {L : Lru}.

(** What the tasks share: the state of the server, and of each session the peer it holds and
    the flag of its two tasks. *)
Record Shared := {
  srv : Server;
  holders : gmap Z (option string);
  disconnected : gmap Z bool
}.

Definition set_srv (s : Server) (x : Shared) : Shared :=
  {| srv := s; holders := holders x; disconnected := disconnected x |}.

Definition set_holder (ch : Z) (h : option string) (x : Shared) : Shared :=
  {| srv := srv x; holders := <[ch := h]> (holders x); disconnected := disconnected x |}.

(** What a task still has to do.  [Data] is code between two awaits, [Send] puts a message into
    a channel and answers whether the receiver is there, [Emit] writes to the socket, [Leave]
    breaks out of the loop of the task; [Crash] is a panic. *)
Inductive prog : Type :=
| Ret
| Crash
| Acquire (l : Lock) (k : prog)
| Release (l : Lock) (k : prog)
| Now (k : Clock -> prog)
| Data (A : Type) (f : Shared -> A * Shared) (k : A -> prog)
| Send (ch : Z) (m : FramedMessage) (k : bool -> prog)
| Emit (ch : Z) (m : FramedMessage) (k : bool -> prog)
| Leave (k : prog).
#[global] Arguments Data {A}.

Definition is_ret (p : prog) : bool := match p with Ret => true | _ => false end.

Record Task := { code : prog; looping : bool }.

Record Chan := { queue : list FramedMessage; socket : Socket }.

Record Sys := {
  shared : Shared;
  locks : gmap Lock Tid;
  chans : gmap Z Chan;
  tasks : gmap Tid Task;
  clk : Clock
}.

Definition set_task (i : Tid) (t : Task) (y : Sys) : Sys :=
  {| shared := shared y; locks := locks y; chans := chans y; tasks := <[i := t]> (tasks y); clk := clk y |}.

Definition set_locks (l : gmap Lock Tid) (y : Sys) : Sys :=
  {| shared := shared y; locks := l; chans := chans y; tasks := tasks y; clk := clk y |}.

Definition set_shared (x : Shared) (y : Sys) : Sys :=
  {| shared := x; locks := locks y; chans := chans y; tasks := tasks y; clk := clk y |}.

Definition set_chan (ch : Z) (c : Chan) (y : Sys) : Sys :=
  {| shared := shared y; locks := locks y; chans := <[ch := c]> (chans y); tasks := tasks y; clk := clk y |}.

(** The receiver of a channel belongs to the forwarding task and is dropped when that task has
    run to its end. *)
Definition rx_dropped (ch : Z) (y : Sys) : bool :=
  match tasks y !! FwdTask ch with
  | Some t => negb (looping t) && is_ret (code t)
  | None => true
  end.

(** One operation of task [i]; [None] when it has to wait. *)
Definition advance (i : Tid) (y : Sys) : option Sys :=
  let?o t := tasks y !! i in
  let go k y := Some (set_task i {| code := k; looping := looping t |} y) in
  match code t with
  | Ret => None
  | Crash =>
      Some (set_task i {| code := Ret; looping := false |}
              (set_locks (filter (fun o => o.2 <> i) (locks y)) y))
  | Acquire l k =>
      match locks y !! l with
      | None => go k (set_locks (<[l := i]> (locks y)) y)
      | Some _ => None
      end
  | Release l k =>
      if bool_decide (locks y !! l = Some i) then go k (set_locks (delete l (locks y)) y) else None
  | Now k => go (k (clk y)) y
  | Data f k => let '(a, x) := f (shared y) in go (k a) (set_shared x y)
  | Send ch m k =>
      match chans y !! ch with
      | None => go (k false) y
      | Some c =>
          if rx_dropped ch y then go (k false) y
          else if (length (queue c) <? SESSION_CHANNEL_CAPACITY)%nat then
            go (k true)
              (set_shared (set_srv (deliver ch m (srv (shared y))) (shared y))
                (set_chan ch {| queue := queue c ++ [m]; socket := socket c |} y))
          else None
      end
  | Emit ch m k =>
      match option_map socket (chans y !! ch) with
      | Some SocketReads => go (k true) y
      | Some SocketWaits => None
      | Some SocketFails | None => go (k false) y
      end
  | Leave k => Some (set_task i {| code := k; looping := false |} y)
  end.

(** A task that waits in its loop starts an iteration, or leaves the loop. *)
Definition start (i : Tid) (p : prog) (y : Sys) : option Sys :=
  let?o t := tasks y !! i in
  if looping t && is_ret (code t) then Some (set_task i {| code := p; looping := true |} y) else None.

Definition finish (i : Tid) (p : prog) (y : Sys) : option Sys :=
  let?o t := tasks y !! i in
  if looping t && is_ret (code t) then Some (set_task i {| code := p; looping := false |} y) else None.

(** A task for one request. *)
Definition spawn (i : Tid) (p : prog) (y : Sys) : option Sys :=
  match tasks y !! i with
  | None => Some (set_task i {| code := p; looping := false |} y)
  | Some _ => None
  end.

(** The next message of a channel: [rx.recv()]. *)
Definition take_message (on_message : Z -> FramedMessage -> prog) (ch : Z) (y : Sys) : option Sys :=
  let?o c := chans y !! ch in
  match queue c with
  | [] => None
  | m :: q => start (FwdTask ch) (on_message ch m) (set_chan ch {| queue := q; socket := socket c |} y)
  end.

(** Every sender of a channel is gone: the session's own, dropped when its receiving task has
    ended, and those in the registry. *)
Definition senders_gone (ch : Z) (y : Sys) : bool :=
  match tasks y !! RecvTask ch with
  | Some t => negb (looping t) && is_ret (code t)
  | None => true
  end &&
  bool_decide (map_Forall (fun _ e => pe_sender e <> Some ch) (lru_map (peers (srv (shared y))))).
End Machine.
