(* ===== verification/ServerTasks.v ===== *)
(** * The handlers of the signaling server as tasks

    [state.rs], [masque.rs], [push.rs], [session.rs] and [handlers.rs] of [voip-signaling] once
    more, this time with every await: where a lock is taken and given back, where a message
    waits for room in a channel, and what a guard is held across.  [Server], [Session] and [Rest]
    have the same functions without the gaps between their parts. *)

From S2P Require Import Prelude Types Config Crypto Wire RateLimit Lru Server Session Rest Runtime.

Local Open Scope Z_scope.
Local Open Scope rust_scope.

(** The rest of a task after an await that gives [x]. *)
Notation "'let!' x ':=' m 'in' k" := (m (fun x => k))
  (at level 200, x pattern, m at level 100, k at level 200, right associativity, only parsing) : rust_scope.
Notation "'do!' m 'in' k" := (m k)
  (at level 200, m at level 100, k at level 200, right associativity, only parsing) : rust_scope.

Section Tasks.
Context {S : SigScheme} {L : Lru} {P : ServerProto}.

Definition on_srv {A} (f : Server -> A * Server) (x : Shared) : A * Shared :=
  let '(a, s) := f (srv x) in (a, set_srv s x).

(** A guard that lives for one piece of code without awaits. *)
Definition locked {A} (l : Lock) (f : Server -> A * Server) (k : A -> prog) : prog :=
  do! Acquire l in
  let! a := Data (on_srv f) in
  do! Release l in k a.

(** ** The rate limiter *)

(** [check_call], [check_registration] and [check_ws_message]. *)
Definition task_check (a : Action) (peer_id : string) (k : bool -> prog) : prog :=
  do! Acquire LimiterLock in
  let! c := Now in
  let! r := Data (on_srv (fun s =>
      match limiter_check (instant c) peer_id a (limiter s) with
      | None => (None, s)
      | Some (r, allowed) => (Some allowed, set_limiter r s)
      end)) in
  match r with
  | None => Crash
  | Some allowed => do! Release LimiterLock in k allowed
  end.

Definition task_forget (peer_id : string) (k : prog) : prog :=
  let! _ := locked LimiterLock (fun s => (tt, set_limiter (limiter_remove_peer peer_id (limiter s)) s)) in k.

(** ** The methods of [AppState] *)

Definition task_register_peer (info : PeerInfo) (sender : option Z) (k : prog) : prog :=
  let! _ := locked PeersLock (fun s => (tt, register_peer info sender s)) in k.

Definition task_unregister_peer (peer_id : string) (k : prog) : prog :=
  do! Acquire PeersLock in
  let! found := Data (on_srv (fun s =>
      if lru_contains peer_id (peers s) then (true, set_peers (lru_pop peer_id (peers s)) s)
      else (false, s))) in
  if found then do! task_forget peer_id in do! Release PeersLock in k
  else do! Release PeersLock in k.

(** Whether the peer was offline already, and its entry afterwards. *)
Definition mark_offline (peer_id : string) (s : Server) : bool * Server :=
  match lru_map (peers s) !! peer_id with
  | Some entry =>
      let s := set_peers (lru_promote peer_id (peers s)) s in
      if bool_decide (pe_sender entry = None) && (pi_status (pe_info entry) =? STATUS_OFFLINE)
      then (true, s)
      else (false, set_peers (lru_modify (fun e =>
              {| pe_info := set_status STATUS_OFFLINE (pe_info e); pe_sender := None |})
              peer_id (peers s)) s)
  | None => (false, s)
  end.

Definition task_disconnect_peer (peer_id : string) (k : prog) : prog :=
  do! Acquire PeersLock in
  let! already := Data (on_srv (mark_offline peer_id)) in
  if already then do! Release PeersLock in k
  else do! task_forget peer_id in do! Release PeersLock in k.

Definition task_get_peer (peer_id : string) (k : option PeerInfo -> prog) : prog :=
  locked PeersLock (get_peer peer_id) k.

Definition find_sender (peer_id : string) (s : Server) : result SignalingError Z * Server :=
  (match lru_map (peers s) !! peer_id with
   | None => Err (Sig_UnknownPeer peer_id)
   | Some e => ok_or (pe_sender e) (Sig_PeerOffline peer_id)
   end, set_peers (lru_promote peer_id (peers s)) s).

(** The guard of [peers] lives while the message waits for room. *)
Definition task_send_to_peer (peer_id : string) (msg : FramedMessage)
    (k : result SignalingError unit -> prog) : prog :=
  do! Acquire PeersLock in
  let! r := Data (on_srv (find_sender peer_id)) in
  match r with
  | Err e => do! Release PeersLock in k (Err e)
  | Ok ch =>
      let! ok := Send ch msg in
      do! Release PeersLock in k (if ok : bool then Ok tt else Err (Sig_PeerOffline peer_id))
  end.

Definition unknown_party (call : CallEntry) (s : Server) : option SignalingError :=
  if negb (lru_contains (caller_id call) (peers s)) then Some (Sig_UnknownPeer (caller_id call))
  else if negb (lru_contains (callee_id call) (peers s)) then Some (Sig_UnknownPeer (callee_id call))
  else None.

Definition insert_call (call : CallEntry) (s : Server) : result SignalingError unit * Server :=
  if lru_contains (call_id call) (calls s) then (Err (Sig_CallAlreadyExists (call_id call)), s)
  else (Ok tt, set_calls (lru_put (call_id call) call (calls s)) s).

Definition task_create_call (call : CallEntry) (k : result SignalingError unit -> prog) : prog :=
  do! Acquire PeersLock in
  let! e := Data (on_srv (fun s => (unknown_party call s, s))) in
  match e with
  | Some e => do! Release PeersLock in k (Err e)
  | None =>
      let! r := locked CallsLock (insert_call call) in
      do! Release PeersLock in k r
  end.

Definition task_update_call_state (id : string) (st : Z) (k : result SignalingError unit -> prog) : prog :=
  locked CallsLock (update_call_state id st) k.

Definition task_end_call (id : string) (reason : option string) (k : prog) : prog :=
  let! c := Now in
  let! _ := locked CallsLock (end_call c id reason) in k.

Definition task_remove_call (id : string) (k : prog) : prog :=
  let! _ := locked CallsLock (fun s => (tt, remove_call id s)) in k.

Definition task_get_call (id : string) (k : option CallEntry -> prog) : prog :=
  locked CallsLock (get_call id) k.

(** ** Relay coordination and push retries *)

Definition task_relay_needed (id caller callee : string)
    (k : result SignalingError unit -> prog) : prog :=
  let! proxy := Data (on_srv (fun s => (select_proxy s, s))) in
  match proxy with
  | None => k (Err Sig_MasqueNoProxy)
  | Some proxy =>
      let! c := Now in
      let! caller_token := Data (on_srv (fun s => (issue_proxy_token c s caller callee, s))) in
      let! c := Now in
      let! callee_token := Data (on_srv (fun s => (issue_proxy_token c s callee caller, s))) in
      let! r := task_send_to_peer caller (relay_message id (px_proxy_url proxy) caller_token) in
      match r with
      | Err e => k (Err e)
      | Ok _ => task_send_to_peer callee (relay_message id (px_proxy_url proxy) callee_token) k
      end
  end.

(** The attempt and the delay; [None] in the result is the overflow, outside it that the
    attempts are used up. *)
Definition next_retry (m : overflow_mode) (count : Z) (config : VoIPConfig) : option (option (Z * Z)) :=
  if push_retry_max_attempts config <=? count then None
  else Some (
    let?o next_attempt := arith m 32 (count + 1) in
    let?o delay := retry_delay_secs m config next_attempt in
    let?o retry_after_ms := arith m 64 (delay * 1000) in
    Some (next_attempt, retry_after_ms)).

Definition task_retryable_failure (m : overflow_mode) (id caller callee : string) (reason : Z)
    (other_peer_id : string) (count : Z) (k : prog) : prog :=
  let! next := Data (on_srv (fun s => (next_retry m count (srv_config s), s))) in
  match next with
  | None => k
  | Some None => Crash
  | Some (Some (attempt, after_ms)) =>
      let! _ := task_send_to_peer other_peer_id
                  (build_push_retry_message id caller callee reason attempt after_ms) in
      let! info := task_get_peer other_peer_id in
      match info ≫= pi_fcm_token with
      | None => k
      | Some token =>
          let! _ := Data (on_srv (fun s => (tt, notify {|
              pn_fcm_token := token; pn_call_id := id; pn_caller_id := caller;
              pn_callee_id := callee; pn_reason := reason; pn_retry_attempt := attempt;
              pn_retry_after_ms := after_ms |} s))) in k
      end
  end.

(** ** The messages of a session *)

Definition read_holder (ch : Z) (x : Shared) : option string * Shared :=
  (default None (holders x !! ch), x).

(** [let _ = tx.send(err).await]. *)
Definition task_reply (ch : Z) (error : Z) (message : string) (k : prog) : prog :=
  let! _ := Send ch (framed_error error message) in k.

(** A check of the session's peer, whose guard lives until the refusal is sent. *)
Definition task_holder_check (ch : Z) (refused : option string -> bool) (message : string) (k : prog) : prog :=
  do! Acquire (HolderLock ch) in
  let! h := Data (read_holder ch) in
  if refused h then
    do! task_reply ch SIG_NOT_CALL_PARTICIPANT message in
    do! Release (HolderLock ch) in Ret
  else do! Release (HolderLock ch) in k.

Definition task_peer_register (ch : Z) (payload : list Z) : prog :=
  match prost_decode payload with
  | None => do! task_reply ch SIG_INVALID_MESSAGE "invalid PeerRegister payload" in Ret
  | Some msg =>
      let! allowed := task_check Action_Registration (pr_peer_id msg) in
      if negb allowed then do! task_reply ch SIG_RATE_LIMITED "registration rate limit exceeded" in Ret
      else
        let! c := Now in
        do! Acquire (HolderLock ch) in
        let! _ := Data (fun x => (tt, set_holder ch (Some (pr_peer_id msg)) x)) in
        do! Release (HolderLock ch) in
        do! task_register_peer (peer_info_of (unix_secs c) msg) (Some ch) in Ret
  end.

Definition task_peer_unregister (ch : Z) (payload : list Z) : prog :=
  match prost_decode (M := PeerUnregisterMsg) payload with
  | None => Ret
  | Some msg =>
      do! task_unregister_peer (pu_peer_id msg) in
      do! Acquire (HolderLock ch) in
      let! _ := Data (fun x => (tt, set_holder ch None x)) in
      do! Release (HolderLock ch) in Ret
  end.

Definition task_call_request (ch : Z) (payload : list Z) : prog :=
  match prost_decode payload with
  | None => do! task_reply ch SIG_INVALID_MESSAGE "invalid CallRequest payload" in Ret
  | Some msg =>
      let! allowed := task_check Action_Call (cr_caller_id msg) in
      if negb allowed then do! task_reply ch SIG_RATE_LIMITED "call rate limit exceeded" in Ret
      else
        do! task_holder_check ch (fun h => holder_differs h (cr_caller_id msg))
              "caller_id does not match session peer_id" in
        let! c := Now in
        let! r := task_create_call (new_call (unix_secs c) msg) in
        match r with
        | Err e => do! task_reply ch (sig_code e) (sig_to_string e) in Ret
        | Ok _ =>
            let! r := task_send_to_peer (cr_callee_id msg) (forward CALL_REQUEST_SC payload) in
            match r with
            | Ok _ => Ret
            | Err e =>
                do! task_reply ch (sig_code e) (sig_to_string e) in
                do! task_remove_call (cr_call_id msg) in Ret
            end
        end
  end.

Definition task_call_accept (ch : Z) (payload : list Z) : prog :=
  match prost_decode payload with
  | None => do! task_reply ch SIG_INVALID_MESSAGE "invalid CallAccept payload" in Ret
  | Some msg =>
      let id := ca_call_id msg in
      let! found := task_get_call id in
      match found with
      | None => do! task_reply ch SIG_INVALID_CALL_ID "call not found" in Ret
      | Some call_entry =>
          do! task_holder_check ch (fun h => holder_differs h (callee_id call_entry))
                "only the callee can accept a call" in
          let! r := task_update_call_state id STATE_ACCEPTED in
          match r with
          | Err e => do! task_reply ch (sig_code e) (sig_to_string e) in Ret
          | Ok _ =>
              let! found := task_get_call id in
              match found with
              | None => do! task_reply ch SIG_INVALID_CALL_ID "call not found after state update" in Ret
              | Some call =>
                  let! r := task_send_to_peer (caller_id call) (forward CALL_ACCEPT_SC payload) in
                  match r with
                  | Ok _ => Ret
                  | Err e => do! task_reply ch (sig_code e) (sig_to_string e) in Ret
                  end
              end
          end
      end
  end.

Definition task_call_reject (ch : Z) (payload : list Z) : prog :=
  match prost_decode payload with
  | None => Ret
  | Some msg =>
      let id := cj_call_id msg in
      let! found := task_get_call id in
      match found with
      | None => do! task_reply ch SIG_INVALID_CALL_ID "call not found" in Ret
      | Some call_entry =>
          do! task_holder_check ch (fun h => holder_differs h (callee_id call_entry))
                "only the callee can reject a call" in
          do! task_end_call id (Some "rejected") in
          let! _ := task_send_to_peer (caller_id call_entry) (forward CALL_REJECT_SC payload) in
          do! task_remove_call id in Ret
      end
  end.

(** The clone of the session's peer. *)
Definition task_sending_peer (ch : Z) (k : option string -> prog) : prog :=
  do! Acquire (HolderLock ch) in
  let! h := Data (read_holder ch) in
  do! Release (HolderLock ch) in k h.

Definition task_call_failed (m : overflow_mode) (ch : Z) (payload : list Z) : prog :=
  match prost_decode payload with
  | None => Ret
  | Some msg =>
      let id := cf_call_id msg in
      let! found := task_get_call id in
      match found with
      | None => do! task_reply ch SIG_INVALID_CALL_ID "call not found" in Ret
      | Some call_entry =>
          let! sending_peer := task_sending_peer ch in
          if not_participant sending_peer call_entry then
            do! task_reply ch SIG_NOT_CALL_PARTICIPANT "not a participant in this call" in Ret
          else
            let other_peer := other_peer_of sending_peer call_entry in
            let! _ := task_send_to_peer other_peer (forward CALL_FAILED payload) in
            let reason := cf_reason msg in
            let retry := task_retryable_failure m id (caller_id call_entry) (callee_id call_entry)
                           reason other_peer (retry_count call_entry) in
            let end_it := task_end_call id (Some (cf_description msg)) Ret in
            if (reason =? 3) || (reason =? 4) then
              let! r := task_relay_needed id (caller_id call_entry) (callee_id call_entry) in
              match r with
              | Ok _ => end_it
              | Err _ => if is_retryable_reason reason then retry end_it else end_it
              end
            else if is_retryable_reason reason then retry end_it
            else end_it
      end
  end.

Definition task_call_ended (ch : Z) (payload : list Z) : prog :=
  match prost_decode payload with
  | None => Ret
  | Some msg =>
      let id := ce_call_id msg in
      let! found := task_get_call id in
      match found with
      | None => do! task_reply ch SIG_INVALID_CALL_ID "call not found" in Ret
      | Some call_entry =>
          let! sending_peer := task_sending_peer ch in
          if not_participant sending_peer call_entry then
            do! task_reply ch SIG_NOT_CALL_PARTICIPANT "not a participant in this call" in Ret
          else
            let! _ := task_send_to_peer (other_peer_of sending_peer call_entry)
                        (forward CALL_ENDED payload) in
            do! task_end_call id None in
            do! task_remove_call id in Ret
      end
  end.

Definition task_dispatch (m : overflow_mode) (ch : Z) (f : FramedMessage) : prog :=
  let p := framed_payload f in
  let t := type_id f in
  if t =? PEER_REGISTER then task_peer_register ch p
  else if t =? PEER_UNREGISTER then task_peer_unregister ch p
  else if t =? CALL_REQUEST_CS then task_call_request ch p
  else if t =? CALL_ACCEPT_CS then task_call_accept ch p
  else if t =? CALL_REJECT_CS then task_call_reject ch p
  else if t =? CALL_FAILED then task_call_failed m ch p
  else if t =? CALL_ENDED then task_call_ended ch p
  else do! task_reply ch SIG_INVALID_MESSAGE "unknown message type ID" in Ret.

(** ** The two tasks of a session *)

(** A binary frame in the receive loop. *)
Definition task_receive (m : overflow_mode) (ch : Z) (data : list Z) : prog :=
  if zlen data <? 2 then Ret
  else
    match framed_from_bytes data with
    | None => Ret
    | Some framed =>
        let! pid := task_sending_peer ch in
        match pid with
        | Some peer_id =>
            let! allowed := task_check Action_WsMessage peer_id in
            if negb allowed then
              do! task_reply ch SIG_RATE_LIMITED "WebSocket message rate limit exceeded" in Ret
            else task_dispatch m ch framed
        | None => task_dispatch m ch framed
        end
    end.

(** [compare_exchange(false, true)] on the flag of the session. *)
Definition exchange_flag (ch : Z) (x : Shared) : bool * Shared :=
  if default true (disconnected x !! ch) then (false, x)
  else (true, {| srv := srv x; holders := holders x; disconnected := <[ch := true]> (disconnected x) |}).

(** The end of either task. *)
Definition task_cleanup (ch : Z) : prog :=
  let! first := Data (exchange_flag ch) in
  if first then
    do! Acquire (HolderLock ch) in
    let! pid := Data (read_holder ch) in
    match pid with
    | Some peer_id => do! task_disconnect_peer peer_id in do! Release (HolderLock ch) in Ret
    | None => do! Release (HolderLock ch) in Ret
    end
  else Ret.

Definition task_forward (ch : Z) (m : FramedMessage) : prog :=
  let! ok := Emit ch m in
  if ok : bool then Ret else do! Leave in task_cleanup ch.

(** ** HTTP requests and the periodic clean-up

    The requests that reach a handler; what they answer is in [Rest]. *)

Inductive HttpCall :=
| HttpRegister (body : RegisterPeerRequest)
| HttpUpdate (auth peer_id : string) (body : RegisterPeerRequest)
| HttpUnregister (auth peer_id : string)
| HttpGetPeer (peer_id : string)
| HttpLookup (username : string)
| HttpProxyToken (peer_id target : string)
| LimiterCleanup (order : Action -> gmap string Bucket -> list string).

Definition updated_info (now : Z) (peer_id : string) (body : RegisterPeerRequest) (existing : PeerInfo)
    : PeerInfo := {|
  pi_peer_id := peer_id;
  pi_display_name := if bool_decide (req_display_name body = "") then pi_display_name existing
                     else req_display_name body;
  pi_ipv6_addresses := or_existing (req_ipv6_addresses body) (pi_ipv6_addresses existing);
  pi_ipv4_reflexive := or_existing (req_ipv4_reflexive body) (pi_ipv4_reflexive existing);
  pi_nat_type := parse_nat_type (req_nat_type body) (pi_nat_type existing);
  pi_status := parse_status (req_status body) (pi_status existing);
  pi_fcm_token := match req_fcm_token body with Some t => Some t | None => pi_fcm_token existing end;
  pi_last_seen := now |}.

Definition task_http (call : HttpCall) : prog :=
  match call with
  | HttpRegister body =>
      match parse_peer_id (req_peer_id body) with
      | Err _ => Ret
      | Ok _ =>
          let! allowed := task_check Action_Registration (req_peer_id body) in
          if negb allowed then Ret
          else
            let! c := Now in
            do! task_register_peer (registered_info c body) None in Ret
      end
  | HttpUpdate auth peer_id body =>
      if negb (bool_decide (auth = peer_id)) then Ret
      else
        let! existing := task_get_peer peer_id in
        match existing with
        | None => Ret
        | Some existing =>
            let! c := Now in
            do! task_register_peer (updated_info (unix_secs c) peer_id body existing) None in Ret
        end
  | HttpUnregister auth peer_id =>
      if negb (bool_decide (auth = peer_id)) then Ret
      else do! task_unregister_peer peer_id in Ret
  | HttpGetPeer peer_id => let! _ := task_get_peer peer_id in Ret
  | HttpLookup _ => let! _ := locked PeersLock (fun s => (tt, s)) in Ret
  | HttpProxyToken peer_id target =>
      let! caller := task_get_peer peer_id in
      match caller with
      | None => Ret
      | Some _ => let! _ := task_get_peer target in Ret
      end
  | LimiterCleanup order =>
      do! Acquire LimiterLock in
      let! c := Now in
      let! _ := Data (on_srv (fun s => (tt, set_limiter (limiter_cleanup (instant c) order (limiter s)) s))) in
      do! Release LimiterLock in Ret
  end.

(** ** Everything that happens to the server *)

Inductive Event :=
(** one operation of a task, or the next message of a channel *)
| Advance (i : Tid)
| Take (ch : Z)
(** a session opens, receives a frame, and ends: by a close frame, an error, the end of the
    stream or the idle timer *)
| Open (ch : Z) (peer_id : string)
| Frame (ch : Z) (m : overflow_mode) (data : list Z)
| Close (ch : Z)
(** the last sender of a channel is gone *)
| Hangup (ch : Z)
| SocketTo (ch : Z) (s : Socket)
| Tick (c : Clock)
(** a request arrives; its client goes away, and the task is dropped *)
| Http (n : Z) (call : HttpCall)
| Cancel (n : Z).

(** A session with a channel, a lock and tasks of its own. *)
Definition open_session (ch : Z) (peer_id : string) (y : Sys) : option Sys :=
  if bool_decide (locks y !! HolderLock ch = None /\ tasks y !! RecvTask ch = None /\ tasks y !! FwdTask ch = None) then
    let x := shared y in
    let idle := {| code := Ret; looping := true |} in
    Some {| shared := {| srv := srv x; holders := <[ch := Some peer_id]> (holders x);
                         disconnected := <[ch := false]> (disconnected x) |};
            locks := locks y;
            chans := <[ch := {| queue := []; socket := SocketReads |}]> (chans y);
            tasks := <[RecvTask ch := idle]> (<[FwdTask ch := idle]> (tasks y));
            clk := clk y |}
  else None.

Definition sys_step (e : Event) (y : Sys) : option Sys :=
  match e with
  | Advance i => advance i y
  | Take ch => take_message task_forward ch y
  | Open ch peer_id => open_session ch peer_id y
  | Frame ch m data => start (RecvTask ch) (task_receive m ch data) y
  | Close ch => finish (RecvTask ch) (task_cleanup ch) y
  | Hangup ch =>
      let?o c := chans y !! ch in
      if (length (queue c) =? 0)%nat && senders_gone ch y
      then finish (FwdTask ch) (task_cleanup ch) y else None
  | SocketTo ch s =>
      let?o c := chans y !! ch in
      Some (set_chan ch {| queue := queue c; socket := s |} y)
  | Tick c =>
      Some {| shared := shared y; locks := locks y; chans := chans y; tasks := tasks y; clk := c |}
  | Http n call => spawn (HttpTask n) (task_http call) y
  | Cancel n =>
      let?o t := tasks y !! HttpTask n in
      Some (set_task (HttpTask n) {| code := Ret; looping := false |}
              (set_locks (filter (fun o => o.2 <> HttpTask n) (locks y)) y))
  end.

Fixpoint sys_run (es : list Event) (y : Sys) : option Sys :=
  match es with
  | [] => Some y
  | e :: es => let?o y := sys_step e y in sys_run es y
  end.

(** The server when it starts. *)
Definition sys_new (s : Server) (c : Clock) : Sys :=
  {| shared := {| srv := s; holders := ∅; disconnected := ∅ |};
     locks := ∅; chans := ∅; tasks := ∅; clk := c |}.
End Tasks.
