(* ===== verification/TaskLogic.v ===== *)
(** * A logic for tasks with locks

    What is to be shown of every interleaving of the tasks of [Runtime] follows from a property
    of each task alone.  [safe i n held Q p] says of the code [p] of task [i], which holds the
    locks [held] and knows [Q] of the shared state, that it takes locks in the order of their
    rank and gives them back, writes only what its locks protect, keeps the invariant [I] and the
    guarantee [G], and is done after at most [n] steps, where a message sent counts for the steps
    that forward it.  What a task knows must be [stable]: the others cannot change what the
    task's locks protect, nor the peer that its own session holds. *)

From S2P Require Import Prelude Types Config Crypto Wire RateLimit Lru Server Runtime.

Definition rank (l : Lock) : nat :=
  match l with HolderLock _ => 0 | PeersLock => 1 | CallsLock => 2 | LimiterLock => 3 end.

(** The steps that one message in a channel may still cause. *)
Definition FORWARD_COST : nat := 14.
Definition QUEUE_COST : nat := 15.
Definition SEND_COST : nat := 16.

Section Logic.
Context {S : SigScheme} {L : Lru}.
Context (I : Shared -> Prop) (G : Tid -> Shared -> Shared -> Prop).

(** What a lock protects stays as it is. *)
Definition frame (l : Lock) (x x' : Shared) : Prop :=
  match l with
  | PeersLock => peers (srv x') = peers (srv x)
  | CallsLock => calls (srv x') = calls (srv x)
  | LimiterLock => limiter (srv x') = limiter (srv x)
  | HolderLock ch => holders x' !! ch = holders x !! ch
  end.

(** What only task [i] may change stays as it is. *)
Definition own (i : Tid) (x x' : Shared) : Prop :=
  match i with RecvTask ch => holders x' !! ch = holders x !! ch | _ => True end.

Definition stable (i : Tid) (held : gset Lock) (Q : Shared -> Prop) : Prop :=
  forall x x', I x -> I x' -> (forall l, l ∈ held -> frame l x x') -> own i x x' -> Q x -> Q x'.

Record permitted (i : Tid) (held : gset Lock) (x x' : Shared) : Prop := {
  pm_inv : I x';
  pm_guar : G i x x';
  pm_frame l : l ∉ held -> frame l x x';
  pm_own j : j <> i -> own j x x'
}.

Definition delivered (ch : Z) (m : FramedMessage) (x : Shared) : Shared :=
  set_srv (deliver ch m (srv x)) x.

Fixpoint safe (i : Tid) (n : nat) (held : gset Lock) (Q : Shared -> Prop) (p : prog) : Prop :=
  match p with
  | Ret => held = ∅
  | Crash => (0 < n)%nat
  | Acquire l k =>
      (0 < n)%nat /\ (forall l', l' ∈ held -> (rank l' < rank l)%nat) /\
      safe i (n - 1) ({[l]} ∪ held) Q k
  | Release l k =>
      (0 < n)%nat /\ l ∈ held /\
      exists Q', (forall x, I x -> Q x -> Q' x) /\ stable i (held ∖ {[l]}) Q' /\
        safe i (n - 1) (held ∖ {[l]}) Q' k
  | Now k => (0 < n)%nat /\ forall c, safe i (n - 1) held Q (k c)
  | Data f k =>
      (0 < n)%nat /\ forall x, I x -> Q x -> permitted i held x (f x).2 /\
        exists Q', Q' (f x).2 /\ stable i held Q' /\ safe i (n - 1) held Q' (k (f x).1)
  | Send ch m k =>
      (SEND_COST <= n)%nat /\ (forall x, I x -> Q x -> permitted i held x (delivered ch m x)) /\
      forall b, safe i (n - SEND_COST) held Q (k b)
  | Emit ch m k => (0 < n)%nat /\ forall b, safe i (n - 1) held Q (k b)
  | Leave k => (0 < n)%nat /\ safe i (n - 1) held Q k
  end.

Lemma safe_mono i p : forall n n' held Q, (n <= n')%nat -> safe i n held Q p -> safe i n' held Q p.
Proof.
  induction p as [| |l k IH|l k IH|k IH|A f k IH|ch m k IH|ch m k IH|k IH];
    intros n n' held Q Hn Hs; cbn [safe] in *; try done; try lia.
  - destruct Hs as (H1 & H2 & H3). split; [lia|]. split; [done|]. eapply IH; [|done]. lia.
  - destruct Hs as (H1 & H2 & Q' & H3 & H4 & H5). split; [lia|]. split; [done|].
    exists Q'. repeat split; try done. eapply IH; [|done]. lia.
  - destruct Hs as [H1 H2]. split; [lia|]. intros c. eapply IH; [|apply H2]. lia.
  - destruct Hs as [H1 H2]. split; [lia|]. intros x Hx HQ.
    destruct (H2 x Hx HQ) as (Hp & Q' & H3 & H4 & H5). split; [done|]. exists Q'.
    repeat split; try done. eapply IH; [|done]. lia.
  - destruct Hs as (H1 & H2 & H3). split; [lia|]. split; [done|]. intros b. eapply IH; [|apply H3]. lia.
  - destruct Hs as [H1 H2]. split; [lia|]. intros b. eapply IH; [|apply H2]. lia.
  - destruct Hs as [H1 H2]. split; [lia|]. eapply IH; [|done]. lia.
Qed.

(** ** Soundness *)

Definition owns (y : Sys) (i : Tid) (held : gset Lock) : Prop :=
  forall l, l ∈ held <-> locks y !! l = Some i.

Definition task_ok (y : Sys) (i : Tid) (n : nat) (p : prog) : Prop :=
  exists held Q, owns y i held /\ Q (shared y) /\ stable i held Q /\ safe i n held Q p.

(** The forwarding task, in its loop, waits for a message or writes one. *)
Definition reading (ch : Z) (p : prog) : Prop :=
  p = Ret \/ (exists m k, p = Emit ch m k /\ k true = Ret /\ exists k', k false = Leave k') \/
  exists k', p = Leave k'.

Record sys_ok (B : Tid -> nat) (y : Sys) : Prop := {
  so_inv : I (shared y);
  so_task i t : tasks y !! i = Some t -> task_ok y i (B i) (code t);
  so_owner l i : locks y !! l = Some i -> is_Some (tasks y !! i);
  so_reader ch t : tasks y !! FwdTask ch = Some t -> looping t = true -> reading ch (code t);
  so_chan ch : is_Some (chans y !! ch) -> is_Some (tasks y !! FwdTask ch)
}.

Definition set_budget (i : Tid) (b : nat) (B : Tid -> nat) (j : Tid) : nat :=
  if decide (j = i) then b else B j.

(** What a step of task [i] leaves to the others. *)
Record step_of (i : Tid) (y y' : Sys) : Prop := {
  sf_old : I (shared y);
  sf_new : I (shared y');
  sf_frame l j : j <> i -> locks y !! l = Some j -> frame l (shared y) (shared y');
  sf_own j : j <> i -> own j (shared y) (shared y');
  sf_locks l j : j <> i -> (locks y' !! l = Some j <-> locks y !! l = Some j)
}.

Lemma other_task_ok i j n p y y' : step_of i y y' -> j <> i -> task_ok y j n p -> task_ok y' j n p.
Proof.
  intros [H1 H2 H3 H4 H5] Hj (held & Q & Ho & HQ & Hst & Hs). exists held, Q.
  split; [intros l; rewrite H5 by done; apply Ho|]. split; [|done].
  apply (Hst (shared y)); auto. intros l Hl. apply (H3 l j); [done|]. by apply Ho.
Qed.

Lemma permitted_step i held y y' : owns y i held -> I (shared y) ->
  permitted i held (shared y) (shared y') -> locks y' = locks y -> step_of i y y'.
Proof.
  intros Ho Hi [H1 _ H2 H3] Hl. split; try done.
  - intros l j Hj Hlj. apply H2. intros Hin. apply Ho in Hin. congruence.
  - intros l j _. by rewrite Hl.
Qed.

Lemma frame_refl l x : frame l x x.
Proof. by destruct l. Qed.

Lemma own_refl i x : own i x x.
Proof. by destruct i. Qed.

Lemma frame_delivered l ch m x : frame l x (delivered ch m x).
Proof. by destruct l. Qed.

Lemma own_delivered i ch m x : own i x (delivered ch m x).
Proof. by destruct i. Qed.

Lemma locks_step i y y' : I (shared y) -> shared y' = shared y ->
  (forall l j, j <> i -> (locks y' !! l = Some j <-> locks y !! l = Some j)) -> step_of i y y'.
Proof.
  intros Hi Hs Hl. split; try done.
  - by rewrite Hs.
  - intros. rewrite Hs. apply frame_refl.
  - intros. rewrite Hs. apply own_refl.
Qed.

Lemma sys_ok_step B i b y y' p lp : sys_ok B y -> step_of i y y' ->
  tasks y' = <[i := {| code := p; looping := lp |}]> (tasks y) ->
  (forall ch, is_Some (chans y' !! ch) -> is_Some (chans y !! ch)) ->
  task_ok y' i b p -> (forall ch, i = FwdTask ch -> lp = true -> reading ch p) ->
  sys_ok (set_budget i b B) y'.
Proof.
  intros [H1 H2 H3 H4 H5] Hst Ht Hc Hok Hrd.
  assert (forall j, is_Some (tasks y !! j) -> is_Some (tasks y' !! j)) as Hdom.
  { intros j Hj. rewrite Ht. destruct (decide (j = i)) as [->|]; simplify_map_eq; eauto. }
  split.
  - apply Hst.
  - intros j t'. unfold set_budget. rewrite Ht. destruct (decide (j = i)) as [->|Hj]; simplify_map_eq.
    + by intros [= <-].
    + intros Hj'. eapply other_task_ok; eauto.
  - intros l j Hl. destruct (decide (j = i)) as [->|Hj]; [rewrite Ht; simplify_map_eq; eauto|].
    apply (sf_locks _ _ _ Hst) in Hl; eauto.
  - intros ch t'. rewrite Ht. destruct (decide (i = FwdTask ch)) as [->|]; simplify_map_eq.
    + intros [= <-]. cbn. auto.
    + apply H4.
  - auto.
Qed.

(** The messages that wait in the channels. *)
Definition load (y : Sys) : nat := sum_list_with (fun c => length (queue c.2)) (map_to_list (chans y)).

Lemma load_set_chan ch c c' y : chans y !! ch = Some c ->
  (load (set_chan ch c' y) + length (queue c) = load y + length (queue c'))%nat.
Proof.
  intros Hc. unfold load, set_chan. cbn [chans].
  rewrite <- (insert_delete_id (chans y) ch c Hc) at 2. rewrite <- insert_delete_eq.
  rewrite !map_to_list_insert by apply lookup_delete_eq. cbn. lia.
Qed.

Lemma owns_acquire y i held l : owns y i held -> locks y !! l = None ->
  owns (set_locks (<[l := i]> (locks y)) y) i ({[l]} ∪ held).
Proof.
  intros Ho Hl l'. cbn. rewrite elem_of_union, elem_of_singleton, (Ho l').
  destruct (decide (l' = l)) as [->|]; simplify_map_eq; naive_solver.
Qed.

Lemma owns_release y i held l : owns y i held ->
  owns (set_locks (delete l (locks y)) y) i (held ∖ {[l]}).
Proof.
  intros Ho l'. cbn. rewrite elem_of_difference, elem_of_singleton, (Ho l').
  destruct (decide (l' = l)) as [->|]; simplify_map_eq; naive_solver.
Qed.

Lemma owns_free y i : owns (set_locks (filter (fun o => o.2 <> i) (locks y)) y) i ∅.
Proof.
  intros l. cbn. rewrite map_lookup_filter_Some. cbn. set_solver.
Qed.

Lemma stable_more i held held' Q : held ⊆ held' -> stable i held Q -> stable i held' Q.
Proof. intros Hsub Hst x x' Hx Hx' Hl. apply Hst; [done|done|]. auto. Qed.

Lemma stable_true i held : stable i held (fun _ => True).
Proof. done. Qed.

Lemma task_ok_ret y i b : owns y i ∅ -> task_ok y i b Ret.
Proof. intros Ho. exists ∅, (fun _ => True). split; [done|]. split; [done|]. by split. Qed.

Lemma freed_step i y t : I (shared y) ->
  step_of i y (set_task i t (set_locks (filter (fun o => o.2 <> i) (locks y)) y)).
Proof.
  intros Hi. apply locks_step; [done|done|]. intros l j Hj. cbn.
  rewrite map_lookup_filter_Some. cbn. naive_solver.
Qed.

Lemma load_same y y' : chans y' = chans y -> load y' = load y.
Proof. unfold load. by intros ->. Qed.

(** Task [i], with code [p] left, takes a step that touches no channel. *)
Lemma advance_quiet B i y y' p lp n : sys_ok B y -> step_of i y y' ->
  tasks y' = <[i := {| code := p; looping := lp |}]> (tasks y) -> chans y' = chans y ->
  (0 < B i)%nat -> n = (B i - 1)%nat -> task_ok y' i n p ->
  (forall ch, i = FwdTask ch -> lp = true -> reading ch p) ->
  exists b, (b <= B i)%nat /\ (b + QUEUE_COST * load y' < B i + QUEUE_COST * load y)%nat /\
    sys_ok (set_budget i b B) y'.
Proof.
  intros Hok Hst Ht Hc Hb -> Htask Hrd. exists (B i - 1)%nat. split; [lia|]. split.
  - rewrite (load_same y y' Hc). lia.
  - eapply sys_ok_step; eauto. intros ch. by rewrite Hc.
Qed.

Lemma not_reading ch p : reading ch p -> is_ret p = false ->
  match p with Emit _ _ _ | Leave _ => True | _ => False end.
Proof. intros [->|[(m & k & -> & _)|(k & ->)]]; done. Qed.

(** A send completes: to nobody, or into the channel. *)
Lemma advance_send_ok B i t y y' ch m k : sys_ok B y -> tasks y !! i = Some t -> code t = Send ch m k ->
  advance i y = Some y' ->
  (shared y' = shared y \/ G i (shared y) (shared y')) /\
  exists b, (b <= B i)%nat /\ (b + QUEUE_COST * load y' < B i + QUEUE_COST * load y)%nat /\
    sys_ok (set_budget i b B) y'.
Proof.
  intros Hok Et Ec Hadv. unfold advance in Hadv. rewrite Et, Ec in Hadv.
  destruct (so_task _ _ Hok _ _ Et) as (held & Q & Ho & HQ & Hst & Hs). rewrite Ec in Hs.
  destruct Hs as (H1 & H2 & H3). pose proof (so_inv _ _ Hok) as HI. pose proof (H2 _ HI HQ) as Hp.
  assert (forall c, i = FwdTask c -> looping t = true -> False) as Hrd.
  { intros c -> Hlp. pose proof (so_reader _ _ Hok c t Et Hlp) as Hr. rewrite Ec in Hr.
    by destruct (not_reading _ _ Hr). }
  assert (forall z b, shared z = shared y -> locks z = locks y ->
    task_ok z i (B i - SEND_COST) (k b)) as Hrest.
  { intros z b Hz Hl. exists held, Q. split; [intros l; rewrite Hl; apply Ho|]. rewrite Hz. by split. }
  assert (forall z, z = set_task i {| code := k false; looping := looping t |} y ->
    (shared z = shared y \/ G i (shared y) (shared z)) /\
    exists b, (b <= B i)%nat /\ (b + QUEUE_COST * load z < B i + QUEUE_COST * load y)%nat /\
      sys_ok (set_budget i b B) z) as Hgone.
  { intros z ->. split; [by left|]. exists (B i - SEND_COST)%nat. split; [lia|]. split.
    - rewrite (load_same y) by done. unfold SEND_COST in *. lia.
    - eapply sys_ok_step; [done|by apply locks_step|done|done|by apply Hrest|].
      intros c Hc Hlp. destruct (Hrd c Hc Hlp). }
  destruct (chans y !! ch) as [c|] eqn:Ech; [|simplify_eq; by apply Hgone].
  destruct (rx_dropped ch y); [simplify_eq; by apply Hgone|].
  destruct (_ <? _)%nat; [|done]. simplify_eq. split; [right; apply Hp|].
  exists (B i - SEND_COST)%nat. split; [lia|]. split.
  - pose proof (load_set_chan ch c {| queue := queue c ++ [m]; socket := socket c |} y Ech) as Hl.
    cbn [queue] in Hl. rewrite length_app in Hl. cbn [length] in Hl.
    rewrite (load_same (set_chan ch {| queue := queue c ++ [m]; socket := socket c |} y)) by done.
    unfold SEND_COST, QUEUE_COST in *. lia.
  - eapply sys_ok_step; [done|by eapply permitted_step|done| | |].
    + intros c'. cbn. destruct (decide (c' = ch)) as [->|]; simplify_map_eq; eauto.
    + exists held, Q. split; [done|]. split; [|by split].
      apply (Hst (shared y)); [done|apply Hp|intros; apply frame_delivered|apply own_delivered|done].
    + intros c' Hc Hlp. destruct (Hrd c' Hc Hlp).
Qed.

Ltac quiet Hrd :=
  eapply advance_quiet; try done;
  try (let c := fresh in let Hc := fresh in let Hlp := fresh in
       intros c Hc Hlp; by destruct (not_reading _ _ (Hrd c Hc Hlp))).

Lemma advance_ok B i y y' : sys_ok B y -> advance i y = Some y' ->
  (shared y' = shared y \/ G i (shared y) (shared y')) /\
  exists b, (b <= B i)%nat /\ (b + QUEUE_COST * load y' < B i + QUEUE_COST * load y)%nat /\
    sys_ok (set_budget i b B) y'.
Proof.
  intros Hok Hadv. destruct (tasks y !! i) as [t|] eqn:Et; [|by unfold advance in Hadv; rewrite Et in Hadv].
  destruct (so_task _ _ Hok _ _ Et) as (held & Q & Ho & HQ & Hst & Hs).
  pose proof (so_inv _ _ Hok) as HI.
  assert (forall ch, i = FwdTask ch -> looping t = true -> reading ch (code t)) as Hrd
    by (intros ch ->; by apply (so_reader _ _ Hok)).
  destruct (code t) as [| |l k|l k|k|A f k|ch m k|ch m k|k] eqn:Ec;
    [..|by eapply advance_send_ok| |]; unfold advance in Hadv; rewrite Et, Ec in Hadv; cbn [safe] in Hs.
  - done.
  - simplify_eq. split; [by left|]. quiet Hrd; [by apply freed_step|]. apply task_ok_ret, owns_free.
  - destruct (locks y !! l) eqn:El; [done|]. simplify_eq. split; [by left|]. destruct Hs as (H1 & H2 & H3).
    quiet Hrd.
    + apply locks_step; [done|done|]. intros l' j Hj. cbn.
      destruct (decide (l' = l)) as [->|]; simplify_map_eq; naive_solver.
    + exists ({[l]} ∪ held), Q. split; [by apply owns_acquire|]. split; [done|]. split; [|done].
      eapply stable_more; [|done]. set_solver.
  - case_bool_decide as El; [|done]. simplify_eq. split; [by left|].
    destruct Hs as (H1 & H2 & Q' & H3 & H4 & H5). quiet Hrd.
    + apply locks_step; [done|done|]. intros l' j Hj. cbn.
      destruct (decide (l' = l)) as [->|]; simplify_map_eq; naive_solver.
    + exists (held ∖ {[l]}), Q'. split; [by apply owns_release|]. split; [by apply H3|]. by split.
  - simplify_eq. split; [by left|]. destruct Hs as [H1 H2]. quiet Hrd; [by apply locks_step|].
    exists held, Q. by repeat split; try apply Ho.
  - destruct Hs as [H1 H2]. destruct (H2 _ HI HQ) as (Hp & Q' & H3 & H4 & H5).
    destruct (f (shared y)) as [a x] eqn:Ef. simplify_eq. cbn in *. split; [right; apply Hp|].
    quiet Hrd; [by eapply permitted_step|]. exists held, Q'. by repeat split; try apply Ho.
  - destruct Hs as [H1 H2].
    assert (exists b, y' = set_task i {| code := k b; looping := looping t |} y) as [b ->].
    { destruct (option_map socket (chans y !! ch)) as [[]|]; simplify_eq; by eexists. }
    split; [by left|]. quiet Hrd; [by apply locks_step|exists held, Q; by repeat split; try apply Ho|].
    intros c Hc Hlp. destruct (Hrd c Hc Hlp) as [|[(m' & k' & He & Ht & k2 & Hf)|(k' & He)]]; simplify_eq.
    destruct b; [left|right; right]; eauto.
  - simplify_eq. split; [by left|]. destruct Hs as [H1 H2]. quiet Hrd; [by apply locks_step|].
    exists held, Q. by repeat split; try apply Ho.
Qed.

(** ** Tasks that begin *)

Lemma idle_owns B y i : sys_ok B y ->
  match tasks y !! i with Some t => is_ret (code t) = true | None => True end -> owns y i ∅.
Proof.
  intros Hok Hi. destruct (tasks y !! i) as [t|] eqn:Et.
  - destruct (so_task _ _ Hok _ _ Et) as (held & Q & Ho & _ & _ & Hs).
    destruct (code t); try done. cbn in Hs. by subst held.
  - intros l. split; [set_solver|]. intros Hl. destruct (so_owner _ _ Hok _ _ Hl) as [t Ht]. congruence.
Qed.

Lemma put_task_ok B i b p lp Q y : sys_ok B y -> owns y i ∅ -> Q (shared y) -> stable i ∅ Q ->
  safe i b ∅ Q p -> (forall ch, i = FwdTask ch -> lp = true -> reading ch p) ->
  sys_ok (set_budget i b B) (set_task i {| code := p; looping := lp |} y).
Proof.
  intros Hok Ho HQ Hst Hs Hrd. eapply sys_ok_step; [done| |done|done| |done].
  - apply locks_step; [apply Hok|done|done].
  - exists ∅, Q. by repeat split; try apply Ho.
Qed.

Lemma start_ok B i b p Q y y' : sys_ok B y -> start i p y = Some y' -> Q (shared y) -> stable i ∅ Q ->
  safe i b ∅ Q p -> (forall ch, i = FwdTask ch -> reading ch p) -> sys_ok (set_budget i b B) y'.
Proof.
  intros Hok Hy HQ Hst Hs Hrd. unfold start in Hy. destruct (tasks y !! i) as [t|] eqn:Et; [|done].
  destruct (looping t && is_ret (code t)) eqn:E; [|done]. simplify_eq. apply andb_true_iff in E as [_ E].
  eapply put_task_ok; [done| |done|done|done|eauto]. eapply idle_owns; [done|]. by rewrite Et.
Qed.

Lemma finish_ok B i b p Q y y' : sys_ok B y -> finish i p y = Some y' -> Q (shared y) -> stable i ∅ Q ->
  safe i b ∅ Q p -> sys_ok (set_budget i b B) y'.
Proof.
  intros Hok Hy HQ Hst Hs. unfold finish in Hy. destruct (tasks y !! i) as [t|] eqn:Et; [|done].
  destruct (looping t && is_ret (code t)) eqn:E; [|done]. simplify_eq. apply andb_true_iff in E as [_ E].
  eapply put_task_ok; [done| |done|done|done|done]. eapply idle_owns; [done|]. by rewrite Et.
Qed.

Lemma spawn_ok B i b p Q y y' : sys_ok B y -> spawn i p y = Some y' -> Q (shared y) -> stable i ∅ Q ->
  safe i b ∅ Q p -> sys_ok (set_budget i b B) y'.
Proof.
  intros Hok Hy HQ Hst Hs. unfold spawn in Hy. destruct (tasks y !! i) as [t|] eqn:Et; [done|].
  simplify_eq. eapply put_task_ok; [done| |done|done|done|done]. eapply idle_owns; [done|]. by rewrite Et.
Qed.

(** A task that is dropped gives its locks back. *)
Lemma drop_task_ok B i y : sys_ok B y ->
  sys_ok (set_budget i 0 B) (set_task i {| code := Ret; looping := false |}
    (set_locks (filter (fun o => o.2 <> i) (locks y)) y)).
Proof.
  intros Hok. eapply sys_ok_step; [done|apply freed_step, Hok|done|done| |done].
  apply task_ok_ret. apply owns_free.
Qed.

Lemma set_chan_ok B y ch c : sys_ok B y -> is_Some (chans y !! ch) -> sys_ok B (set_chan ch c y).
Proof.
  intros [H1 H2 H3 H4 H5] Hc. split; try done. intros ch'. cbn.
  destruct (decide (ch' = ch)) as [->|]; simplify_map_eq; auto.
Qed.

(** What a lock of another task, or of nobody, protects is not touched. *)
Lemma advance_frame B i y y' l : sys_ok B y -> advance i y = Some y' -> locks y !! l <> Some i ->
  frame l (shared y) (shared y').
Proof.
  intros Hok Hy Hl. unfold advance in Hy. destruct (tasks y !! i) as [t|] eqn:Et; [|done].
  destruct (so_task _ _ Hok _ _ Et) as (held & Q & Ho & HQ & _ & Hs).
  destruct (code t) as [| |l' k|l' k|k|A f k|ch m k|ch m k|k]; repeat case_match; simplify_eq;
    try apply frame_refl.
  - destruct Hs as [_ Hs]. destruct (Hs _ (so_inv _ _ Hok) HQ) as [Hp _].
    rewrite H in Hp. apply Hp. by rewrite (Ho l).
  - apply frame_delivered.
Qed.

(** ** A task that runs alone *)

(** The effect of the code of one task when the others rest and channels have room. *)
Fixpoint solo (is_open : Z -> bool) (c : Clock) (p : prog) (x : Shared) : option Shared :=
  match p with
  | Ret => Some x
  | Crash | Emit _ _ _ | Leave _ => None
  | Acquire _ k | Release _ k => solo is_open c k x
  | Now k => solo is_open c (k c) x
  | Data f k => solo is_open c (k (f x).1) (f x).2
  | Send ch m k => if is_open ch then solo is_open c (k true) (delivered ch m x) else solo is_open c (k false) x
  end.

(** Who can still receive from a channel. *)
Definition channel_open (y : Sys) (ch : Z) : bool :=
  match chans y !! ch with Some _ => negb (rx_dropped ch y) | None => false end.

(** Every open channel has room for the messages that [n] steps can send. *)
Definition has_room (n : nat) (y : Sys) : Prop := forall ch c,
  chans y !! ch = Some c -> rx_dropped ch y = false ->
  (n + SEND_COST * length (queue c) <= SEND_COST * SESSION_CHANNEL_CAPACITY)%nat.

Record alone (i : Tid) (n : nat) (held : gset Lock) (p : prog) (lp : bool) (y : Sys) : Prop := {
  al_task : tasks y !! i = Some {| code := p; looping := lp |};
  al_owns : owns y i held;
  al_only l j : locks y !! l = Some j -> j = i;
  al_room : has_room n y
}.

Record same_others (i : Tid) (y y' : Sys) : Prop := {
  sm_tasks j : j <> i -> tasks y' !! j = tasks y !! j;
  sm_clk : clk y' = clk y;
  sm_open ch : channel_open y' ch = channel_open y ch
}.

Lemma rx_dropped_other i ch t y : (forall c, i <> FwdTask c) -> rx_dropped ch (set_task i t y) = rx_dropped ch y.
Proof. intros Hi. unfold rx_dropped. cbn. by rewrite lookup_insert_ne by apply Hi. Qed.

(** One step of a lone task that touches no channel. *)
Lemma alone_quiet i n n' held held' p p' lp y y' : (forall c, i <> FwdTask c) ->
  alone i n held p lp y -> (n' <= n)%nat ->
  y' = set_task i {| code := p'; looping := lp |}
         {| shared := shared y'; locks := locks y'; chans := chans y; tasks := tasks y; clk := clk y |} ->
  owns y' i held' -> (forall l j, locks y' !! l = Some j -> j = i) ->
  alone i n' held' p' lp y' /\ same_others i y y'.
Proof.
  intros Hi [H1 H2 H3 H4] Hn Hy Ho Hl. assert (forall ch, rx_dropped ch y' = rx_dropped ch y) as Hd.
  { intros ch. rewrite Hy. by rewrite rx_dropped_other. }
  split; split; try done.
  - rewrite Hy. cbn. apply lookup_insert_eq.
  - intros ch c Hc. rewrite Hd. intros Hdrop. rewrite Hy in Hc. cbn in Hc. specialize (H4 _ _ Hc Hdrop). lia.
  - intros j Hj. rewrite Hy. cbn. by rewrite lookup_insert_ne.
  - by rewrite Hy.
  - intros ch. unfold channel_open. rewrite Hd, Hy. done.
Qed.
Lemma same_others_trans i y1 y2 y3 : same_others i y1 y2 -> same_others i y2 y3 -> same_others i y1 y3.
Proof.
  intros [A1 A2 A3] [B1 B2 B3]. split.
  - intros j Hj. by rewrite B1, A1.
  - congruence.
  - intros ch. by rewrite B3, A3.
Qed.

Lemma alone_push i n held p p' ch m c lp y : (forall c, i <> FwdTask c) -> alone i n held p lp y ->
  (SEND_COST <= n)%nat -> chans y !! ch = Some c ->
  let y' := set_task i {| code := p'; looping := lp |} (set_shared (delivered ch m (shared y))
              (set_chan ch {| queue := queue c ++ [m]; socket := socket c |} y)) in
  alone i (n - SEND_COST) held p' lp y' /\ same_others i y y'.
Proof.
  intros Hi [H1 H2 H3 H4] Hn Hc y'.
  assert (forall d, rx_dropped d y' = rx_dropped d y) as Hd
    by (intros d; unfold y'; by rewrite rx_dropped_other).
  split; split; try done.
  - apply lookup_insert_eq.
  - intros d c'. rewrite Hd. unfold y'. cbn [chans set_task set_shared set_chan].
    destruct (decide (d = ch)) as [->|Hne].
    + rewrite lookup_insert_eq. intros [= <-] Hdrop. specialize (H4 _ _ Hc Hdrop). cbn [queue].
      rewrite length_app. cbn [length]. unfold SEND_COST in *. lia.
    + rewrite lookup_insert_ne by done. intros Hc' Hdrop. specialize (H4 _ _ Hc' Hdrop). lia.
  - intros j Hj. by apply lookup_insert_ne.
  - intros d. unfold channel_open. rewrite Hd. cbn. by destruct (decide (d = ch)) as [->|]; simplify_map_eq.
Qed.

Lemma alone_send i n held ch m k lp y : (forall c, i <> FwdTask c) ->
  alone i n held (Send ch m k) lp y -> (SEND_COST <= n)%nat ->
  exists y', advance i y = Some y' /\ alone i (n - SEND_COST) held (k (channel_open y ch)) lp y' /\
    same_others i y y' /\
    shared y' = if channel_open y ch then delivered ch m (shared y) else shared y.
Proof.
  intros Hi Hal Hn. pose proof Hal as [H1 H2 H3 H4].
  assert (forall b, alone i (n - SEND_COST) held (k b) lp (set_task i {| code := k b; looping := lp |} y) /\
    same_others i y (set_task i {| code := k b; looping := lp |} y)) as Hgone.
  { intros b. by eapply alone_quiet; [done|done|lia| | |]. }
  unfold channel_open, advance. rewrite H1. cbn [code looping].
  destruct (chans y !! ch) as [c|] eqn:Ec.
  2: { destruct (Hgone false). eauto. }
  destruct (rx_dropped ch y) eqn:Ed; cbn [negb].
  { destruct (Hgone false). eauto. }
  pose proof (H4 _ _ Ec Ed) as Hroom.
  rewrite (proj2 (Nat.ltb_lt (length (queue c)) SESSION_CHANNEL_CAPACITY)) by (unfold SEND_COST in *; lia).
  eexists. split; [done|]. destruct (alone_push i n held (Send ch m k) (k true) ch m c lp y); eauto.
Qed.

(** From [y] task [i] alone reaches its end, with the shared state [x]. *)
Definition ends_with (i : Tid) (lp : bool) (y : Sys) (x : Shared) : Prop :=
  exists y', rtc (fun a b => advance i a = Some b) y y' /\ alone i 0 ∅ Ret lp y' /\ same_others i y y' /\
    shared y' = x.

Lemma ends_later i lp y y1 x : advance i y = Some y1 -> same_others i y y1 ->
  ends_with i lp y1 x -> ends_with i lp y x.
Proof.
  intros Hy Hsm (y' & Hr & Ha & Hsm' & Hx). exists y'. split; [by eapply rtc_l|]. split; [done|].
  split; [by eapply same_others_trans|done].
Qed.

(** A lone task runs to its end with the effect of [solo]. *)
Lemma solo_runs i c is_open p : (forall c, i <> FwdTask c) -> forall n held Q lp y x,
  alone i n held p lp y -> safe i n held Q p -> I (shared y) -> Q (shared y) ->
  stable i held Q -> clk y = c -> (forall ch, is_open ch = channel_open y ch) ->
  solo is_open c p (shared y) = Some x -> ends_with i lp y x.
Proof.
  intros Hi. induction p as [| |l k IH|l k IH|k IH|A f k IH|ch m k IH|ch m k IH|k IH];
    intros n held Q lp y x Hal Hs HI HQ Hst Hc Ho Hx; cbn [solo safe] in *; try done;
    pose proof Hal as [H1 H2 H3 H4].
  - subst held. injection Hx as <-. exists y. split; [done|]. split; [|done]. split; try done.
    intros ch d Hd Hdrop. specialize (H4 _ _ Hd Hdrop). lia.
  - destruct Hs as (Hn & Hrank & Hs). assert (locks y !! l = None) as Hl.
    { destruct (locks y !! l) as [j|] eqn:E; [|done]. rewrite (H3 _ _ E) in E. apply H2, Hrank in E. lia. }
    set (y1 := set_task i {| code := k; looping := lp |} (set_locks (<[l := i]> (locks y)) y)).
    destruct (alone_quiet i n (n - 1) held ({[l]} ∪ held) (Acquire l k) k lp y y1) as [Ha Hsm];
      [done|done|lia|done|by apply owns_acquire| |].
    { intros l' j. cbn. destruct (decide (l' = l)) as [->|]; simplify_map_eq; naive_solver. }
    apply (ends_later i lp y y1); [unfold advance; by rewrite H1; cbn; rewrite Hl|done|].
    eapply IH; try done; [eapply stable_more; [|done]; set_solver|]. intros ch. by rewrite (sm_open _ _ _ Hsm).
  - destruct Hs as (Hn & Hheld & Q' & Hq & Hst' & Hs).
    set (y1 := set_task i {| code := k; looping := lp |} (set_locks (delete l (locks y)) y)).
    destruct (alone_quiet i n (n - 1) held (held ∖ {[l]}) (Release l k) k lp y y1) as [Ha Hsm];
      [done|done|lia|done|by apply owns_release| |].
    { intros l' j. cbn. destruct (decide (l' = l)) as [->|]; simplify_map_eq; naive_solver. }
    apply (ends_later i lp y y1); [|done|].
    + unfold advance. rewrite H1. cbn. by rewrite bool_decide_eq_true_2 by (by apply H2).
    + eapply IH; try done; [by apply Hq|]. intros ch. by rewrite (sm_open _ _ _ Hsm).
  - destruct Hs as [Hn Hs]. set (y1 := set_task i {| code := k c; looping := lp |} y).
    destruct (alone_quiet i n (n - 1) held held (Now k) (k c) lp y y1) as [Ha Hsm]; [done|done|lia|done|done|done|].
    apply (ends_later i lp y y1); [unfold advance; by rewrite H1; cbn; rewrite Hc|done|].
    eapply IH; try done. intros ch. by rewrite (sm_open _ _ _ Hsm).
  - destruct Hs as [Hn Hs]. destruct (Hs _ HI HQ) as (Hp & Q' & HQ' & Hst' & Hs').
    set (y1 := set_task i {| code := k (f (shared y)).1; looping := lp |} (set_shared (f (shared y)).2 y)).
    destruct (alone_quiet i n (n - 1) held held (Data f k) (k (f (shared y)).1) lp y y1) as [Ha Hsm];
      [done|done|lia|done|done|done|].
    apply (ends_later i lp y y1); [unfold advance; rewrite H1; cbn; by destruct (f (shared y))|done|].
    eapply IH; try done; [apply Hp|]. intros ch. by rewrite (sm_open _ _ _ Hsm).
  - destruct Hs as (Hn & Hp & Hs). destruct (alone_send i n held ch m k lp y) as (y1 & Hy & Ha & Hsm & Hsh); try done.
    apply (ends_later i lp y y1); [done|done|]. rewrite <- Ho in *.
    assert (forall d, is_open d = channel_open y1 d) as Ho1 by (intros d; by rewrite (sm_open _ _ _ Hsm)).
    assert (clk y1 = c) as Hc1 by (by rewrite (sm_clk _ _ _ Hsm)). pose proof (Hp _ HI HQ) as Hpm.
    destruct (is_open ch); rewrite <- Hsh in Hx; eapply IH; try done; rewrite Hsh; try done; [apply Hpm|].
    apply (Hst (shared y)); [done|apply Hpm|intros; apply frame_delivered|apply own_delivered|done].
Qed.
(** ** Forwarding, and the steps that need nobody outside *)

Section Forwarding.
Context (on_message : Z -> FramedMessage -> prog).
Hypothesis on_message_safe : forall ch m,
  safe (FwdTask ch) FORWARD_COST ∅ (fun _ => True) (on_message ch m).
Hypothesis on_message_emits : forall ch m, exists k,
  on_message ch m = Emit ch m k /\ k true = Ret /\ exists k', k false = Leave k'.

Lemma take_message_ok B ch y y' : sys_ok B y -> take_message on_message ch y = Some y' ->
  shared y' = shared y /\
  exists b, (b <= FORWARD_COST)%nat /\ (b + QUEUE_COST * load y' < B (FwdTask ch) + QUEUE_COST * load y)%nat /\
    sys_ok (set_budget (FwdTask ch) b B) y'.
Proof.
  intros Hok Hy. unfold take_message in Hy. destruct (chans y !! ch) as [c|] eqn:Ec; [|done].
  destruct (queue c) as [|m q] eqn:Eq; [done|].
  pose proof (load_set_chan ch c {| queue := q; socket := socket c |} y Ec) as Hl.
  rewrite Eq in Hl. cbn [queue length] in Hl.
  assert (sys_ok (set_budget (FwdTask ch) FORWARD_COST B) y') as Hok'.
  { eapply start_ok; [by apply set_chan_ok|done| | |apply on_message_safe|]; [done|done|].
    intros ch' [= ->]. destruct (on_message_emits ch' m) as (k & -> & Hk). right. left. eauto. }
  unfold start in Hy. destruct (tasks _ !! _); [|done]. destruct (_ && _); [|done]. simplify_eq.
  split; [done|]. exists FORWARD_COST. split; [done|]. split; [|done]. rewrite (load_same (set_chan ch {| queue := q; socket := socket c |} y)) by done.
  unfold FORWARD_COST, QUEUE_COST in *. lia.
Qed.

(** A step of a task, or a message that is taken out of its channel. *)
Definition internal (y y' : Sys) : Prop :=
  (exists i, advance i y = Some y') \/ (exists ch, take_message on_message ch y = Some y').

(** Every forwarding task waits for messages or has ended, and no socket keeps it waiting. *)
Definition clients_read (y : Sys) : Prop :=
  forall ch c, chans y !! ch = Some c -> socket c = SocketReads /\
    exists t, tasks y !! FwdTask ch = Some t /\
      match code t with Ret => True | Leave _ => False | _ => looping t = true end.

(** *** Termination *)

Definition total (B : Tid -> nat) (y : Sys) : nat :=
  sum_list_with B (elements (dom (tasks y))) + QUEUE_COST * load y.

Lemma sum_set_budget i b B l : NoDup l -> i ∈ l ->
  (sum_list_with (set_budget i b B) l + B i = sum_list_with B l + b)%nat.
Proof.
  assert (forall l, i ∉ l -> sum_list_with (set_budget i b B) l = sum_list_with B l) as Hnot.
  { intros l'. induction l' as [|j l' IH]; [done|]. intros [Hj Hl]%not_elem_of_cons. cbn. rewrite IH by done.
    unfold set_budget. by rewrite decide_False by congruence. }
  induction 1 as [|j l Hj Hnd IH]; [set_solver|]. intros [->|Hi]%elem_of_cons; cbn.
  - rewrite Hnot by done. unfold set_budget. rewrite decide_True by done. lia.
  - unfold set_budget at 1. rewrite decide_False by (intros ->; done). specialize (IH Hi). lia.
Qed.

Lemma total_step i b B y y' : dom (tasks y') = dom (tasks y) -> i ∈ dom (tasks y) ->
  (b + QUEUE_COST * load y' < B i + QUEUE_COST * load y)%nat ->
  (total (set_budget i b B) y' < total B y)%nat.
Proof.
  intros Hd Hi Hlt. unfold total. rewrite Hd.
  pose proof (sum_set_budget i b B (elements (dom (tasks y))) (NoDup_elements _)
    (proj2 (elem_of_elements _ _) Hi)). lia.
Qed.

Lemma advance_tasks i y y' : advance i y = Some y' -> exists t, tasks y' = <[i := t]> (tasks y).
Proof.
  unfold advance. intros Hy. repeat case_match; simplify_eq; eexists; reflexivity.
Qed.

Lemma advance_dom i y y' : advance i y = Some y' -> dom (tasks y') = dom (tasks y) /\ i ∈ dom (tasks y).
Proof.
  intros Hy. destruct (advance_tasks _ _ _ Hy) as [t' ->]. unfold advance in Hy.
  destruct (tasks y !! i) as [t|] eqn:Et; [|done].
  assert (i ∈ dom (tasks y)) as Hi by (apply elem_of_dom; eauto). set_solver.
Qed.

Lemma internal_ok B y y' : sys_ok B y -> internal y y' ->
  exists B', (total B' y' < total B y)%nat /\ sys_ok B' y'.
Proof.
  intros Hok [[i Hy]|[ch Hy]].
  - destruct (advance_ok _ _ _ _ Hok Hy) as [_ (b & _ & Hb & Hok')]. destruct (advance_dom _ _ _ Hy).
    eexists. split; [by apply total_step|done].
  - destruct (take_message_ok _ _ _ _ Hok Hy) as [_ (b & _ & Hb & Hok')]. eexists. split; [|done].
    unfold take_message in Hy. destruct (chans y !! ch) as [c|]; [|done]. destruct (queue c); [done|].
    unfold start in Hy. cbn [tasks set_chan] in Hy. destruct (tasks y !! FwdTask ch) eqn:Et; [|done].
    destruct (_ && _); [|done]. simplify_eq.
    assert (FwdTask ch ∈ dom (tasks y)) by (apply elem_of_dom; eauto).
    apply total_step; [cbn; set_solver|done|done].
Qed.

Lemma internal_bounded n : forall B y y', sys_ok B y -> nsteps internal n y y' ->
  (n <= total B y)%nat /\ exists B', sys_ok B' y'.
Proof.
  induction n as [|n IH]; intros B y y' Hok Hn; inversion Hn as [|? ? y1 ? H1 H2]; subst.
  - split; [lia|eauto].
  - destruct (internal_ok _ _ _ Hok H1) as (B1 & Hlt & Hok1). destruct (IH _ _ _ Hok1 H2) as [Hle HB].
    split; [lia|done].
Qed.

(** *** Nobody waits for ever *)

(** A full channel: its message is taken, or the one being written gets through. *)
Lemma full_channel_steps B y ch c : sys_ok B y -> clients_read y -> chans y !! ch = Some c ->
  rx_dropped ch y = false -> queue c <> [] -> exists z, internal y z.
Proof.
  intros Hok Hr Hc Hdrop Hq. destruct (Hr _ _ Hc) as [Hsock (t & Ht & Hcode)].
  unfold rx_dropped in Hdrop. rewrite Ht in Hdrop.
  destruct (looping t) eqn:El; [|by destruct (code t); simplify_eq].
  destruct (so_reader _ _ Hok _ _ Ht El) as [E|[(m & k & E & _)|(k & E)]]; rewrite E in *; [| |done].
  - destruct (queue c) as [|m q] eqn:Eq; [done|]. eexists. right. exists ch. unfold take_message.
    rewrite Hc, Eq. unfold start. cbn [tasks set_chan]. rewrite Ht, El, E. done.
  - eexists. left. exists (FwdTask ch). unfold advance. rewrite Ht, E, Hc. cbn. rewrite Hsock. done.
Qed.

Lemma unlocked_steps B y i t : sys_ok B y -> clients_read y -> tasks y !! i = Some t ->
  match code t with Ret | Acquire _ _ => False | _ => True end -> exists z, internal y z.
Proof.
  intros Hok Hr Ht Hcode. destruct (so_task _ _ Hok _ _ Ht) as (held & Q & Ho & _ & _ & Hs).
  destruct (code t) as [| |l k|l k|k|A f k|ch m k|ch m k|k] eqn:Ec; try done; cbn [safe] in Hs;
    try (eexists; left; exists i; unfold advance; rewrite Ht, Ec; reflexivity).
  - eexists. left. exists i. unfold advance. rewrite Ht, Ec. rewrite bool_decide_eq_true_2 by (apply Ho, Hs).
    reflexivity.
  - destruct (f (shared y)) as [a x] eqn:Ef. eexists. left. exists i. unfold advance.
    rewrite Ht, Ec, Ef. reflexivity.
  - destruct (chans y !! ch) as [c|] eqn:Ech.
    2: { eexists. left. exists i. unfold advance. rewrite Ht, Ec, Ech. reflexivity. }
    destruct (rx_dropped ch y) eqn:Ed.
    { eexists. left. exists i. unfold advance. rewrite Ht, Ec, Ech, Ed. reflexivity. }
    destruct (length (queue c) <? SESSION_CHANNEL_CAPACITY)%nat eqn:El.
    { eexists. left. exists i. unfold advance. rewrite Ht, Ec, Ech, Ed, El. reflexivity. }
    eapply full_channel_steps; eauto. intros Hq. rewrite Hq in El. done.
  - destruct (chans y !! ch) as [c|] eqn:Ech; eexists; left; exists i; unfold advance;
      rewrite Ht, Ec, Ech; cbn; [rewrite (proj1 (Hr _ _ Ech))|]; reflexivity.
Qed.

(** A task that waits for a lock waits for its owner, which waits, if at all, for a lock of higher
    rank. *)
Lemma waiting_steps B y : sys_ok B y -> clients_read y -> forall d i t l k,
  tasks y !! i = Some t -> code t = Acquire l k -> (4 - rank l <= d)%nat -> exists z, internal y z.
Proof.
  intros Hok Hr d. induction d as [|d IH]; intros i t l k Ht Hc Hd.
  { destruct l; cbn in Hd; lia. }
  destruct (locks y !! l) as [j|] eqn:El.
  2: { eexists. left. exists i. unfold advance. rewrite Ht, Hc, El. reflexivity. }
  destruct (so_owner _ _ Hok _ _ El) as [t' Ht'].
  destruct (so_task _ _ Hok _ _ Ht') as (held & Q & Ho & _ & _ & Hs).
  assert (l ∈ held) as Hl by (by apply Ho).
  destruct (code t') as [| |l' k'| | | | | |] eqn:Ec;
    try (eapply (unlocked_steps B y j t'); eauto; by rewrite Ec).
  - cbn in Hs. set_solver.
  - destruct Hs as (_ & Hrank & _). specialize (Hrank l Hl). apply (IH j t' l' k' Ht' Ec). lia.
Qed.

Lemma internal_progress B y i t : sys_ok B y -> clients_read y -> tasks y !! i = Some t ->
  code t <> Ret -> exists z, internal y z.
Proof.
  intros Hok Hr Ht Hc. destruct (code t) as [| |l k| | | | | |] eqn:Ec; try done;
    try (eapply (unlocked_steps B y i t); eauto; by rewrite Ec).
  eapply (waiting_steps B y Hok Hr 4); eauto. lia.
Qed.

(** Clients that read go on reading. *)
Lemma internal_clients_read B y y' : sys_ok B y -> clients_read y -> internal y y' -> clients_read y'.
Proof.
  intros Hok Hr [[i Hy]|[ch0 Hy]] ch c' Hc'.
  - assert (exists c, chans y !! ch = Some c /\ socket c' = socket c) as (c & Hc & Hsk).
    { unfold advance in Hy. destruct (tasks y !! i) as [t|]; [|done].
      destruct (code t) as [| |l k|l k|k|A f k|ch1 m k|ch1 m k|k]; repeat case_match; simplify_eq;
        cbn in Hc'; eauto. destruct (decide (ch1 = ch)) as [->|]; simplify_map_eq; eauto. }
    rewrite Hsk. destruct (Hr _ _ Hc) as [Hs (t & Ht & Hcode)]. split; [done|].
    destruct (decide (i = FwdTask ch)) as [->|Hne].
    2: { exists t. split; [|done]. destruct (advance_tasks _ _ _ Hy) as [t' ->]. by rewrite lookup_insert_ne. }
    unfold advance in Hy. destruct (tasks y !! FwdTask ch) as [ti|] eqn:Ei; [|done].
    assert (ti = t) as -> by congruence. destruct (looping t) eqn:El.
    2: { by destruct (code t). }
    destruct (so_reader _ _ Hok _ _ Ei El) as [E|[(m & k & E & Et & _)|(k & E)]]; rewrite E in *; try done.
    rewrite Hc in Hy. cbn in Hy. rewrite Hs in Hy. simplify_eq. cbn. simplify_map_eq.
    eexists. split; [done|]. cbn. by rewrite Et.
  - unfold take_message in Hy. destruct (chans y !! ch0) as [c0|] eqn:E0; [|done].
    destruct (queue c0) as [|m q]; [done|]. unfold start in Hy. cbn [tasks set_chan] in Hy.
    destruct (tasks y !! FwdTask ch0) as [t0|] eqn:Et0; [|done].
    destruct (looping t0 && is_ret (code t0)) eqn:E; [|done]. simplify_eq. cbn in *.
    destruct (decide (ch0 = ch)) as [->|Hne]; simplify_map_eq.
    + split; [by apply (Hr ch)|]. eexists. split; [done|]. by destruct (on_message_emits ch m) as (k & -> & _).
    + destruct (Hr _ _ Hc') as [Hs (t & Ht & Hcode)]. split; [done|]. exists t. split; [|done]. by rewrite lookup_insert_ne by congruence.
Qed.

Lemma internal_run B y y' : sys_ok B y -> clients_read y -> rtc internal y y' ->
  clients_read y' /\ exists B', sys_ok B' y'.
Proof.
  intros Hok Hr Hrun. revert B Hok Hr. induction Hrun as [|y y1 y' H1 _ IH]; intros B Hok Hr; [eauto|].
  destruct (internal_ok _ _ _ Hok H1) as (B1 & _ & Hok1). exact (IH B1 Hok1 (internal_clients_read _ _ _ Hok Hr H1)).
Qed.

(** Between two events from outside every run of tasks ends, and then every task is done. *)
Lemma internal_completes B y : sys_ok B y -> clients_read y ->
  (forall n y', nsteps internal n y y' -> (n <= total B y)%nat) /\
  (forall y', rtc internal y y' -> (forall z, ~ internal y' z) ->
     forall i t, tasks y' !! i = Some t -> code t = Ret).
Proof.
  intros Hok Hr. split.
  - intros n y' Hn. by eapply internal_bounded.
  - intros y' Hrun Hstop i t Ht. destruct (internal_run _ _ _ Hok Hr Hrun) as [Hr' [B' Hok']].
    destruct (decide (is_ret (code t) = true)) as [E|E]; [by destruct (code t)|].
    destruct (internal_progress B' y' i t) as [z Hz]; try done; [|by destruct (Hstop z)].
    intros Hc. by rewrite Hc in E.
Qed.
End Forwarding.
End Logic.
