(* ===== verification/Interleaving.v ===== *)
(** * The tasks of the server keep its rules

    Every task of [ServerTasks] is [safe]: it takes its locks in order, keeps the invariant of the
    server, and changes the calls only as the peer of its session may.  [sys_run_ok] concludes
    that this holds of every run; [Concurrency] has the theorems. *)

From S2P Require Import Prelude Types Config Crypto Wire RateLimit Lru Server Session Rest Runtime ServerTasks TaskLogic.

Local Open Scope rust_scope.

Section Safe.
Context {S : SigScheme} {L : Lru} {LL : LruLaws L} {P : ServerProto}.

(** With [strict] the identifier of a call determines its two parties. *)
Context (strict : bool) (parties : string -> string * string).

Definition calls_map (x : Shared) : gmap string CallEntry := lru_map (calls (srv x)).

Record Inv (x : Shared) : Prop := {
  iv_srv : srv_ok (srv x);
  iv_parties k c : strict = true -> calls_map x !! k = Some c -> parties k = (caller_id c, callee_id c)
}.

Definition registered (p : string) (x : Shared) : Prop := is_Some (lru_map (peers (srv x)) !! p).

(** What a step of task [i] may do to the calls: the receiving task of a session acts for the
    peer of the session, other tasks leave them alone; and the parties of a new call are
    registered. *)
Record Guar (i : Tid) (x x' : Shared) : Prop := {
  gr_calls : match i with
    | RecvTask ch => forall p, strict = true -> holders x !! ch = Some (Some p) ->
        registry_step p (calls_map x) (calls_map x')
    | _ => calls (srv x') = calls (srv x)
    end;
  gr_new k c : calls_map x !! k = None -> calls_map x' !! k = Some c ->
    registered (caller_id c) x /\ registered (callee_id c) x
}.

(** What a receiving task knows: the peer its session holds. *)
Definition know (i : Tid) (h : option string) (x : Shared) : Prop :=
  match i with RecvTask ch => default None (holders x !! ch) = h | _ => True end.

Abbreviation ok i n held h p := (safe Inv Guar i n held (know i h) p).

Lemma know_stable i h held : stable Inv i held (know i h).
Proof. destruct i; [|done|done]. intros x x' _ _ _ Ho. cbn in *. by rewrite Ho. Qed.

Lemma know_srv i h x s : know i h x -> know i h (set_srv s x).
Proof. by destruct i. Qed.

(** ** What a piece of code may do *)

Lemma permitted_keep i held x s : Inv x -> srv_ok s ->
  (PeersLock ∈ held \/ peers s = peers (srv x)) -> (LimiterLock ∈ held \/ limiter s = limiter (srv x)) ->
  calls s = calls (srv x) -> permitted Inv Guar i held x (set_srv s x).
Proof.
  intros [Hs Hp] Hs' Hpe Hli Hca. assert (calls_map (set_srv s x) = calls_map x) as Hm
    by (unfold calls_map; cbn; by rewrite Hca).
  split.
  - split; [done|]. rewrite Hm. auto.
  - split; [|rewrite Hm; congruence]. destruct i; [|done|done]. rewrite Hm. constructor.
  - intros l Hl. destruct l; cbn; [destruct Hpe|done|destruct Hli|]; done.
  - intros j _. by destruct j.
Qed.

Lemma permitted_calls ch held h x s : Inv x -> know (RecvTask ch) h x -> srv_ok s ->
  peers s = peers (srv x) -> limiter s = limiter (srv x) -> CallsLock ∈ held ->
  (strict = true -> forall k c, lru_map (calls s) !! k = Some c -> parties k = (caller_id c, callee_id c)) ->
  (forall p, strict = true -> h = Some p -> registry_step p (calls_map x) (lru_map (calls s))) ->
  (forall k c, calls_map x !! k = None -> lru_map (calls s) !! k = Some c ->
     registered (caller_id c) x /\ registered (callee_id c) x) ->
  permitted Inv Guar (RecvTask ch) held x (set_srv s x).
Proof.
  intros [Hs Hp] Hk Hs' Hpe Hli Hheld Hpa Hreg Hnew. split.
  - split; [done|]. intros k c Hst. by apply Hpa.
  - split; [|done]. intros p Hst Hh. apply Hreg; [done|]. cbn in Hk. by rewrite Hh in Hk.
  - intros l Hl. by destruct l.
  - intros j _. by destruct j.
Qed.

Lemma permitted_deliver i held ch m x : Inv x -> push_first m -> permitted Inv Guar i held x (delivered ch m x).
Proof.
  intros Hx Hm. unfold delivered. apply permitted_keep; cbn; auto. apply ok_deliver; [apply Hx|done].
Qed.

(** ** Rules *)

Lemma ok_release i n held h l k : (0 < n)%nat -> l ∈ held -> ok i (n - 1) (held ∖ {[l]}) h k ->
  ok i n held h (Release l k).
Proof.
  intros Hn Hl Hk. cbn. split; [done|]. split; [done|]. exists (know i h). split; [done|].
  split; [apply know_stable|done].
Qed.

Lemma ok_srv i n held h {A} (f : Server -> A * Server) k : (0 < n)%nat ->
  (forall x, Inv x -> know i h x -> permitted Inv Guar i held x (set_srv (f (srv x)).2 x)) ->
  (forall x, Inv x -> know i h x -> ok i (n - 1) held h (k (f (srv x)).1)) ->
  ok i n held h (Data (on_srv f) k).
Proof.
  intros Hn Hf Hk. cbn. split; [done|]. intros x Hx HQ. specialize (Hf x Hx HQ). specialize (Hk x Hx HQ).
  unfold on_srv. destruct (f (srv x)) as [a s] eqn:E. cbn in *. split; [done|].
  exists (know i h). split; [by apply know_srv|]. split; [apply know_stable|done].
Qed.

Lemma ok_send_step i n held h ch m k : (SEND_COST <= n)%nat -> push_first m ->
  (forall b, ok i (n - SEND_COST) held h (k b)) -> ok i n held h (Send ch m k).
Proof.
  intros Hn Hm Hk. cbn [safe]. split; [done|]. split; [|done]. intros x Hx _. by apply permitted_deliver.
Qed.

Lemma ok_now i n held h k : (0 < n)%nat -> (forall c, ok i (n - 1) held h (k c)) -> ok i n held h (Now k).
Proof. by intros. Qed.

(** A lock may be taken. *)
Definition free (l : Lock) (held : gset Lock) : Prop := forall l', l' ∈ held -> (rank l' < rank l)%nat.

Lemma ok_acquire i n held h l k : (0 < n)%nat -> free l held -> ok i (n - 1) ({[l]} ∪ held) h k ->
  ok i n held h (Acquire l k).
Proof. by intros. Qed.

Lemma free_again l held : free l held -> ({[l]} ∪ held) ∖ {[l]} = held.
Proof.
  intros Hf. assert (l ∉ held) by (intros Hl; specialize (Hf l Hl); lia). set_solver.
Qed.

Lemma ok_locked i n held h l {A} (f : Server -> A * Server) k : (3 <= n)%nat -> free l held ->
  (forall x, Inv x -> know i h x -> permitted Inv Guar i ({[l]} ∪ held) x (set_srv (f (srv x)).2 x)) ->
  (forall x, Inv x -> know i h x -> ok i (n - 3) held h (k (f (srv x)).1)) ->
  ok i n held h (locked l f k).
Proof.
  intros Hn Hf Hp Hk. apply ok_acquire; [lia|done|]. apply ok_srv; [lia|done|]. intros x Hx HQ. apply ok_release; [lia|set_solver|].
  rewrite free_again by done. eapply safe_mono; [|by apply Hk]. lia.
Qed.

(** ** The rate limiter and the registries *)

Lemma free_above l l' held : free l' held -> (rank l' < rank l)%nat -> free l ({[l']} ∪ held).
Proof. intros Hf Hr l2 [->%elem_of_singleton|H]%elem_of_union; [done|]. specialize (Hf _ H). lia. Qed.

Lemma ok_check i n held h a p k : (4 <= n)%nat -> free LimiterLock held ->
  (forall b, ok i (n - 4) held h (k b)) -> ok i n held h (task_check a p k).
Proof.
  intros Hn Hf Hk. apply ok_acquire; [lia|done|]. apply ok_now; [lia|]. intros c. apply ok_srv; [lia| |].
  - intros x Hx _. destruct (limiter_check _ _ _ _) as [[r b]|]; apply permitted_keep; cbn; auto;
      try apply ok_set_limiter; try apply Hx. left. set_solver.
  - intros x Hx _. destruct (limiter_check _ _ _ _) as [[r b]|]; cbn [fst]; [|cbn; lia].
    apply ok_release; [lia|set_solver|]. rewrite free_again by done. eapply safe_mono; [|apply Hk]. lia.
Qed.

Lemma ok_forget i n held h p k : (3 <= n)%nat -> free LimiterLock held -> ok i (n - 3) held h k ->
  ok i n held h (task_forget p k).
Proof.
  intros Hn Hf Hk. apply ok_locked; [done|done| |done]. intros x Hx _. cbn [snd].
  apply permitted_keep; cbn; auto; [apply ok_set_limiter, Hx|]. left. set_solver.
Qed.

(** A method whose guard of [peers] lives for one piece of code. *)
Lemma ok_locked_peers i n held h {A} (f : Server -> A * Server) k : (3 <= n)%nat -> free PeersLock held ->
  (forall s, srv_ok s -> srv_ok (f s).2) ->
  (forall s, limiter (f s).2 = limiter s /\ calls (f s).2 = calls s) ->
  (forall x, Inv x -> know i h x -> ok i (n - 3) held h (k (f (srv x)).1)) ->
  ok i n held h (locked PeersLock f k).
Proof.
  intros Hn Hf Hs Hsame Hk. apply ok_locked; [done|done| |done]. intros x Hx _.
  destruct (Hsame (srv x)). apply permitted_keep; auto; [apply Hs, Hx|]. left. set_solver.
Qed.

Lemma register_keeps info o s : limiter (register_peer info o s) = limiter s /\ calls (register_peer info o s) = calls s.
Proof. unfold register_peer. by case_goal. Qed.

Lemma ok_register_peer i n held h info o k : (3 <= n)%nat -> free PeersLock held -> ok i (n - 3) held h k ->
  ok i n held h (task_register_peer info o k).
Proof.
  intros Hn Hf Hk. apply ok_locked_peers; auto; cbn; [|intros; apply register_keeps].
  intros s Hs. by apply ok_register.
Qed.

Lemma ok_get_peer_task i n held h p k : (3 <= n)%nat -> free PeersLock held ->
  (forall o, ok i (n - 3) held h (k o)) -> ok i n held h (task_get_peer p k).
Proof. intros Hn Hf Hk. apply ok_locked_peers; auto. intros s Hs. by apply ok_get_peer. Qed.

(** A change of the peers, after which the limiter may have to forget one. *)
Lemma ok_peers_then_forget i n held h (f : Server -> bool * Server) p k rest : (6 <= n)%nat ->
  free PeersLock held -> (forall s, srv_ok s -> srv_ok (f s).2) ->
  (forall s, limiter (f s).2 = limiter s /\ calls (f s).2 = calls s) ->
  ok i (n - 6) held h k ->
  (forall b, rest b = task_forget p (Release PeersLock k) \/ rest b = Release PeersLock k) ->
  ok i n held h (Acquire PeersLock (Data (on_srv f) rest)).
Proof.
  intros Hn Hf Hs Hsame Hk Hrest. apply ok_acquire; [lia|done|]. apply ok_srv; [lia| |].
  - intros x Hx _. destruct (Hsame (srv x)). apply permitted_keep; auto; [apply Hs, Hx|]. left. set_solver.
  - intros x _ _. assert (forall m, (n - 6 < m)%nat -> ok i m ({[PeersLock]} ∪ held) h (Release PeersLock k)) as Hrel.
    { intros m Hm. apply ok_release; [lia|set_solver|]. rewrite free_again by done.
      eapply safe_mono; [|done]. lia. }
    destruct (Hrest (f (srv x)).1) as [->| ->]; [|apply Hrel; lia].
    apply ok_forget; [lia|apply free_above; [done|cbn; lia]|]. apply Hrel. lia.
Qed.

Lemma ok_pop_peer k s : srv_ok s -> srv_ok (set_peers (lru_pop k (peers s)) s).
Proof. intros Hs. apply ok_set_peers; [done|by apply lru_ok_pop, ok_peers|by apply lru_pop_forall, ok_peer_keys]. Qed.

Lemma ok_unregister_task i n held h p k : (6 <= n)%nat -> free PeersLock held -> ok i (n - 6) held h k ->
  ok i n held h (task_unregister_peer p k).
Proof.
  intros Hn Hf Hk. eapply (ok_peers_then_forget _ _ _ _ _ p k); [done|done| | |done|intros []; auto].
  - intros s Hs. case_goal; [|done]. by apply ok_pop_peer.
  - intros s. by case_goal.
Qed.

Lemma ok_mark_offline p s : srv_ok s -> srv_ok (mark_offline p s).2.
Proof.
  intros Hs. unfold mark_offline. destruct (lru_map (peers s) !! p) as [e|]; [|done].
  pose proof (ok_promote_peer p s Hs) as Hs1. case_goal; [done|]. cbn [snd].
  apply ok_set_peers; [done|by apply lru_ok_modify, (ok_peers _ Hs1)|].
  by apply lru_modify_forall; [apply (ok_peer_keys _ Hs1)|].
Qed.

Lemma ok_disconnect_task i n held h p k : (6 <= n)%nat -> free PeersLock held -> ok i (n - 6) held h k ->
  ok i n held h (task_disconnect_peer p k).
Proof.
  intros Hn Hf Hk. eapply (ok_peers_then_forget _ _ _ _ _ p k); [done|done| | |done|intros []; auto].
  - apply ok_mark_offline.
  - intros s. unfold mark_offline. by repeat case_goal.
Qed.

Lemma ok_send_task i n held h p m k : (19 <= n)%nat -> free PeersLock held -> push_first m ->
  (forall r, ok i (n - 19) held h (k r)) -> ok i n held h (task_send_to_peer p m k).
Proof.
  intros Hn Hf Hm Hk. assert (forall m r, (n - 19 < m)%nat ->
    ok i m ({[PeersLock]} ∪ held) h (Release PeersLock (k r))) as Hrel.
  { intros m' r Hm'. apply ok_release; [lia|set_solver|]. rewrite free_again by done.
    eapply safe_mono; [|apply Hk]. lia. }
  apply ok_acquire; [lia|done|]. apply ok_srv; [lia| |].
  - intros x Hx _. apply permitted_keep; cbn; auto; [apply ok_promote_peer, Hx|]. left. set_solver.
  - intros x _ _. destruct (find_sender p (srv x)).1 as [ch|e]; [|apply Hrel; lia].
    apply ok_send_step; [unfold SEND_COST; lia|done|]. intros b. apply Hrel. unfold SEND_COST. lia.
Qed.

(** ** Calls *)

(** What the check of a handler has established about the peer of the session. *)
Definition party (h : option string) (id : string) : Prop :=
  forall p, strict = true -> h = Some p -> p = (parties id).1 \/ p = (parties id).2.

Definition agreed (id : string) (c : CallEntry) : Prop :=
  strict = true -> parties id = (caller_id c, callee_id c).

Lemma ok_get_call_task ch n held h id k : (3 <= n)%nat -> free CallsLock held ->
  (forall o, (forall c, o = Some c -> agreed id c /\ retry_count c = 0%Z) -> ok (RecvTask ch) (n - 3) held h (k o)) ->
  ok (RecvTask ch) n held h (task_get_call id k).
Proof.
  intros Hn Hf Hk. apply ok_locked; [done|done| |].
  - intros x Hx HQ. pose proof (iv_srv _ Hx) as Hs. apply (permitted_calls ch _ h); auto.
    + by apply ok_get_call.
    + set_solver.
    + intros Hst k' c. cbn. rewrite promote_map. by apply Hx.
    + intros p _ _. cbn. rewrite promote_map. constructor.
    + intros k' c Hnone. cbn. rewrite promote_map. unfold calls_map in Hnone. congruence.
  - intros x Hx _. apply Hk. cbn. intros c Hc. split; [intros Hst; by apply (iv_parties _ Hx)|].
    by apply (ok_call_entries _ (iv_srv _ Hx) _ _ Hc).
Qed.

(** A change of the entry of one call by a party to it. *)
Lemma ok_change_call ch n held h id {A} (f : Server -> A * Server) (g : CallEntry -> option CallEntry) k :
  (3 <= n)%nat -> free CallsLock held ->
  (forall s, srv_ok s -> srv_ok (f s).2) ->
  (forall s, peers (f s).2 = peers s /\ limiter (f s).2 = limiter s) ->
  (forall s, lru_map (calls (f s).2) = partial_alter (fun o => o ≫= g) id (lru_map (calls s))) ->
  (forall c c', g c = Some c' -> caller_id c' = caller_id c /\ callee_id c' = callee_id c) ->
  (forall m p c, strict = true -> h = Some p -> m !! id = Some c -> agreed id c ->
     registry_step p m (partial_alter (fun o => o ≫= g) id m)) ->
  (forall r, ok (RecvTask ch) (n - 3) held h (k r)) ->
  ok (RecvTask ch) n held h (locked CallsLock f k).
Proof.
  intros Hn Hf Hs Hsame Hmap Hg Hreg Hk. apply ok_locked; [done|done| |done].
  intros x Hx HQ. destruct (Hsame (srv x)). apply (permitted_calls ch _ h); auto.
  - apply Hs, Hx.
  - set_solver.
  - intros Hst k' c. rewrite Hmap. destruct (decide (k' = id)) as [->|].
    + rewrite lookup_partial_alter_eq. destruct (lru_map (calls (srv x)) !! id) as [c0|] eqn:E; [|done]. cbn.
      intros Hc. destruct (Hg _ _ Hc) as [-> ->]. by apply (iv_parties _ Hx).
    + rewrite lookup_partial_alter_ne by done. by apply (iv_parties _ Hx).
  - intros p Hst Hh. rewrite Hmap. fold (calls_map x). destruct (calls_map x !! id) as [c|] eqn:E.
    + eapply Hreg; eauto. intros _. by apply (iv_parties _ Hx).
    + replace (partial_alter _ _ _) with (calls_map x); [constructor|]. apply map_eq. intros j.
      destruct (decide (j = id)) as [->|]; [by rewrite lookup_partial_alter_eq, E|by rewrite lookup_partial_alter_ne].
  - intros k' c Hnone. rewrite Hmap. fold (calls_map x). destruct (decide (k' = id)) as [->|].
    + by rewrite lookup_partial_alter_eq, Hnone.
    + rewrite lookup_partial_alter_ne by done. congruence.
Qed.

Lemma modify_call_map f id e s :
  lru_map (calls (if lru_contains id (calls s) then (Ok tt, set_calls (lru_modify f id (calls s)) s)
                  else (Err (E := SignalingError) (A := unit) e, s)).2) =
  partial_alter (fun o => o ≫= (fun c => Some (f c))) id (lru_map (calls s)).
Proof.
  apply map_eq. intros j. unfold lru_contains. destruct (decide (j = id)) as [->|Hne].
  - rewrite lookup_partial_alter_eq. destruct (lru_map (calls s) !! id) as [c|] eqn:E; cbn; [|by rewrite E].
    by rewrite modify_map, lookup_alter_eq, E.
  - rewrite lookup_partial_alter_ne by done. case_goal; cbn; [|done]. by rewrite modify_map, lookup_alter_ne.
Qed.

Lemma alter_found (g : CallEntry -> CallEntry) id (m : gmap string CallEntry) c : m !! id = Some c ->
  partial_alter (fun o => o ≫= (fun c => Some (g c))) id m = <[id := g c]> m.
Proof.
  intros E. apply map_eq. intros j. destruct (decide (j = id)) as [->|].
  - by rewrite lookup_partial_alter_eq, lookup_insert_eq, E.
  - by rewrite lookup_partial_alter_ne, lookup_insert_ne.
Qed.

Lemma ok_accept_state ch n held h id k : (3 <= n)%nat -> free CallsLock held ->
  (forall p, strict = true -> h = Some p -> p = (parties id).2) ->
  (forall r, ok (RecvTask ch) (n - 3) held h (k r)) ->
  ok (RecvTask ch) n held h (task_update_call_state id STATE_ACCEPTED k).
Proof.
  intros Hn Hf Hp Hk. apply (ok_change_call ch _ _ _ id _ (fun c => Some (with_state STATE_ACCEPTED c))); auto.
  - intros s Hs. apply ok_update_state; [done|]. set_solver.
  - intros s. unfold update_call_state. by case_goal.
  - intros s. apply modify_call_map.
  - by intros c c' [= <-].
  - intros m p c Hst Hh Hc Ha. rewrite (alter_found _ _ _ _ Hc). apply reg_accept; [done|].
    specialize (Hp p Hst Hh). rewrite (Ha Hst) in Hp. by cbn in Hp.
Qed.

Lemma agreed_participant h id p c : party h id -> strict = true -> h = Some p -> agreed id c -> participant p c.
Proof. intros Hp Hst Hh Ha. specialize (Hp p Hst Hh). by rewrite (Ha Hst) in Hp. Qed.

Lemma ok_end_call_task ch n held h id r k : (4 <= n)%nat -> free CallsLock held -> party h id ->
  ok (RecvTask ch) (n - 4) held h k -> ok (RecvTask ch) n held h (task_end_call id r k).
Proof.
  intros Hn Hf Hp Hk. apply ok_now; [lia|]. intros c0.
  apply (ok_change_call ch _ _ _ id _ (fun c => Some (mark_ended (unix_secs c0) r c))); auto; [lia|..].
  - intros s Hs. by apply ok_end_call.
  - intros s. unfold end_call. by case_goal.
  - intros s. apply modify_call_map.
  - by intros c c' [= <-].
  - intros m p c Hst Hh Hc Ha. rewrite (alter_found _ _ _ _ Hc). apply reg_fail; [done|].
    by eapply agreed_participant.
  - intros _. eapply safe_mono; [|done]. lia.
Qed.

Lemma ok_remove_call_task ch n held h id k : (3 <= n)%nat -> free CallsLock held -> party h id ->
  ok (RecvTask ch) (n - 3) held h k -> ok (RecvTask ch) n held h (task_remove_call id k).
Proof.
  intros Hn Hf Hp Hk. assert (forall m : gmap string CallEntry,
    partial_alter (fun o => o ≫= (fun _ => None)) id m = delete id m) as Hdel.
  { intros m. apply map_eq. intros j. destruct (decide (j = id)) as [->|].
    - rewrite lookup_partial_alter_eq, lookup_delete_eq. by destruct (m !! id).
    - by rewrite lookup_partial_alter_ne, lookup_delete_ne. }
  apply (ok_change_call ch _ _ _ id _ (fun _ => None)); auto.
  - intros s Hs. by apply ok_remove_call.
  - intros s. rewrite Hdel. apply remove_call_map.
  - done.
  - intros m p c Hst Hh Hc Ha. rewrite Hdel. eapply reg_end; [done|]. by eapply agreed_participant.
Qed.

(** *** A new call *)

Definition both_known (call : CallEntry) (x : Shared) : Prop := unknown_party call (srv x) = None.

Lemma both_known_registered call x : both_known call x ->
  registered (caller_id call) x /\ registered (callee_id call) x.
Proof.
  unfold both_known, unknown_party, lru_contains, registered.
  destruct (lru_map (peers (srv x)) !! caller_id call); [|done].
  by destruct (lru_map (peers (srv x)) !! callee_id call).
Qed.

Lemma create_insert call s : unknown_party call s = None -> create_call call s = insert_call call s.
Proof.
  unfold unknown_party, create_call, insert_call. by repeat case_goal.
Qed.

Lemma permitted_insert ch held h call x : Inv x -> know (RecvTask ch) h x -> both_known call x ->
  CallsLock ∈ held -> call_ok (call_id call) call -> call_state call = STATE_RINGING ->
  agreed (call_id call) call -> (forall p, strict = true -> h = Some p -> caller_id call = p) ->
  permitted Inv Guar (RecvTask ch) held x (set_srv (insert_call call (srv x)).2 x).
Proof.
  intros Hx HQ Hb Hheld Hok Hring Hag Hcaller. pose proof (both_known_registered _ _ Hb) as Hreg.
  destruct (insert_call call (srv x)) as [r s'] eqn:E. cbn [snd].
  assert (srv_ok s') as Hs'.
  { replace s' with (create_call call (srv x)).2 by (by rewrite create_insert, E). apply ok_create_call; [apply Hx|done]. }
  assert (peers s' = peers (srv x) /\ limiter s' = limiter (srv x)) as [Hpe Hli].
  { unfold insert_call in E. destruct (lru_contains _ _); by injection E as _ <-. }
  pose proof (create_call_map call (srv x) r s' (iv_srv _ Hx)) as Hm. rewrite create_insert, E in Hm by done.
  specialize (Hm eq_refl). destruct r as [u|e]; [|apply permitted_keep; auto].
  destruct Hm as [Hnone Hm]. fold (calls_map x) in *.
  assert (forall k c, lru_map (calls s') !! k = Some c -> k = call_id call /\ c = call \/ calls_map x !! k = Some c) as Hin.
  { intros k c. destruct (decide (k = call_id call)) as [->|Hne].
    - destruct Hm as [->|(_ & j & _ & ->)]; rewrite lookup_insert_eq; intros [= <-]; auto.
    - destruct Hm as [->|(_ & j & _ & ->)]; rewrite lookup_insert_ne by done; auto.
      intros [_ H]%lookup_delete_Some. auto. }
  apply (permitted_calls ch _ h); auto.
  - intros Hst k c [[-> ->]|Hc]%Hin; [auto|by apply (iv_parties _ Hx)].
  - intros p Hst Hh. destruct Hm as [->|(Hsz & j & _ & ->)]; [apply reg_ring|apply reg_ring_full]; eauto.
  - intros k c Hk [[-> ->]|Hc]%Hin; [done|congruence].
Qed.

(** While the guard of [peers] is held the parties of the call stay registered. *)
Lemma both_known_stable i h call held :
  stable Inv i ({[PeersLock]} ∪ held) (fun x => know i h x /\ both_known call x).
Proof.
  intros x x' Hx Hx' Hfr Ho [HQ Hb]. split; [exact (know_stable i h _ x x' Hx Hx' Hfr Ho HQ)|].
  assert (peers (srv x') = peers (srv x)) as Hp by (apply (Hfr PeersLock); set_solver).
  unfold both_known, unknown_party in *. by rewrite Hp.
Qed.

Lemma ok_create_task ch n held h call k : (6 <= n)%nat -> free PeersLock held ->
  call_ok (call_id call) call -> call_state call = STATE_RINGING -> agreed (call_id call) call ->
  (forall p, strict = true -> h = Some p -> caller_id call = p) ->
  (forall r, ok (RecvTask ch) (n - 6) held h (k r)) -> ok (RecvTask ch) n held h (task_create_call call k).
Proof.
  intros Hn Hf Hok Hring Hag Hcaller Hk. set (i := RecvTask ch) in *.
  assert (forall m r, (n - 6 < m)%nat -> ok i m ({[PeersLock]} ∪ held) h (Release PeersLock (k r))) as Hrel.
  { intros m r Hm. apply ok_release; [lia|set_solver|]. rewrite free_again by done. eapply safe_mono; [|apply Hk]. lia. }
  apply ok_acquire; [lia|done|]. split; [lia|]. intros x Hx HQ. cbn [on_srv fst snd].
  split; [apply permitted_keep; auto; apply Hx|].
  destruct (unknown_party call (srv x)) as [e|] eqn:E.
  { exists (know i h). split; [by apply know_srv|]. split; [apply know_stable|]. apply Hrel. lia. }
  exists (fun x => know i h x /\ both_known call x). split; [done|]. split; [apply both_known_stable|].
  split; [lia|]. split; [apply free_above; [done|cbn; lia]|]. split; [lia|]. intros x1 Hx1 [HQ1 Hb1].
  pose proof (permitted_insert ch ({[CallsLock]} ∪ ({[PeersLock]} ∪ held)) h call x1) as Hp.
  unfold on_srv. destruct (insert_call call (srv x1)) as [r s1] eqn:Ei. cbn [fst snd] in *.
  split; [apply Hp; auto; set_solver|].
  exists (know i h). split; [by apply know_srv|]. split; [apply know_stable|].
  apply ok_release; [lia|set_solver|]. rewrite free_again by (apply free_above; [done|cbn; lia]). apply Hrel. lia.
Qed.

(** ** The holder of a session *)

Lemma read_holder_known ch h x : know (RecvTask ch) h x -> (read_holder ch x).1 = h.
Proof. done. Qed.

Lemma permitted_same i held x : Inv x -> permitted Inv Guar i held x x.
Proof.
  intros Hx. destruct x as [s hs d]. apply (permitted_keep i held {| srv := s; holders := hs; disconnected := d |} s); auto. apply Hx.
Qed.

Lemma ok_read_holder ch n held h k : (0 < n)%nat -> ok (RecvTask ch) (n - 1) held h (k h) ->
  ok (RecvTask ch) n held h (Data (read_holder ch) k).
Proof.
  intros Hn Hk. split; [done|]. intros x Hx HQ. rewrite (read_holder_known _ _ _ HQ). cbn [snd read_holder].
  split; [by apply permitted_same|]. exists (know (RecvTask ch) h). split; [done|]. split; [apply know_stable|done].
Qed.

Lemma free_empty l : free l ∅.
Proof. intros l'. set_solver. Qed.

Lemma ok_reply_task ch n held h ch' e msg k : (SEND_COST <= n)%nat -> ok (RecvTask ch) (n - SEND_COST) held h k ->
  ok (RecvTask ch) n held h (task_reply ch' e msg k).
Proof. intros Hn Hk. apply ok_send_step; [done|by apply push_first_other|done]. Qed.

Lemma ok_holder_check ch n h refused msg k : (19 <= n)%nat ->
  (refused h = false -> ok (RecvTask ch) (n - 3) ∅ h k) ->
  ok (RecvTask ch) n ∅ h (task_holder_check ch refused msg k).
Proof.
  intros Hn Hk. apply ok_acquire; [lia|apply free_empty|]. apply ok_read_holder; [lia|].
  assert (forall m k, (1 <= m)%nat -> ok (RecvTask ch) (m - 1) ∅ h k ->
    ok (RecvTask ch) m ({[HolderLock ch]} ∪ ∅) h (Release (HolderLock ch) k)) as Hrel.
  { intros m k' Hm Hk'. apply ok_release; [lia|set_solver|]. by rewrite free_again by apply free_empty. }
  destruct (refused h) eqn:E.
  - apply ok_reply_task; [unfold SEND_COST; lia|]. apply Hrel; [unfold SEND_COST; lia|done].
  - apply Hrel; [lia|]. eapply safe_mono; [|by apply Hk]. lia.
Qed.

Lemma ok_sending_peer ch n h k : (3 <= n)%nat -> ok (RecvTask ch) (n - 3) ∅ h (k h) ->
  ok (RecvTask ch) n ∅ h (task_sending_peer ch k).
Proof.
  intros Hn Hk. apply ok_acquire; [lia|apply free_empty|]. apply ok_read_holder; [lia|].
  apply ok_release; [lia|set_solver|]. rewrite free_again by apply free_empty. eapply safe_mono; [|done]. lia.
Qed.

(** The session takes another peer. *)
Lemma ok_set_holder ch n h h' k : (3 <= n)%nat -> ok (RecvTask ch) (n - 3) ∅ h' k ->
  ok (RecvTask ch) n ∅ h (Acquire (HolderLock ch) (Data (fun x => (tt, set_holder ch h' x))
    (fun _ => Release (HolderLock ch) k))).
Proof.
  intros Hn Hk. apply ok_acquire; [lia|apply free_empty|]. split; [lia|]. intros x Hx HQ. cbn [fst snd]. split.
  - split.
    + destruct Hx as [H1 H2]. by split.
    + split; [intros p _ _; constructor|]. intros k' c Hk1 Hk2. unfold calls_map in *. cbn in *. congruence.
    + intros l Hl. destruct l; cbn; try done. rewrite lookup_insert_ne; [done|]. intros ->. set_solver.
    + intros j Hj. destruct j as [c| |]; cbn; try done. rewrite lookup_insert_ne; [done|]. congruence.
  - exists (know (RecvTask ch) h'). split; [by cbn; simplify_map_eq|]. split; [apply know_stable|].
    apply ok_release; [lia|set_solver|]. rewrite free_again by apply free_empty. eapply safe_mono; [|done]. lia.
Qed.

(** ** Relay coordination and push retries *)

Lemma ok_read_srv i n held h {A} (f : Server -> A) k : (0 < n)%nat ->
  (forall a, ok i (n - 1) held h (k a)) -> ok i n held h (Data (on_srv (fun s => (f s, s))) k).
Proof.
  intros Hn Hk. apply ok_srv; [done| |auto]. intros x Hx _. cbn [snd]. apply permitted_keep; auto. apply Hx.
Qed.

Lemma ok_relay_task ch n h id a b k : (43 <= n)%nat -> (forall r, ok (RecvTask ch) (n - 43) ∅ h (k r)) ->
  ok (RecvTask ch) n ∅ h (task_relay_needed id a b k).
Proof.
  intros Hn Hk. assert (forall m r, (n - 43 <= m)%nat -> ok (RecvTask ch) m ∅ h (k r)) as Hk'
    by (intros; eapply safe_mono; [|apply Hk]; lia).
  apply ok_read_srv; [lia|]. intros [proxy|]; [|apply Hk'; lia].
  apply ok_now; [lia|]. intros c. apply ok_read_srv; [lia|]. intros t1.
  apply ok_now; [lia|]. intros c'. apply ok_read_srv; [lia|]. intros t2.
  apply ok_send_task; [lia|apply free_empty|by apply push_first_other|]. intros [u|e]; [|apply Hk'; lia].
  apply ok_send_task; [lia|apply free_empty|by apply push_first_other|]. intros r. apply Hk'. lia.
Qed.

Lemma next_retry_first m config a ms : next_retry m 0 config = Some (Some (a, ms)) -> a = 1%Z.
Proof.
  unfold next_retry. case_goal; [done|]. rewrite arith_in_range by lia. by repeat case_goal; intros [= <- _].
Qed.

Lemma ok_retry_task ch n h m id a b r o k : (24 <= n)%nat -> ok (RecvTask ch) (n - 24) ∅ h k ->
  ok (RecvTask ch) n ∅ h (task_retryable_failure m id a b r o 0 k).
Proof.
  intros Hn Hk. assert (forall m, (n - 24 <= m)%nat -> ok (RecvTask ch) m ∅ h k) as Hk'
    by (intros; eapply safe_mono; [|apply Hk]; lia).
  apply ok_srv; [lia| |].
  { intros x Hx _. cbn [snd]. apply permitted_keep; auto. apply Hx. }
  intros x _ _. cbn [fst]. destruct (next_retry m 0 _) as [[[attempt ms]|]|] eqn:E; [|cbn; lia|apply Hk'; lia].
  apply next_retry_first in E as ->.
  apply ok_send_task; [lia|apply free_empty|intros _; by repeat eexists|]. intros _.
  apply ok_get_peer_task; [lia|apply free_empty|]. intros info.
  destruct (info ≫= pi_fcm_token); [|apply Hk'; lia].
  apply ok_srv; [lia| |intros; apply Hk'; lia].
  intros x' Hx' _. cbn [snd]. apply permitted_keep; auto. by apply ok_notify; [apply Hx'|].
Qed.

(** ** The handlers *)

Ltac handler :=
  repeat lazymatch goal with
  | |- free _ ∅ => apply free_empty
  | |- (_ <= _)%nat => unfold SEND_COST; lia
  | |- (_ < _)%nat => unfold SEND_COST; lia
  | |- safe _ _ _ _ _ _ ?p =>
      lazymatch p with
      | Ret => reflexivity
      | task_reply _ _ _ _ => apply ok_reply_task
      | task_check _ _ _ => apply ok_check; [| |intros []; cbn [negb]]
      | task_holder_check _ _ _ _ => apply ok_holder_check; [|intros ?]
      | task_sending_peer _ _ => apply ok_sending_peer
      | Now _ => apply ok_now; [|intros ?]
      | task_register_peer _ _ _ => apply ok_register_peer
      | task_unregister_peer _ _ => apply ok_unregister_task
      | Acquire (HolderLock _) _ => apply ok_set_holder
      | task_send_to_peer _ _ _ => apply ok_send_task; [| |by apply push_first_other|intros [?|?]]
      | task_get_call _ _ => apply ok_get_call_task; [| |intros [?|] ?]
      | task_end_call _ _ _ => apply ok_end_call_task
      | task_remove_call _ _ => apply ok_remove_call_task
      | task_relay_needed _ _ _ _ => apply ok_relay_task; [|intros [?|?]]
      end
  end.

Lemma ok_peer_register_task ch n h pl : (100 <= n)%nat -> ok (RecvTask ch) n ∅ h (task_peer_register ch pl).
Proof. intros Hn. unfold task_peer_register. destruct (prost_decode pl) as [msg|]; handler. Qed.

Lemma ok_peer_unregister_task ch n h pl : (100 <= n)%nat -> ok (RecvTask ch) n ∅ h (task_peer_unregister ch pl).
Proof. intros Hn. unfold task_peer_unregister. destruct (prost_decode pl) as [msg|]; handler. Qed.

(** A request for a call names the parties that its identifier stands for. *)
Definition request_agrees (pl : list Z) : Prop := forall msg, strict = true ->
  prost_decode pl = Some msg -> parties (cr_call_id msg) = (cr_caller_id msg, cr_callee_id msg).

Lemma ok_call_request_task ch n h pl : (100 <= n)%nat -> request_agrees pl ->
  ok (RecvTask ch) n ∅ h (task_call_request ch pl).
Proof.
  intros Hn Hag. unfold task_call_request. destruct (prost_decode pl) as [msg|] eqn:Ed; [|handler].
  assert (forall p, holder_differs h (cr_caller_id msg) = false -> h = Some p -> p = cr_caller_id msg) as Hh
    by (intros p Hd ->; by apply holder_same).
  assert (holder_differs h (cr_caller_id msg) = false -> party h (cr_call_id msg)) as Hpa.
  { intros Hd p Hst Hp. left. by rewrite (Hag msg Hst Ed), (Hh p Hd Hp). }
  handler. apply ok_create_task; handler; auto.
  - apply new_call_ok.
  - intros Hst. by apply Hag.
  - intros p _ Hp. cbn. symmetry. auto.
  - intros [u|e]; handler; auto.
Qed.

Lemma agreed_party h id c : (forall o, Some c = Some o -> agreed id o /\ retry_count o = 0%Z) ->
  not_participant h c = false -> party h id.
Proof.
  intros Hc Hn p Hst ->. destruct (Hc c eq_refl) as [Ha _]. rewrite (Ha Hst).
  by apply not_participant_false in Hn.
Qed.

Lemma agreed_callee h id c : (forall o, Some c = Some o -> agreed id o /\ retry_count o = 0%Z) ->
  holder_differs h (callee_id c) = false -> forall p, strict = true -> h = Some p -> p = (parties id).2.
Proof.
  intros Hc Hd p Hst ->. destruct (Hc c eq_refl) as [Ha _]. rewrite (Ha Hst). by apply holder_same.
Qed.

Lemma ok_call_accept_task ch n h pl : (100 <= n)%nat -> ok (RecvTask ch) n ∅ h (task_call_accept ch pl).
Proof.
  intros Hn. unfold task_call_accept. destruct (prost_decode pl) as [msg|]; handler.
  apply ok_accept_state; handler; [by eapply agreed_callee|]. intros [u|e]; handler.
Qed.

Lemma ok_call_reject_task ch n h pl : (100 <= n)%nat -> ok (RecvTask ch) n ∅ h (task_call_reject ch pl).
Proof.
  intros Hn. unfold task_call_reject. destruct (prost_decode pl) as [msg|]; handler.
  all: intros p Hst Hp; right; by eapply agreed_callee.
Qed.

Lemma ok_call_failed_task ch n m h pl : (100 <= n)%nat -> ok (RecvTask ch) n ∅ h (task_call_failed m ch pl).
Proof.
  intros Hn. unfold task_call_failed. destruct (prost_decode pl) as [msg|]; handler.
  destruct (not_participant h c) eqn:Enp; [handler|]. pose proof (agreed_party _ _ _ H Enp) as Hpa.
  destruct (H c eq_refl) as [_ Hr]. rewrite Hr.
  assert (forall k, (4 <= k)%nat -> ok (RecvTask ch) k ∅ h (task_end_call (cf_call_id msg)
    (Some (cf_description msg)) Ret)) as Hend by (intros; handler; done).
  repeat (handler; try lazymatch goal with
    | |- safe _ _ _ _ _ _ (if ?b then _ else _) => destruct b
    | |- safe _ _ _ _ _ _ (task_retryable_failure _ _ _ _ _ _ _ _) => apply ok_retry_task
    end); done.
Qed.

Lemma ok_call_ended_task ch n h pl : (100 <= n)%nat -> ok (RecvTask ch) n ∅ h (task_call_ended ch pl).
Proof.
  intros Hn. unfold task_call_ended. destruct (prost_decode pl) as [msg|]; handler.
  destruct (not_participant h c) eqn:Enp; [handler|]. pose proof (agreed_party _ _ _ H Enp) as Hpa.
  handler; done.
Qed.

(** A frame asks for no call, or for one that agrees. *)
Definition frame_agrees (data : list Z) : Prop := forall f,
  framed_from_bytes data = Some f -> type_id f = CALL_REQUEST_CS -> request_agrees (framed_payload f).

Lemma ok_dispatch_task ch n m h f : (100 <= n)%nat ->
  (type_id f = CALL_REQUEST_CS -> request_agrees (framed_payload f)) ->
  ok (RecvTask ch) n ∅ h (task_dispatch m ch f).
Proof.
  intros Hn Hag. unfold task_dispatch.
  destruct (type_id f =? PEER_REGISTER)%Z; [by apply ok_peer_register_task|].
  destruct (type_id f =? PEER_UNREGISTER)%Z; [by apply ok_peer_unregister_task|].
  destruct (type_id f =? CALL_REQUEST_CS)%Z eqn:E; [apply ok_call_request_task; [done|]; apply Hag; lia|].
  destruct (type_id f =? CALL_ACCEPT_CS)%Z; [by apply ok_call_accept_task|].
  destruct (type_id f =? CALL_REJECT_CS)%Z; [by apply ok_call_reject_task|].
  destruct (type_id f =? CALL_FAILED)%Z; [by apply ok_call_failed_task|].
  destruct (type_id f =? CALL_ENDED)%Z; [by apply ok_call_ended_task|]. handler.
Qed.

Definition RECEIVE_COST : nat := 112.

Lemma ok_receive_task ch m h data : frame_agrees data ->
  ok (RecvTask ch) RECEIVE_COST ∅ h (task_receive m ch data).
Proof.
  intros Hag. unfold task_receive, RECEIVE_COST. destruct (zlen data <? 2)%Z; [done|].
  destruct (framed_from_bytes data) as [f|] eqn:Ef; [|done].
  handler. destruct h as [p|]; handler; apply ok_dispatch_task; handler; by apply Hag.
Qed.

(** ** The end of a session, and HTTP requests *)

Lemma ok_read_any i n held h ch k : (0 < n)%nat -> (forall o, ok i (n - 1) held h (k o)) ->
  ok i n held h (Data (read_holder ch) k).
Proof.
  intros Hn Hk. split; [done|]. intros x Hx HQ. cbn [snd read_holder]. split; [by apply permitted_same|].
  exists (know i h). split; [done|]. split; [apply know_stable|auto].
Qed.

Lemma ok_exchange i n held h ch k : (0 < n)%nat -> (forall b, ok i (n - 1) held h (k b)) ->
  ok i n held h (Data (exchange_flag ch) k).
Proof.
  intros Hn Hk. split; [done|]. intros x Hx HQ. unfold exchange_flag.
  destruct (default true (disconnected x !! ch)); cbn [fst snd].
  - split; [by apply permitted_same|]. exists (know i h). split; [done|]. split; [apply know_stable|auto].
  - split.
    + pose proof (permitted_same i held x Hx) as [H1 H2 H3 H4]. split.
      * by destruct H1.
      * by destruct H2.
      * intros l Hl. by destruct l.
      * intros j Hj. by destruct j.
    + exists (know i h). split; [done|]. split; [apply know_stable|auto].
Qed.

Lemma ok_cleanup_task i n h ch : (12 <= n)%nat -> ok i n ∅ h (task_cleanup ch).
Proof.
  intros Hn. apply ok_exchange; [lia|]. intros []; [|done].
  apply ok_acquire; [lia|apply free_empty|]. apply ok_read_any; [lia|].
  assert (forall m, (0 < m)%nat -> ok i m ({[HolderLock ch]} ∪ ∅) h (Release (HolderLock ch) Ret)) as Hrel.
  { intros m Hm. apply ok_release; [done|set_solver|]. by rewrite free_again by apply free_empty. }
  intros [p|]; [|apply Hrel; lia].
  apply ok_disconnect_task; [lia|apply free_above; [apply free_empty|cbn; lia]|]. apply Hrel. lia.
Qed.

Lemma ok_forward_task ch m : safe Inv Guar (FwdTask ch) FORWARD_COST ∅ (fun _ => True) (task_forward ch m).
Proof.
  unfold FORWARD_COST. split; [lia|]. intros []; [done|]. split; [lia|].
  apply (ok_cleanup_task (FwdTask ch) _ None). lia.
Qed.

Lemma ok_http_task k n call : (12 <= n)%nat -> ok (HttpTask k) n ∅ None (task_http call).
Proof.
  intros Hn. destruct call as [body|auth p body|auth p|p|name|p q|order]; cbn [task_http].
  - destruct (parse_peer_id _); [|done]. apply ok_check; [lia|apply free_empty|]. intros []; [|done]. cbn [negb].
    apply ok_now; [lia|]. intros c. apply ok_register_peer; [lia|apply free_empty|done].
  - case_bool_decide; [|done]. cbn [negb]. apply ok_get_peer_task; [lia|apply free_empty|]. intros [e|]; [|done].
    apply ok_now; [lia|]. intros c. apply ok_register_peer; [lia|apply free_empty|done].
  - case_bool_decide; [|done]. cbn [negb]. apply ok_unregister_task; [lia|apply free_empty|done].
  - apply ok_get_peer_task; [lia|apply free_empty|done].
  - apply ok_locked_peers; [lia|apply free_empty|done|done|done].
  - apply ok_get_peer_task; [lia|apply free_empty|]. intros [e|]; [|done].
    apply ok_get_peer_task; [lia|apply free_empty|done].
  - apply ok_acquire; [lia|apply free_empty|]. apply ok_now; [lia|]. intros c. apply ok_srv; [lia| |].
    + intros x Hx _. cbn [snd]. apply permitted_keep; cbn; auto; [apply ok_set_limiter, Hx|]. left. set_solver.
    + intros x _ _. apply ok_release; [lia|set_solver|]. by rewrite free_again by apply free_empty.
Qed.

(** ** All interleavings *)

Definition event_agrees (e : Event) : Prop :=
  match e with Frame _ _ data => frame_agrees data | _ => True end.

Lemma open_ok B ch p y y' : sys_ok Inv Guar B y -> open_session ch p y = Some y' -> sys_ok Inv Guar B y'.
Proof.
  intros Hok Hy. pose proof Hok as [H1 H2 H3 H4 H5]. unfold open_session in Hy. case_bool_decide as Hfresh; [|done].
  destruct Hfresh as (Hl & Hr & Hf).
  assert (owns y (RecvTask ch) ∅ /\ owns y (FwdTask ch) ∅) as [Hor Hof]
    by (split; eapply (idle_owns _ _ B); [done|by rewrite Hr|done|by rewrite Hf]).
  simplify_eq. split; cbn [shared locks chans tasks].
  - by destruct H1.
  - intros i t Hi. destruct (decide (i = RecvTask ch)) as [->|Hnr].
    { rewrite lookup_insert_eq in Hi. injection Hi as <-. by apply task_ok_ret. }
    rewrite lookup_insert_ne in Hi by done. destruct (decide (i = FwdTask ch)) as [->|Hnf].
    { rewrite lookup_insert_eq in Hi. injection Hi as <-. by apply task_ok_ret. }
    rewrite lookup_insert_ne in Hi by done. destruct (H2 i t Hi) as (held & Q & Ho & HQ & Hst & Hs).
    exists held, Q. split; [done|]. split; [|done]. apply (Hst (shared y)); try done; [by destruct H1| |].
    + intros l Hin. destruct l as [| | |c]; cbn; try done. rewrite lookup_insert_ne; [done|].
      intros <-. apply Ho in Hin. congruence.
    + destruct i as [c| |]; cbn; try done. rewrite lookup_insert_ne; [done|]. congruence.
  - intros l i Hli. destruct (decide (i = RecvTask ch)) as [->|]; [by simplify_map_eq|].
    destruct (decide (i = FwdTask ch)) as [->|]; [by simplify_map_eq|]. simplify_map_eq. eauto.
  - intros c t. rewrite lookup_insert_ne by done. destruct (decide (c = ch)) as [->|].
    + rewrite lookup_insert_eq. intros [= <-] _. by left.
    + rewrite lookup_insert_ne by congruence. apply H4.
  - intros c Hc. rewrite lookup_insert_ne by done. destruct (decide (c = ch)) as [->|Hne].
    + rewrite lookup_insert_eq. by eexists.
    + rewrite lookup_insert_ne in Hc by done. rewrite lookup_insert_ne by congruence. auto.
Qed.

(** What an event changes of the shared state: a step of a task keeps its guarantee. *)
Definition event_guarantee (e : Event) (x x' : Shared) : Prop :=
  match e with
  | Advance i => x' = x \/ Guar i x x'
  | Open _ _ => srv x' = srv x
  | _ => x' = x
  end.

Lemma emits_forward ch m : exists k,
  task_forward ch m = Emit ch m k /\ k true = Ret /\ exists k', k false = Leave k'.
Proof. eexists. split; [done|]. split; [done|]. by eexists. Qed.

Lemma start_shared i p y y' : start i p y = Some y' -> shared y' = shared y.
Proof. unfold start. intros H. by repeat case_match; simplify_eq. Qed.

Lemma finish_shared i p y y' : finish i p y = Some y' -> shared y' = shared y.
Proof. unfold finish. intros H. by repeat case_match; simplify_eq. Qed.

Definition budgets (B : Tid -> nat) : Prop := forall i, (B i <= RECEIVE_COST)%nat.

Lemma budgets_set B i b : budgets B -> (b <= RECEIVE_COST)%nat -> budgets (set_budget i b B).
Proof. intros HB Hb j. unfold set_budget. by destruct (decide (j = i)). Qed.

Lemma advance_step_ok B i y y' : budgets B -> sys_ok Inv Guar B y -> advance i y = Some y' ->
  (shared y' = shared y \/ Guar i (shared y) (shared y')) /\ exists B', budgets B' /\ sys_ok Inv Guar B' y'.
Proof.
  intros HB Hok Hy. destruct (advance_ok _ _ _ _ _ _ Hok Hy) as [Hg (b & Hb & _ & Hok')].
  split; [done|]. eexists. split; [|done]. apply budgets_set; [done|]. specialize (HB i). lia.
Qed.

(** An event that gives a task its code. *)
Lemma begin_ok B i b y' : budgets B -> (b <= RECEIVE_COST)%nat -> sys_ok Inv Guar (set_budget i b B) y' ->
  exists B', budgets B' /\ sys_ok Inv Guar B' y'.
Proof. intros HB Hb Hok. eexists. split; [|done]. by apply budgets_set. Qed.

Lemma sys_step_ok B e y y' : budgets B -> event_agrees e -> sys_ok Inv Guar B y -> sys_step e y = Some y' ->
  event_guarantee e (shared y) (shared y') /\ exists B', budgets B' /\ sys_ok Inv Guar B' y'.
Proof.
  intros HB He Hok Hy.
  assert (12 <= RECEIVE_COST)%nat as Hc12 by (unfold RECEIVE_COST; lia).
  destruct e as [i|ch|ch p|ch m data|ch|ch|ch sk|c|n call|n]; cbn [sys_step event_guarantee] in *.
  - by apply (advance_step_ok B).
  - destruct (take_message_ok _ _ _ ok_forward_task emits_forward _ _ _ _ Hok Hy) as [Hs (b & Hb & _ & Hok')].
    split; [done|]. eapply begin_ok; [done| |done]. unfold FORWARD_COST, RECEIVE_COST in *. lia.
  - split; [|exists B; split; [done|by eapply open_ok]]. unfold open_session in Hy. case_match; by simplify_eq.
  - split; [by eapply start_shared|]. eapply (begin_ok B (RecvTask ch) RECEIVE_COST); [done|done|].
    by eapply (start_ok Inv Guar B (RecvTask ch) RECEIVE_COST _
      (know (RecvTask ch) (default None (holders (shared y) !! ch))));
      [done|done|reflexivity|apply know_stable|apply ok_receive_task|].
  - split; [by eapply finish_shared|]. eapply (begin_ok B (RecvTask ch) 12); [done|done|].
    by eapply (finish_ok Inv Guar B (RecvTask ch) 12 _
      (know (RecvTask ch) (default None (holders (shared y) !! ch))));
      [done|done|reflexivity|apply know_stable|apply ok_cleanup_task].
  - destruct (chans y !! ch); [|done]. destruct (_ && _); [|done]. split; [by eapply finish_shared|].
    eapply (begin_ok B (FwdTask ch) 12); [done|done|].
    by eapply (finish_ok Inv Guar B (FwdTask ch) 12 _ (know (FwdTask ch) None));
      [done|done|done|apply know_stable|apply ok_cleanup_task].
  - destruct (chans y !! ch) eqn:E; [|done]. simplify_eq. split; [done|]. exists B. split; [done|].
    apply set_chan_ok; eauto.
  - simplify_eq. split; [done|]. exists B. split; [done|]. destruct Hok as [H1 H2 H3 H4 H5]. by split.
  - unfold spawn in Hy. split; [by case_match; simplify_eq|]. eapply (begin_ok B (HttpTask n) 12); [done|done|].
    by eapply (spawn_ok Inv Guar B (HttpTask n) 12 _ (know (HttpTask n) None));
      [done|done|done|apply know_stable|apply ok_http_task].
  - case_match; [|done]. simplify_eq. split; [done|]. eapply (begin_ok B (HttpTask n) 0); [done|lia|].
    by apply drop_task_ok.
Qed.

Lemma sys_new_ok s c : srv_ok s -> lru_map (calls s) = ∅ -> sys_ok Inv Guar (fun _ => 0%nat) (sys_new s c).
Proof.
  intros Hs Hc. split; cbn; try done.
  - split; [done|]. intros k d _. unfold calls_map. cbn. by rewrite Hc.
  - by intros ch [].
Qed.

Lemma sys_run_ok es : forall B y y', budgets B -> Forall event_agrees es -> sys_ok Inv Guar B y ->
  sys_run es y = Some y' -> exists B', budgets B' /\ sys_ok Inv Guar B' y'.
Proof.
  induction es as [|e es IH]; intros B y y' HB Hes Hok Hrun; cbn in Hrun; [simplify_eq; eauto|].
  apply Forall_cons in Hes as [He Hes]. destruct (sys_step e y) as [y1|] eqn:E; [|done].
  destruct (sys_step_ok B e y y1) as [_ (B1 & HB1 & Hok1)]; eauto.
Qed.
End Safe.

(** The work that the tasks have before them. *)
Lemma total_bound {S : SigScheme} {L : Lru} B (y : Sys) : budgets B ->
  (total B y <= RECEIVE_COST * size (tasks y) + QUEUE_COST * load y)%nat.
Proof.
  intros HB. unfold total. rewrite <- (size_dom (tasks y)). unfold size, set_size. cbn [compose].
  assert (forall l, (sum_list_with B l <= RECEIVE_COST * length l)%nat) as Hsum.
  { induction l as [|i l IH]; cbn [sum_list_with length]; [lia|]. specialize (HB i). lia. }
  specialize (Hsum (elements (dom (tasks y)))). lia.
Qed.

(** Without [strict] every frame agrees. *)
Lemma agrees_always {P : ServerProto} parties e : event_agrees false parties e.
Proof. by destruct e. Qed.
