(* ===== verification/Sequential.v ===== *)
(** * A frame that is handled alone

    The tasks of [ServerTasks] and the handlers of [Session] are two translations of the same
    code, with and without the gaps at its awaits.  Here they are shown to agree: a receiving
    task that nobody interrupts, with room in the channels, does what the handler does. *)

From S2P Require Import Prelude Types Config Crypto Wire RateLimit Lru Server Session Rest Runtime ServerTasks TaskLogic Interleaving.

Local Open Scope rust_scope.

Section Sequential.
Context {S : SigScheme} {L : Lru} {P : ServerProto} (c : Ctx).

Abbreviation alone_run p x := (solo (chan_open c) (clock c) p x).

(** The shared state after session [ch] was left with [st]. *)
Definition put_session (ch : Z) (x : Shared) (st : session_state) : Shared :=
  {| srv := st.2; holders := <[ch := st.1]> (holders x); disconnected := disconnected x |}.

Lemma put_same ch x h s : holders x !! ch = Some h -> put_session ch x (h, s) = set_srv s x.
Proof. intros H. unfold put_session, set_srv. cbn. by rewrite insert_id. Qed.

Lemma set_srv_same x : set_srv (srv x) x = x.
Proof. by destruct x. Qed.

Lemma solo_check a p k x :
  alone_run (task_check a p k) x =
    let?o (s, b) := check_limit c a p (srv x) in alone_run (k b) (set_srv s x).
Proof.
  cbn. unfold check_limit, on_srv. by destruct (limiter_check _ _ _ _) as [[r b]|].
Qed.

Lemma solo_register info o k x :
  alone_run (task_register_peer info o k) x = alone_run k (set_srv (register_peer info o (srv x)) x).
Proof. done. Qed.

Lemma solo_get_peer p k x :
  alone_run (task_get_peer p k) x =
    let '(o, s) := get_peer p (srv x) in alone_run (k o) (set_srv s x).
Proof. done. Qed.

Lemma solo_unregister p k x :
  alone_run (task_unregister_peer p k) x = alone_run k (set_srv (unregister_peer p (srv x)) x).
Proof.
  cbn. unfold unregister_peer, lru_contains, on_srv. by destruct (lru_map (peers (srv x)) !! p).
Qed.

Lemma solo_send p m k x :
  alone_run (task_send_to_peer p m k) x =
    let '(r, s) := send_to_peer (chan_open c) p m (srv x) in alone_run (k r) (set_srv s x).
Proof.
  cbn. unfold send_to_peer. destruct (lru_map (peers (srv x)) !! p) as [e|]; cbn; [|done].
  destruct (pe_sender e) as [ch|]; cbn; [|done]. by destruct (chan_open c ch).
Qed.

Lemma solo_create call k x :
  alone_run (task_create_call call k) x =
    let '(r, s) := create_call call (srv x) in alone_run (k r) (set_srv s x).
Proof.
  cbn. unfold create_call, unknown_party. repeat case_goal; try done; cbn; unfold insert_call, on_srv; cbn;
    by match goal with H : lru_contains (call_id call) _ = _ |- _ => rewrite H end.
Qed.

Lemma solo_update id st k x :
  alone_run (task_update_call_state id st k) x =
    let '(r, s) := update_call_state id st (srv x) in alone_run (k r) (set_srv s x).
Proof. cbn. unfold on_srv. by destruct (update_call_state id st (srv x)). Qed.

Lemma solo_end id r k x :
  alone_run (task_end_call id r k) x = alone_run k (set_srv (end_call (clock c) id r (srv x)).2 x).
Proof. cbn. unfold on_srv. by destruct (end_call (clock c) id r (srv x)). Qed.

Lemma solo_remove id k x :
  alone_run (task_remove_call id k) x = alone_run k (set_srv (remove_call id (srv x)) x).
Proof. done. Qed.

Lemma solo_get_call id k x :
  alone_run (task_get_call id k) x = let '(o, s) := get_call id (srv x) in alone_run (k o) (set_srv s x).
Proof. done. Qed.

Lemma solo_reply e msg k x :
  alone_run (task_reply (tx c) e msg k) x = alone_run k (set_srv (reply_error c e msg (srv x)) x).
Proof.
  cbn. unfold reply_error, reply, delivered. destruct (chan_open c (tx c)); [done|]. by rewrite set_srv_same.
Qed.

Lemma solo_relay id a b k x :
  alone_run (task_relay_needed id a b k) x =
    let '(r, s) := send_relay_needed (chan_open c) (clock c) id a b (srv x) in alone_run (k r) (set_srv s x).
Proof.
  unfold send_relay_needed, task_relay_needed. cbn [solo on_srv fst snd]. rewrite set_srv_same.
  destruct (select_proxy (srv x)) as [proxy|]; [|by rewrite set_srv_same].
  cbn [solo on_srv fst snd]. rewrite !set_srv_same, solo_send.
  destruct (send_to_peer _ a _ (srv x)) as [[u|e] s]; [|done]. rewrite solo_send. cbn [srv set_srv].
  by destruct (send_to_peer _ b _ s).
Qed.

Lemma solo_retry id a b r o n k x :
  alone_run (task_retryable_failure (mode c) id a b r o n k) x =
    let?o s := handle_retryable_failure (mode c) (chan_open c) id a b r o n (srv x) in alone_run k (set_srv s x).
Proof.
  unfold task_retryable_failure, handle_retryable_failure, next_retry. cbn [solo on_srv fst snd].
  rewrite set_srv_same. destruct (_ <=? n)%Z; [by rewrite set_srv_same|].
  destruct (arith (mode c) 32 (n + 1)) as [att|]; [|done]. destruct (retry_delay_secs _ _ att) as [d|]; [|done].
  destruct (arith (mode c) 64 (d * 1000)) as [ms|]; [|done]. rewrite solo_send.
  destruct (send_to_peer _ o _ (srv x)) as [res s]. cbn [snd]. rewrite solo_get_peer. cbn [srv set_srv].
  destruct (get_peer o s) as [[info|] s']; cbn; [|done]. by destruct (pi_fcm_token info).
Qed.

Lemma solo_holder_check refused msg k x h : holders x !! tx c = Some h ->
  alone_run (task_holder_check (tx c) refused msg k) x =
    if refused h then Some (set_srv (reply_error c SIG_NOT_CALL_PARTICIPANT msg (srv x)) x) else alone_run k x.
Proof.
  intros Hh. unfold task_holder_check. cbn [solo read_holder fst snd]. rewrite Hh.
  change (default None (Some h)) with h. destruct (refused h); [|done]. by rewrite solo_reply.
Qed.

Lemma solo_sending_peer k x h : holders x !! tx c = Some h ->
  alone_run (task_sending_peer (tx c) k) x = alone_run (k h) x.
Proof. intros Hh. unfold task_sending_peer. cbn [solo read_holder fst snd]. by rewrite Hh. Qed.

(** What the translations of one handler are to have in common. *)
Definition agrees (p : prog) (handler : session_state -> option session_state) : Prop :=
  forall x h, holders x !! tx c = Some h ->
    alone_run p x = option_map (put_session (tx c) x) (handler (h, srv x)).

Ltac ended := cbn [solo option_map]; by rewrite put_same.

Lemma peer_register_agrees pl : agrees (task_peer_register (tx c) pl) (ws_handle_peer_register c pl).
Proof.
  intros x h Hh. unfold task_peer_register, ws_handle_peer_register.
  destruct (prost_decode pl) as [msg|]; [|rewrite solo_reply; ended].
  rewrite solo_check. destruct (check_limit _ _ _ _) as [[s b]|]; [|done].
  destruct b; cbn [negb]; [|rewrite solo_reply; cbn [srv set_srv]; ended]. done.
Qed.

Lemma peer_unregister_agrees pl : agrees (task_peer_unregister (tx c) pl) (ws_handle_peer_unregister pl).
Proof.
  intros x h Hh. unfold task_peer_unregister, ws_handle_peer_unregister.
  destruct (prost_decode pl) as [msg|]; [|rewrite <- (set_srv_same x) at 1; ended].
  by rewrite solo_unregister.
Qed.

Lemma call_request_agrees pl : agrees (task_call_request (tx c) pl) (ws_handle_call_request c pl).
Proof.
  intros x h Hh. unfold task_call_request, ws_handle_call_request.
  destruct (prost_decode pl) as [msg|]; [|rewrite solo_reply; ended].
  rewrite solo_check. destruct (check_limit _ _ _ _) as [[s b]|]; [|done].
  destruct b; cbn [negb]; [|rewrite solo_reply; ended]. rewrite (solo_holder_check _ _ _ _ h) by done.
  destruct (holder_differs h _); [ended|]. cbn [solo]. rewrite solo_create. cbn [srv set_srv].
  destruct (create_call _ s) as [[u|e] s1]; [|rewrite solo_reply; ended]. rewrite solo_send. cbn [srv set_srv].
  destruct (send_to_peer _ _ _ s1) as [[u'|e] s2]; [ended|]. rewrite solo_reply, solo_remove. ended.
Qed.

Lemma call_accept_agrees pl : agrees (task_call_accept (tx c) pl) (ws_handle_call_accept c pl).
Proof.
  intros x h Hh. unfold task_call_accept, ws_handle_call_accept.
  destruct (prost_decode pl) as [msg|]; [|rewrite solo_reply; ended].
  rewrite solo_get_call. destruct (get_call _ (srv x)) as [[e|] s]; [|rewrite solo_reply; ended].
  rewrite (solo_holder_check _ _ _ _ h) by done. destruct (holder_differs h _); [ended|].
  rewrite solo_update. cbn [srv set_srv].
  destruct (update_call_state _ _ s) as [[u|er] s1]; [|rewrite solo_reply; ended].
  rewrite solo_get_call. cbn [srv set_srv]. destruct (get_call _ s1) as [[e1|] s2]; [|rewrite solo_reply; ended].
  rewrite solo_send. cbn [srv set_srv].
  destruct (send_to_peer _ _ _ s2) as [[u'|er] s3]; [ended|]. rewrite solo_reply. ended.
Qed.

Lemma call_reject_agrees pl : agrees (task_call_reject (tx c) pl) (ws_handle_call_reject c pl).
Proof.
  intros x h Hh. unfold task_call_reject, ws_handle_call_reject.
  destruct (prost_decode pl) as [msg|]; [|rewrite <- (set_srv_same x) at 1; ended].
  rewrite solo_get_call. destruct (get_call _ (srv x)) as [[e|] s]; [|rewrite solo_reply; ended].
  rewrite (solo_holder_check _ _ _ _ h) by done. destruct (holder_differs h _); [ended|].
  rewrite solo_end, solo_send. cbn [srv set_srv].
  destruct (send_to_peer _ _ _ _) as [r s3]. rewrite solo_remove. ended.
Qed.

Lemma call_failed_agrees pl : agrees (task_call_failed (mode c) (tx c) pl) (ws_handle_call_failed c pl).
Proof.
  intros x h Hh. unfold task_call_failed, ws_handle_call_failed.
  destruct (prost_decode pl) as [msg|]; [|rewrite <- (set_srv_same x) at 1; ended].
  rewrite solo_get_call. destruct (get_call _ (srv x)) as [[e|] s]; [|rewrite solo_reply; ended].
  rewrite (solo_sending_peer _ _ h) by done. destruct (not_participant h e); [rewrite solo_reply; ended|].
  rewrite solo_send. cbn [srv set_srv]. destruct (send_to_peer _ _ _ s) as [r s1]. cbn [snd].
  destruct (_ || _).
  - rewrite solo_relay. cbn [srv set_srv]. destruct (send_relay_needed _ _ _ _ _ s1) as [[u|er] s2].
    + rewrite solo_end. ended.
    + destruct (is_retryable_reason _); [|rewrite solo_end; ended]. rewrite solo_retry. cbn [srv set_srv].
      destruct (handle_retryable_failure _ _ _ _ _ _ _ _ s2); [|done]. rewrite solo_end. ended.
  - destruct (is_retryable_reason _); [|rewrite solo_end; ended]. rewrite solo_retry. cbn [srv set_srv].
    destruct (handle_retryable_failure _ _ _ _ _ _ _ _ s1); [|done]. rewrite solo_end. ended.
Qed.

Lemma call_ended_agrees pl : agrees (task_call_ended (tx c) pl) (ws_handle_call_ended c pl).
Proof.
  intros x h Hh. unfold task_call_ended, ws_handle_call_ended.
  destruct (prost_decode pl) as [msg|]; [|rewrite <- (set_srv_same x) at 1; ended].
  rewrite solo_get_call. destruct (get_call _ (srv x)) as [[e|] s]; [|rewrite solo_reply; ended].
  rewrite (solo_sending_peer _ _ h) by done. destruct (not_participant h e); [rewrite solo_reply; ended|].
  rewrite solo_send. cbn [srv set_srv]. destruct (send_to_peer _ _ _ s) as [r s1]. cbn [snd].
  rewrite solo_end, solo_remove. ended.
Qed.

Lemma dispatch_agrees f : agrees (task_dispatch (mode c) (tx c) f) (dispatch_ws_message c f).
Proof.
  intros x h Hh. unfold task_dispatch, dispatch_ws_message.
  destruct (_ =? PEER_REGISTER)%Z; [by apply peer_register_agrees|].
  destruct (_ =? PEER_UNREGISTER)%Z; [by apply peer_unregister_agrees|].
  destruct (_ =? CALL_REQUEST_CS)%Z; [by apply call_request_agrees|].
  destruct (_ =? CALL_ACCEPT_CS)%Z; [by apply call_accept_agrees|].
  destruct (_ =? CALL_REJECT_CS)%Z; [by apply call_reject_agrees|].
  destruct (_ =? CALL_FAILED)%Z; [by apply call_failed_agrees|].
  destruct (_ =? CALL_ENDED)%Z; [by apply call_ended_agrees|].
  rewrite solo_reply. ended.
Qed.

Lemma receive_agrees data : agrees (task_receive (mode c) (tx c) data) (ws_receive c data).
Proof.
  intros x h Hh. unfold task_receive, ws_receive.
  destruct (zlen data <? 2)%Z; [rewrite <- (set_srv_same x) at 1; ended|].
  destruct (framed_from_bytes data) as [f|]; [|rewrite <- (set_srv_same x) at 1; ended].
  rewrite (solo_sending_peer _ _ h) by done. cbn [fst snd]. destruct h as [p|]; [|by apply dispatch_agrees].
  rewrite solo_check. destruct (check_limit _ _ _ _) as [[s b]|]; [|done].
  destruct b; cbn [negb]; [|rewrite solo_reply; ended]. by rewrite (dispatch_agrees f _ (Some p)).
Qed.
End Sequential.
