(* ===== verification/Concurrency.v ===== *)
(** * The server under every interleaving

    What holds of the signaling server however its tasks are scheduled: the rules about calls,
    the completion of every request while clients read, the agreement of a task that runs alone
    with the handlers of [Session], and the two ways in which tasks get in each other's way. *)

From S2P Require Import Prelude Types Config Crypto Wire RateLimit Lru Server Session Rest Runtime ServerTasks TaskLogic Interleaving Sequential.

Local Open Scope Z_scope.
Local Open Scope rust_scope.

(** ** Traffic for the witnesses

    Peers [a] to [d]; the codec knows a registration of each, and two requests with the same
    identifier. *)
Module Traffic.
Definition table {M} (l : list (list Z * M)) : Prost M := {|
  encode_to_vec _ := [];
  prost_decode p := option_map snd (find (fun e => bool_decide (e.1 = p)) l) |}.

Definition registration (p : string) : PeerRegisterMsg := {|
  pr_peer_id := p; pr_display_name := ""; pr_ipv6_addresses := []; pr_ipv4_reflexive := [];
  pr_nat_info := None; pr_status := 0; pr_fcm_token := "" |}.

Definition request (a b : string) : CallRequestMsg :=
  {| cr_call_id := "k"; cr_caller_id := a; cr_callee_id := b; cr_discovery_method := 0 |}.

#[local] Instance proto : ServerProto := {|
  px_error := table [];
  px_register := table [([1], registration "a"); ([2], registration "b"); ([3], registration "c"); ([4], registration "d")];
  px_unregister := table [];
  px_request := table [([1], request "a" "b"); ([2], request "c" "d")];
  px_accept := table [([1], {| ca_call_id := "k" |})];
  px_reject := table [];
  px_failed := table [];
  px_ended := table [([1], {| ce_call_id := "k" |})];
  px_push := table [];
  px_token := table [];
  px_relay := table []
|}.

Definition init : @Sys ToySig.scheme ListLru.ops := sys_new Sample.server0 {| instant := 0; unix_secs := 0 |}.

(** An event, or a task that runs until it has to wait. *)
Inductive Act := Do (e : Event) | Run (i : Tid).

Fixpoint until_waiting (fuel : nat) (i : Tid) (y : @Sys ToySig.scheme ListLru.ops) : list Event :=
  match fuel with
  | O => []
  | Datatypes.S f => match advance i y with Some y' => Advance i :: until_waiting f i y' | None => [] end
  end.

Fixpoint script (acts : list Act) (y : @Sys ToySig.scheme ListLru.ops) : list Event :=
  match acts with
  | [] => []
  | a :: rest =>
      let es := match a with Do e => [e] | Run i => until_waiting 200 i y end in
      match sys_run es y with Some y' => es ++ script rest y' | None => es end
  end.

Definition frame (ch : Z) (data : list Z) : list Act := [Do (Frame ch Checked data); Run (RecvTask ch)].

(** Session [ch] opens for peer [p] and registers it. *)
Definition join (ch : Z) (p : string) : list Act := Do (Open ch p) :: frame ch [1; 0; ch].

Definition after (acts : list Act) : @Sys ToySig.scheme ListLru.ops :=
  default init (sys_run (script acts init) init).

(** [a] calls [b]; the request is about to be created. *)
Definition calling : list Act :=
  join 1 "a" ++ join 2 "b" ++ [Do (Frame 1 Checked [0; 1; 1])] ++ repeat (Do (Advance (RecvTask 1))) 18.
End Traffic.

#[local] Existing Instance Traffic.proto.

(** The frames of a script that registers peers and has [a] call [b]. *)
Definition plain_event (e : Event) : bool :=
  match e with
  | Frame _ _ data => bool_decide (data ∈ [[1; 0; 1]; [1; 0; 2]; [0; 1; 1]])
  | _ => true
  end.

Lemma plain_agrees e : plain_event e = true -> event_agrees true (fun _ => ("a", "b")) e.
Proof.
  destruct e as [| | |ch m data| | | | | |]; try done. unfold plain_event. intros Hin%bool_decide_eq_true f Hf Ht msg _ Hmsg.
  rewrite !elem_of_cons in Hin. destruct Hin as [->|[->|[->|Hin]]]; [| | |by apply elem_of_nil in Hin];
    vm_compute in Hf; simplify_eq. vm_compute in Hmsg. by simplify_eq.
Qed.

(** [clients_read], computed. *)
Definition reads_b (y : @Sys ToySig.scheme ListLru.ops) : bool :=
  forallb (fun e =>
    match socket e.2 with SocketReads => true | _ => false end &&
    match tasks y !! FwdTask e.1 with
    | Some t => match code t with Ret => true | Leave _ => false | _ => looping t end
    | None => false
    end) (map_to_list (chans y)).

Lemma reads_b_ok y : reads_b y = true -> clients_read y.
Proof.
  unfold reads_b. rewrite forallb_forall. intros H ch c Hc.
  specialize (H (ch, c)). rewrite <- list_elem_of_In, elem_of_map_to_list in H. specialize (H Hc).
  apply andb_true_iff in H as [H1 H2]. cbn [fst snd] in *. split; [by destruct (socket c)|].
  destruct (tasks y !! FwdTask ch) as [t|]; [|done]. exists t. split; [done|]. by destruct (code t).
Qed.

(** A task that waits in its loop, computed. *)
Definition idle_b (i : Tid) (y : @Sys ToySig.scheme ListLru.ops) : bool :=
  match tasks y !! i with Some t => is_ret (code t) && looping t | None => false end.

Lemma idle_b_ok i y : idle_b i y = true -> tasks y !! i = Some {| code := Ret; looping := true |}.
Proof.
  unfold idle_b. destruct (tasks y !! i) as [[p l]|]; [|done]. cbn. intros [Hp Hl]%andb_true_iff. subst l.
  by destruct p.
Qed.

(** [has_room], computed. *)
Definition room_b (n : nat) (y : @Sys ToySig.scheme ListLru.ops) : bool :=
  forallb (fun e => rx_dropped e.1 y ||
    (n + SEND_COST * length (queue e.2) <=? SEND_COST * SESSION_CHANNEL_CAPACITY)%nat) (map_to_list (chans y)).

Lemma room_b_ok n y : room_b n y = true -> has_room n y.
Proof.
  unfold room_b. rewrite forallb_forall. intros H ch c Hc Hd.
  specialize (H (ch, c)). rewrite <- list_elem_of_In, elem_of_map_to_list in H. specialize (H Hc).
  cbn [fst snd] in H. rewrite Hd in H. by apply Nat.leb_le in H.
Qed.

Definition succeeds {A} (o : option A) : bool := match o with Some _ => true | None => false end.

Lemma succeeds_Some {A} (o : option A) : succeeds o = true -> is_Some o.
Proof. destruct o; [by eexists|done]. Qed.

Lemma run_after acts : succeeds (sys_run (Traffic.script acts Traffic.init) Traffic.init) = true ->
  sys_run (Traffic.script acts Traffic.init) Traffic.init = Some (Traffic.after acts).
Proof. unfold Traffic.after. by intros [y ->]%succeeds_Some. Qed.

Section Reached.
Context {S : SigScheme} {L : Lru} {LL : LruLaws L} {P : ServerProto}.

(** The server as it starts. *)
Definition sys_init rl ips key cfg c : Sys := sys_new (server_new rl ips key cfg) c.

Lemma reached_ok strict parties rl ips key cfg c es y : Forall (event_agrees strict parties) es ->
  sys_run es (sys_init rl ips key cfg c) = Some y ->
  exists B, budgets B /\ sys_ok (Inv strict parties) (Guar strict) B y.
Proof.
  intros Hes Hrun. eapply (sys_run_ok strict parties es (fun _ => 0%nat)); [|done| |done].
  - intros i. lia.
  - apply sys_new_ok; [apply ok_server_new|apply new_map].
Qed.

Lemma reached_any rl ips key cfg c es y : sys_run es (sys_init rl ips key cfg c) = Some y ->
  exists B, budgets B /\ sys_ok (Inv false (fun _ => ("", ""))) (Guar false) B y.
Proof. apply reached_ok. apply Forall_forall. intros e _. apply agrees_always. Qed.
End Reached.

(** C9: the rules about calls hold in every interleaving.  Whatever events and schedules the
    server has seen and whichever step comes next: the invariant of its registries holds; only the
    receiving task of a session changes the calls; a call enters the registry while both its
    parties are registered; and as long as no identifier is used for calls between different
    peers, the task changes the calls as the peer that its session holds may: no step of another
    task between a handler's checks and its actions gets round them. *)
Theorem interleaved_access_control {S : SigScheme} {L : Lru} {LL : LruLaws L} {P : ServerProto}
    rl ips key cfg c es y e y' :
  sys_run es (sys_init rl ips key cfg c) = Some y -> sys_step e y = Some y' ->
  let m := calls_map (shared y) in let m' := calls_map (shared y') in
  srv_ok (srv (shared y')) /\
  ((forall ch, e <> Advance (RecvTask ch)) -> m' = m) /\
  (forall k call, m !! k = None -> m' !! k = Some call ->
     registered (caller_id call) (shared y) /\ registered (callee_id call) (shared y)) /\
  (forall parties ch p, Forall (event_agrees true parties) es -> e = Advance (RecvTask ch) ->
     holders (shared y) !! ch = Some (Some p) -> registry_step p m m').
Proof.
  intros Hrun Hstep m m'.
  assert (forall strict parties, Forall (event_agrees strict parties) es -> event_agrees strict parties e ->
    event_guarantee strict e (shared y) (shared y') /\ Inv strict parties (shared y')) as Hall.
  { intros strict parties Hes He. destruct (reached_ok strict parties _ _ _ _ _ _ _ Hes Hrun) as (B & HB & Hok).
    destruct (sys_step_ok strict parties B e y y' HB He Hok Hstep) as [Hg (B' & _ & Hok')].
    split; [done|]. apply Hok'. }
  destruct (Hall false (fun _ => ("", ""))) as [Hg [Hs _]].
  { apply Forall_forall. intros e' _. apply agrees_always. }
  { apply agrees_always. }
  assert (m' = m \/ exists i, e = Advance i /\ Guar false i (shared y) (shared y')) as Hcase.
  { unfold m, m'. destruct e; cbn in Hg; try (left; by rewrite Hg); [destruct Hg as [->|]; eauto|].
    left. unfold calls_map. by rewrite Hg. }
  split; [done|]. split; [|split].
  - intros Hne. destruct Hcase as [|(i & -> & [Hc _])]; [done|]. unfold m, m', calls_map.
    destruct i as [ch| |]; [by destruct (Hne ch)|by rewrite Hc|by rewrite Hc].
  - intros k call Hk Hk'. destruct Hcase as [Hm|(i & -> & [_ Hn])]; [congruence|]. by apply (Hn k).
  - intros parties ch p Hes -> Hh. destruct (Hall true parties Hes) as [[Hsame|[Hc _]] _]; [done| |by apply Hc].
    unfold m, m'. rewrite Hsame. constructor.
Qed.

(** The request of [a] is created: [a] and [b] are registered, and [a] rings. *)
Lemma interleaved_access_control_witness :
  let y := Traffic.after Traffic.calling in
  exists y', sys_step (Advance (RecvTask 1)) y = Some y' /\ calls_map (shared y) !! "k" = None /\
    registry_step "a" (calls_map (shared y)) (calls_map (shared y')).
Proof.
  intros y. assert (is_Some (sys_step (Advance (RecvTask 1)) y)) as [y' E]
    by (apply succeeds_Some; vm_compute; reflexivity).
  destruct (interleaved_access_control (S := ToySig.scheme) (L := ListLru.ops) default_rate_limits [] "k"%char default_config
    {| instant := 0; unix_secs := 0 |} (Traffic.script Traffic.calling Traffic.init) y _ y'
    (run_after Traffic.calling ltac:(vm_compute; reflexivity)) E) as (_ & _ & _ & Hreg).
  exists y'. split; [exact E|]. split; [vm_compute; reflexivity|].
  apply (Hreg (fun _ => ("a", "b")) 1); [|reflexivity|vm_compute; reflexivity].
  apply Forall_forall. intros e He. apply plain_agrees.
  apply (proj1 (Forall_forall (fun e => plain_event e = true) _)) with (2 := He).
  vm_compute. repeat constructor.
Defined.

(** C10: every request is served while the clients read.  From any state that the server can be
    in, if every forwarding task waits for messages or has ended and no socket keeps it waiting,
    then whatever order the tasks run in, without any further event they come to rest after a
    number of steps that the tasks and the waiting messages bound, and at rest every handler has
    run to its end: the locks are taken in an order, so no tasks wait for each other. *)
Theorem requests_complete {S : SigScheme} {L : Lru} {LL : LruLaws L} {P : ServerProto}
    rl ips key cfg c es y :
  sys_run es (sys_init rl ips key cfg c) = Some y -> clients_read y ->
  (forall n y', nsteps (internal task_forward) n y y' ->
     (n <= RECEIVE_COST * size (tasks y) + QUEUE_COST * load y)%nat) /\
  (forall y', rtc (internal task_forward) y y' -> (forall z, ~ internal task_forward y' z) ->
     forall i t, tasks y' !! i = Some t -> code t = Ret).
Proof.
  intros Hrun Hread. destruct (reached_any _ _ _ _ _ _ _ Hrun) as (B & HB & Hok).
  destruct (internal_completes _ _ task_forward (ok_forward_task _ _) emits_forward B y Hok Hread) as [Hn Hend].
  split; [|done]. intros n y' Hsteps. specialize (Hn n y' Hsteps). pose proof (total_bound B y HB). lia.
Qed.

(** [a]'s request is under way, with eighteen steps taken. *)
Lemma requests_complete_witness :
  let y := Traffic.after Traffic.calling in
  match tasks y !! RecvTask 1 with Some t => is_ret (code t) | None => true end = false /\
  forall y', rtc (internal task_forward) y y' -> (forall z, ~ internal task_forward y' z) ->
    forall i t, tasks y' !! i = Some t -> code t = Ret.
Proof.
  intros y. split; [vm_compute; reflexivity|].
  apply (requests_complete (S := ToySig.scheme) (L := ListLru.ops) default_rate_limits [] "k"%char default_config
    {| instant := 0; unix_secs := 0 |} (Traffic.script Traffic.calling Traffic.init) y).
  - exact (run_after Traffic.calling ltac:(vm_compute; reflexivity)).
  - apply reads_b_ok. vm_compute. reflexivity.
Defined.

(** C12: a receiving task that is not interrupted does what the handler of [Session] does.  In any
    state of the server in which no lock is taken, the task waits in its loop and the open
    channels have room, a frame that arrives is handled by steps of that task alone; afterwards it
    waits again, no lock is taken, the other tasks are where they were, and the registries, the
    messages sent and the peer the session holds are those that [ws_receive] computes. *)
Theorem lone_frame_is_handler {S : SigScheme} {L : Lru} {LL : LruLaws L} {P : ServerProto}
    rl ips key cfg c es y ch m data h h' s' :
  sys_run es (sys_init rl ips key cfg c) = Some y -> locks y = ∅ ->
  tasks y !! RecvTask ch = Some {| code := Ret; looping := true |} ->
  holders (shared y) !! ch = Some h -> has_room RECEIVE_COST y ->
  ws_receive {| clock := clk y; chan_open := channel_open y; tx := ch; mode := m |} data (h, srv (shared y)) =
    Some (h', s') ->
  exists y0 y', sys_step (Frame ch m data) y = Some y0 /\
    rtc (fun a b => advance (RecvTask ch) a = Some b) y0 y' /\
    shared y' = put_session ch (shared y) (h', s') /\ locks y' = ∅ /\ tasks y' = tasks y.
Proof.
  intros Hrun Hl Ht Hh Hroom Hrec. destruct (reached_any _ _ _ _ _ _ _ Hrun) as (B & HB & Hok).
  set (ctx := {| clock := clk y; chan_open := channel_open y; tx := ch; mode := m |}) in *.
  set (y0 := set_task (RecvTask ch) {| code := task_receive m ch data; looping := true |} y).
  assert (forall d, rx_dropped d y0 = rx_dropped d y) as Hd by (intros d; by apply rx_dropped_other).
  pose proof (receive_agrees ctx data (shared y) h Hh) as Hsolo. rewrite Hrec in Hsolo.
  assert (alone (RecvTask ch) RECEIVE_COST ∅ (task_receive m ch data) true y0) as Hal.
  { split.
    - apply lookup_insert_eq.
    - intros l. cbn. rewrite Hl, lookup_empty. set_solver.
    - intros l j. cbn. by rewrite Hl, lookup_empty.
    - intros d e He. rewrite Hd. by apply Hroom. }
  destruct (solo_runs _ _ (RecvTask ch) (clk y) (channel_open y) (task_receive m ch data) ltac:(done)
    RECEIVE_COST ∅ (know (RecvTask ch) h) true y0 (put_session ch (shared y) (h', s')) Hal
    (ok_receive_task false (fun _ => ("", "")) ch m h data ltac:(by intros f _ _ msg [=])))
    as (y' & Hr & [Ht' Hown Honly _] & [Hsm _ _] & Hx); try done.
  - apply Hok.
  - cbn. by rewrite Hh.
  - apply know_stable.
  - intros d. unfold channel_open. by rewrite Hd.
  - exists y0, y'. split; [cbn; unfold start; by rewrite Ht|]. split; [done|]. split; [done|]. split.
    + apply map_empty. intros l. destruct (locks y' !! l) as [j|] eqn:El; [|done].
      rewrite (Honly _ _ El) in El. apply Hown in El. set_solver.
    + apply map_eq. intros j. destruct (decide (j = RecvTask ch)) as [->|Hj]; [by rewrite Ht', Ht|].
      rewrite Hsm by done. by apply lookup_insert_ne.
Qed.

(** [a] calls [b] through a server at rest. *)
Lemma lone_frame_is_handler_witness :
  let y := Traffic.after (Traffic.join 1 "a" ++ Traffic.join 2 "b") in
  exists y0 y' h' s', sys_step (Frame 1 Checked [0; 1; 1]) y = Some y0 /\
    rtc (fun a b => advance (RecvTask 1) a = Some b) y0 y' /\
    shared y' = put_session 1 (shared y) (h', s') /\ (0 < size (calls_map (shared y')))%nat.
Proof.
  intros y. set (c := {| clock := clk y; chan_open := channel_open y; tx := 1; mode := Checked |}).
  assert (is_Some (ws_receive c [0; 1; 1] (Some "a", srv (shared y)))) as [[h' s'] E]
    by (apply succeeds_Some; vm_compute; reflexivity).
  assert (0 < match ws_receive c [0; 1; 1]%Z (Some "a", srv (shared y)) with
              | Some st => size (lru_map (calls st.2)) | None => O end)%nat as Hsize by (vm_compute; lia).
  rewrite E in Hsize.
  destruct (lone_frame_is_handler (S := ToySig.scheme) (L := ListLru.ops) default_rate_limits [] "k"%char default_config
    {| instant := 0; unix_secs := 0 |} (Traffic.script (Traffic.join 1 "a" ++ Traffic.join 2 "b") Traffic.init) y
    1 Checked [0; 1; 1] (Some "a") h' s') as (y0 & y' & H1 & H2 & H3 & _).
  - exact (run_after (Traffic.join 1 "a" ++ Traffic.join 2 "b") ltac:(vm_compute; reflexivity)).
  - vm_compute. reflexivity.
  - apply idle_b_ok. vm_compute. reflexivity.
  - vm_compute. reflexivity.
  - apply room_b_ok. vm_compute. reflexivity.
  - exact E.
  - exists y0, y', h', s'. split; [exact H1|]. split; [exact H2|]. split; [exact H3|]. rewrite H3. exact Hsize.
Defined.
