(* ===== verification/Stall.v ===== *)
(** * Two ways in which sessions get in each other's way

    [send_to_peer] waits for room in a channel while it holds the lock of all peers, and the
    forwarding task of a session keeps its receiver until it has taken the peer offline, for
    which it needs that lock.  A client that stops reading and then goes away brings the server
    to a halt.  And the handlers look a call up by an identifier that clients choose, more than
    once. *)

From S2P Require Import Prelude Types Config Crypto Wire RateLimit Lru Server Session Rest Runtime ServerTasks TaskLogic Interleaving Sequential Concurrency.

Local Open Scope Z_scope.
Local Open Scope rust_scope.

#[local] Existing Instance Traffic.proto.

(** The task of session [v] waits for room in channel [ch] with the lock of the peers in its
    hands, and the receiver of the full channel waits for that lock. *)
Record stalled {S : SigScheme} {L : Lru} (v ch : Z) (y : Sys) : Prop := {
  sd_victim : exists t m k, tasks y !! RecvTask v = Some t /\ code t = Send ch m k;
  sd_lock : locks y !! PeersLock = Some (RecvTask v);
  sd_full : exists c, chans y !! ch = Some c /\ (SESSION_CHANNEL_CAPACITY <= length (queue c))%nat;
  sd_reader : exists t k, tasks y !! FwdTask ch = Some t /\ code t = Acquire PeersLock k
}.

Section Stall.
Context {S : SigScheme} {L : Lru} {P : ServerProto}.

Lemma stalled_keeps v ch y y' : stalled v ch y ->
  tasks y' !! RecvTask v = tasks y !! RecvTask v -> tasks y' !! FwdTask ch = tasks y !! FwdTask ch ->
  locks y' !! PeersLock = locks y !! PeersLock ->
  (forall c, chans y !! ch = Some c -> exists c', chans y' !! ch = Some c' /\ queue c' = queue c) ->
  stalled v ch y'.
Proof.
  intros [H1 H2 (c & Hc & Hlen) H4] Ht1 Ht2 Hl Hch. split.
  - by rewrite Ht1.
  - by rewrite Hl.
  - destruct (Hch c Hc) as (c' & Hc' & Hq). exists c'. by rewrite Hq.
  - by rewrite Ht2.
Qed.

(** Neither of the two moves, nor does anybody else put a message into the channel. *)
Lemma stalled_send v ch y : stalled v ch y -> rx_dropped ch y = false /\
  forall c, chans y !! ch = Some c -> (length (queue c) <? SESSION_CHANNEL_CAPACITY)%nat = false.
Proof.
  intros [_ _ (c & Hc & Hlen) (t & k & Ht & Hcode)]. split.
  - unfold rx_dropped. rewrite Ht, Hcode. apply andb_false_r.
  - intros c' Hc'. simplify_eq. by apply Nat.ltb_ge.
Qed.

Lemma stalled_still v ch y : stalled v ch y -> advance (RecvTask v) y = None /\ advance (FwdTask ch) y = None.
Proof.
  intros Hst. destruct (stalled_send _ _ _ Hst) as [Hd Hfull].
  destruct Hst as [(t & m & k & Ht & Hc) Hl (c & Hch & _) (t' & k' & Ht' & Hc')]. split; unfold advance.
  - by rewrite Ht, Hc, Hch, Hd, (Hfull c Hch).
  - by rewrite Ht', Hc', Hl.
Qed.

Lemma stalled_advance v ch j y y' : stalled v ch y -> advance j y = Some y' -> stalled v ch y'.
Proof.
  intros Hst Hy. destruct (stalled_still _ _ _ Hst) as [Hv Hr]. destruct (stalled_send _ _ _ Hst) as [Hd Hfull].
  assert (j <> RecvTask v) as Hjv by congruence. assert (j <> FwdTask ch) as Hjr by congruence.
  pose proof (sd_lock _ _ _ Hst) as Hl. unfold advance in Hy. destruct (tasks y !! j) as [t|]; [|done].
  destruct (code t) as [| |l k|l k|k|A f k|d m k|d m k|k]; repeat case_match; simplify_eq;
    (eapply stalled_keeps; [done|cbn; by simplify_map_eq|cbn; by simplify_map_eq| |]); cbn; eauto.
  - rewrite Hl, map_lookup_filter_Some. split; [done|]. cbn. congruence.
  - destruct (decide (l = PeersLock)) as [->|]; [congruence|by rewrite lookup_insert_ne].
  - destruct (decide (l = PeersLock)) as [->|]; [|by rewrite lookup_delete_ne]. bool_to_prop. congruence.
  - intros c0 Hc0. destruct (decide (d = ch)) as [->|]; [|rewrite lookup_insert_ne; eauto].
    pose proof (Hfull _ Hc0). congruence.
Qed.

(** A task that waits in its loop is neither of the two. *)
Lemma waiting_other i t y v ch : stalled v ch y -> tasks y !! i = Some t -> is_ret (code t) = true ->
  i <> RecvTask v /\ i <> FwdTask ch.
Proof.
  intros [(t1 & m & k & Ht1 & Hc1) _ _ (t2 & k2 & Ht2 & Hc2)] Ht Hr. split; intros ->; simplify_eq.
  - by rewrite Hc1 in Hr.
  - by rewrite Hc2 in Hr.
Qed.

Lemma stalled_put v ch i t y : stalled v ch y -> i <> RecvTask v -> i <> FwdTask ch -> stalled v ch (set_task i t y).
Proof. intros Hst H1 H2. eapply stalled_keeps; [done|by apply lookup_insert_ne|by apply lookup_insert_ne|done|eauto]. Qed.

Lemma stalled_start v ch i p y y' : stalled v ch y -> start i p y = Some y' -> stalled v ch y'.
Proof.
  intros Hst Hy. unfold start in Hy. destruct (tasks y !! i) as [t|] eqn:Et; [|done].
  destruct (looping t && is_ret (code t)) eqn:E; [|done]. apply andb_true_iff in E as [_ E].
  destruct (waiting_other i t y v ch Hst Et E). simplify_eq. by apply stalled_put.
Qed.

Lemma stalled_finish v ch i p y y' : stalled v ch y -> finish i p y = Some y' -> stalled v ch y'.
Proof.
  intros Hst Hy. unfold finish in Hy. destruct (tasks y !! i) as [t|] eqn:Et; [|done].
  destruct (looping t && is_ret (code t)) eqn:E; [|done]. apply andb_true_iff in E as [_ E].
  destruct (waiting_other i t y v ch Hst Et E). simplify_eq. by apply stalled_put.
Qed.

Lemma stalled_take v ch d y y' : stalled v ch y -> take_message task_forward d y = Some y' -> stalled v ch y'.
Proof.
  intros Hst Hy. unfold take_message in Hy. destruct (chans y !! d) as [c|] eqn:Ec; [|done].
  destruct (queue c) as [|m q]; [done|]. destruct (decide (d = ch)) as [->|Hne].
  - exfalso. unfold start in Hy. cbn [tasks set_chan] in Hy. destruct (tasks y !! FwdTask ch) as [t|] eqn:Et; [|done].
    destruct (looping t && is_ret (code t)) eqn:E; [|done]. apply andb_true_iff in E as [_ E].
    by destruct (waiting_other _ _ _ _ _ Hst Et E).
  - eapply stalled_start; [|done]. eapply stalled_keeps; [done|done|done|done|]. intros c' Hc'. exists c'.
    split; [|done]. cbn. by rewrite lookup_insert_ne.
Qed.

Lemma stalled_step v ch e y y' : stalled v ch y -> sys_step e y = Some y' -> stalled v ch y'.
Proof.
  intros Hst Hy. destruct e as [i|d|d p|d m data|d|d|d sk|c|n call|n]; cbn [sys_step] in Hy.
  - by eapply stalled_advance.
  - by eapply stalled_take.
  - unfold open_session in Hy. case_bool_decide as Hf; [|done]. destruct Hf as (_ & Hr & Hw). simplify_eq.
    pose proof Hst as [(t1 & m & k & Ht1 & _) _ (c & Hc & _) (t2 & k2 & Ht2 & _)].
    assert (d <> v) by congruence. assert (d <> ch) by congruence.
    eapply stalled_keeps; [done|..]; cbn; [by rewrite !lookup_insert_ne by congruence..|done|].
    intros c' Hc'. exists c'. split; [|done]. by rewrite lookup_insert_ne.
  - by eapply stalled_start.
  - by eapply stalled_finish.
  - destruct (chans y !! d); [|done]. destruct (_ && _); [|done]. by eapply stalled_finish.
  - destruct (chans y !! d) as [c|] eqn:Ec; [|done]. simplify_eq. eapply stalled_keeps; [done|done|done|done|].
    intros c' Hc'. cbn. destruct (decide (d = ch)) as [->|]; simplify_map_eq; eauto.
  - simplify_eq. by eapply stalled_keeps; eauto.
  - unfold spawn in Hy. case_match; [done|]. simplify_eq. by apply stalled_put.
  - case_match; [|done]. simplify_eq. apply stalled_put; [|done|done].
    eapply stalled_keeps; [done|done|done| |eauto]. cbn. pose proof (sd_lock _ _ _ Hst) as Hl. rewrite Hl.
    by rewrite map_lookup_filter_Some.
Qed.
End Stall.

(** C11: a client can bring the server to a halt for good.  Once the task of some session waits for
    room in the full channel of a client, with the lock of the peers in its hands, and the
    forwarding task of that client, whose socket has failed, waits for the lock to take it
    offline, then whatever happens afterwards the lock is never given back: the two tasks never
    move, no task that waits for the lock ever gets it, and the registry of peers stays as it
    is: nobody registers, leaves, looks a peer up or is sent a message again. *)
Theorem failed_reader_halts_server {S : SigScheme} {L : Lru} {LL : LruLaws L} {P : ServerProto}
    rl ips key cfg c es y v ch es' y' :
  sys_run es (sys_init rl ips key cfg c) = Some y -> stalled v ch y -> sys_run es' y = Some y' ->
  stalled v ch y' /\ advance (RecvTask v) y' = None /\ advance (FwdTask ch) y' = None /\
  (forall i t k, tasks y' !! i = Some t -> code t = Acquire PeersLock k -> advance i y' = None) /\
  peers (srv (shared y')) = peers (srv (shared y)).
Proof.
  intros Hrun Hst Hrun'. assert (stalled v ch y' /\ peers (srv (shared y')) = peers (srv (shared y))) as [Hst' Hp].
  { destruct (reached_any _ _ _ _ _ _ _ Hrun) as (B & HB & Hok). clear Hrun. revert B y HB Hok Hst Hrun'.
    induction es' as [|e es' IH]; intros B y HB Hok Hst Hrun'; cbn in Hrun'; [by simplify_eq|].
    destruct (sys_step e y) as [y1|] eqn:E; [|done]. pose proof (stalled_step _ _ _ _ _ Hst E) as Hst1.
    destruct (sys_step_ok _ _ B e y y1 HB (agrees_always _ e) Hok E) as [Hg (B1 & HB1 & Hok1)].
    destruct (IH B1 y1 HB1 Hok1 Hst1 Hrun') as [? ->]. split; [done|].
    destruct e as [i| | | | | | | | |]; cbn in Hg; try (by rewrite Hg).
    apply (advance_frame _ _ B i y y1 PeersLock Hok E). rewrite (sd_lock _ _ _ Hst). intros [= <-].
    destruct (stalled_still _ _ _ Hst) as [Hv _]. cbn in E. congruence. }
  destruct (stalled_still _ _ _ Hst'). split; [done|]. split; [done|]. split; [done|]. split; [|done].
  intros i t k Ht Hc. unfold advance. by rewrite Ht, Hc, (sd_lock _ _ _ Hst').
Qed.

(** [stalled], computed. *)
Definition stalled_b (v ch : Z) (y : @Sys ToySig.scheme ListLru.ops) : bool :=
  match tasks y !! RecvTask v with
  | Some t => match code t with Send d _ _ => d =? ch | _ => false end
  | None => false
  end &&
  bool_decide (locks y !! PeersLock = Some (RecvTask v)) &&
  match chans y !! ch with Some c => (SESSION_CHANNEL_CAPACITY <=? length (queue c))%nat | None => false end &&
  match tasks y !! FwdTask ch with
  | Some t => match code t with Acquire PeersLock _ => true | _ => false end
  | None => false
  end.

Lemma stalled_b_ok v ch y : stalled_b v ch y = true -> stalled v ch y.
Proof.
  unfold stalled_b. rewrite !andb_true_iff. intros [[[H1 H2] H3] H4]. split.
  - destruct (tasks y !! RecvTask v) as [t|]; [|done]. destruct (code t) eqn:E; try done.
    apply Z.eqb_eq in H1 as ->. eauto.
  - by apply bool_decide_eq_true in H2.
  - destruct (chans y !! ch) as [c|]; [|done]. exists c. split; [done|]. by apply Nat.leb_le.
  - destruct (tasks y !! FwdTask ch) as [t|]; [|done]. destruct (code t) as [| |l k| | | | | |] eqn:E; try done.
    destruct l; try done. eauto.
Qed.

(** The client of [b] stops reading and sends frames that are refused until the refusals fill its
    channel; [a] calls [b]; the socket of [b] fails. *)
Definition halting : list Traffic.Act :=
  Traffic.join 1 "a" ++ Traffic.join 2 "b" ++ [Traffic.Do (SocketTo 2 SocketWaits)] ++
  Traffic.frame 2 [9; 9] ++ [Traffic.Do (Take 2); Traffic.Run (FwdTask 2)] ++
  mjoin (repeat (Traffic.frame 2 [9; 9]) 257) ++ Traffic.frame 1 [0; 1; 1] ++
  [Traffic.Do (SocketTo 2 SocketFails); Traffic.Run (FwdTask 2)].

(** The server that this leaves never changes its peers again. *)
Lemma failed_reader_halts_server_witness :
  let y := Traffic.after halting in
  stalled 1 2 y /\
  forall es' y', sys_run es' y = Some y' -> peers (srv (shared y')) = peers (srv (shared y)).
Proof.
  intros y. assert (stalled 1 2 y) as Hst by (apply stalled_b_ok; vm_compute; reflexivity).
  split; [exact Hst|]. intros es' y' Hrun.
  apply (failed_reader_halts_server (S := ToySig.scheme) (L := ListLru.ops) default_rate_limits [] "k"%char
    default_config {| instant := 0; unix_secs := 0 |} (Traffic.script halting Traffic.init) y 1 2 es' y').
  - exact (run_after halting ltac:(vm_compute; reflexivity)).
  - exact Hst.
  - exact Hrun.
Defined.

(** [b] accepts the call [k] from [a].  Between the check that [b] is its callee and the change of
    its state, [a] ends the call and [c] calls [d] under the same identifier. *)
Definition identifier_race : list Traffic.Act :=
  Traffic.join 1 "a" ++ Traffic.join 2 "b" ++ Traffic.join 3 "c" ++ Traffic.join 4 "d" ++
  Traffic.frame 1 [0; 1; 1] ++
  [Traffic.Do (Frame 2 Checked [0; 3; 1])] ++ repeat (Traffic.Do (Advance (RecvTask 2))) 13 ++
  Traffic.frame 1 [0; 8; 1] ++ Traffic.frame 3 [0; 1; 2] ++ [Traffic.Run (RecvTask 2)].

(** Without the condition that identifiers are not used again, [interleaved_access_control] fails:
    the call from [c] to [d] becomes accepted, and [c] is told so, by a session that holds [b];
    [d] has only registered. *)
Lemma reused_identifier_race :
  let y := Traffic.after identifier_race in
  sys_run (Traffic.script identifier_race Traffic.init) Traffic.init = Some y /\
  option_map (fun e => (caller_id e, callee_id e, call_state e)) (calls_map (shared y) !! "k") =
    Some ("c", "d", STATE_ACCEPTED) /\
  last (sent (srv (shared y))) = Some (3, forward CALL_ACCEPT_SC [1]) /\
  List.filter (fun e => match e with Frame ch _ _ => ch =? 4 | _ => false end) (Traffic.script identifier_race Traffic.init) =
    [Frame 4 Checked [1; 0; 4]].
Proof.
  split; [exact (run_after identifier_race ltac:(vm_compute; reflexivity))|].
  split; [vm_compute; reflexivity|]. split; vm_compute; reflexivity.
Qed.
