(* ===== verification/Exchange.v ===== *)
(** * The exchange of a call

    [voip-cli/src/commands.rs]: what [listen] does with an accepted connection and what [call]
    does once it knows the address: one message, one acknowledgement.  A stream read gives the
    bytes that have arrived, up to the size of the buffer; the errors of quinn are texts, and
    [anyhow]'s errors are the texts they print. *)

From S2P Require Import Prelude RustStr RustNet.

Local Open Scope Z_scope.
Local Open Scope rust_scope.

Inductive Output := Stdout (line : string) | Stderr (line : string).

Inductive ReadOutcome := ReadData (l : list Z) | ReadEnd | ReadFailed (e : string).

Definition BUFFER_SIZE : Z := 4096.

Definition newline : string := string_of_bytes [10].

Definition ack_text (n : Z) : string := "ack: " +:+ string_of_bytes (decimal n).

(** *** The listener *)

(** The connection handler of [listen]: what it prints, the reply it writes, and the counter
    that its connections share.  The number is taken before the reply is written. *)
Definition handle_incoming (remote : SocketAddr) (accept : option string) (read : ReadOutcome)
    (write : option string) (counter : Z) : list Output * option (list Z) * Z :=
  match accept with
  | Some e => ([Stderr ("accept_bi error: " +:+ e)], None, counter)
  | None =>
      match read with
      | ReadEnd =>
          ([Stdout ("[" +:+ socket_addr_text remote +:+ "] connected but sent no data")], None, counter)
      | ReadFailed e => ([Stderr ("read error: " +:+ e)], None, counter)
      | ReadData l =>
          let said := Stdout ("[" +:+ socket_addr_text remote +:+ "] said: " +:+
                              trim_end (from_utf8_lossy l)) in
          let reply := as_bytes (ack_text counter +:+ newline) in
          match write with
          | Some e => ([said; Stderr ("reply write error: " +:+ e)], None, cast 64 (counter + 1))
          | None => ([said], Some reply, cast 64 (counter + 1))
          end
      end
  end.

(** *** The caller *)

Inductive Handshake := HandshakeOk (remote : SocketAddr) | HandshakeTimeout | HandshakeFailed (e : string).

Record CallIo := {
  ci_tls : option string;
  ci_connect : option string;
  ci_handshake : Handshake;
  ci_open : option string;
  ci_write : option string;
  ci_flush : option string;
  ci_read : ReadOutcome
}.

Definition payload_of (message : string) : list Z := as_bytes (message +:+ newline).

(** What [call] prints after it has the address, the bytes it writes, and its result. *)
Definition exchange (target : SocketAddr) (message : string) (io : CallIo)
    : list Output * option (list Z) * result string unit :=
  let to := socket_addr_text target in
  match ci_tls io with
  | Some e => ([], None, Err ("failed to build QUIC client config: " +:+ e))
  | None =>
  match ci_connect io with
  | Some e => ([], None, Err ("failed to initiate QUIC connect to " +:+ to +:+ ": " +:+ e))
  | None =>
  match ci_handshake io with
  | HandshakeTimeout => ([], None, Err ("QUIC connect timeout (10s) to " +:+ to))
  | HandshakeFailed e => ([], None, Err ("QUIC connect to " +:+ to +:+ " failed: " +:+ e))
  | HandshakeOk remote =>
      let out1 := [Stdout ("Connected to " +:+ to +:+ " (remote: " +:+ socket_addr_text remote +:+ ")")] in
      match ci_open io, ci_write io, ci_flush io with
      | Some e, _, _ => (out1, None, Err ("failed to open bidi stream: " +:+ e))
      | None, Some e, _ => (out1, None, Err ("failed to write message: " +:+ e))
      | None, None, Some e => (out1, None, Err ("failed to flush send stream: " +:+ e))
      | None, None, None =>
          let out2 := out1 ++ [Stdout ("Sent:     " +:+ debug_string message)] in
          let done := [Stdout "Call complete."] in
          match ci_read io with
          | ReadFailed e => (out2, Some (payload_of message), Err ("failed to read reply: " +:+ e))
          | ReadEnd =>
              (out2 ++ [Stdout "(peer closed the stream without replying)"] ++ done,
               Some (payload_of message), Ok tt)
          | ReadData [] => (out2 ++ done, Some (payload_of message), Ok tt)
          | ReadData l =>
              (out2 ++ [Stdout ("Received: " +:+ debug_string (trim_end (from_utf8_lossy l)))] ++ done,
               Some (payload_of message), Ok tt)
          end
      end
  end end end.

(** *** Connections of one listener

    How the tasks of the listener fare with a connection: where it comes from, whether the
    stream opens, what the read returns and whether the reply can be written. *)
Record Incoming := {
  in_remote : SocketAddr;
  in_accept : option string;
  in_read : ReadOutcome;
  in_write : option string
}.

(** [run_accept_loop] until the endpoint closes: an attempt whose handshake fails is only logged,
    each connection is handed to its own task.  The tasks share the counter alone; the list is
    in the order in which they take their numbers.  The result: what each task prints, the
    reply it has written, and the counter after them. *)
Fixpoint run_accept_loop (incoming : list (result string Incoming)) (counter : Z)
    : list (list Output * option (list Z)) * Z :=
  match incoming with
  | [] => ([], counter)
  | Err _ :: rest => run_accept_loop rest counter
  | Ok c :: rest =>
      let '(out, reply, counter1) :=
        handle_incoming (in_remote c) (in_accept c) (in_read c) (in_write c) counter in
      let (tasks, counter2) := run_accept_loop rest counter1 in
      ((out, reply) :: tasks, counter2)
  end.

(** The attempts that become connections. *)
Definition connected (incoming : list (result string Incoming)) : list Incoming :=
  omap (fun r => match r with Ok c => Some c | Err _ => None end) incoming.

(** A connection takes a number when its read returns data, and is answered when the reply can
    be written as well. *)
Definition takes_number (c : Incoming) : bool :=
  match in_accept c, in_read c with None, ReadData _ => true | _, _ => false end.

Definition answered (c : Incoming) : bool :=
  takes_number c && match in_write c with None => true | Some _ => false end.

Definition numbers_taken (cs : list Incoming) : Z := zlen (filter takes_number cs).

(** A caller that gets as far as reading the reply. *)
Definition call_io (remote : SocketAddr) (read : ReadOutcome) : CallIo := {|
  ci_tls := None; ci_connect := None; ci_handshake := HandshakeOk remote; ci_open := None;
  ci_write := None; ci_flush := None; ci_read := read
|}.

Module ExchangeSample.
Definition incoming (read : ReadOutcome) (write : option string) : Incoming := {|
  in_remote := V4 [203; 0; 113; 9] 40000; in_accept := None; in_read := read; in_write := write
|}.

Definition said (message : string) : ReadOutcome := ReadData (payload_of message).
End ExchangeSample.

(** ** Facts *)

Lemma ack_ascii n : 0 <= n -> Forall (fun b => 0 <= b < 128) (as_bytes (ack_text n)).
Proof.
  intros Hn. unfold ack_text. rewrite as_bytes_app. apply Forall_app_2.
  - repeat constructor; done.
  - rewrite as_bytes_of_bytes; [by apply decimal_ascii|].
    eapply Forall_impl; [by apply decimal_ascii|]. unfold byte_ok. simpl. lia.
Qed.

Lemma ack_last n : 0 <= n -> exists d, 48 <= d <= 57 /\ last (as_bytes (ack_text n)) = Some d.
Proof.
  intros Hn. pose proof (decimal_digits n Hn) as Hd. pose proof (decimal_nonempty n) as Hne.
  assert (Hb : as_bytes (string_of_bytes (decimal n)) = decimal n).
  { apply as_bytes_of_bytes. eapply Forall_impl; [by apply decimal_ascii|]. unfold byte_ok. simpl. lia. }
  unfold ack_text. rewrite as_bytes_app, Hb, last_app.
  destruct (last (decimal n)) as [d|] eqn:E; [|by apply last_None in E].
  exists d. split; [|done]. apply last_Some in E as [l E]. rewrite E in Hd.
  apply Forall_app in Hd as [_ Hd]. by inversion Hd.
Qed.

(** The caller reads the acknowledgement back as it was meant. *)
Lemma ack_read n : 0 <= n ->
  trim_end (from_utf8_lossy (as_bytes (ack_text n +:+ newline))) = ack_text n.
Proof.
  intros Hn. rewrite from_utf8_lossy_ascii.
  - rewrite string_of_as_bytes. unfold newline. rewrite trim_end_newline.
    destruct (ack_last n Hn) as (d & Hd & Hl). by apply (trim_end_digit _ d).
  - rewrite as_bytes_app. apply Forall_app_2; [by apply ack_ascii|]. by repeat constructor.
Qed.

Lemma decimal_acc_length fuel n acc : (length (decimal_acc fuel n acc) <= fuel + length acc)%nat.
Proof.
  revert n acc. induction fuel as [|fuel IH]; intros n acc; [done|]. cbn [decimal_acc].
  case_goal; cbn; [lia|]. etransitivity; [apply IH|]. cbn. lia.
Qed.

Lemma ack_fits n : (length (as_bytes (ack_text n +:+ newline)) <= 4096)%nat.
Proof.
  unfold ack_text. rewrite !as_bytes_app, !length_app.
  assert (forall l, length (as_bytes (string_of_bytes l)) = length l) as Hl
    by (induction l; cbn; congruence).
  unfold newline. rewrite !Hl. pose proof (decimal_acc_length 20 n []) as Hd.
  unfold decimal. cbn in Hd |- *. lia.
Qed.

(** A caller whose read returns the acknowledgement shows it. *)
Lemma call_shown target remote message n : 0 <= n ->
  exchange target message (call_io remote (ReadData (as_bytes (ack_text n +:+ newline)))) =
    ([Stdout ("Connected to " +:+ socket_addr_text target +:+ " (remote: " +:+
              socket_addr_text remote +:+ ")");
      Stdout ("Sent:     " +:+ debug_string message);
      Stdout ("Received: " +:+ debug_string (ack_text n));
      Stdout "Call complete."], Some (payload_of message), Ok tt).
Proof.
  intros Hn. unfold exchange, call_io. cbn [ci_tls ci_connect ci_handshake ci_open ci_write ci_flush ci_read].
  destruct (as_bytes (ack_text n +:+ newline)) as [|b l] eqn:E; [done|].
  by rewrite <- E, ack_read.
Qed.

(** The listener shows what it has read. *)
Lemma handle_incoming_cases c counter :
  handle_incoming (in_remote c) (in_accept c) (in_read c) (in_write c) counter =
    ((handle_incoming (in_remote c) (in_accept c) (in_read c) (in_write c) 0).1.1,
     (if answered c then Some (as_bytes (ack_text counter +:+ newline)) else None),
     if takes_number c then cast 64 (counter + 1) else counter).
Proof.
  unfold handle_incoming, answered, takes_number.
  by destruct (in_accept c), (in_read c), (in_write c).
Qed.

Lemma handle_incoming_said c message :
  rust_string message -> in_accept c = None -> in_read c = ReadData (payload_of message) ->
  head (handle_incoming (in_remote c) (in_accept c) (in_read c) (in_write c) 0).1.1 =
    Some (Stdout ("[" +:+ socket_addr_text (in_remote c) +:+ "] said: " +:+ trim_end message)).
Proof.
  intros Hv Ha Hr. unfold handle_incoming. rewrite Ha, Hr.
  assert (trim_end (from_utf8_lossy (payload_of message)) = trim_end message) as ->.
  { unfold payload_of, newline. rewrite as_bytes_app.
    change (as_bytes (string_of_bytes [10])) with [10].
    rewrite from_utf8_lossy_valid by (by apply utf8_valid_app).
    by rewrite string_of_bytes_app, string_of_as_bytes, trim_end_newline. }
  by destruct (in_write c).
Qed.

Lemma numbers_taken_cons c cs :
  numbers_taken (c :: cs) = (if takes_number c then 1 else 0) + numbers_taken cs.
Proof.
  unfold numbers_taken. rewrite filter_cons. destruct (takes_number c); cbn [decide]; [|done].
  case_decide; [|done]. by rewrite zlen_cons.
Qed.

Lemma numbers_taken_nonneg cs : 0 <= numbers_taken cs.
Proof. apply zlen_nonneg. Qed.

(** Every task gets the number of connections before it that took one. *)
Lemma run_accept_loop_numbers incoming : forall counter,
  0 <= counter -> counter + numbers_taken (connected incoming) < 2 ^ 64 ->
  run_accept_loop incoming counter =
    (imap (fun i c =>
       let n := counter + numbers_taken (take i (connected incoming)) in
       ((handle_incoming (in_remote c) (in_accept c) (in_read c) (in_write c) 0).1.1,
        if answered c then Some (as_bytes (ack_text n +:+ newline)) else None)) (connected incoming),
     counter + numbers_taken (connected incoming)).
Proof.
  induction incoming as [|[c|e] rest IH]; intros counter Hc Hmax.
  { cbn. by rewrite Z.add_0_r. }
  - change (connected (Ok c :: rest)) with (c :: connected rest) in *. rewrite numbers_taken_cons in *.
    pose proof (numbers_taken_nonneg (connected rest)).
    cbn [run_accept_loop]. rewrite handle_incoming_cases.
    assert ((if takes_number c then cast 64 (counter + 1) else counter) =
            counter + if takes_number c then 1 else 0) as ->.
    { destruct (takes_number c); [rewrite cast_small|]; lia. }
    rewrite IH by (destruct (takes_number c); lia). f_equal; [|lia].
    cbn [imap take]. f_equal; [change (numbers_taken []) with 0; by rewrite Z.add_0_r|].
    apply imap_ext. intros i x _. cbn [compose take]. rewrite numbers_taken_cons.
    by rewrite Z.add_assoc.
  - by apply IH.
Qed.

(** Numbers grow along the connections that take one. *)
Lemma numbers_taken_lt cs i j c :
  cs !! i = Some c -> takes_number c = true -> (i < j)%nat ->
  numbers_taken (take i cs) < numbers_taken (take j cs).
Proof.
  revert i j. induction cs as [|c0 cs IH]; intros [|i] [|j] Hi Ht Hlt; try done; try lia;
    cbn [take]; rewrite !numbers_taken_cons.
  - injection Hi as ->. rewrite Ht. pose proof (numbers_taken_nonneg (take j cs)).
    change (numbers_taken []) with 0. lia.
  - cbn [lookup list_lookup] in Hi. specialize (IH i j Hi Ht). lia.
Qed.

(** C8: the listener numbers the calls that say something, and a caller that gets its reply
    shows its number.  Whatever fails on each connection (the handshake, the stream, the read,
    the reply), a task takes a number exactly when its read returns data, and has written a
    reply exactly when the write succeeds too; the reply is [ack: n] with [n] the number of
    connections before it that said something, which no other reply carries.  It fits the
    caller's buffer, and a caller whose read returns it shows it and ends without an error.  A
    message that the read returns whole is shown by the listener, without the white space at
    its end. *)
Theorem calls_acknowledged incoming counter :
  0 <= counter -> counter + numbers_taken (connected incoming) < 2 ^ 64 ->
  let (tasks, counter') := run_accept_loop incoming counter in
  let number i := counter + numbers_taken (take i (connected incoming)) in
  counter' = counter + numbers_taken (connected incoming) /\
  length tasks = length (connected incoming) /\
  (forall i c out reply, connected incoming !! i = Some c -> tasks !! i = Some (out, reply) ->
     reply = (if answered c then Some (as_bytes (ack_text (number i) +:+ newline)) else None) /\
     (forall message, rust_string message -> in_accept c = None ->
        in_read c = ReadData (payload_of message) ->
        head out = Some (Stdout ("[" +:+ socket_addr_text (in_remote c) +:+ "] said: " +:+
                                 trim_end message))) /\
     (forall bytes target remote message, reply = Some bytes ->
        zlen bytes <= BUFFER_SIZE /\
        exchange target message (call_io remote (ReadData bytes)) =
          ([Stdout ("Connected to " +:+ socket_addr_text target +:+ " (remote: " +:+
                    socket_addr_text remote +:+ ")");
            Stdout ("Sent:     " +:+ debug_string message);
            Stdout ("Received: " +:+ debug_string (ack_text (number i)));
            Stdout "Call complete."], Some (payload_of message), Ok tt))) /\
  (forall i j c d, connected incoming !! i = Some c -> connected incoming !! j = Some d ->
     answered c = true -> answered d = true -> number i = number j -> i = j).
Proof.
  intros Hc Hmax. rewrite run_accept_loop_numbers by done. cbv zeta.
  split; [done|]. split; [by rewrite length_imap|]. split.
  - intros i c out reply Hi Ht. rewrite list_lookup_imap, Hi in Ht. injection Ht as <- <-.
    split; [done|]. split; [intros; by apply handle_incoming_said|].
    intros bytes target remote message Hr. destruct (answered c); [|done]. injection Hr as <-.
    split; [apply (Nat2Z.inj_le _ 4096), ack_fits|].
    apply call_shown. pose proof (numbers_taken_nonneg (take i (connected incoming))). lia.
  - intros i j c d Hi Hj Ha Hd Hn. unfold answered in Ha, Hd. apply andb_prop in Ha as [Ha _], Hd as [Hd _].
    destruct (Nat.lt_trichotomy i j) as [Hlt|[->|Hlt]]; [|done|].
    + pose proof (numbers_taken_lt _ _ _ _ Hi Ha Hlt). lia.
    + pose proof (numbers_taken_lt _ _ _ _ Hj Hd Hlt). lia.
Qed.

(** Five attempts: two calls that are answered, between them a failed handshake, a stream that
    ends without data and a reply that cannot be written. *)
Lemma calls_acknowledged_witness :
  exists out,
    fst (run_accept_loop
      [Ok (ExchangeSample.incoming (ExchangeSample.said "hello") None); Err "timed out";
       Ok (ExchangeSample.incoming ReadEnd None);
       Ok (ExchangeSample.incoming (ExchangeSample.said "lost") (Some "reset"));
       Ok (ExchangeSample.incoming (ExchangeSample.said "again") None)] 0) !! 3%nat =
      Some (out, Some (as_bytes ("ack: 2" +:+ newline))) /\
    head out = Some (Stdout "[203.0.113.9:40000] said: again").
Proof.
  pose proof (calls_acknowledged
    [Ok (ExchangeSample.incoming (ExchangeSample.said "hello") None); Err "timed out";
     Ok (ExchangeSample.incoming ReadEnd None);
     Ok (ExchangeSample.incoming (ExchangeSample.said "lost") (Some "reset"));
     Ok (ExchangeSample.incoming (ExchangeSample.said "again") None)] 0) as H.
  destruct (run_accept_loop _ 0) as [tasks counter'] eqn:E.
  destruct H as (_ & _ & H & _); [done|done|].
  destruct (tasks !! 3%nat) as [[out reply]|] eqn:Et.
  - destruct (H 3%nat (ExchangeSample.incoming (ExchangeSample.said "again") None) out reply eq_refl Et)
      as (Hr & Hm & _).
    exists out. cbn [fst]. rewrite Et. split; [by rewrite Hr|].
    apply (Hm "again"); [by vm_compute|done|done].
  - vm_compute in E. injection E as <- _. discriminate Et.
Defined.
