(* ===== verification/UnitTest.v ===== *)
(** * The repository's unit tests as executable suites

    A [#[test]] function becomes a named proposition.  Where its body is closed the proposition is
    a boolean that is evaluated; where it draws random keys it is quantified over them and proved.
    The files whose names start with [Tests] hold the suites. *)

From S2P Require Import Prelude.

Declare Scope test_scope.
Delimit Scope test_scope with test.

Definition Suite := list (string * Prop).

Definition passes (s : Suite) : Prop := Forall (fun t => t.2) s.

(** A closed test, and one that draws random values. *)
Definition test (name : string) (b : bool) : string * Prop := (name, Is_true b).
Definition proves (name : string) (P : Prop) : string * Prop := (name, P).

(** [assert_eq!] and [assert_ne!] *)
Definition same {A} `{EqDecision A} (x y : A) : bool := bool_decide (x = y).

Notation "x ≟ y" := (same x y) (at level 70) : test_scope.
Notation "x ≠? y" := (negb (same x y)) (at level 70) : test_scope.

(** The assertions of a body that changes nothing. *)
Definition asserts (l : list bool) : bool := forallb (fun b => b) l.

(** A body that works on a mutable value: each step changes it or panics. *)
Definition Step (S : Type) := S -> option S.

Definition body {S} (s : S) (l : list (Step S)) : bool :=
  if foldl (fun (o : option S) (f : Step S) => o ≫= f) (Some s) l then true else false.

(** An assertion on the value. *)
Definition holds {S} (p : S -> bool) : Step S := fun s => if p s then Some s else None.

(** An operation whose result the test inspects. *)
Definition gives {S R} (op : S -> S * R) (p : R -> bool) : Step S :=
  fun s => let (s', r) := op s in if p r then Some s' else None.

Definition does {S} (op : S -> S) : Step S := fun s => Some (op s).

Definition is_some {A} (o : option A) : bool := if o then true else false.
Definition is_none {A} (o : option A) : bool := negb (is_some o).

(** [Result::unwrap]; [None] is the panic. *)
Definition unwrap {E A} (r : result E A) : option A := match r with Ok a => Some a | Err _ => None end.
Definition is_err {E A} (r : result E A) : bool := negb (is_ok r).

(** Evaluates the closed tests of a suite and leaves the others. *)
Ltac run_suite :=
  repeat (apply Forall_cons; split;
    [unfold test, proves; cbn [snd]; lazymatch goal with
     | |- Is_true _ => vm_compute; exact I
     | |- _ => idtac
     end|]);
  try apply Forall_nil_2.
