(* ===== verification/TestsCore.v ===== *)
(** * The unit tests of [voip-core]

    The test modules of [state.rs], [config.rs] and [crypto.rs].  The tests that compare two random
    values or ask for a forgery to fail are not consequences of the documented behaviour of the
    signature crate and are left out. *)

From S2P Require Import Prelude UnitTest Types Config CallState Crypto.

Local Open Scope Z_scope.
Local Open Scope test_scope.

(** ** The call state machine *)

Definition tr_ok (r : TransitionResult) : bool := if r then true else false.

(** [sm.op().unwrap()] and [assert_eq!(sm.op(), TransitionResult::Ok)] *)
Definition ok (op : CallOp) : Step CallStateMachine := gives (apply op) tr_ok.

(** [assert!(matches!(sm.op(), TransitionResult::Invalid { .. }))] *)
Definition invalid (op : CallOp) : Step CallStateMachine := gives (apply op) (fun r => negb (tr_ok r)).

Definition in_state (s : CallState) : Step CallStateMachine := holds (fun c => state c ≟ s).
Definition has_method (m : option ConnectionMethod) : Step CallStateMachine := holds (fun c => method c ≟ m).
Definition has_reason (r : option CallEndReason) : Step CallStateMachine := holds (fun c => end_reason c ≟ r).
Definition retried (n : Z) : Step CallStateMachine := holds (fun c => retry_count c ≟ n).

Definition call_valid_tests : Suite := [
  test "test_happy_path" (body (csm_new 3) [
     in_state Idle; ok OpRing; in_state Ringing; ok OpAccept; in_state Accepted;
     ok (OpConnect Conn_Ipv6Direct); in_state Connected; has_method (Some Conn_Ipv6Direct);
     ok (OpEnd End_Normal); in_state Ended; has_reason (Some End_Normal)]);
  test "test_idle_to_ringing" (body (csm_new 3) [ok OpRing; in_state Ringing]);
  test "test_ringing_to_accepted" (body (csm_new 3) [ok OpRing; ok OpAccept; in_state Accepted]);
  test "test_accepted_to_connected" (body (csm_new 3) [
     ok OpRing; ok OpAccept; ok (OpConnect Conn_Ipv4Cone); in_state Connected;
     has_method (Some Conn_Ipv4Cone)]);
  test "test_connected_to_ended" (body (csm_new 3) [
     ok OpRing; ok OpAccept; ok (OpConnect Conn_Ipv6Direct); ok (OpEnd End_Normal);
     in_state Ended]);
  test "test_ringing_to_failed" (body (csm_new 3) [
     ok OpRing; ok (OpFail End_Timeout); in_state Failed; holds is_terminal]);
  test "test_accepted_to_failed" (body (csm_new 3) [
     ok OpRing; ok OpAccept; ok (OpFail End_FailedIpv4Random); in_state Failed]);
  test "test_connected_to_failed" (body (csm_new 3) [
     ok OpRing; ok OpAccept; ok (OpConnect Conn_Masque); ok (OpFail End_FailedNetwork);
     in_state Failed]);
  test "test_reject_from_ringing" (body (csm_new 3) [
     ok OpRing; ok OpReject; in_state Failed; has_reason (Some End_Rejected)]);
  test "test_timeout_from_ringing" (body (csm_new 3) [
     ok OpRing; ok OpTimeout; in_state Failed; has_reason (Some End_Timeout)]);
  test "test_timeout_from_accepted" (body (csm_new 3) [
     ok OpRing; ok OpAccept; ok OpTimeout; in_state Failed; has_reason (Some End_Timeout)])
].

Definition call_retry_tests : Suite := [
  test "test_retry_from_failed" (body (csm_new 3) [
     ok OpRing; ok (OpFail End_FailedIpv4Random); retried 0;
     ok OpRetry; in_state Ringing; retried 1;
     ok (OpFail End_FailedIpv4Random); ok OpRetry; retried 2;
     ok (OpFail End_FailedIpv4Random); ok OpRetry; retried 3;
     ok (OpFail End_FailedIpv4Random); invalid OpRetry]);
  test "test_retry_with_max_zero" (body (csm_new 0) [
     ok OpRing; ok (OpFail End_FailedIpv4Random); invalid OpRetry])
].

Definition call_invalid_tests : Suite := [
  test "test_cannot_accept_from_idle" (body (csm_new 3) [invalid OpAccept]);
  test "test_cannot_connect_from_idle" (body (csm_new 3) [invalid (OpConnect Conn_Ipv6Direct)]);
  test "test_cannot_end_from_idle" (body (csm_new 3) [invalid (OpEnd End_Normal)]);
  test "test_cannot_fail_from_idle" (body (csm_new 3) [invalid (OpFail End_FailedNetwork)]);
  test "test_cannot_reject_from_idle" (body (csm_new 3) [invalid OpReject]);
  test "test_cannot_timeout_from_idle" (body (csm_new 3) [invalid OpTimeout]);
  test "test_cannot_connect_from_ringing" (body (csm_new 3) [
     ok OpRing; invalid (OpConnect Conn_Ipv6Direct)]);
  test "test_cannot_end_from_ringing" (body (csm_new 3) [ok OpRing; invalid (OpEnd End_Normal)]);
  test "test_cannot_ring_from_ringing" (body (csm_new 3) [ok OpRing; invalid OpRing]);
  test "test_cannot_ring_from_accepted" (body (csm_new 3) [
     ok OpRing; ok OpAccept; invalid OpRing]);
  test "test_cannot_accept_from_accepted" (body (csm_new 3) [
     ok OpRing; ok OpAccept; invalid OpAccept]);
  test "test_cannot_end_from_accepted" (body (csm_new 3) [
     ok OpRing; ok OpAccept; invalid (OpEnd End_Normal)])
].

Definition call_connected_tests : Suite := [
  test "test_cannot_accept_from_connected" (body (csm_new 3) [
     ok OpRing; ok OpAccept; ok (OpConnect Conn_Ipv6Direct); invalid OpAccept]);
  test "test_cannot_connect_from_connected" (body (csm_new 3) [
     ok OpRing; ok OpAccept; ok (OpConnect Conn_Ipv6Direct); invalid (OpConnect Conn_Ipv4Cone)]);
  test "test_cannot_timeout_from_connected" (body (csm_new 3) [
     ok OpRing; ok OpAccept; ok (OpConnect Conn_Ipv6Direct); invalid OpTimeout]);
  test "test_cannot_reject_from_accepted" (body (csm_new 3) [
     ok OpRing; ok OpAccept; invalid OpReject]);
  test "test_cannot_reject_from_connected" (body (csm_new 3) [
     ok OpRing; ok OpAccept; ok (OpConnect Conn_Ipv6Direct); invalid OpReject]);
  test "test_no_transition_from_failed" (body (csm_new 3) [
     ok OpRing; ok (OpFail End_Timeout);
     invalid OpAccept; invalid (OpFail End_Timeout); invalid (OpEnd End_Normal); invalid OpRing;
     invalid (OpConnect Conn_Ipv6Direct); invalid OpReject; invalid OpTimeout]);
  test "test_no_transition_from_ended" (body (csm_new 3) [
     ok OpRing; ok OpAccept; ok (OpConnect Conn_Ipv6Direct); ok (OpEnd End_Normal);
     invalid OpAccept; invalid (OpFail End_Timeout); invalid OpRing;
     invalid (OpConnect Conn_Ipv6Direct); invalid OpReject; invalid OpTimeout]);
  test "test_connection_method_recorded" (body (csm_new 3) [
     ok OpRing; ok OpAccept; has_method None; ok (OpConnect Conn_Ipv4Prediction);
     has_method (Some Conn_Ipv4Prediction); ok (OpEnd End_Normal);
     has_method (Some Conn_Ipv4Prediction)]);
  test "test_connection_method_cleared_on_retry" (body (csm_new 3) [
     ok OpRing; ok OpAccept; ok (OpConnect Conn_Masque); ok (OpFail End_FailedMasqueUnreachable);
     has_method (Some Conn_Masque); ok OpRetry; has_method (Some Conn_Masque)]);
  test "test_end_reason_set_on_fail" (body (csm_new 3) [
     ok OpRing; ok (OpFail End_FailedUdpBlocked); has_reason (Some End_FailedUdpBlocked)]);
  test "test_end_reason_cleared_on_retry" (body (csm_new 3) [
     ok OpRing; ok (OpFail End_FailedIpv4Random); has_reason (Some End_FailedIpv4Random);
     ok OpRetry; has_reason None])
].

(** ** Configuration *)

Definition config_tests : Suite := [
  test "test_default_config" (let config := default_config in asserts [
     path_probe_count config ≟ 5; path_probe_timeout_ms config ≟ 1000;
     nat_cache_ttl_secs config ≟ 300; prediction_margin_sequential config ≟ 3;
     prediction_margin_pseudo config ≟ 8; prediction_max_probes config ≟ 17;
     quic_connect_timeout_ms config ≟ 5000; quic_prediction_timeout_ms config ≟ 3000;
     quic_idle_timeout_ms config ≟ 30000; quic_alpn config ≟ "moq-00"%string;
     discovery_privacy_first config; dht_lookup_timeout_ms config ≟ 200;
     dht_bootstrap_nodes config ≟ []; dht_record_ttl_secs config ≟ 3600;
     push_retry_enabled config; push_retry_initial_delay_secs config ≟ 5;
     push_retry_max_attempts config ≟ 3; push_retry_backoff_multiplier config ≟ 3;
     masque_fallback_enabled config; masque_discovery_timeout_ms config ≟ 2000;
     masque_connect_timeout_ms config ≟ 3000; masque_max_proxy_attempts config ≟ 3;
     negb (masque_proxy_enabled config); masque_proxy_max_sessions config ≟ 10;
     call_ring_timeout_ms config ≟ 30000; call_connect_timeout_ms config ≟ 10000;
     migration_path_timeout_ms config ≟ 5000; migration_max_reprobes config ≟ 1;
     rate_limit_calls_per_min config ≟ 10; rate_limit_registrations_per_min config ≟ 6;
     rate_limit_ws_messages_per_sec config ≟ 30; jwt_expiry_secs config ≟ 3600;
     signaling_server_ips config ≟ []; session_ticket_ttl_secs config ≟ 86400;
     moq_feedback_interval_ms config ≟ 1000; ws_idle_timeout_secs config ≟ 300]);
  test "test_retry_delay_backoff" (let config := default_config in asserts [
     retry_delay_secs Checked config 1 ≟ Some 5; retry_delay_secs Checked config 2 ≟ Some 15;
     retry_delay_secs Checked config 3 ≟ Some 45; retry_delay_secs Checked config 0 ≟ Some 0]);
  test "test_prediction_ranges" (let config := default_config in asserts [
     sequential_prediction_range config 50000 ≟ (49997, 50003);
     pseudo_prediction_range config 50000 ≟ (49992, 50008)]);
  test "test_prediction_range_clamped" (let config := default_config in asserts [
     sequential_prediction_range config 1025 ≟ (1024, 1028);
     sequential_prediction_range config 65534 ≟ (65531, 65535)]);
  test "test_default_opus_config" (let config := default_opus_config in asserts [
     sample_rate config ≟ 48000; channels config ≟ 1;
     application config ≟ OPUS_APPLICATION_VOIP; opus_bitrate_max config ≟ 64000;
     opus_bitrate_min config ≟ 6000; opus_frame_duration_ms config ≟ 20; fec config; dtx config;
     complexity config ≟ 10; frame_size config ≟ 960])
].

(** ** Keys and peer identifiers *)

Definition is_ascii_hexdigit (c : Z) : bool :=
  (48 <=? c) && (c <=? 57) || (97 <=? c) && (c <=? 102) || (65 <=? c) && (c <=? 70).

Definition crypto_tests `{S : SigScheme} : Suite := [
  proves "test_peer_id_from_public_key" (forall seed,
     let (_, pk) := generate_ed25519_keypair seed in
     let peer_id := peer_id_from_public_key pk in
     str_len peer_id = 64 /\ Forall (fun c => is_ascii_hexdigit c = true) (as_bytes peer_id));
  proves "test_peer_id_deterministic" (forall seed,
     let (_, pk) := generate_ed25519_keypair seed in
     peer_id_from_public_key pk = peer_id_from_public_key pk);
  proves "test_parse_peer_id_roundtrip" (forall seed,
     let (_, pk) := generate_ed25519_keypair seed in
     parse_peer_id (peer_id_from_public_key pk) = Ok pk);
  test "test_parse_peer_id_invalid_hex" (is_err (parse_peer_id "not_hex"));
  test "test_parse_peer_id_odd_length" (is_err (parse_peer_id "abc"));
  test "test_parse_peer_id_wrong_length" (is_err (parse_peer_id "0123456789abcdef"));
  (* The test only calls [parse_peer_id] on a well-formed identifier that may not be a point. *)
  proves "test_parse_peer_id_invalid_point" (
     parse_peer_id (string_of_bytes (replicate 64 102)) =
     ok_or (vk_from_bytes (replicate 32 255)) (InvalidKeyMaterial "invalid verifying key"));
  test "test_hex_encode_decode_roundtrip" (
     let original := [0x00; 0x01; 0xab; 0xcd; 0xef; 0xff] in
     let encoded := hex_encode original in
     asserts [encoded ≟ "0001abcdefff"%string; unwrap (hex_decode encoded) ≟ Some original]);
  test "test_hex_decode_uppercase" (unwrap (hex_decode "01AB") ≟ Some [0x01; 0xAB])
].

(** ** All of them pass *)

Lemma core_tests_pass :
  passes call_valid_tests /\ passes call_retry_tests /\ passes call_invalid_tests /\
  passes call_connected_tests /\ passes config_tests.
Proof. split_and!; run_suite. Qed.

Lemma hex_bytes_digits l : bytes_ok l -> Forall (fun c => is_ascii_hexdigit c = true) (hex_bytes l).
Proof.
  induction 1 as [|b l Hb _ IH]; cbn [hex_bytes]; [constructor|].
  assert (forall i, 0 <= i < 16 -> is_ascii_hexdigit (hex_char i) = true) as Hd.
  { apply (Z_interval_ind (fun i => is_ascii_hexdigit (hex_char i) = true) 0 16).
    vm_compute seqZ. repeat constructor. }
  destruct (nibbles b Hb) as (H1 & H2 & _). constructor; [by apply Hd|constructor; [by apply Hd|done]].
Qed.

Lemma crypto_tests_pass {S : SigScheme} {L : SigLaws S} : passes crypto_tests.
Proof.
  run_suite.
  - intros seed. cbn. destruct (peer_id_roundtrip (sk_from_bytes seed) []) as [Hl _].
    split; [done|]. unfold peer_id_from_public_key, hex_encode.
    rewrite as_bytes_of_bytes by eauto using hex_bytes_ok with voip. apply hex_bytes_digits. auto with voip.
  - done.
  - intros seed. cbn. apply (peer_id_roundtrip (sk_from_bytes seed) []).
  - done.
Qed.
