(* ===== verification/TestsProxy.v ===== *)
(** * The unit tests of the proxy

    The test module of [voip-client/src/proxy.rs].  Tests that draw keys or read the clock are
    quantified over both; a test that expects a forged signature to be refused has the refusal by
    the signature scheme as its hypothesis. *)

From S2P Require Import Prelude UnitTest Types Config Crypto Base64 RustStr RustNet Tls Moq ProxyToken.
From S2P Require Import Proxy DhtRecord ProxyServer.

Local Open Scope Z_scope.
Local Open Scope rust_scope.
Local Open Scope test_scope.

(** ** Limits and the session tracker *)

(** The clock of a test, in nanoseconds, that runs for less than a second. *)
Definition during (t0 t : Z) : Prop := t0 <= t < t0 + NS_PER_SEC.

Definition custom_limits : ProxyLimits := {|
  max_sessions := 5; max_duration_secs := 3600; max_datagram_rate := 100; max_datagram_size := 800;
  max_bandwidth_bps := 500000; blocked_target_ports := [25]
|}.

Definition mentions (e : string) (part : string) : bool := contains (as_bytes part) (as_bytes e).

Definition sends (n : nat) (now size : Z) : Step SessionTracker :=
  fun t => Nat.iter n (fun o => o ≫= record_send Checked now size) (Some t).

Definition tracker_tests : Suite := [
  test "test_proxy_limits_default" (let limits := ProxyLimits_default in asserts [
     max_sessions limits ≟ 10; max_duration_secs limits ≟ 14400; max_datagram_rate limits ≟ 200;
     max_datagram_size limits ≟ 1280; max_bandwidth_bps limits ≟ 500000;
     bool_decide (25 ∈ blocked_target_ports limits)]);
  test "test_proxy_limits_custom" (asserts [
     max_sessions custom_limits ≟ 5; max_duration_secs custom_limits ≟ 3600]);
  test "test_session_tracker_new" (body (tracker_new 0 "call-abc123") [
     holds (fun t => trk_call_id t ≟ "call-abc123"%string); holds (fun t => datagram_count t ≟ 0);
     holds (fun t => bytes_sent t ≟ 0); holds (fun t => bytes_recv t ≟ 0)]);
  test "test_session_tracker_record_send" (body (tracker_new 0 "call-abc123") [
     record_send Checked 0 200; holds (fun t => datagram_count t ≟ 1);
     holds (fun t => bytes_sent t ≟ 200)]);
  test "test_session_tracker_record_recv" (body (tracker_new 0 "call-abc123") [
     record_recv Checked 300; holds (fun t => bytes_recv t ≟ 300)]);
  test "test_session_tracker_multiple_datagrams" (body (tracker_new 0 "call-abc123") (
     concat (repeat [record_send Checked 0 120; record_recv Checked 120] 10) ++ [
     holds (fun t => datagram_count t ≟ 10); holds (fun t => bytes_sent t ≟ 1200);
     holds (fun t => bytes_recv t ≟ 1200)]));
  proves "test_session_tracker_rate" (forall t0 t, during t0 t ->
     exists tr, sends 100 t0 100 (tracker_new t0 "call-abc123") = Some tr /\ datagram_rate t tr <= 100);
  proves "test_session_tracker_bandwidth" (forall t0 t, during t0 t ->
     exists tr bw, record_send Checked t0 1000 (tracker_new t0 "call-abc123") = Some tr /\
       send_bandwidth_bps Checked t tr = Some bw /\ bw > 0);
  proves "test_session_tracker_duration" (forall t0 t, during t0 t ->
     duration_secs t (tracker_new t0 "call-abc123") <= 1)
].

(** ** Tokens *)

(** A time in seconds at which the additions of the test do not reach the end of [u64]. *)
Definition sane (now : Z) : Prop := 0 <= now < 2 ^ 63.

Section Tokens.
Context `{S : SigScheme}.

Definition message_of (t : ProxyToken) : list Z :=
  signing_message (pt_peer_id t) (pt_proxy_url t) (pt_expires_at t) (pt_issued_at t).

Definition token_sign_tests : Suite := [
  proves "test_proxy_token_sign_and_verify" (forall seed now, sane now ->
     let (signing_key, verifying_key) := generate_ed25519_keypair seed in
     let token := token_sign now "peer-abc123" "https://proxy.example.com:443" signing_key 300 in
     token_verify token verifying_key = true /\ token_is_expired now token = false /\
     pt_peer_id token = "peer-abc123"%string /\
     pt_proxy_url token = "https://proxy.example.com:443"%string);
  proves "test_proxy_token_wrong_key_fails" (forall seed1 seed2 now, sane now ->
     let (signing_key1, _) := generate_ed25519_keypair seed1 in
     let (_, verifying_key2) := generate_ed25519_keypair seed2 in
     let token := token_sign now "peer-abc123" "https://proxy.example.com:443" signing_key1 300 in
     verify_sig verifying_key2 (message_of token) (sig_from_bytes (pt_signature token)) = false ->
     token_verify token verifying_key2 = false);
  proves "test_proxy_token_expired" (forall seed now, sane now ->
     let (signing_key, _) := generate_ed25519_keypair seed in
     let token := token_sign now "peer-abc123" "https://proxy.example.com:443" signing_key 0 in
     token_is_expired now token = true);
  proves "test_proxy_token_encode_decode_roundtrip" (forall seed now, sane now ->
     let (signing_key, verifying_key) := generate_ed25519_keypair seed in
     let token := token_sign now "peer-abc123" "https://proxy.example.com:443/masque" signing_key 300 in
     exists decoded, token_decode (token_encode token) = Ok decoded /\
       pt_peer_id decoded = pt_peer_id token /\ pt_proxy_url decoded = pt_proxy_url token /\
       pt_expires_at decoded = pt_expires_at token /\ pt_issued_at decoded = pt_issued_at token /\
       pt_signature decoded = pt_signature token /\ token_verify decoded verifying_key = true);
  test "test_proxy_token_decode_invalid_base64" (is_err (token_decode "not!!!valid!!!base64!!!"));
  test "test_proxy_token_decode_too_short" (is_err (token_decode (base64_encode (as_bytes "short"))));
  test "test_proxy_token_signing_message_deterministic" (
     signing_message "peer-1" "https://proxy1.com" 1000 500 ≟
     signing_message "peer-1" "https://proxy1.com" 1000 500);
  test "test_proxy_token_signing_message_different_inputs" (
     signing_message "peer-1" "https://proxy1.com" 1000 500 ≠?
     signing_message "peer-2" "https://proxy1.com" 1000 500)
].

Definition verifier_tests : Suite := [
  proves "test_token_verifier_valid" (forall seed now, sane now ->
     let (signing_key, verifying_key) := generate_ed25519_keypair seed in
     let token := token_sign now "peer-abc123" "https://proxy.example.com:443" signing_key 300 in
     is_ok (verifier_verify verifying_key now token) = true);
  proves "test_token_verifier_wrong_key" (forall seed1 seed2 now, sane now ->
     let (signing_key1, _) := generate_ed25519_keypair seed1 in
     let (_, verifying_key2) := generate_ed25519_keypair seed2 in
     let token := token_sign now "peer-abc123" "https://proxy.example.com:443" signing_key1 300 in
     verify_sig verifying_key2 (message_of token) (sig_from_bytes (pt_signature token)) = false ->
     is_ok (verifier_verify verifying_key2 now token) = false);
  proves "test_token_verifier_expired" (forall seed now, sane now ->
     let (signing_key, verifying_key) := generate_ed25519_keypair seed in
     let token := token_sign now "peer-abc123" "https://proxy.example.com:443" signing_key 0 in
     exists expires_at, verifier_verify verifying_key now token = Err (TokenExpired expires_at))
].
End Tokens.

(** ** Certificates *)

Section Certs.
Context {G : Rcgen} {T : Rustls} {H : Sha256}.

(** Each test that provisions a certificate starts from a generator and a TLS library that
    succeed, and a hash of 32 bytes. *)
Definition cert_tests : Suite := [
  proves "test_cert_manager_self_signed" (
     let manager := cert_manager_new SelfSigned in
     is_provisioned manager = false /\
     (forall manager', provision manager = (Ok tt, manager') ->
      (forall c k, rustls_single_cert c k = Ok tt) -> (forall c k, rustls_quic c k = Ok tt) ->
      is_provisioned manager' = true /\ is_ok (server_config manager') = true));
  proves "test_cert_manager_cloudflare_tunnel" (
     let manager := cert_manager_new CloudflareTunnel in
     is_provisioned manager = false /\
     let (r, manager') := provision manager in
     r = Ok tt /\ is_provisioned manager' = false /\ is_ok (server_config manager') = false);
  proves "test_cert_manager_lets_encrypt_fails_without_server" (
     let manager := cert_manager_new (LetsEncrypt "proxy.example.com" "admin@example.com") in
     is_ok (provision manager).1 = false);
  proves "test_cert_manager_fingerprint" (
     let manager := cert_manager_new SelfSigned in
     cert_fingerprint manager = None /\
     (forall manager', provision manager = (Ok tt, manager') ->
      (forall l, length (sha256 l) = 32%nat /\ Forall (fun b => 0 <= b < 256) (sha256 l)) ->
      exists fp, cert_fingerprint manager' = Some fp /\ str_len fp = 64 /\
        Forall (fun c => 48 <= c <= 57 \/ 97 <= c <= 102) (as_bytes fp)));
  proves "test_cert_manager_not_provisioned_server_config" (
     server_config (cert_manager_new SelfSigned) = Err NotProvisioned)
].
End Certs.

(** ** Recovery and the cache *)

Definition node1 (latency : Z) : ProxyRecord := {|
  pr_node_id := "node-1"; pr_proxy_url := "https://proxy1.example.com:443"; pr_capacity := 10;
  pr_region := "us-east"; pr_latency_hint_ms := latency; pr_timestamp := 0; pr_ttl_seconds := 3600;
  pr_cert_fingerprint := ""; pr_signature := []
|}.

Definition node2 (latency : Z) : ProxyRecord := {|
  pr_node_id := "node-2"; pr_proxy_url := "https://proxy2.example.com:443"; pr_capacity := 5;
  pr_region := "eu-west"; pr_latency_hint_ms := latency; pr_timestamp := 0; pr_ttl_seconds := 3600;
  pr_cert_fingerprint := ""; pr_signature := []
|}.

Definition recovery_tests : Suite := [
  test "test_recovery_handler_new" (let handler := recovery_new 3 (600 * NS_PER_MS) in asserts [
     max_recovery_attempts handler ≟ 3; recovery_timeout handler ≟ 600 * NS_PER_MS;
     is_none (last_proxy_url handler); zlen (cached_proxies handler) ≟ 0]);
  test "test_recovery_handler_default_settings" (let handler := recovery_default_settings in asserts [
     max_recovery_attempts handler ≟ 3; recovery_timeout handler ≟ 600 * NS_PER_MS]);
  test "test_recovery_handler_update_proxies" (body recovery_default_settings [
     does (update_proxies [node1 50; node2 100]); holds (fun h => zlen (cached_proxies h) ≟ 2)]);
  test "test_recovery_handler_proxy_order" (body recovery_default_settings [
     does (update_proxies [node1 100; node2 50]);
     does (set_last_proxy "https://proxy1.example.com:443");
     holds (fun h => zlen (recovery_proxy_order h) ≟ 2);
     holds (fun h => pr_proxy_url <$> (recovery_proxy_order h !! 0%nat)
                     ≟ Some "https://proxy1.example.com:443"%string);
     holds (fun h => pr_proxy_url <$> (recovery_proxy_order h !! 1%nat)
                     ≟ Some "https://proxy2.example.com:443"%string)]);
  test "test_recovery_handler_empty" (zlen (recovery_proxy_order recovery_default_settings) ≟ 0)
].

(** The tests of the cache run at one moment. *)
Definition cache_tests : Suite := [
  test "test_proxy_cache_new" (let cache := cache_new 0 in asserts [
     zlen (pc_proxies cache) ≟ 0; negb (cache_is_valid 0 cache); is_none (pc_last_used cache)]);
  test "test_proxy_cache_update_and_get_best" (body (cache_new 0) [
     does (cache_update 0 [node1 100; node2 50]);
     holds (fun c => zlen (pc_proxies c) ≟ 2); holds (cache_is_valid 0);
     holds (fun c => pr_proxy_url <$> cache_get_best 0 c ≟ Some "https://proxy2.example.com:443"%string);
     holds (fun c => pr_latency_hint_ms <$> cache_get_best 0 c ≟ Some 50)]);
  test "test_proxy_cache_last_used_preferred" (body (cache_new 0) [
     does (cache_update 0 [node1 50; node2 100]);
     does (cache_set_last_used "https://proxy2.example.com:443");
     holds (fun c => pr_proxy_url <$> cache_get_best 0 c ≟ Some "https://proxy2.example.com:443"%string)]);
  test "test_proxy_cache_clear" (body (cache_new 0) [
     does (cache_update 0 [node1 50]); holds (cache_is_valid 0); does (cache_clear 0);
     holds (fun c => zlen (pc_proxies c) ≟ 0); holds (fun c => negb (cache_is_valid 0 c));
     holds (fun c => is_none (pc_last_used c))]);
  test "test_proxy_cache_get_all" (body (cache_new 0) [
     does (cache_update 0 [node1 50; node2 100]); holds (fun c => zlen (cache_get_all 0 c) ≟ 2)]);
  test "test_proxy_cache_custom_ttl" (pc_ttl (cache_with_ttl 0 (60 * NS_PER_SEC)) ≟ 60 * NS_PER_SEC);
  test "test_proxy_cache_default" (let cache := cache_new 0 in asserts [
     zlen (pc_proxies cache) ≟ 0; pc_ttl cache ≟ 3600 * NS_PER_SEC])
].

(** ** Base64, messages and the rest *)

Section Rest.
Context `{S : SigScheme}.

Definition proxy_error_tests : Suite := [
  test "test_base64_roundtrip" (
     let data := as_bytes "Hello, World! This is a test of base64 encoding." in
     base64_decode (base64_encode data) ≟ Some data);
  test "test_base64_empty" (base64_decode (base64_encode []) ≟ Some []);
  test "test_base64_binary" (let data := seqZ 0 256 in base64_decode (base64_encode data) ≟ Some data);
  test "test_base64_invalid_char" (is_none (base64_decode "hello!!!world"));
  test "test_proxy_error_capacity_exceeded" (
     mentions (ProxyError_display (CapacityExceeded 10 10)) "10");
  test "test_proxy_error_duration_exceeded" (
     let err := DurationExceeded 14400 15000 in asserts [
     mentions (ProxyError_display err) "14400"; mentions (ProxyError_display err) "15000"]);
  test "test_proxy_error_datagram_size" (
     let err := DatagramSizeExceeded 1200 2000 in asserts [
     mentions (ProxyError_display err) "1200"; mentions (ProxyError_display err) "2000"]);
  test "test_proxy_error_port_blocked" (mentions (ProxyError_display (PortBlocked 25)) "25");
  test "test_cert_error_not_provisioned" (mentions (CertError_display NotProvisioned) "not provisioned");
  test "test_cert_error_from_proxy_error" (
     match ProxyCertError NotProvisioned with ProxyCertError NotProvisioned => true | _ => false end);
  test "test_proxy_token_error_invalid_signature" (
     mentions (ProxyTokenError_display TokenInvalidSignature) "Invalid");
  test "test_proxy_token_error_from_proxy_error" (
     match ProxyBadToken TokenInvalidSignature with
     | ProxyBadToken TokenInvalidSignature => true
     | _ => false
     end)
].

Definition token_edge_tests : Suite := [
  proves "test_proxy_token_unicode_peer_id" (forall seed now, sane now ->
     let (signing_key, verifying_key) := generate_ed25519_keypair seed in
     let token := token_sign now "peer-日本語テスト" "https://proxy.example.com:443" signing_key 300 in
     exists decoded, token_decode (token_encode token) = Ok decoded /\
       pt_peer_id decoded = "peer-日本語テスト"%string /\ token_verify decoded verifying_key = true);
  proves "test_proxy_token_tampered_signature_fails" (forall seed now, sane now ->
     let (signing_key, verifying_key) := generate_ed25519_keypair seed in
     let token := token_sign now "peer-abc123" "https://proxy.example.com:443" signing_key 300 in
     let tampered := match pt_signature token with
                     | [] => []
                     | b :: rest => Z.lxor b 255 :: rest
                     end in
     let token' := {| pt_peer_id := pt_peer_id token; pt_proxy_url := pt_proxy_url token;
                      pt_expires_at := pt_expires_at token; pt_issued_at := pt_issued_at token;
                      pt_signature := tampered |} in
     verify_sig verifying_key (message_of token') (sig_from_bytes tampered) = false ->
     token_verify token' verifying_key = false);
  test "test_proxy_port_allowed" (let blocked := blocked_target_ports ProxyLimits_default in asserts [
     bool_decide (25 ∈ blocked); negb (bool_decide (443 ∈ blocked)); negb (bool_decide (80 ∈ blocked))])
].
End Rest.

(** ** All of them pass *)

Lemma during_secs t0 t : during t0 t -> elapsed_secs t t0 = 0.
Proof.
  unfold during, elapsed_secs, elapsed, saturating_sub, NS_PER_SEC. intros H. apply Z.div_small. lia.
Qed.

Lemma tracker_tests_pass : passes tracker_tests.
Proof.
  run_suite; intros t0 t Ht; apply during_secs in Ht.
  - eexists. split; [by vm_compute|]. unfold datagram_rate. cbn [start_time datagram_count].
    by rewrite Ht.
  - do 2 eexists. split_and!; [by vm_compute|unfold send_bandwidth_bps; cbn [bytes_sent start_time]; by rewrite Ht|done].
  - unfold duration_secs. cbn [start_time tracker_new]. by rewrite Ht.
Qed.

Lemma sane_expiry now ttl : sane now -> 0 <= ttl < 2 ^ 63 -> saturating_add 64 now ttl = now + ttl.
Proof. unfold sane, saturating_add. lia. Qed.

Section TokenFacts.
Context {S : SigScheme} {L : SigLaws S}.

(** What every test that signs a token starts from. *)
Lemma signed_token now pid url sk ttl :
  sane now -> 0 <= ttl < 2 ^ 63 -> rust_string pid -> rust_string url ->
  zlen (as_bytes pid) < 2 ^ 16 -> zlen (as_bytes url) < 2 ^ 16 ->
  let t := token_sign now pid url sk ttl in
  token_decode (token_encode t) = Ok t /\ token_verify t (verifying_key sk) = true /\
  token_is_expired now t = (ttl <=? 0).
Proof.
  intros Hn Ht Hp Hu Hlp Hlu. cbn zeta. split_and!.
  - apply token_roundtrip; [|done]. unfold sane in Hn. apply token_sign_wf; try done; lia.
  - apply token_sign_verifies.
  - unfold token_is_expired, token_sign. cbn [pt_expires_at]. rewrite sane_expiry by done.
    destruct (Z.leb_spec (now + ttl) now), (Z.leb_spec ttl 0); done || lia.
Qed.

Lemma refused_token t vk :
  verify_sig vk (message_of t) (sig_from_bytes (pt_signature t)) = false -> token_verify t vk = false.
Proof. intros H. unfold token_verify. fold (message_of t). rewrite H. by case_goal. Qed.

Lemma token_tests_pass : passes token_sign_tests /\ passes verifier_tests /\ passes token_edge_tests.
Proof.
  assert (forall pid url sk now ttl, sane now -> 0 <= ttl < 2 ^ 63 ->
    utf8_valid (as_bytes pid) && utf8_valid (as_bytes url) &&
    (zlen (as_bytes pid) <? 2 ^ 16) && (zlen (as_bytes url) <? 2 ^ 16) = true ->
    let t := token_sign now pid url sk ttl in
    token_decode (token_encode t) = Ok t /\ token_verify t (verifying_key sk) = true /\
    token_is_expired now t = (ttl <=? 0)) as Htok.
  { intros pid url sk now ttl Hn Ht Hb. bool_to_prop. by apply signed_token. }
  split_and!; run_suite; intros seed;
    lazymatch goal with |- forall _ : Z, _ => intros now Hn | |- _ => intros seed2 now Hn end;
    unfold generate_ed25519_keypair; cbn zeta.
  - destruct (Htok "peer-abc123" "https://proxy.example.com:443" (sk_from_bytes seed) now 300)
      as (_ & Hv & He); [done|lia|done|]. by rewrite Hv, He.
  - apply refused_token.
  - by apply (Htok "peer-abc123" "https://proxy.example.com:443" (sk_from_bytes seed) now 0).
  - destruct (Htok "peer-abc123" "https://proxy.example.com:443/masque" (sk_from_bytes seed) now 300)
      as (Hd & Hv & _); [done|lia|done|]. by eexists.
  - destruct (Htok "peer-abc123" "https://proxy.example.com:443" (sk_from_bytes seed) now 300)
      as (_ & Hv & He); [done|lia|done|]. unfold verifier_verify. by rewrite He, Hv.
  - intros Hr. apply refused_token in Hr. unfold verifier_verify. rewrite Hr. by case_goal.
  - destruct (Htok "peer-abc123" "https://proxy.example.com:443" (sk_from_bytes seed) now 0)
      as (_ & _ & He); [done|lia|done|]. unfold verifier_verify. rewrite He. by eexists.
  - destruct (Htok "peer-日本語テスト" "https://proxy.example.com:443" (sk_from_bytes seed) now 300)
      as (Hd & Hv & _); [done|lia|by vm_compute|]. by eexists.
  - apply refused_token.
Qed.
End TokenFacts.

Lemma cert_tests_pass {G : Rcgen} {T : Rustls} {H : Sha256} : passes cert_tests.
Proof.
  run_suite; [|done..| |done]; (split; [done|]); unfold provision; cbn [cm_strategy cert_manager_new];
    destruct generate_self_signed_cert as [[cert key]|e]; intros manager' Hm; simplify_eq.
  - intros Hc Hq. split; [done|]. unfold server_config. cbn. by rewrite Hc, Hq.
  - intros Hs. eexists. split; [reflexivity|].
    by apply (fingerprint_form {| cm_strategy := SelfSigned; cm_cert := Some cert; cm_key := Some key |}).
Qed.

Lemma proxy_tests_pass : passes recovery_tests /\ passes cache_tests /\ passes proxy_error_tests.
Proof. split_and!; run_suite. Qed.
