(* ===== verification/TestsClient.v ===== *)
(** * The unit tests of the client

    The test modules of [voip-client]: [moq.rs], [masque.rs], [session_store.rs],
    [push_retry.rs], [peer_cache.rs], [nat_probe.rs] and [signaling_client.rs]. *)

From S2P Require Import Prelude UnitTest Types Config Crypto RustStr RustNet Moq Masque NatProbe.
From S2P Require Import Wire Server DhtRecord Connection Tls SessionStore Resumption PushRetry.
From S2P Require Import PeerCache HttpClient.

Local Open Scope Z_scope.
Local Open Scope rust_scope.
Local Open Scope test_scope.

#[export] Instance Moq_MediaType_eq_dec : EqDecision Moq.MediaType.
Proof. solve_decision. Defined.
#[export] Instance DiscoveryMethod_eq_dec : EqDecision DiscoveryMethod.
Proof. solve_decision. Defined.

(** ** [moq.rs] *)

Definition moq_tests : Suite := [
  test "test_varint_encoding_single_byte" (asserts [
     Moq.encode_varint 0 ≟ [0x00]; Moq.encode_varint 63 ≟ [0x3F]]);
  test "test_varint_encoding_two_bytes" (asserts [
     Moq.encode_varint 64 ≟ [0x40; 0x40]; Moq.encode_varint 16383 ≟ [0x7F; 0xFF]]);
  test "test_varint_roundtrip" (forallb (fun val =>
     let buf := Moq.encode_varint val in Moq.decode_varint buf ≟ (val, zlen buf))
     [0; 1; 63; 64; 16383; 16384; 1073741823]);
  test "test_datagram_encode_decode" (
     let datagram := datagram_new 0x42 12345 48000 (as_bytes "opus-payload-here") in
     match datagram_decode (datagram_encode datagram) with
     | Ok decoded => asserts [
         datagram_type decoded ≟ DATAGRAM_TYPE_MEDIA; track_alias decoded ≟ 0x42;
         sequence decoded ≟ 12345; timestamp decoded ≟ 48000;
         payload decoded ≟ as_bytes "opus-payload-here"]
     | Err _ => false
     end);
  test "test_datagram_too_short" (is_err (datagram_decode [0x01; 0x00]));
  test "test_track_namespace_audio" (let ns := ns_audio "peer123" in asserts [
     ns_namespace ns ≟ "voip/peer123/audio/opus-48k"%string; ns_priority ns ≟ PRIORITY_AUDIO;
     Moq.media_type ns ≟ Moq.Media_Audio]);
  test "test_track_namespace_video" (let ns := ns_video "peer456" in asserts [
     ns_namespace ns ≟ "voip/peer456/video/vp9-720p"%string; ns_priority ns ≟ PRIORITY_VIDEO_KEYFRAME;
     Moq.media_type ns ≟ Moq.Media_Video])
].

(** ** [masque.rs] *)

(** [request.headers().get(name)] *)
Definition header (name : string) (r : HttpRequest) : option string :=
  snd <$> List.find (fun h => bool_decide (fst h = name)) (req_headers r).

(** The request is built by the [http] crate, which accepts these values. *)
Definition built (r : result MasqueError HttpRequest) (p : HttpRequest -> bool) : bool :=
  match r with Ok request => p request | Err _ => false end.

(** A request of the model is always a [CONNECT], which is what the tests check of its method. *)
Definition masque_tests : Suite := [
  test "test_parse_proxy_url_with_port" (
     unwrap (parse_proxy_url "https://proxy.example.com:443") ≟ Some ("proxy.example.com"%string, 443));
  test "test_parse_proxy_url_without_port" (
     unwrap (parse_proxy_url "https://proxy.example.com") ≟ Some ("proxy.example.com"%string, 443));
  test "test_parse_proxy_url_http" (
     unwrap (parse_proxy_url "http://proxy.example.com:8443") ≟ Some ("proxy.example.com"%string, 8443));
  test "test_build_connect_udp_request" (built
     (build_connect_udp_request (fun _ => None) "proxy.example.com" 443 "call-abc123" None)
     (fun request => asserts [
       header "connect-udp-target-host" request ≟ Some "voip-relay"%string;
       header "connect-udp-target-port" request ≟ Some "0"%string;
       header "x-voip-call-id" request ≟ Some "call-abc123"%string;
       is_none (header "x-voip-proxy-token" request); req_protocol request ≟ "connect-udp"%string]));
  test "test_build_connect_udp_request_with_proxy_token" (built
     (build_connect_udp_request (fun _ => None) "proxy.example.com" 443 "call-abc123"
        (Some "signed-token-base64"%string))
     (fun request => asserts [
       header "x-voip-call-id" request ≟ Some "call-abc123"%string;
       header "x-voip-proxy-token" request ≟ Some "signed-token-base64"%string]));
  test "test_build_connect_udp_request_h2" (built
     (build_connect_udp_request_h2 (fun _ => None) "proxy.example.com" 443 "call-abc123" None)
     (fun request => asserts [
       header "connect-udp-target-host" request ≟ Some "voip-relay"%string;
       header "connect-udp-target-port" request ≟ Some "0"%string;
       header "x-voip-call-id" request ≟ Some "call-abc123"%string;
       req_protocol request ≟ "connect-udp"%string]));
  test "test_build_connect_udp_request_h2_with_token" (built
     (build_connect_udp_request_h2 (fun _ => None) "proxy.example.com" 443 "call-abc123"
        (Some "token-xyz"%string))
     (fun request => header "x-voip-proxy-token" request ≟ Some "token-xyz"%string));
  test "test_detect_masque_need_both_random" (
     detect_masque_need NATType_SymmetricRandom NATType_SymmetricRandom false);
  test "test_detect_masque_need_udp_blocked" (detect_masque_need NATType_Cone NATType_Cone true);
  test "test_detect_masque_not_needed_cone" (negb (detect_masque_need NATType_Cone NATType_Cone false));
  test "test_detect_masque_not_needed_sequential" (
     negb (detect_masque_need NATType_SymmetricSequential NATType_SymmetricSequential false));
  test "test_detect_masque_not_needed_one_random" (
     negb (detect_masque_need NATType_Cone NATType_SymmetricRandom false));
  test "test_encode_h2_datagram_capsule" (
     let data := as_bytes "hello" in
     let capsule := encode_h2_datagram_capsule data in
     asserts [zlen data <? zlen capsule; capsule !! 0%nat ≟ Some 0])
].

(** ** [session_store.rs] *)

Definition session_store_tests {Group Tls12 Ticket : Type} (secp256r1 : Group) : Suite :=
  let new (ttl : Z) : SessionTicketStore Group Tls12 Ticket := store_new ttl in [
  proves "test_session_store_new" (ticket_count (new 86400) = 0);
  proves "test_session_store_from_config" (
     ticket_count (Group := Group) (Tls12 := Tls12) (Ticket := Ticket)
       (store_from_config default_config) = 0);
  proves "test_session_store_clear" (ticket_count (store_clear (new 86400)) = 0);
  proves "test_session_store_kx_hint" (
     kx_hint "example.com" (new 86400) = None /\
     kx_hint "example.com" (set_kx_hint "example.com" secp256r1 (new 86400)) = Some secp256r1);
  proves "test_session_store_no_tls13_tickets_initially" (forall now,
     (take_tls13_ticket now "example.com" (new 86400)).1 = None)
].

(** The QUIC configuration is accepted by [rustls] and [quinn] in the second test. *)
Definition resumption_tests {Group Tls12 Ticket : Type} `{T : Rustls} (idle_timeout_fits : Z -> bool)
    : Suite := [
  proves "test_client_config_with_resumption" (
     is_ok (client_config_with_resumption (Group := Group) (Tls12 := Tls12) (Ticket := Ticket)
       default_config) = true);
  proves "test_quinn_client_config_with_resumption" (
     is_ok (rustls_quic_client {| cc_accepts := no_verifier; cc_alpn := [] |}) = true ->
     idle_timeout_fits 30000 = true ->
     is_ok (quinn_client_config_with_resumption (Group := Group) (Tls12 := Tls12)
       (Ticket := Ticket) idle_timeout_fits default_config) = true)
].

(** ** [push_retry.rs] *)

Definition retry_handler_tests : Suite :=
  let config := default_config in
  let record := record_retry Checked 0 in
  let can := holds (can_retry config) in
  let cannot := holds (fun h => negb (can_retry config h)) in
  let count n := holds (fun h => PushRetry.retry_count h ≟ n) in
  let delay n := holds (fun h => next_retry_delay Checked config h ≟ Some n) in [
  test "test_push_retry_handler_new" (body handler_new [
     count 0; can; holds (fun h => is_none (last_retry h))]);
  test "test_can_retry_within_max_attempts" (body handler_new [
     can; record; can; record; can; record; cannot]);
  test "test_next_retry_delay_exponential_backoff" (body handler_new [
     delay 5; record; delay 15; record; delay 45]);
  test "test_record_retry" (body handler_new [
     count 0; holds (fun h => is_none (last_retry h)); record; count 1;
     holds (fun h => is_some (last_retry h)); record; count 2]);
  test "test_reset" (body handler_new [
     record; record; count 2; does handler_reset; count 0; holds (fun h => is_none (last_retry h)); can])
].

Definition message_is (p : PushRetryMsg -> bool) (m : option PushRetryMsg) : bool :=
  match m with Some msg => p msg | None => false end.

Definition disabled_config : VoIPConfig := {|
  path_probe_count := 5; path_probe_timeout_ms := 1000; nat_cache_ttl_secs := 300;
  path_refresh_count := 2; nat_delta_variance_threshold := 3; prediction_margin_sequential := 3;
  prediction_margin_pseudo := 8; prediction_max_probes := 17; quic_connect_timeout_ms := 5000;
  quic_prediction_timeout_ms := 3000; quic_idle_timeout_ms := 30000; quic_alpn := "moq-00";
  discovery_privacy_first := true; dht_lookup_timeout_ms := 200; dht_bootstrap_nodes := [];
  dht_record_ttl_secs := 3600; push_retry_enabled := false; push_retry_initial_delay_secs := 5;
  push_retry_max_attempts := 3; push_retry_backoff_multiplier := 3; masque_fallback_enabled := true;
  masque_discovery_timeout_ms := 2000; masque_connect_timeout_ms := 3000;
  masque_max_proxy_attempts := 3; masque_proxy_enabled := false; masque_proxy_max_sessions := 10;
  call_ring_timeout_ms := 30000; call_connect_timeout_ms := 10000; migration_path_timeout_ms := 5000;
  migration_max_reprobes := 1; rate_limit_calls_per_min := 10; rate_limit_registrations_per_min := 6;
  rate_limit_ws_messages_per_sec := 30; jwt_expiry_secs := 3600; signaling_server_ips := [];
  session_ticket_ttl_secs := 86400; moq_feedback_interval_ms := 1000; ws_idle_timeout_secs := 300
|}.

Definition retry_message_tests : Suite :=
  let config := default_config in [
  test "test_create_push_retry_message" (message_is (fun msg => asserts [
     rt_call_id msg ≟ "call-123"%string; rt_callee_id msg ≟ "peer-456"%string;
     rt_reason msg ≟ as_i32 (into End_FailedIpv4Random : ProtoCallEndReason);
     rt_retry_attempt msg ≟ 1; rt_retry_after_ms msg ≟ 5000])
     (create_push_retry_message Checked config handler_new "call-123" "peer-456" End_FailedIpv4Random));
  test "test_create_push_retry_message_subsequent_attempt" (body handler_new [
     record_retry Checked 0;
     holds (fun h => message_is (fun msg => asserts [
       rt_retry_attempt msg ≟ 2; rt_retry_after_ms msg ≟ 15000])
       (create_push_retry_message Checked config h "call-123" "peer-456" End_FailedIpv4Random))]);
  test "test_push_retry_with_masque_unreachable_reason" (message_is (fun msg =>
     rt_reason msg ≟ as_i32 (into End_FailedMasqueUnreachable : ProtoCallEndReason))
     (create_push_retry_message Checked config handler_new "call-789" "peer-abc"
        End_FailedMasqueUnreachable));
  test "test_push_retry_disabled" (can_retry disabled_config handler_new)
].

(** [scheduler.schedule_retry("call-123", "peer-456", reason).await] with the expected outcome. *)
Definition schedules (config : VoIPConfig) (reason : CallEndReason) (p : result RetryError unit -> bool)
    : Step RetryScheduler := fun s =>
  let?o (r, s') := schedule_retry Checked config 0 "call-123" "peer-456" reason s in
  if p r then Some s' else None.

Definition retry_scheduler_tests : Suite :=
  let config := default_config in
  let count n := holds (fun s => PushRetry.retry_count (handler s) ≟ n) in [
  test "test_retry_scheduler_schedule" (body scheduler_new [
     schedules config End_FailedIpv4Random is_ok; count 1; does cancel]);
  test "test_retry_scheduler_max_attempts" (body scheduler_new (
     concat (repeat [schedules config End_FailedIpv4Random is_ok; does cancel] 3) ++
     [schedules config End_FailedIpv4Random is_err]));
  test "test_retry_scheduler_wrong_reason" (body scheduler_new [schedules config End_Normal is_err]);
  test "test_retry_scheduler_disabled" (body scheduler_new [
     schedules disabled_config End_FailedIpv4Random is_err]);
  test "test_retry_scheduler_reset" (body scheduler_new [
     schedules config End_FailedIpv4Random is_ok; does cancel; count 1; does scheduler_reset; count 0;
     holds (fun s => can_retry config (handler s))]);
  test "test_retry_scheduler_cancel" (body scheduler_new [
     schedules config End_FailedIpv4Random is_ok; does cancel;
     schedules config End_FailedIpv4Random is_ok; does cancel])
].

(** ** [peer_cache.rs] *)

Definition make_peer_record (peer_id : string) (ttl_seconds : Z) : ProtoPeerRecord := {|
  ppr_peer_id := peer_id; ppr_display_name := "Peer " +:+ peer_id; ppr_ipv6_addresses := [];
  ppr_ipv4_reflexive := ["203.0.113.5:42000"%string];
  ppr_nat_info := Some {| pni_nat_type := 0; pni_prediction := None |}; ppr_tracks := [];
  ppr_status := as_i32 PEER_ONLINE; ppr_timestamp := 0; ppr_ttl_seconds := ttl_seconds;
  ppr_signature := []
|}.

Definition named (name : string) (r : ProtoPeerRecord) : ProtoPeerRecord := {|
  ppr_peer_id := ppr_peer_id r; ppr_display_name := name; ppr_ipv6_addresses := ppr_ipv6_addresses r;
  ppr_ipv4_reflexive := ppr_ipv4_reflexive r; ppr_nat_info := ppr_nat_info r;
  ppr_tracks := ppr_tracks r; ppr_status := ppr_status r; ppr_timestamp := ppr_timestamp r;
  ppr_ttl_seconds := ppr_ttl_seconds r; ppr_signature := ppr_signature r
|}.

(** The tests run at time 0, except where they sleep. *)
Definition peer_cache_tests : Suite :=
  let found pid := holds (fun b => is_some (book_get 0 pid b)) in
  let missing pid := holds (fun b => is_none (book_get 0 pid b)) in
  let via pid m := holds (fun b => snd <$> book_get 0 pid b ≟ Some m) in
  let insert pid m := does (book_insert 0 (make_peer_record pid 300) m) in
  let len n := holds (fun b => Z.of_nat (size (book_peers b)) ≟ n) in [
  test "test_insert_and_get" (body book_default_settings [
     insert "peer-abc"%string Discovery_Dht; found "peer-abc"%string;
     holds (fun b => (fun r => ppr_peer_id r.1) <$> book_get 0 "peer-abc" b ≟ Some "peer-abc"%string);
     via "peer-abc"%string Discovery_Dht]);
  test "test_get_missing_peer" (body book_default_settings [missing "nonexistent"%string]);
  test "test_invalidate" (body book_default_settings [
     insert "peer-xyz"%string Discovery_Signaling; found "peer-xyz"%string;
     does (book_invalidate "peer-xyz"); missing "peer-xyz"%string]);
  test "test_cleanup_expired" (body (book_new (50 * NS_PER_MS)) [
     does (book_insert 0 (make_peer_record "peer-exp" 0) Discovery_Cache); found "peer-exp"%string;
     holds (fun b => is_none (book_get (80 * NS_PER_MS) "peer-exp" b));
     gives (cleanup_expired (80 * NS_PER_MS)) (fun removed => removed ≟ 1); len 0]);
  test "test_update_existing_peer" (body book_default_settings [
     does (book_insert 0 (named "Original" (make_peer_record "peer-update" 300)) Discovery_Dht);
     does (book_insert 0 (named "Updated" (make_peer_record "peer-update" 300)) Discovery_Signaling);
     holds (fun b => (fun r => ppr_display_name r.1) <$> book_get 0 "peer-update" b ≟ Some "Updated"%string);
     via "peer-update"%string Discovery_Signaling]);
  test "test_clear" (body book_default_settings [
     insert "p1"%string Discovery_Dht; insert "p2"%string Discovery_Signaling; len 2;
     does book_clear; len 0]);
  test "test_multiple_discovery_methods" (body book_default_settings [
     insert "p-dht"%string Discovery_Dht; insert "p-sig"%string Discovery_Signaling;
     insert "p-cache"%string Discovery_Cache; via "p-dht"%string Discovery_Dht;
     via "p-sig"%string Discovery_Signaling; via "p-cache"%string Discovery_Cache])
].

(** ** [nat_probe.rs] *)

Definition make_probe_result (server_ip : string) (external_port : Z) : NATProbeResult := {|
  probe_server_ip := server_ip; probe_local_port := 5000; probe_external_ip := "203.0.113.5";
  probe_external_port := external_port; probe_timestamp_ms := 0; probe_rtt_ms := 10
|}.

(** [NATProber::classify_nat] of five results with these ports. *)
Definition classified (ports : list Z) : option NATInfo :=
  classify_nat Checked 0
    (zip_with make_probe_result ["1.2.3.4"; "1.2.3.5"; "1.2.3.6"; "1.2.3.7"; "1.2.3.8"]%string ports)
    default_config.

Definition nat_probe_tests : Suite := [
  test "test_decode_varint" (asserts [
     NatProbe.decode_varint [0x00] ≟ (0, 1); NatProbe.decode_varint [0x01] ≟ (1, 1);
     NatProbe.decode_varint [0x7F] ≟ (127, 1); NatProbe.decode_varint [0x80; 0x01] ≟ (128, 2)]);
  test "test_classify_nat_cone" (
     match classified [42000; 42000; 42000; 42000; 42000] with
     | Some info => asserts [nat_type info ≟ NATType_Cone; is_none (prediction info)]
     | None => false
     end);
  test "test_classify_nat_sequential" (
     match classified [42000; 42001; 42002; 42003; 42004] with
     | Some {| nat_type := t; prediction := Some pred |} => asserts [
         t ≟ NATType_SymmetricSequential; confidence pred ≟ Confidence_Sequential; delta_pattern pred ≟ 1]
     | _ => false
     end);
  test "test_classify_nat_random" (
     match classified [42000; 42347; 38956; 51234; 40001] with
     | Some info => asserts [nat_type info ≟ NATType_SymmetricRandom; is_none (prediction info)]
     | None => false
     end);
  test "test_port_prediction_range_sequential" (
     Types.range_size Checked {|
       external_ip := "203.0.113.5"; predicted_port_start := 42002; predicted_port_end := 42008;
       confidence := Confidence_Sequential; base_port := 42004; delta_pattern := 1; probed_at := 0;
       probe_method := QuicPathProbing |} ≟ Some 7);
  test "test_port_prediction_range_pseudo" (
     Types.range_size Checked {|
       external_ip := "203.0.113.5"; predicted_port_start := 41997; predicted_port_end := 42013;
       confidence := Confidence_PseudoSequential; base_port := 42005; delta_pattern := 2; probed_at := 0;
       probe_method := QuicPathProbing |} ≟ Some 17)
].

(** ** [signaling_client.rs] *)

Definition signaling_client_tests : Suite := [
  test "test_client_construction" (
     let client := http_client_new "https://signal.example.com/" "jwt-token-here" in asserts [
     hc_base_url client ≟ "https://signal.example.com"%string;
     hc_jwt_token client ≟ "jwt-token-here"%string]);
  test "test_client_trailing_slash_stripped" (
     let client := http_client_new "https://signal.example.com///" "token" in
     last (as_bytes (hc_base_url client)) ≠? Some 47)
].

(** ** All of them pass *)

Lemma client_tests_pass :
  passes moq_tests /\ passes masque_tests /\ passes retry_handler_tests /\
  passes retry_message_tests /\ passes retry_scheduler_tests /\ passes peer_cache_tests /\
  passes nat_probe_tests /\ passes signaling_client_tests.
Proof. split_and!; run_suite. Qed.

Lemma session_store_tests_pass {Group Tls12 Ticket : Type} (g : Group) :
  passes (session_store_tests (Tls12 := Tls12) (Ticket := Ticket) g).
Proof. run_suite; done. Qed.

Lemma resumption_tests_pass {Group Tls12 Ticket : Type} `{T : Rustls} fits :
  passes (resumption_tests (Group := Group) (Tls12 := Tls12) (Ticket := Ticket) fits).
Proof. run_suite; [done|]. intros Hq Hf. by rewrite resumption_config_ok, Hq. Qed.
