(* ===== verification/TestsSignaling.v ===== *)
(** * The unit tests of the signaling server

    [voip-signaling/src/tests.rs] and the test modules of [jwt.rs], [masque.rs] and
    [rate_limit.rs].  The tests hold for every key, clock and peer they draw, for every
    implementation of the interfaces; a test with a wrong key has as its hypothesis that the
    signature scheme refuses it. *)

From S2P Require Import Prelude UnitTest Types Config Crypto Base64 RustStr RustNet Masque Moq Wire.
From S2P Require Import RateLimit Lru HttpClient Jwt Server Session Rest Deployment.

Local Open Scope Z_scope.
Local Open Scope rust_scope.
Local Open Scope test_scope.

(** A time in seconds since 1970 at which the sums of the tests stay in [u64]. *)
Definition sane (now : Z) : Prop := 200 <= now < 2 ^ 63.

(** ** [rate_limit.rs] and [masque.rs] *)

Definition consumes (allowed : bool) : Step Bucket := fun b =>
  let?o (b', a) := try_consume 0 1 b in if a ≟ allowed then Some b' else None.

Definition bucket_tests : Suite := [
  test "bucket_allows_within_limit" (body
     (bucket_new 0 {| max_tokens := 3; refill_amount := 3; refill_interval_ms := 1000 |})
     [consumes true; consumes true; consumes true]);
  test "bucket_rejects_over_limit" (body
     (bucket_new 0 {| max_tokens := 2; refill_amount := 2; refill_interval_ms := 1000 |})
     [consumes true; consumes true; consumes false])
].

Definition detect_masque_tests : Suite := [
  test "test_detect_masque_need_both_random" (
     server_detect_masque_need NATType_SymmetricRandom NATType_SymmetricRandom false);
  test "test_detect_masque_not_needed_cone" (
     negb (server_detect_masque_need NATType_Cone NATType_Cone false));
  test "test_detect_masque_not_needed_ipv6" (
     negb (server_detect_masque_need NATType_None NATType_None false));
  test "test_detect_masque_not_needed_one_random" (
     negb (server_detect_masque_need NATType_SymmetricRandom NATType_Cone false));
  test "test_detect_masque_not_needed_sequential" (
     negb (server_detect_masque_need NATType_SymmetricSequential NATType_SymmetricSequential false));
  test "test_detect_masque_not_needed_mixed" (
     negb (server_detect_masque_need NATType_SymmetricPseudo NATType_SymmetricRandom false));
  test "test_detect_masque_need_udp_blocked" (asserts [
     server_detect_masque_need NATType_None NATType_None true;
     server_detect_masque_need NATType_Cone NATType_Cone true;
     server_detect_masque_need NATType_SymmetricRandom NATType_Cone true]);
  test "test_detect_masque_not_needed_udp_not_blocked" (asserts [
     negb (server_detect_masque_need NATType_Cone NATType_None false);
     negb (server_detect_masque_need NATType_SymmetricPseudo NATType_SymmetricPseudo false)])
].

(** ** [jwt.rs] *)

Section Tokens.
Context {S : SigScheme} {J : JsonClaims}.

(** The token a test makes by hand from claims. *)
Definition raw_token (signing_key : SigningKey) (claims : JwtClaims) : option string :=
  let?o payload_json := json_to_string claims in
  let payload_b64 := base64url_encode (as_bytes payload_json) in
  let signing_input := JWT_HEADER +:+ "." +:+ payload_b64 in
  let sig_b64 := base64url_encode (sig_to_bytes (sign signing_key (as_bytes signing_input))) in
  Some (JWT_HEADER +:+ "." +:+ payload_b64 +:+ "." +:+ sig_b64).

(** The scheme refuses what another key signed. *)
Definition refuses (vk : VerifyingKey) (sk : SigningKey) : Prop :=
  forall msg, verify_sig vk msg (sign sk msg) = false.

Definition jwt_tests : Suite := [
  proves "test_jwt_create_and_verify" (forall signing_key now, sane now ->
     let verifying_key := verifying_key signing_key in
     let peer_id := peer_id_from_public_key verifying_key in
     exists token claims, create_jwt Checked now signing_key peer_id 3600 = Some (Ok token) /\
       verify_jwt now verifying_key token = Ok claims /\
       claim_sub claims = peer_id /\ claim_pub_key claims = peer_id);
  proves "test_jwt_expired" (forall signing_key now, sane now ->
     let verifying_key := verifying_key signing_key in
     let peer_id := peer_id_from_public_key verifying_key in
     exists token, raw_token signing_key
       {| claim_sub := peer_id; claim_iat := now - 100; claim_exp := now - 10;
          claim_nbf := now - 100; claim_pub_key := peer_id |} = Some token /\
       is_err (verify_jwt now verifying_key token) = true);
  proves "test_jwt_wrong_key" (forall signing_key1 signing_key2 now, sane now ->
     let verifying_key2 := verifying_key signing_key2 in
     let peer_id := peer_id_from_public_key (verifying_key signing_key1) in
     refuses verifying_key2 signing_key1 ->
     exists token, create_jwt Checked now signing_key1 peer_id 3600 = Some (Ok token) /\
       is_err (verify_jwt now verifying_key2 token) = true);
  proves "test_jwt_invalid_format" (forall signing_key now,
     is_err (verify_jwt now (verifying_key signing_key) "not.a.valid.jwt.token") = true);
  test "test_base64url_roundtrip" (
     let data := as_bytes "hello world 12345" in base64url_decode (base64url_encode data) ≟ Some data);
  test "test_base64url_empty" (base64url_decode (base64url_encode []) ≟ Some [])
].

Definition jwt_claims_tests : Suite := [
  proves "test_jwt_not_yet_valid" (forall signing_key now, sane now ->
     let verifying_key := verifying_key signing_key in
     let peer_id := peer_id_from_public_key verifying_key in
     exists token, raw_token signing_key
       {| claim_sub := peer_id; claim_iat := now - 100; claim_exp := now + 3600;
          claim_nbf := now + 3600; claim_pub_key := peer_id |} = Some token /\
       exists msg, verify_jwt now verifying_key token = Err (Sig_InvalidJwt msg) /\
         contains (as_bytes "not yet valid") (as_bytes msg) = true);
  proves "test_jwt_sub_pubkey_mismatch" (forall signing_key now, sane now ->
     let verifying_key := verifying_key signing_key in
     let peer_id := peer_id_from_public_key verifying_key in
     exists token, raw_token signing_key
       {| claim_sub := "different_peer_id"; claim_iat := now; claim_exp := now + 3600;
          claim_nbf := now; claim_pub_key := peer_id |} = Some token /\
       is_err (verify_jwt now verifying_key token) = true);
  test "test_base64url_single_byte" (
     let data := as_bytes "a" in base64url_decode (base64url_encode data) ≟ Some data)
].
End Tokens.

(** ** [tests.rs] *)

Section ServerTests.
Context {S : SigScheme} {L : Lru} {I : LruIter L} {C : Lowercase} {P : ServerProto} {J : JsonClaims}.

Definition test_server (generated : SigningKey) : SignalingServer :=
  build generated (listen_addr "0.0.0.0:0" builder_new).

Definition test_state (generated : SigningKey) : Server := ss_state (test_server generated).

(** A peer with a generated key. *)
Definition test_peer_id (key : SigningKey) : string := peer_id_from_public_key (verifying_key key).

Definition request (peer_id name : string) : RegisterPeerRequest := {|
  req_peer_id := peer_id; req_display_name := name; req_ipv6_addresses := []; req_ipv4_reflexive := [];
  req_nat_type := None; req_status := None; req_fcm_token := None
|}.

Definition info (now : Z) (peer_id name : string) : PeerInfo := {|
  pi_peer_id := peer_id; pi_display_name := name; pi_ipv6_addresses := []; pi_ipv4_reflexive := [];
  pi_nat_type := 0; pi_status := 0; pi_fcm_token := None; pi_last_seen := now
|}.

(** [router().oneshot(request)] on a server, with the [Authorization] header; the address of the
    client is not looked at by these routes. *)
Definition oneshot (clk : Clock) (token : option string) (req : Request) (s : Server)
    : option (Response * Server) :=
  http_handle Checked clk (V4 [127; 0; 0; 1] 1)
    (option_map (fun t => Some ("Bearer " +:+ t)) token) req s.

(** The status line of a response. *)
Definition status (r : Response) : Z :=
  match r with
  | Resp_Error e => http_status e
  | Resp_Registered _ => 201
  | Resp_NoContent st => st
  | Resp_Upgrade _ => 101
  | _ => 200
  end.

Definition register_tests : Suite := [
  proves "test_register_peer_with_valid_peer_id" (forall key peer clk, sane (unix_secs clk) ->
     exists r s, oneshot clk None (Rq_RegisterPeer (request (test_peer_id peer) "TestPeer")) (test_state key)
       = Some (Resp_Registered r, s) /\ rpr_peer_id r = test_peer_id peer);
  proves "test_register_peer_invalid_peer_id" (forall key clk,
     exists e s, oneshot clk None (Rq_RegisterPeer (request "peer-abc" "Alice")) (test_state key)
       = Some (Resp_Error e, s) /\ http_status e = 400 /\ sig_code e = SIG_INVALID_MESSAGE);
  proves "test_register_peer_with_details" (forall key peer clk, sane (unix_secs clk) ->
     let peer_id := test_peer_id peer in
     exists r s, oneshot clk None (Rq_RegisterPeer
         {| req_peer_id := peer_id; req_display_name := "Bob"; req_ipv6_addresses := ["::1"%string];
            req_ipv4_reflexive := ["1.2.3.4:5678"%string]; req_nat_type := Some "CONE"%string;
            req_status := Some "ONLINE"%string; req_fcm_token := Some "fcm-token-123"%string |})
         (test_state key) = Some (Resp_Registered r, s) /\ rpr_peer_id r = peer_id);
  (* Each [test_router()] is a server of its own. *)
  proves "test_register_peer_re_register" (forall key key2 peer clk, sane (unix_secs clk) ->
     let peer_id := test_peer_id peer in
     exists r s r2 s2,
       oneshot clk None (Rq_RegisterPeer (request peer_id "RePeer")) (test_state key)
         = Some (Resp_Registered r, s) /\
       oneshot clk None (Rq_RegisterPeer (request peer_id "RePeerUpdated")) (test_state key2)
         = Some (Resp_Registered r2, s2))
].

Definition peer_state_tests : Suite := [
  proves "test_update_peer" (forall key peer now,
     let peer_id := test_peer_id peer in
     let s := register_peer (info now peer_id "UpdateMe") None (test_state key) in
     let s := register_peer
       {| pi_peer_id := peer_id; pi_display_name := "UpdatedName";
          pi_ipv6_addresses := ["2001:db8::1"%string]; pi_ipv4_reflexive := []; pi_nat_type := 4;
          pi_status := 0; pi_fcm_token := None; pi_last_seen := now |} None s in
     exists peer, (get_peer peer_id s).1 = Some peer /\ pi_display_name peer = "UpdatedName"%string /\
       pi_nat_type peer = 4 /\ pi_ipv6_addresses peer = ["2001:db8::1"%string]);
  proves "test_update_nonexistent_peer" (forall key,
     (get_peer "nonexistent" (test_state key)).1 = None /\
     sig_code (Sig_UnknownPeer "nonexistent") = SIG_UNKNOWN_PEER /\
     http_status (Sig_UnknownPeer "nonexistent") = 404);
  proves "test_unregister_peer" (forall key peer now,
     let peer_id := test_peer_id peer in
     let s := register_peer (info now peer_id "DeleteMe") None (test_state key) in
     is_Some (get_peer peer_id s).1 /\
     let s := (get_peer peer_id s).2 in
     (get_peer peer_id (unregister_peer peer_id s)).1 = None);
  (* [unregister_peer] returns [Ok(())] in every case, which its type says here. *)
  proves "test_unregister_nonexistent_peer" (forall key,
     unregister_peer "nonexistent" (test_state key) = test_state key);
  proves "test_get_peer" (forall key peer now,
     let peer_id := test_peer_id peer in
     let s := register_peer
       {| pi_peer_id := peer_id; pi_display_name := "GetMe"; pi_ipv6_addresses := ["::1"%string];
          pi_ipv4_reflexive := ["1.2.3.4:5678"%string]; pi_nat_type := 1; pi_status := 0;
          pi_fcm_token := None; pi_last_seen := now |} None (test_state key) in
     exists peer, (get_peer peer_id s).1 = Some peer /\ pi_peer_id peer = peer_id /\
       pi_display_name peer = "GetMe"%string /\ pi_nat_type peer = 1);
  proves "test_get_nonexistent_peer" (forall key,
     let err := Sig_UnknownPeer "nonexistent" in
     (get_peer "nonexistent" (test_state key)).1 = None /\
     sig_code err = SIG_UNKNOWN_PEER /\ http_status err = 404 /\
     list_answer (Resp_Error err) = Some (404,
       JObject [("code"%string, JNumber SIG_UNKNOWN_PEER);
                ("message"%string, JString "unknown peer: nonexistent")]))
].

Definition lookup_tests : Suite := [
  proves "test_get_peer_status" (forall key peer now,
     let peer_id := test_peer_id peer in
     let s := register_peer (info now peer_id "StatusPeer") None (test_state key) in
     exists peer, (get_peer peer_id s).1 = Some peer /\ pi_peer_id peer = peer_id /\
       pi_status peer = 0 /\ peer_status_str (pi_status peer) = "ONLINE"%string);
  proves "test_get_peer_status_nonexistent" (forall key,
     (get_peer "nonexistent" (test_state key)).1 = None);
  proves "test_lookup_peer" (forall key peer now,
     let peer_id := test_peer_id peer in
     let s := register_peer (info now peer_id "LookupUser") None (test_state key) in
     exists entry, snd <$> (snd <$> list_find (fun kv : string * PeerEntry =>
         pi_display_name (pe_info kv.2) = "LookupUser"%string) (lru_iter (peers s))) = Some entry /\
       pi_peer_id (pe_info entry) = peer_id /\ pi_display_name (pe_info entry) = "LookupUser"%string);
  proves "test_lookup_peer_case_insensitive" (forall key peer now,
     let peer_id := test_peer_id peer in
     let s := register_peer (info now peer_id "CaseUser") None (test_state key) in
     exists r, rest_lookup_peer "caseuser" s = Ok r /\ lk_peer_id r = peer_id);
  proves "test_lookup_peer_not_found_requires_auth" (forall key clk,
     exists r s, oneshot clk None (Rq_LookupPeer "Nobody") (test_state key) = Some (r, s) /\ status r = 401)
].

(** The token that [create_jwt] makes for a peer, with the expiry of the server. *)
Definition issued (now : Z) (s : Server) (peer_id token : string) : Prop :=
  create_jwt Checked now (srv_key s) peer_id (jwt_expiry_secs (srv_config s)) = Some (Ok token).

Definition server_jwt_tests : Suite := [
  proves "test_register_peer_issues_valid_jwt" (forall key peer now, sane now ->
     let peer_id := test_peer_id peer in
     let s := register_peer (info now peer_id "JWTUser") None (test_state key) in
     exists token claims, issued now s peer_id token /\
       verify_jwt now (verifying_key (srv_key s)) token = Ok claims /\ claim_sub claims = peer_id);
  proves "test_jwt_expired_token_rejected" (forall key peer now, sane now ->
     let s := test_state key in
     let peer_id := test_peer_id peer in
     exists token, raw_token (srv_key s)
       {| claim_sub := peer_id; claim_iat := now - 200; claim_exp := now - 100; claim_nbf := now - 200;
          claim_pub_key := peer_id |} = Some token /\
       is_err (verify_jwt now (verifying_key (srv_key s)) token) = true);
  proves "test_jwt_wrong_key_rejected" (forall signing_key signing_key2 now, sane now ->
     refuses (verifying_key signing_key2) signing_key ->
     exists token, create_jwt Checked now signing_key "peer-wrong" 3600 = Some (Ok token) /\
       is_err (verify_jwt now (verifying_key signing_key2) token) = true);
  proves "test_jwt_missing_token_ws" (forall key now,
     let verifying_key := verifying_key (srv_key (test_state key)) in
     is_err (verify_jwt now verifying_key "") = true /\
     is_err (verify_jwt now verifying_key "not.a.valid.jwt") = true);
  proves "test_jwt_valid_token_accepted" (forall key peer now, sane now ->
     let s := test_state key in
     let peer_id := test_peer_id peer in
     exists token claims, create_jwt Checked now (srv_key s) peer_id 3600 = Some (Ok token) /\
       verify_jwt now (verifying_key (srv_key s)) token = Ok claims /\
       claim_sub claims = peer_id /\ claim_iat claims < claim_exp claims)
].

Definition middleware_tests : Suite := [
  proves "test_auth_middleware_requires_bearer" (forall key clk,
     exists r s, oneshot clk None Rq_Proxies (test_state key) = Some (r, s) /\ status r = 401);
  proves "test_auth_middleware_invalid_token" (forall key clk,
     exists r s, oneshot clk (Some "invalid.jwt.token"%string) Rq_Proxies (test_state key) = Some (r, s) /\
       status r = 401);
  proves "test_auth_middleware_valid_token" (forall key peer clk, sane (unix_secs clk) ->
     let peer_id := test_peer_id peer in
     let s := register_peer (info (unix_secs clk) peer_id "AuthTestPeer") None (test_state key) in
     exists token r s', issued (unix_secs clk) s peer_id token /\
       oneshot clk (Some token) Rq_Proxies s = Some (r, s') /\ status r = 200);
  proves "test_auth_update_peer_authorization" (forall key peer1 peer2 now, sane now ->
     let peer_id1 := test_peer_id peer1 in
     let peer_id2 := test_peer_id peer2 in
     let s := register_peer (info now peer_id2 "AuthPeer") None
                (register_peer (info now peer_id1 "AuthPeer") None (test_state key)) in
     peer_id1 <> peer_id2 ->
     exists token claims, issued now s peer_id1 token /\
       verify_jwt now (verifying_key (srv_key s)) token = Ok claims /\
       claim_sub claims = peer_id1 /\ claim_sub claims <> peer_id2)
].

Definition two_registrations : RateLimitConfig := {|
  cfg_calls := cfg_calls default_rate_limits;
  cfg_registrations := {| max_tokens := 2; refill_amount := 2; refill_interval_ms := 60000 |};
  cfg_ws_messages := cfg_ws_messages default_rate_limits;
  max_entries := max_entries default_rate_limits
|}.

(** [limiter.check_registration(peer_id).await] with the expected answer. *)
Definition checks (peer_id : string) (allowed : bool) : Step RateLimiter := fun r =>
  let?o (r', a) := limiter_check 0 peer_id Action_Registration r in
  if a ≟ allowed then Some r' else None.

Definition limit_and_ip_tests : Suite := [
  test "test_rate_limit_registration" (body (limiter_new two_registrations) [
     checks "rl-peer" true; checks "rl-peer" true; checks "rl-peer" false]);
  test "test_rate_limit_config_values" (let default := default_rate_limits in asserts [
     max_tokens (cfg_registrations default) ≟ 6; max_tokens (cfg_calls default) ≟ 10;
     max_tokens (cfg_ws_messages default) ≟ 30]);
  test "test_extract_client_ip_ipv4" (
     extract_client_ip (V4 [192; 168; 1; 100] 12345) ≟ ("192.168.1.100"%string, 12345, 4));
  test "test_extract_client_ip_ipv6" (
     let '(ip, port, version) := extract_client_ip (V6 [0x2001; 0xdb8; 0; 0; 0; 0; 0; 1] 0 54321) in
     asserts [version ≟ 6; port ≟ 54321; contains (as_bytes "2001:db8") (as_bytes ip)]);
  test "test_extract_client_ip_loopback" (
     extract_client_ip (V4 [127; 0; 0; 1] 8080) ≟ ("127.0.0.1"%string, 8080, 4))
].

Definition proxies_tests : Suite := [
  proves "test_get_proxies_requires_auth" (forall key clk,
     exists r s, oneshot clk None Rq_Proxies (test_state key) = Some (r, s) /\ status r = 401);
  proves "test_get_proxies_empty_with_auth" (forall key peer clk, sane (unix_secs clk) ->
     let s := test_state key in
     exists token s', issued (unix_secs clk) s (test_peer_id peer) token /\
       oneshot clk (Some token) Rq_Proxies s = Some (Resp_Proxies [], s'));
  proves "test_get_proxies_with_data" (forall key peer clk, sane (unix_secs clk) ->
     let s := add_proxy
       {| px_node_id := "proxy-1"; px_proxy_url := "https://proxy.example.com:443"; px_capacity := 100;
          px_region := "us-east"; px_latency_hint_ms := 50 |} (test_state key) in
     exists token p s', issued (unix_secs clk) s (test_peer_id peer) token /\
       oneshot clk (Some token) Rq_Proxies s = Some (Resp_Proxies [p], s') /\
       per_node_id p = "proxy-1"%string /\ per_proxy_url p = "https://proxy.example.com:443"%string /\
       per_capacity p = 100 /\ per_region p = "us-east"%string)
].

(** The server of the two tests of proxy tokens: caller and callee are registered. *)
Definition with_both (now : Z) (key peer callee : SigningKey) : Server :=
  register_peer (info now (test_peer_id callee) "Callee") None
    (register_peer (info now (test_peer_id peer) "Caller") None (test_state key)).

Definition proxy_token_tests : Suite := [
  proves "test_issue_proxy_token_with_auth" (forall key peer callee clk, sane (unix_secs clk) ->
     let s := with_both (unix_secs clk) key peer callee in
     exists token r s', issued (unix_secs clk) s (test_peer_id peer) token /\
       oneshot clk (Some token) (Rq_ProxyToken (test_peer_id peer) (test_peer_id callee)) s
         = Some (Resp_ProxyToken r, s') /\ ptr_ttl_seconds r = 60);
  proves "test_issue_proxy_token_requires_auth" (forall key peer callee clk,
     let s := with_both (unix_secs clk) key peer callee in
     exists r s', oneshot clk None (Rq_ProxyToken (test_peer_id peer) (test_peer_id callee)) s
       = Some (r, s') /\ status r = 401)
].

Definition with_bootstrap_nodes (nodes : list string) (c : VoIPConfig) : VoIPConfig := {|
  path_probe_count := path_probe_count c; path_probe_timeout_ms := path_probe_timeout_ms c;
  nat_cache_ttl_secs := nat_cache_ttl_secs c; path_refresh_count := path_refresh_count c;
  nat_delta_variance_threshold := nat_delta_variance_threshold c;
  prediction_margin_sequential := prediction_margin_sequential c;
  prediction_margin_pseudo := prediction_margin_pseudo c;
  prediction_max_probes := prediction_max_probes c;
  quic_connect_timeout_ms := quic_connect_timeout_ms c;
  quic_prediction_timeout_ms := quic_prediction_timeout_ms c;
  quic_idle_timeout_ms := quic_idle_timeout_ms c; quic_alpn := quic_alpn c;
  discovery_privacy_first := discovery_privacy_first c;
  dht_lookup_timeout_ms := dht_lookup_timeout_ms c;
  dht_bootstrap_nodes := nodes; dht_record_ttl_secs := dht_record_ttl_secs c;
  push_retry_enabled := push_retry_enabled c;
  push_retry_initial_delay_secs := push_retry_initial_delay_secs c;
  push_retry_max_attempts := push_retry_max_attempts c;
  push_retry_backoff_multiplier := push_retry_backoff_multiplier c;
  masque_fallback_enabled := masque_fallback_enabled c;
  masque_discovery_timeout_ms := masque_discovery_timeout_ms c;
  masque_connect_timeout_ms := masque_connect_timeout_ms c;
  masque_max_proxy_attempts := masque_max_proxy_attempts c;
  masque_proxy_enabled := masque_proxy_enabled c;
  masque_proxy_max_sessions := masque_proxy_max_sessions c;
  call_ring_timeout_ms := call_ring_timeout_ms c;
  call_connect_timeout_ms := call_connect_timeout_ms c;
  migration_path_timeout_ms := migration_path_timeout_ms c;
  migration_max_reprobes := migration_max_reprobes c;
  rate_limit_calls_per_min := rate_limit_calls_per_min c;
  rate_limit_registrations_per_min := rate_limit_registrations_per_min c;
  rate_limit_ws_messages_per_sec := rate_limit_ws_messages_per_sec c;
  jwt_expiry_secs := jwt_expiry_secs c; signaling_server_ips := signaling_server_ips c;
  session_ticket_ttl_secs := session_ticket_ttl_secs c;
  moq_feedback_interval_ms := moq_feedback_interval_ms c;
  ws_idle_timeout_secs := ws_idle_timeout_secs c
|}.

Definition two_nodes : VoIPConfig :=
  with_bootstrap_nodes ["/ip4/10.0.0.1/udp/443/quic-v1/p2p/QmNode1";
                        "/ip4/10.0.0.2/udp/443/quic-v1/p2p/QmNode2"]%string default_config.

Definition bootstrap_tests : Suite := [
  proves "test_dht_bootstrap_requires_auth" (forall key clk,
     exists r s, oneshot clk None Rq_DhtBootstrap (test_state key) = Some (r, s) /\ status r = 401);
  proves "test_dht_bootstrap_with_auth" (forall key peer clk, sane (unix_secs clk) ->
     let s := test_state key in
     exists token s', issued (unix_secs clk) s (test_peer_id peer) token /\
       oneshot clk (Some token) Rq_DhtBootstrap s = Some (Resp_DhtBootstrap [], s'));
  proves "test_dht_bootstrap_with_nodes" (forall key peer clk, sane (unix_secs clk) ->
     let s := ss_state (build key (voip_config two_nodes (listen_addr "0.0.0.0:0" builder_new))) in
     exists token n0 n1 s', issued (unix_secs clk) s (test_peer_id peer) token /\
       oneshot clk (Some token) Rq_DhtBootstrap s = Some (Resp_DhtBootstrap [n0; n1], s') /\
       contains (as_bytes "QmNode1") (as_bytes n0) = true /\
       contains (as_bytes "QmNode2") (as_bytes n1) = true)
].

Definition error_tests : Suite := [
  test "test_error_unknown_peer_code_1001" (let err := Sig_UnknownPeer "nonexistent" in asserts [
     sig_code err ≟ SIG_UNKNOWN_PEER; http_status err ≟ 404;
     list_answer (Resp_Error err) ≟ Some (404, JObject [
       ("code"%string, JNumber SIG_UNKNOWN_PEER); ("message"%string, JString (sig_to_string err))])]);
  test "test_error_rate_limited_code_2001" (asserts [
     body (limiter_new two_registrations) [
       checks "rl-code-peer" true; checks "rl-code-peer" true; checks "rl-code-peer" false];
     sig_code Sig_RateLimited ≟ SIG_RATE_LIMITED; http_status Sig_RateLimited ≟ 429;
     list_answer (Resp_Error Sig_RateLimited) ≟ Some (429, JObject [
       ("code"%string, JNumber SIG_RATE_LIMITED);
       ("message"%string, JString (sig_to_string Sig_RateLimited))])]);
  test "test_error_code_values" (asserts [
     SIG_UNKNOWN_PEER ≟ 1001; SIG_PEER_OFFLINE ≟ 1002; SIG_INVALID_CALL_ID ≟ 1003;
     SIG_CALL_ALREADY_EXISTS ≟ 1004; SIG_NOT_CALL_PARTICIPANT ≟ 1005;
     SIG_PEER_ALREADY_REGISTERED ≟ 1006; SIG_RATE_LIMITED ≟ 2001; SIG_INVALID_JWT ≟ 2002;
     SIG_INVALID_MESSAGE ≟ 2003; SIG_UNAUTHORIZED ≟ 2004; SIG_MASQUE_NO_PROXY ≟ 3001;
     SIG_MASQUE_PROXY_TIMEOUT ≟ 3002; SIG_MASQUE_COORDINATION_FAILED ≟ 3003;
     SIG_PROXY_TOKEN_INVALID ≟ 3004; SIG_PROXY_TOKEN_EXPIRED ≟ 3005; SIG_INTERNAL_ERROR ≟ 9999])
].

Definition error_mapping_tests : Suite := [
  test "test_error_http_status_mapping" (asserts [
     http_status (Sig_UnknownPeer "test") ≟ 404; http_status (Sig_PeerOffline "test") ≟ 404;
     http_status Sig_RateLimited ≟ 429; http_status (Sig_InvalidJwt "test") ≟ 401;
     http_status (Sig_InvalidCallId "test") ≟ 400; http_status (Sig_CallAlreadyExists "test") ≟ 409;
     http_status (Sig_NotCallParticipant "test") ≟ 403; http_status Sig_MasqueNoProxy ≟ 503;
     http_status (Sig_Unauthorized "test") ≟ 401; http_status (Sig_PeerAlreadyRegistered "test") ≟ 409;
     http_status (Sig_ProxyTokenInvalid "test") ≟ 400; http_status (Sig_ProxyTokenExpired "test") ≟ 401;
     http_status (Sig_Internal "test") ≟ 500]);
  test "test_error_code_mapping" (asserts [
     sig_code (Sig_UnknownPeer "x") ≟ 1001; sig_code (Sig_PeerOffline "x") ≟ 1002;
     sig_code (Sig_InvalidCallId "x") ≟ 1003; sig_code (Sig_CallAlreadyExists "x") ≟ 1004;
     sig_code (Sig_NotCallParticipant "x") ≟ 1005; sig_code (Sig_PeerAlreadyRegistered "x") ≟ 1006;
     sig_code Sig_RateLimited ≟ 2001; sig_code (Sig_InvalidJwt "x") ≟ 2002;
     sig_code (Sig_InvalidMessage "x") ≟ 2003; sig_code (Sig_Unauthorized "x") ≟ 2004;
     sig_code Sig_MasqueNoProxy ≟ 3001; sig_code Sig_MasqueProxyTimeout ≟ 3002;
     sig_code Sig_MasqueCoordinationFailed ≟ 3003; sig_code (Sig_ProxyTokenInvalid "x") ≟ 3004;
     sig_code (Sig_ProxyTokenExpired "x") ≟ 3005; sig_code (Sig_Internal "x") ≟ 9999])
].

Definition relay_tests : Suite := [
  test "test_detect_masque_need_both_symmetric_random" (
     server_detect_masque_need NATType_SymmetricRandom NATType_SymmetricRandom false);
  test "test_detect_masque_not_needed_cone" (
     negb (server_detect_masque_need NATType_Cone NATType_Cone false));
  test "test_detect_masque_not_needed_ipv6" (
     negb (server_detect_masque_need NATType_None NATType_None false));
  test "test_detect_masque_not_needed_one_random_one_cone" (
     negb (server_detect_masque_need NATType_SymmetricRandom NATType_Cone false));
  test "test_detect_masque_not_needed_sequential" (
     negb (server_detect_masque_need NATType_SymmetricSequential NATType_SymmetricSequential false));
  test "test_detect_masque_not_needed_pseudo" (
     negb (server_detect_masque_need NATType_SymmetricPseudo NATType_SymmetricPseudo false));
  test "test_detect_masque_not_needed_mixed" (
     negb (server_detect_masque_need NATType_SymmetricPseudo NATType_SymmetricRandom false));
  test "test_detect_masque_need_udp_blocked" (asserts [
     server_detect_masque_need NATType_None NATType_None true;
     server_detect_masque_need NATType_Cone NATType_Cone true;
     server_detect_masque_need NATType_SymmetricRandom NATType_Cone true]);
  proves "test_masque_relay_no_proxy_available" (forall key clk chan_open,
     exists e s, send_relay_needed chan_open clk "call-1" "peer-a" "peer-b" (test_state key) = (Err e, s) /\
       sig_code e = SIG_MASQUE_NO_PROXY);
  proves "test_masque_select_proxy_returns_first" (forall key,
     let s := add_proxy {| px_node_id := "proxy-first"; px_proxy_url := "https://first.example.com";
                px_capacity := 50; px_region := "us-west"; px_latency_hint_ms := 30 |} (test_state key) in
     let s := add_proxy {| px_node_id := "proxy-second"; px_proxy_url := "https://second.example.com";
                px_capacity := 100; px_region := "eu-central"; px_latency_hint_ms := 80 |} s in
     px_node_id <$> select_proxy s = Some "proxy-first"%string);
  test "test_is_retryable_reason" (asserts [
     is_retryable_reason 3; is_retryable_reason 4; is_retryable_reason 7;
     negb (is_retryable_reason 0); negb (is_retryable_reason 1); negb (is_retryable_reason 2);
     negb (is_retryable_reason 5)])
].
End ServerTests.

(** ** All of them pass *)

Lemma closed_tests_pass :
  passes bucket_tests /\ passes detect_masque_tests /\ passes limit_and_ip_tests /\
  passes error_tests /\ passes error_mapping_tests.
Proof. split_and!; run_suite. Qed.

Section TokenFacts.
Context {S : SigScheme} {SL : SigLaws S} {J : JsonClaims} {JL : JsonLaws J}.

(** A token made by hand is judged by its claims. *)
Lemma raw_token_verified sk c : exists token, raw_token sk c = Some token /\ forall now,
  verify_jwt now (verifying_key sk) token =
  if claim_exp c <? now then Err (Sig_InvalidJwt "token expired")
  else if negb (bool_decide (claim_sub c = claim_pub_key c))
  then Err (Sig_InvalidJwt "sub claim does not match pub_key claim")
  else if now <? claim_nbf c then Err (Sig_InvalidJwt "token not yet valid")
  else Ok c.
Proof.
  unfold raw_token. destruct (json_serializes c) as [s Hs]. rewrite Hs.
  eexists; split; [reflexivity|]. intros now. unfold verify_jwt.
  rewrite split_token by auto with voip. rewrite bool_decide_eq_true_2 by done. cbn [negb].
  rewrite decode_part by auto with voip. cbn [ok_or result_bind].
  unfold zlen. rewrite sig_bytes_length. cbn [negb Z.eqb Z.of_nat Pos.of_succ_nat Pos.eqb Pos.succ].
  rewrite sig_from_to_bytes, !as_bytes_app. unfold base64url_encode.
  rewrite as_bytes_of_bytes by (apply base64url_bytes_ok; auto with voip).
  change (as_bytes ".") with [DOT]. rewrite verify_sign. cbn [negb].
  rewrite decode_part by auto with voip. cbn [ok_or result_bind].
  by rewrite (json_roundtrip _ _ Hs).
Qed.

Lemma refused_jwt vk sk now pid expiry token : refuses vk sk ->
  create_jwt Checked now sk pid expiry = Some (Ok token) -> is_err (verify_jwt now vk token) = true.
Proof.
  intros Hr Hc. unfold create_jwt in Hc. destruct (arith _ _ _) as [exp|]; [|done].
  destruct (json_to_string _) as [s|]; [|done]. injection Hc as <-. unfold verify_jwt.
  rewrite split_token by auto with voip. rewrite bool_decide_eq_true_2 by done. cbn [negb].
  rewrite decode_part by auto with voip. cbn [ok_or result_bind].
  case_goal; [done|]. rewrite sig_from_to_bytes, !as_bytes_app. unfold base64url_encode.
  rewrite as_bytes_of_bytes by (apply base64url_bytes_ok; auto with voip).
  change (as_bytes ".") with [DOT]. by rewrite Hr.
Qed.

(** A token for the hour that the tests and the server's configuration use. *)
Lemma hour_token now sk pid : sane now ->
  exists token, create_jwt Checked now sk pid 3600 = Some (Ok token) /\
    verify_jwt now (verifying_key sk) token =
    Ok {| claim_sub := pid; claim_iat := now; claim_exp := now + 3600; claim_nbf := now;
          claim_pub_key := pid |}.
Proof.
  unfold sane. intros Hn. destruct (create_jwt_ok Checked now sk pid 3600) as (t & Ht & Hv); [lia..|].
  exists t. split; [done|]. rewrite Hv, (proj2 (Z.ltb_ge _ _)), (proj2 (Z.ltb_ge now now)) by lia. done.
Qed.

Lemma jwt_tests_pass : passes jwt_tests /\ passes jwt_claims_tests.
Proof.
  split; run_suite.
  - intros sk now Hn. destruct (hour_token now sk (peer_id_from_public_key (verifying_key sk)) Hn)
      as (t & Ht & Hv). by do 2 eexists.
  - intros sk now Hn. cbn zeta. edestruct raw_token_verified as (t & Ht & Hv). exists t.
    split; [exact Ht|]. rewrite Hv. cbn [claim_exp]. by rewrite (proj2 (Z.ltb_lt _ _)) by lia.
  - intros sk1 sk2 now Hn. cbn zeta. intros Hr.
    destruct (hour_token now sk1 (peer_id_from_public_key (verifying_key sk1)) Hn) as (t & Ht & _).
    exists t. split; [done|]. by eapply refused_jwt.
  - done.
  - intros sk now Hn. cbn zeta. edestruct raw_token_verified as (t & Ht & Hv). exists t.
    split; [exact Ht|]. rewrite Hv. cbn [claim_exp claim_nbf claim_sub claim_pub_key].
    rewrite (proj2 (Z.ltb_ge _ _)), bool_decide_eq_true_2, (proj2 (Z.ltb_lt _ _)) by (done || lia).
    eexists. split; [reflexivity|by vm_compute].
  - intros sk now Hn. cbn zeta. edestruct raw_token_verified as (t & Ht & Hv). exists t.
    split; [exact Ht|]. rewrite Hv. cbn [claim_exp claim_nbf claim_sub claim_pub_key].
    rewrite (proj2 (Z.ltb_ge _ _)) by lia. rewrite bool_decide_eq_false_2; [done|].
    intros He. pose proof (peer_id_roundtrip sk []) as [Hl _]. cbn zeta in Hl. by rewrite <- He in Hl.
Qed.
End TokenFacts.

Section ServerFacts.
Context {S : SigScheme} {SL : SigLaws S} {L : Lru} {LL : LruLaws L} {I : LruIter L} {IL : LruIterLaws I}.
Context {C : Lowercase} {CL : LowercaseLaws C} {P : ServerProto} {J : JsonClaims} {JL : JsonLaws J}.

Lemma test_state_ok key : srv_ok (test_state key).
Proof. apply ok_server_new. Qed.

Lemma test_state_peers key : lru_map (peers (test_state key)) = ∅.
Proof. apply new_map. Qed.

(** A registration with room for it. *)
Lemma registered i s : srv_ok s -> (size (lru_map (peers s)) < 2)%nat ->
  exists e, pe_info e = i /\
    lru_map (peers (register_peer i None s)) = <[pi_peer_id i := e]> (lru_map (peers s)).
Proof.
  intros Hok Hsz. destruct (register_peers i s Hok) as (e & He & _ & [H|(_ & Hfull & _)]); [by exists e|].
  exfalso. unfold PEERS_CAP in Hfull. lia.
Qed.

Lemma registered_first i key : exists e, pe_info e = i /\
  lru_map (peers (register_peer i None (test_state key))) = {[pi_peer_id i := e]}.
Proof.
  destruct (registered i (test_state key)) as (e & He & Hm); [apply test_state_ok|by rewrite test_state_peers, map_size_empty; lia|].
  exists e. split; [done|]. by rewrite Hm, test_state_peers.
Qed.

Lemma registered_get i key : (get_peer (pi_peer_id i) (register_peer i None (test_state key))).1 = Some i.
Proof.
  destruct (registered_first i key) as (e & He & Hm). unfold get_peer. cbn [fst].
  rewrite Hm, lookup_singleton_eq. cbn. by rewrite He.
Qed.

(** The second of two registrations. *)
Lemma registered_second i j key : exists e e', pe_info e = i /\ pe_info e' = j /\
  lru_map (peers (register_peer j None (register_peer i None (test_state key)))) =
  <[pi_peer_id j := e']> {[pi_peer_id i := e]}.
Proof.
  destruct (registered_first i key) as (e & He & Hm).
  destruct (registered j (register_peer i None (test_state key))) as (e' & He' & Hm').
  - apply ok_register, test_state_ok.
  - rewrite Hm, map_size_singleton. lia.
  - exists e, e'. split; [done|]. split; [done|]. by rewrite Hm', Hm.
Qed.

Lemma test_peer_parses peer : exists pk, parse_peer_id (test_peer_id peer) = Ok pk.
Proof. eexists. apply (peer_id_roundtrip peer []). Qed.

Lemma fresh_check now pid :
  exists r, limiter_check now pid Action_Registration (limiter_new default_rate_limits) = Some (r, true).
Proof.
  unfold limiter_check, check_bucket. cbn [buckets registration_buckets limiter_new action_config
    limiter_config cfg_registrations default_rate_limits]. rewrite lookup_empty. cbn [default].
  unfold try_consume, refill, elapsed_ms, elapsed, saturating_sub. cbn [last_refill bucket_new].
  rewrite Z.sub_diag. by eexists.
Qed.

Lemma test_register key b pk clk : sane (unix_secs clk) -> parse_peer_id (req_peer_id b) = Ok pk ->
  exists r s, oneshot clk None (Rq_RegisterPeer b) (test_state key) = Some (Resp_Registered r, s) /\
    rpr_peer_id r = req_peer_id b.
Proof.
  intros Hn Hp. unfold oneshot, http_handle. cbn [route_request request_route].
  change (auth_middleware _ _ "/v1/peers" POST _) with (Ok (E := SignalingError) ""). cbv beta iota.
  unfold route_to, rest_register_peer. rewrite Hp.
  change (limiter (test_state key)) with (limiter_new default_rate_limits).
  destruct (fresh_check (instant clk) (req_peer_id b)) as [r ->]. cbn [negb].
  set (s1 := register_peer _ _ _).
  destruct (hour_token (unix_secs clk) (srv_key s1) (req_peer_id b) Hn) as (t & Ht & _).
  assert (same_rest (set_limiter r (test_state key)) s1) as (_ & _ & _ & _ & -> & _) by apply register_same.
  change (jwt_expiry_secs _) with 3600. rewrite Ht. by do 2 eexists.
Qed.

(** Private routes without a token, and with the token of a peer. *)
Lemma unauthenticated clk req s : documented_public (request_route req) = false ->
  exists r s', oneshot clk None req s = Some (r, s') /\ status r = 401.
Proof.
  intros Hp. rewrite <- route_public_spec in Hp. unfold oneshot, http_handle.
  destruct (route_request _) as [meth path]. cbn [fst snd] in Hp. unfold auth_middleware.
  rewrite Hp. by do 2 eexists.
Qed.

Lemma issued_exists now s pid : sane now -> srv_config s = default_config -> exists token,
  issued now s pid token /\ exists c, verify_jwt now (verifying_key (srv_key s)) token = Ok c /\
    claim_sub c = pid /\ claim_iat c < claim_exp c.
Proof.
  intros Hn Hc. unfold issued. rewrite Hc. change (jwt_expiry_secs default_config) with 3600.
  destruct (hour_token now (srv_key s) pid Hn) as (t & Ht & Hv). exists t. split; [done|].
  eexists. split; [exact Hv|]. cbn. split; [done|lia].
Qed.

Lemma authenticated clk req s token c : documented_public (request_route req) = false ->
  verify_jwt (unix_secs clk) (verifying_key (srv_key s)) token = Ok c ->
  oneshot clk (Some token) req s = route_to Checked clk (V4 [127; 0; 0; 1] 1) (claim_sub c) req s.
Proof.
  intros Hp Hv. rewrite <- route_public_spec in Hp. unfold oneshot, http_handle.
  destruct (route_request _) as [meth path]. cbn [fst snd] in Hp. unfold auth_middleware.
  rewrite Hp. cbn [option_map ok_or result_bind]. rewrite as_bytes_app, strip_prefix_app.
  cbn [ok_or result_bind]. by rewrite string_of_as_bytes, Hv.
Qed.

Lemma register_tests_pass : passes register_tests.
Proof.
  run_suite.
  - intros key peer clk Hn. destruct (test_peer_parses peer) as [pk Hp].
    by apply (test_register key (request (test_peer_id peer) "TestPeer") pk).
  - intros key clk. by do 2 eexists.
  - intros key peer clk Hn. destruct (test_peer_parses peer) as [pk Hp]. cbn zeta.
    edestruct test_register as (r & s & Hr & Hid); [done| |exists r, s; split; [exact Hr|exact Hid]]. exact Hp.
  - intros key key2 peer clk Hn. destruct (test_peer_parses peer) as [pk Hp]. cbn zeta.
    destruct (test_register key (request (test_peer_id peer) "RePeer") pk clk Hn Hp) as (r & s & -> & _).
    destruct (test_register key2 (request (test_peer_id peer) "RePeerUpdated") pk clk Hn Hp) as (r2 & s2 & -> & _).
    by do 4 eexists.
Qed.

Lemma absent k key : (get_peer k (test_state key)).1 = None.
Proof. unfold get_peer. cbn [fst]. by rewrite test_state_peers. Qed.

Lemma peer_state_tests_pass : passes peer_state_tests.
Proof.
  run_suite.
  - intros key peer now. cbn zeta. set (i := info _ _ _). set (j := {| pi_peer_id := _ |}).
    destruct (registered_second i j key) as (e & e' & _ & He' & Hm).
    exists j. unfold get_peer. cbn [fst]. rewrite Hm. cbn. by rewrite lookup_insert_eq, <- He'.
  - intros key. by rewrite absent.
  - intros key peer now. cbn zeta. set (i := info _ _ _). change (test_peer_id peer) with (pi_peer_id i).
    rewrite registered_get. split; [by eexists|]. unfold get_peer. cbn [fst].
    rewrite unregister_peers. cbn [peers set_peers snd]. by rewrite lookup_delete_eq.
  - intros key. unfold unregister_peer. by rewrite test_state_peers.
  - intros key peer now. cbn zeta. set (i := {| pi_peer_id := _ |}).
    exists i. change (test_peer_id peer) with (pi_peer_id i). by rewrite registered_get.
  - intros key. cbn zeta. by rewrite absent.
Qed.

(** The iterator of a registry with one entry. *)
Lemma iter_singleton i key : exists e, pe_info e = i /\
  lru_iter (peers (register_peer i None (test_state key))) = [(pi_peer_id i, e)].
Proof.
  destruct (registered_first i key) as (e & He & Hm). exists e. split; [done|].
  pose proof (iter_entries (peers (register_peer i None (test_state key)))) as Hp.
  rewrite Hm, map_to_list_singleton in Hp. by apply Permutation_singleton_r in Hp.
Qed.

Lemma lookup_tests_pass : passes lookup_tests.
Proof.
  run_suite.
  - intros key peer now. cbn zeta. set (i := info _ _ _). change (test_peer_id peer) with (pi_peer_id i).
    exists i. by rewrite registered_get.
  - intros key. apply absent.
  - intros key peer now. cbn zeta. set (i := info _ _ _). destruct (iter_singleton i key) as (e & He & ->).
    exists e. cbn [list_find snd]. rewrite He. by rewrite decide_True by done.
  - intros key peer now. cbn zeta. set (i := info _ _ _). destruct (iter_singleton i key) as (e & He & Hi).
    unfold rest_lookup_peer. rewrite Hi. cbn [list_find snd]. rewrite decide_True; [by eexists; split; [reflexivity|cbn; by rewrite He]|].
    rewrite He, !lowercase_ascii; [by vm_compute|..]; vm_compute as_bytes; repeat constructor; lia.
  - intros key clk. by apply unauthenticated.
Qed.

Lemma register_config i key : srv_config (register_peer i None (test_state key)) = default_config.
Proof. by destruct (register_same i None (test_state key)) as (_ & _ & _ & _ & -> & _). Qed.

Lemma server_jwt_tests_pass : passes server_jwt_tests.
Proof.
  run_suite.
  - intros key peer now Hn. cbn zeta. set (i := info _ _ _).
    destruct (issued_exists now (register_peer i None (test_state key)) (test_peer_id peer) Hn)
      as (t & Ht & c & Hc & Hs & _); [apply register_config|].
    by exists t, c.
  - intros key peer now Hn. cbn zeta. edestruct raw_token_verified as (t & Ht & Hv). exists t.
    split; [exact Ht|]. rewrite Hv. cbn [claim_exp]. by rewrite (proj2 (Z.ltb_lt _ _)) by lia.
  - intros sk sk2 now Hn Hr. destruct (hour_token now sk "peer-wrong" Hn) as (t & Ht & _).
    exists t. split; [done|]. by eapply refused_jwt.
  - done.
  - intros key peer now Hn. cbn zeta.
    destruct (issued_exists now (test_state key) (test_peer_id peer) Hn) as (t & Ht & c & Hc); [done|].
    by exists t, c.
Qed.


(** A request with the token the server issues to a peer. *)
Lemma authorized_request clk req s pid : sane (unix_secs clk) -> srv_config s = default_config ->
  documented_public (request_route req) = false ->
  exists token, issued (unix_secs clk) s pid token /\
    oneshot clk (Some token) req s = route_to Checked clk (V4 [127; 0; 0; 1] 1) pid req s.
Proof.
  intros Hn Hc Hp. destruct (issued_exists (unix_secs clk) s pid Hn Hc) as (t & Ht & c & Hv & <- & _).
  exists t. split; [done|]. by apply authenticated.
Qed.

Lemma middleware_tests_pass : passes middleware_tests.
Proof.
  run_suite.
  - intros key clk. by apply unauthenticated.
  - intros key clk. by do 2 eexists.
  - intros key peer clk Hn. cbn zeta. set (s := register_peer _ _ _).
    destruct (authorized_request clk Rq_Proxies s (test_peer_id peer) Hn) as (t & Ht & Hr);
      [apply register_config|done|]. exists t. do 2 eexists. split; [exact Ht|]. by rewrite Hr.
  - intros key peer1 peer2 now Hn. cbn zeta. intros Hne. set (s := register_peer _ _ (register_peer _ _ _)).
    destruct (issued_exists now s (test_peer_id peer1) Hn) as (t & Ht & c & Hv & Hs & _).
    + assert (same_rest (register_peer (info now (test_peer_id peer1) "AuthPeer") None (test_state key)) s)
        as (_ & _ & _ & _ & -> & _) by apply register_same. apply register_config.
    + exists t, c. by rewrite Hs.
Qed.

Lemma proxies_tests_pass : passes proxies_tests.
Proof.
  run_suite.
  - intros key clk. by apply unauthenticated.
  - intros key peer clk Hn. cbn zeta.
    destruct (authorized_request clk Rq_Proxies (test_state key) (test_peer_id peer) Hn) as (t & Ht & Hr);
      [done..|]. exists t. eexists. by rewrite Hr.
  - intros key peer clk Hn. cbn zeta. set (s := add_proxy _ _).
    destruct (authorized_request clk Rq_Proxies s (test_peer_id peer) Hn) as (t & Ht & Hr); [done..|].
    exists t. do 2 eexists. split; [exact Ht|]. rewrite Hr. split; [reflexivity|]. done.
Qed.

Lemma proxy_token_tests_pass : passes proxy_token_tests.
Proof.
  run_suite.
  - intros key peer callee clk Hn. cbn zeta. set (s := with_both _ _ _ _).
    destruct (authorized_request clk (Rq_ProxyToken (test_peer_id peer) (test_peer_id callee)) s
                (test_peer_id peer) Hn) as (t & Ht & Hr); [|done|].
    + assert (same_rest (register_peer (info (unix_secs clk) (test_peer_id peer) "Caller") None
        (test_state key)) s) as (_ & _ & _ & _ & -> & _) by apply register_same. apply register_config.
    + exists t. rewrite Hr. unfold route_to, rest_issue_proxy_token, get_peer.
      destruct (registered_second (info (unix_secs clk) (test_peer_id peer) "Caller")
        (info (unix_secs clk) (test_peer_id callee) "Callee") key) as (e & e' & _ & _ & Hm).
      cbn [pi_peer_id info] in Hm. fold (with_both (unix_secs clk) key peer callee) in Hm. fold s in Hm.
      cbn [peers set_peers]. rewrite promote_map, Hm.
      assert (exists x, (<[test_peer_id callee := e']> {[test_peer_id peer := e]} : gmap string PeerEntry)
        !! test_peer_id peer = Some x) as [x Hx].
      { destruct (decide (test_peer_id callee = test_peer_id peer)) as [->|Hne];
          [rewrite lookup_insert_eq; by eexists|].
        rewrite lookup_insert_ne, lookup_singleton_eq by done. by eexists. }
      rewrite Hx, lookup_insert_eq. cbn. do 2 eexists. split; [exact Ht|]. by split; [reflexivity|].
  - intros key peer callee clk. by apply unauthenticated.
Qed.

Lemma bootstrap_tests_pass : passes bootstrap_tests.
Proof.
  run_suite.
  - intros key clk. by apply unauthenticated.
  - intros key peer clk Hn. cbn zeta.
    destruct (authorized_request clk Rq_DhtBootstrap (test_state key) (test_peer_id peer) Hn)
      as (t & Ht & Hr); [done..|]. exists t. eexists. by rewrite Hr.
  - intros key peer clk Hn. cbn zeta. set (s := ss_state _).
    destruct (hour_token (unix_secs clk) (srv_key s) (test_peer_id peer) Hn) as (t & Ht & Hv).
    exists t. do 3 eexists. split; [exact Ht|].
    rewrite (authenticated clk Rq_DhtBootstrap s t _ eq_refl Hv). split; [reflexivity|]. by vm_compute.
Qed.

Lemma relay_tests_pass : passes relay_tests.
Proof.
  run_suite.
  - intros key clk chan_open. by do 2 eexists.
  - done.
Qed.
End ServerFacts.
