(* ===== verification/TestsDht.v ===== *)
(** * The unit tests of the DHT records

    The test module of [voip-dht/src/record.rs], for every key, clock and codec. *)

From S2P Require Import Prelude UnitTest Types Config Crypto Wire RustStr Proxy DhtRecord.

Local Open Scope Z_scope.
Local Open Scope rust_scope.
Local Open Scope test_scope.

(** A time at which the additions of the tests do not reach the end of [u64]. *)
Definition sane_time (now : Z) : Prop := 0 <= now < 2 ^ 63.

Section Tests.
Context {S : SigScheme} {H : Sha256} `{P : Prost ProtoPeerRecord} `{PX : Prost ProxyRecord}.

Definition record_tests : Suite := [
  proves "test_peer_record_sign_verify" (forall signing_key now, sane_time now ->
     let verifying_key := verifying_key signing_key in
     let record := new_unsigned now "test-peer-id" "TestUser" ["::1"%string] ["1.2.3.4:5000"%string]
                     None [] DhtPeer_Online 3600 in
     is_err (record_verify verifying_key record) = true /\
     let record := record_sign signing_key record in
     is_ok (record_verify verifying_key record) = true /\ is_expired Checked now record = Some false);
  proves "test_username_record_sign_verify" (forall signing_key,
     let record := record_sign signing_key (username_new "alice" "peer-123") in
     is_ok (record_verify (verifying_key signing_key) record) = true);
  proves "test_proxy_record_sign_verify" (forall signing_key now, sane_time now ->
     let record := proxy_new_unsigned now "node-456" "https://proxy.example.com:443/masque" 10 "us-west"
                     50 3600 "AB:CD:EF" in
     let record := record_sign signing_key record in
     is_ok (record_verify (verifying_key signing_key) record) = true /\
     proxy_is_expired Checked now record = Some false);
  proves "test_peer_record_roundtrip" (forall signing_key now,
     let record := new_unsigned now "test-peer" "Alice" ["2001:db8::1"%string] ["10.0.0.1:5000"%string]
       (Some {| dni_nat_type := DhtNat_Cone; dni_prediction := None |})
       [{| dt_track_namespace := "voip/test/audio/opus-48k"; dt_codec := "opus-48k"; dt_priority := 0;
           dt_media_type := DhtMedia_Audio; dt_bitrate_max := 64000; dt_bitrate_min := 6000;
           dt_frame_duration_ms := 20 |}] DhtPeer_Online 3600 in
     let record := record_sign signing_key record in
     exists decoded, record_decode (record_encode record) = Ok decoded /\
       peer_id decoded = "test-peer"%string /\ display_name decoded = "Alice"%string /\
       ipv6_addresses decoded = ["2001:db8::1"%string] /\ length (tracks decoded) = 1%nat /\
       signature decoded = signature record)
].

(** The hash of two different texts differs, and is 32 bytes long, where a test relies on it. *)
Definition record_key_tests : Suite := [
  proves "test_key_derivation_deterministic" (
     sha256 (as_bytes "voip:alice") <> sha256 (as_bytes "voip:bob") ->
     peer_record_key "alice" = peer_record_key "alice" /\ peer_record_key "alice" <> peer_record_key "bob");
  proves "test_sha256_key_derivation" (
     (forall l, length (sha256 l) = 32%nat) ->
     length (peer_record_key "test-peer") = 32%nat /\
     peer_record_key "test-peer" = sha256 (as_bytes "voip:test-peer"));
  proves "test_sign_verify_proto_peer_record" (forall signing_key now,
     let proto_record :=
       {| ppr_peer_id := "proto-test"; ppr_display_name := "ProtoTest";
          ppr_ipv6_addresses := ["::1"%string]; ppr_ipv4_reflexive := []; ppr_nat_info := None;
          ppr_tracks := []; ppr_status := as_i32 PEER_ONLINE; ppr_timestamp := now;
          ppr_ttl_seconds := 3600; ppr_signature := [] |} in
     verify_peer_record (sign_peer_record proto_record signing_key) (verifying_key signing_key) = Ok true);
  proves "test_sign_verify_proto_proxy_record" (forall signing_key now,
     let proto_record :=
       {| pr_node_id := "proxy-node"; pr_proxy_url := "https://proxy.example.com:443/masque";
          pr_capacity := 10; pr_region := "us-west"; pr_latency_hint_ms := 50; pr_timestamp := now;
          pr_ttl_seconds := 3600; pr_cert_fingerprint := "AB:CD:EF"; pr_signature := [] |} in
     verify_proxy_record (sign_proxy_record proto_record signing_key) (verifying_key signing_key) = Ok true);
  proves "test_sign_verify_standalone_username_record" (forall signing_key other_key,
     let record := username_new "bob" "peer-789" in
     is_err (verify_username_record record (verifying_key signing_key)) = true /\
     let record := sign_username_record record signing_key in
     ur_signature record <> [] /\
     verify_username_record record (verifying_key signing_key) = Ok true /\
     (verify_sig (verifying_key other_key) (signing_input record) (sig_from_bytes (ur_signature record))
        = false ->
      verify_username_record record (verifying_key other_key) = Ok false))
].
End Tests.

(** ** All of them pass *)

Section Facts.
Context {S : SigScheme} {L : SigLaws S} {H : Sha256}.
Context `{P : Prost ProtoPeerRecord} {PL : ProstLaws ProtoPeerRecord} `{PX : Prost ProxyRecord}.

Lemma not_expired now ttl : sane_time now -> 0 <= ttl < 2 ^ 32 -> expired Checked now now ttl = Some false.
Proof.
  intros Hn Ht. unfold sane_time in Hn. unfold expired. rewrite arith_in_range by lia.
  by rewrite (proj2 (Z.ltb_ge _ _)) by lia.
Qed.

(** A signed record of any kind under any key. *)
Lemma signed_standalone {R} `{D : Signed R} {DL : SignedLaws R} key vk sk (r : R) :
  verify_standalone key vk (record_sign sk r) =
  Ok (verify_sig vk (signing_input (record_sign sk r)) (sig_from_bytes (get_sig (record_sign sk r)))).
Proof.
  unfold verify_standalone, record_sign. rewrite !get_set_sig, !input_set_sig.
  assert (zlen (sig_to_bytes (sign sk (signing_input r))) = 64) as ->
    by (unfold zlen; rewrite sig_bytes_length; done). done.
Qed.

Lemma signed_accepted {R} `{D : Signed R} {DL : SignedLaws R} key sk (r : R) :
  verify_standalone key (verifying_key sk) (record_sign sk r) = Ok true.
Proof.
  rewrite signed_standalone. unfold record_sign. rewrite get_set_sig, input_set_sig.
  by rewrite sig_from_to_bytes, verify_sign.
Qed.

Lemma record_tests_pass : passes record_tests /\ passes record_key_tests.
Proof.
  split; run_suite.
  - intros sk now Hn. split; [done|]. cbn zeta. rewrite record_sign_verify. split; [done|].
    unfold is_expired. cbn [rec_timestamp ttl_seconds record_sign set_sig PeerRecord_signed with_signature new_unsigned].
    by apply not_expired.
  - intros sk. cbn zeta. by rewrite record_sign_verify.
  - intros sk now Hn. cbn zeta. rewrite record_sign_verify. split; [done|].
    by apply not_expired.
  - intros sk now. cbn zeta. unfold record_decode, record_encode. rewrite prost_roundtrip.
    cbn [ok_or result_bind]. rewrite from_to_proto. by eexists.
  - intros Hd. split; [done|exact Hd].
  - intros Hs. split; [apply Hs|done].
  - intros sk now. apply signed_accepted.
  - intros sk now. apply signed_accepted.
  - intros sk other. split; [done|]. cbn zeta. split_and!.
    + intros E. apply (f_equal length) in E. cbn in E. by rewrite sig_bytes_length in E.
    + apply signed_accepted.
    + intros Hr. unfold verify_username_record, sign_username_record in *. rewrite signed_standalone. by f_equal.
Qed.
End Facts.
