(* ===== verification/TestsIntegration.v ===== *)
(** * The integration tests of [voip-client]

    [voip-client/tests/integration.rs]: the call flows of the roadmap on the call state machine
    together with the decisions of the other crates.  The test that two connection identifiers
    differ compares two random values and is left out. *)

From S2P Require Import Prelude UnitTest Types Config CallState Crypto Masque TestsCore.

Local Open Scope Z_scope.
Local Open Scope test_scope.

(** [DiscoveryMethod as i32]: the enum has no explicit discriminants. *)
Definition discovery_discriminant (d : DiscoveryMethod) : Z :=
  match d with Discovery_Dht => 0 | Discovery_Signaling => 1 | Discovery_Cache => 2 end.

(** [assert!(sm.method().unwrap().p())] *)
Definition method_is (p : ConnectionMethod -> bool) : Step CallStateMachine :=
  holds (fun c => if method c is Some m then p m else false).

(** [assert!] on a value that is not the machine *)
Definition claim (b : bool) : Step CallStateMachine := holds (fun _ => b).

Definition call_flow_tests : Suite := [
  test "test_5_1_ipv6_direct_connection" (body (csm_new 3) [
     ok OpRing; ok OpAccept; ok (OpConnect Conn_Ipv6Direct); holds is_connected;
     method_is is_direct; ok (OpEnd End_Normal)]);
  test "test_5_2_cone_nat_simultaneous_open" (body (csm_new 3) [
     ok OpRing; ok OpAccept; ok (OpConnect Conn_Ipv4Cone); holds is_connected;
     method_is is_direct]);
  test "test_5_3_symmetric_sequential_port_prediction" (body (csm_new 3) [
     claim (NATType_is_predictable NATType_SymmetricSequential);
     ok OpRing; ok OpAccept; ok (OpConnect Conn_Ipv4Prediction); holds is_connected]);
  test "test_5_4_symmetric_random_honest_failure" (body (csm_new 3) [
     claim (negb (NATType_is_predictable NATType_SymmetricRandom));
     claim (detect_masque_need NATType_SymmetricRandom NATType_SymmetricRandom false);
     ok OpRing; ok OpAccept; ok (OpFail End_FailedIpv4Random);
     claim (should_retry End_FailedIpv4Random); ok OpRetry; retried 1]);
  test "test_5_5_udp_blocked_masque_http2" (body (csm_new 3) [
     claim (detect_masque_need NATType_Cone NATType_Cone true);
     ok OpRing; ok OpAccept; ok (OpConnect Conn_MasqueHttp2); method_is is_relayed]);
  test "test_5_6_mixed_ipv6_ipv4_symmetric" (body (csm_new 3) [
     claim (NATType_is_no_nat NATType_None);
     ok OpRing; ok OpAccept; ok (OpConnect Conn_Ipv6Direct); holds is_connected])
].

Definition flow_outcome_tests `{S : SigScheme} : Suite := [
  test "test_5_7_dht_discovery_methods" (asserts [
     discovery_discriminant Discovery_Dht ≟ 0; discovery_discriminant Discovery_Signaling ≟ 1;
     discovery_discriminant Discovery_Cache ≟ 2]);
  proves "test_5_8_signaling_blocked_dht_fallback" (forall seed,
     let (signing_key, pk) := generate_ed25519_keypair seed in
     let data := as_bytes "dht-record" in
     str_len (peer_id_from_public_key pk) = 64 /\
     verify_dht_record pk data (sign_dht_record signing_key data) = true);
  test "test_5_9_connection_migration" (body (csm_new 3) [
     ok OpRing; ok OpAccept; ok (OpConnect Conn_Ipv6Direct); holds is_connected;
     ok (OpFail End_MigrationFailed); holds is_terminal]);
  test "test_5_10_masque_fallback_chain" (asserts [
     forallb is_direct [Conn_Ipv6Direct; Conn_Ipv4Cone; Conn_Ipv4Prediction];
     forallb is_relayed [Conn_Masque; Conn_MasqueHttp2]]);
  test "test_5_11_5_12_nat_cache_ttl" (let config := default_config in asserts [
     nat_cache_ttl_secs config ≟ 300; sequential_prediction_range config 50000 ≟ (49997, 50003)]);
  test "test_5_13_call_rejection" (body (csm_new 3) [
     ok OpRing; ok OpReject; holds is_terminal; has_reason (Some End_Rejected)]);
  test "test_5_14_masque_tunnel_recovery" (body (csm_new 3) [
     ok OpRing; ok OpAccept; ok (OpConnect Conn_Masque); ok (OpFail End_FailedMasqueUnreachable);
     claim (should_retry End_FailedMasqueUnreachable); ok OpRetry])
].

Definition retry_mapping_tests : Suite := [
  test "test_full_retry_chain_with_backoff" (let config := default_config in asserts [
     retry_delay_secs Checked config 1 ≟ Some 5; retry_delay_secs Checked config 2 ≟ Some 15;
     retry_delay_secs Checked config 3 ≟ Some 45]);
  test "test_error_to_call_end_reason_mapping" (asserts [
     to_call_end_reason QuicHandshakeTimeout ≟ End_Timeout;
     to_call_end_reason NatRandomBothSides ≟ End_FailedIpv4Random;
     to_call_end_reason UdpBlocked ≟ End_FailedUdpBlocked;
     to_call_end_reason TcpBlocked ≟ End_FailedTcpBlocked;
     to_call_end_reason MigrationFailed ≟ End_MigrationFailed])
].

Lemma integration_tests_pass {S : SigScheme} {L : SigLaws S} :
  passes call_flow_tests /\ passes flow_outcome_tests /\ passes retry_mapping_tests.
Proof.
  split_and!; run_suite. intros seed. cbn.
  destruct (peer_id_roundtrip (sk_from_bytes seed) (as_bytes "dht-record")) as (Hl & _ & Hv).
  by split.
Qed.
