(* ===== verification/TestsMedia.v ===== *)
(** * The unit tests of the audio path

    The test modules of [audio.rs] and [pipeline.rs], for any Opus library: a value the test
    unwraps is one the library returned.  The tests that measure the sound the library produces
    (energy, packet sizes, bandwidth) are about that library and are left out. *)

From S2P Require Import Prelude UnitTest Types Config Moq Audio Pipeline.

Local Open Scope Z_scope.
Local Open Scope test_scope.

Definition with_dtx_fec (dtx fec : bool) (c : OpusConfig) : OpusConfig := {|
  sample_rate := sample_rate c; channels := channels c; application := application c;
  bitrate := bitrate c; bitrate_min := bitrate_min c; frame_duration_ms := frame_duration_ms c;
  fec := fec; dtx := dtx; complexity := complexity c; frame_size := frame_size c
|}.

Section Suites.
Context `{O : Opus}.

(** The packets of the library have at least one byte. *)
Hypothesis packet_not_empty : forall st pcm room packet st',
  opus_encode st pcm room = (Ok packet, st') -> packet <> [].

Definition codec_input_tests : Suite := [
  proves "test_encode_wrong_frame_size" (forall e, encoder_new OpusConfig_default = Ok e ->
     fst (encode_vec (replicate 100 0) e) = Err (InvalidFrameSize 100));
  proves "test_encode_zero_samples" (forall e, encoder_new OpusConfig_default = Ok e ->
     is_err (fst (encode_vec [] e)) = true);
  proves "test_encode_buffer_too_small" (forall e pcm,
     encoder_new OpusConfig_default = Ok e -> zlen pcm = 960 ->
     is_err (fst (opus_encoder_encode pcm 10 e)) = true);
  proves "test_decode_buffer_too_small" (forall c c' pcm encoded,
     codec_new OpusConfig_default = Ok c -> zlen pcm = 960 ->
     codec_encode_vec pcm c = (Ok encoded, c') ->
     is_err (fst (codec_decode encoded 10 false c')) = true)
].

Definition codec_config_tests : Suite := [
  test "test_opus_config_default" (let config := OpusConfig_default in asserts [
     sample_rate config ≟ 48000; channels config ≟ 1; frame_duration_ms config ≟ 20;
     frame_size config ≟ 960; fec config; dtx config; complexity config ≟ 10]);
  proves "test_packets_per_second" (forall e, encoder_new OpusConfig_default = Ok e ->
     packets_per_second e = Some 50);
  proves "test_encoder_dtx_fec_flags" (forall e e',
     encoder_new OpusConfig_default = Ok e ->
     encoder_new (with_dtx_fec false false OpusConfig_default) = Ok e' ->
     dtx (enc_config e) = true /\ fec (enc_config e) = true /\
     dtx (enc_config e') = false /\ fec (enc_config e') = false)
].

Definition pipeline_encode_tests : Suite := [
  test "test_audio_priority" (asserts [audio_priority ≟ 0; audio_priority ≟ PRIORITY_AUDIO]);
  proves "test_pipeline_encode_frame" (forall p p' pcm d,
     pipeline_new default_config 42 99 = Ok p -> zlen pcm = 960 ->
     encode_frame pcm p = (Ok d, p') ->
     datagram_type d = 0x01 /\ track_alias d = 42 /\ sequence d = 0 /\ timestamp d = 0 /\
     payload d <> []);
  proves "test_pipeline_encode_multiple_frames" (forall p p' frames ds,
     pipeline_new default_config 42 99 = Ok p -> length frames = 5%nat ->
     Forall (fun pcm => zlen pcm = 960) frames ->
     encode_frames frames p = Some (ds, p') ->
     map sequence ds = [0; 1; 2; 3; 4] /\ map timestamp ds = [0; 960; 1920; 2880; 3840])
].

Definition pipeline_size_tests : Suite := [
  proves "test_pipeline_encode_wrong_frame_size" (forall p,
     pipeline_new default_config 42 99 = Ok p ->
     is_err (fst (encode_frame (replicate 100 0) p)) = true)
].

Definition pipeline_order_tests : Suite := [
  proves "test_pipeline_datagram_sequence_monotonic" (forall p p' pcm ds,
     pipeline_new default_config 42 99 = Ok p -> zlen pcm = 960 ->
     encode_frames (replicate 20 pcm) p = Some (ds, p') -> Sorted Z.le (map sequence ds));
  proves "test_pipeline_timestamp_increments_by_frame_size" (forall p p1 p2 pcm d0 d1,
     pipeline_new default_config 42 99 = Ok p -> zlen pcm = 960 ->
     encode_frame pcm p = (Ok d0, p1) -> encode_frame pcm p1 = (Ok d1, p2) ->
     timestamp d0 = 0 /\ timestamp d1 = 960);
  proves "test_pipeline_track_aliases" (forall p, pipeline_new default_config 42 99 = Ok p ->
     local_track_alias p = 42 /\ remote_track_alias p = 99)
].

(** ** All of them pass *)

Lemma new_encoder_config c e : encoder_new c = Ok e -> enc_config e = c.
Proof. intros H. by apply encoder_settings in H as [? _]. Qed.

(** What the tests of the pipeline start from. *)
Lemma new_pipeline config a b p : pipeline_new config a b = Ok p ->
  enc_config (encoder p) = OpusConfig_default /\ next_sequence p = 0 /\ next_timestamp p = 0 /\
  local_track_alias p = a /\ remote_track_alias p = b.
Proof.
  unfold pipeline_new, from_voip_config. destruct (encoder_new _) as [e|] eqn:E; [|done].
  destruct (decoder_new _); [|done]. cbn. intros [= <-]. cbn.
  by rewrite (new_encoder_config _ _ E).
Qed.

Lemma encode_frame_datagram pcm p d p' : encode_frame pcm p = (Ok d, p') ->
  datagram_type d = 1 /\ track_alias d = local_track_alias p /\ payload d <> [].
Proof using packet_not_empty.
  unfold encode_frame, encode_vec. destruct (_ <? _); [done|]. destruct (_ <? _); [done|].
  destruct (opus_encode _ _ _) as [[packet|] s] eqn:E; cbn; intros H; simplify_eq/=.
  by apply packet_not_empty in E.
Qed.

Lemma new_codec_decoder c k : codec_new c = Ok k -> dec_config (codec_decoder k) = c.
Proof.
  unfold codec_new, decoder_new. destruct (encoder_new c); [|done].
  destruct (opus_decoder_new _ _); [|done]. by intros [= <-].
Qed.

(** Sequence numbers and timestamps of a run that does not wrap. *)
Lemma encode_frames_timestamps frames p ds p' :
  enc_config (encoder p) = OpusConfig_default ->
  encode_frames frames p = Some (ds, p') ->
  0 <= next_timestamp p -> next_timestamp p + 960 * zlen frames < 2 ^ 64 ->
  map timestamp ds = map (fun i => next_timestamp p + 960 * i) (seqZ 0 (zlen frames)).
Proof using Type.
  revert p ds. induction frames as [|pcm frames IH]; intros p ds Hc; simpl; [by intros [= <- <-]|].
  destruct (encode_frame pcm p) as [[d|e] p1] eqn:E1; [|done].
  destruct (encode_frames frames p1) as [[ds' p2]|] eqn:E2; [|done].
  intros [= <- <-] H0 Hl. rewrite zlen_cons in *. pose proof (zlen_nonneg frames).
  apply encode_frame_ok in E1 as (_ & Hd & _ & Ht & Hc'). rewrite Hc in Ht, Hc'.
  cbn [frame_size OpusConfig_default] in Ht. rewrite cast_small in Ht by lia.
  simpl. rewrite (IH p1 ds' Hc' E2) by lia. rewrite Ht, Hd, (seqZ_cons _ (1 + _)) by lia.
  cbn [map]. f_equal; [lia|]. replace (Z.pred (1 + zlen frames)) with (zlen frames) by lia.
  assert (seqZ (Z.succ 0) (zlen frames) = Z.add 1 <$> seqZ 0 (zlen frames)) as ->.
  { by rewrite fmap_add_seqZ. }
  rewrite map_map. apply map_ext. lia.
Qed.

Lemma codec_tests_pass : passes codec_input_tests /\ passes codec_config_tests.
Proof using Type.
  split; run_suite.
  - intros e He. unfold encode_vec. by rewrite (new_encoder_config _ _ He).
  - intros e He. unfold encode_vec. by rewrite (new_encoder_config _ _ He).
  - intros e pcm He Hl. unfold opus_encoder_encode. by rewrite (new_encoder_config _ _ He), Hl.
  - intros c c' pcm encoded Hc _ Hv. apply new_codec_decoder in Hc.
    assert (codec_decoder c' = codec_decoder c) as Hd.
    { revert Hv. unfold codec_encode_vec, on_encoder. case_goal. by intros [= _ <-]. }
    unfold codec_decode, on_decoder, decoder_decode, run_decoder. by rewrite Hd, Hc.
  - intros e He. unfold packets_per_second. by rewrite (new_encoder_config _ _ He).
  - intros e e' He He'. by rewrite (new_encoder_config _ _ He), (new_encoder_config _ _ He').
Qed.

Lemma pipeline_encode_tests_pass : passes pipeline_encode_tests.
Proof using packet_not_empty.
  run_suite.
  - intros p p' pcm d Hp _ He. apply new_pipeline in Hp as (_ & Hs & Ht & Ha & _).
    destruct (encode_frame_datagram _ _ _ _ He) as (? & ? & ?).
    destruct (encode_frame_ok _ _ _ _ He) as (? & ? & _). split_and!; congruence.
  - intros p p' frames ds Hp Hn _ He. apply new_pipeline in Hp as (Hc & Hs & Ht & _).
    assert (zlen frames = 5) as Hz by (unfold zlen; lia).
    rewrite (encode_frames_sequences _ _ _ _ He), (encode_frames_timestamps _ _ _ _ Hc He)
      by lia.
    by rewrite Hs, Ht, Hz.
Qed.

Lemma pipeline_tests_pass : passes pipeline_size_tests /\ passes pipeline_order_tests.
Proof using Type.
  split; run_suite.
  - intros p Hp. apply new_pipeline in Hp as (Hc & _). unfold encode_frame. by rewrite Hc.
  - intros p p' pcm ds Hp _ He. apply new_pipeline in Hp as (_ & Hs & _).
    rewrite (encode_frames_sequences _ _ _ _ He), Hs by (rewrite ?Hs; done).
    unfold zlen. rewrite length_replicate. vm_compute seqZ. repeat constructor; lia.
  - intros p p1 p2 pcm d0 d1 Hp _ H0 H1. apply new_pipeline in Hp as (Hc & _ & Ht & _).
    apply encode_frame_ok in H0 as (_ & Hd0 & _ & Ht1 & _).
    apply encode_frame_ok in H1 as (_ & Hd1 & _). by rewrite Hd0, Hd1, Ht1, Ht, Hc.
  - intros p Hp. by apply new_pipeline in Hp as (_ & _ & _ & ? & ?).
Qed.
End Suites.
