(* ===== verification/TestsCli.v ===== *)
(** * The unit tests of the command line client's identities

    The test modules of [voip-cli/src/identity.rs] and the key tests of [voip-client/src/peer.rs],
    for any signature scheme and for a [hex] crate that writes two lower-case digits per byte.
    The test that two random identities differ, the tests of the JSON of a request (which are
    about [serde_json]) and the one that binds a socket are left out. *)

From S2P Require Import Prelude UnitTest Types Config Crypto RustStr RustNet Wire RateLimit Lru Jwt.
From S2P Require Import Server Session Rest Cli.

Local Open Scope Z_scope.
Local Open Scope test_scope.

Section Suites.
Context {S : SigScheme} {SL : SigLaws S} {X : HexCrate} {XL : HexLaws X} {I : IdentityJson}
  {IL : IdentityJsonLaws I}.

(** What the [hex] crate and [serde_json] document. *)
Hypothesis hex_is_lower : forall l, bytes_ok l -> hex_enc l = hex_encode l.
Hypothesis not_json : identity_from_json "not json" = None.

Definition identity_valid_tests : Suite := [
  proves "test_identity_generate_produces_valid_keys" (forall seed,
     let id := generate seed in
     str_len (id_peer_id id) = 64 /\ str_len (id_signing_key id) = 64 /\
     str_len (id_verifying_key id) = 64 /\
     exists sk vk, identity_signing_key id = Ok sk /\ identity_verifying_key id = Ok vk /\
       id_peer_id id = hex_enc (vk_to_bytes vk) /\
       vk_to_bytes (verifying_key sk) = vk_to_bytes vk)
].

(** Of the roundtrip test the checks on the text of the file are left to [serde_json]. *)
Definition identity_file_tests : Suite := [
  proves "test_identity_save_and_load_roundtrip" (forall seed d,
     let original := generate seed in
     let d := identity_save original d in
     is_some (identity_file d) = true /\ identity_load d = Ok original);
  test "test_identity_load_missing_file_errors" (is_err (identity_load no_files));
  proves "test_identity_load_corrupt_json_errors" (
     is_err (identity_load {| identity_file := Some "not json"%string; jwt_file := None |}) = true);
  proves "test_identity_signing_key_decodes" (forall seed,
     let id := generate seed in
     let msg := as_bytes "hello world" in
     exists sk vk, identity_signing_key id = Ok sk /\ identity_verifying_key id = Ok vk /\
       verify_sig vk msg (sign sk msg) = true)
].

(** A signing key keeps its 32 bytes.  The mismatch test takes for granted that the public key of
    the zero seed is not the one the test makes up. *)
Definition peer_identity_tests : Suite := [
  proves "test_peer_identity_from_bytes_roundtrip" (
     let sk_bytes := seqZ 0 32 in
     let id := from_bytes sk_bytes in
     sk_to_bytes (sk_from_bytes sk_bytes) = sk_bytes ->
     str_len (pid_peer_id id) = 64 /\ zlen (vk_to_bytes (pid_verifying_key id)) = 32 /\
     sk_to_bytes (pid_signing_key id) = sk_bytes);
  proves "test_peer_identity_from_hex_rejects_mismatched_keys" (
     let sk_hex := hex_encode (replicate 32 0) in
     let wrong_vk_hex := hex_encode (replicate 32 255) in
     vk_to_bytes (verifying_key (sk_from_bytes (replicate 32 0))) <> replicate 32 255 ->
     from_hex sk_hex wrong_vk_hex = Err KeyMismatch);
  proves "test_peer_identity_from_hex_accepts_matched_keys" (forall seed,
     let (sk, vk) := generate_ed25519_keypair seed in
     exists id, from_hex (hex_enc (sk_to_bytes sk)) (hex_enc (vk_to_bytes vk)) = Ok id /\
       pid_peer_id id = peer_id_from_public_key vk)
].

(** ** All of them pass *)

Lemma generated_keys seed :
  identity_signing_key (generate seed) = Ok (sk_from_bytes seed) /\
  identity_verifying_key (generate seed) = Ok (verifying_key (sk_from_bytes seed)).
Proof using SL XL.
  unfold identity_signing_key, identity_verifying_key.
  cbn [generate generate_ed25519_keypair id_signing_key id_verifying_key].
  rewrite !key_bytes_enc by eauto using sk_bytes_ok, sk_bytes_length, vk_bytes_ok, vk_bytes_length.
  cbn. by rewrite sk_from_to_bytes, vk_from_to_bytes.
Qed.

Lemma identity_valid_tests_pass : passes identity_valid_tests.
Proof using All.
  run_suite. intros seed. destruct (generated_keys seed) as [Hs Hv].
  destruct (peer_id_facts (sk_from_bytes seed)) as [Hl _].
  assert (forall l, bytes_ok l -> length l = 32%nat -> str_len (hex_enc l) = 64) as Hlen.
  { intros l Hb Hn. rewrite hex_is_lower, hex_encode_length by done. unfold zlen. by rewrite Hn. }
  cbn zeta. split_and!; [done|by apply Hlen; [apply sk_bytes_ok|apply sk_bytes_length]|
    by apply Hlen; [apply vk_bytes_ok|apply vk_bytes_length]|].
  do 2 eexists. split_and!; [exact Hs|exact Hv|by rewrite hex_is_lower by apply vk_bytes_ok|done].
Qed.

Lemma identity_file_tests_pass : passes identity_file_tests.
Proof using SL XL IL not_json.
  run_suite.
  - intros seed d. cbn zeta. split; [done|]. unfold identity_load. cbn -[generate].
    by rewrite identity_json_roundtrip.
  - unfold identity_load. cbn. by rewrite not_json.
  - intros seed. destruct (generated_keys seed) as [Hs Hv]. cbn zeta.
    do 2 eexists. split_and!; [exact Hs|exact Hv|apply verify_sign].
Qed.

Lemma peer_identity_tests_pass : passes peer_identity_tests.
Proof using All.
  run_suite.
  - cbn zeta. intros Hr. destruct (peer_id_facts (sk_from_bytes (seqZ 0 32))) as [Hl _].
    split_and!; [done|unfold zlen; by rewrite vk_bytes_length|done].
  - cbn zeta. intros Hne. unfold from_hex.
    assert (forall b, 0 <= b < 256 -> bytes_ok (replicate 32 b)) as Hb
      by (intros; by apply Forall_replicate).
    rewrite <- (hex_is_lower (replicate 32 0)), key_bytes_enc by (by try apply Hb).
    cbn [result_bind].
    rewrite hex_is_lower by apply vk_bytes_ok. rewrite bool_decide_false; [done|].
    intros Heq. apply Hne. apply (f_equal hex_decode) in Heq.
    rewrite !hex_roundtrip in Heq by (apply vk_bytes_ok || by apply Hb). congruence.
  - intros seed. cbn [generate_ed25519_keypair]. unfold from_hex.
    rewrite key_bytes_enc by eauto using sk_bytes_ok, sk_bytes_length. cbn [result_bind].
    rewrite sk_from_to_bytes, bool_decide_true by done. eexists. split; [done|].
    cbn. by rewrite sk_from_to_bytes.
Qed.
End Suites.
